(* ===== verification/_CoqProject ===== *)
-Q . S2P
Prelude.v
GoLib.v
Api.v
GnmicTypes.v
Placement.v
Distribute.v
Ports.v
TargetConfigs.v
OutputConfigs.v
PlanBuilder.v
KubeClient.v
Discovery.v
MessageProcessor.v
Sse.v
StatusClient.v
TargetState.v
ClusterClient.v
Resolve.v
Watch.v
ClusterPlan.v
PipelineStatus.v
Kube.v
Names.v
Services.v
Certificates.v
Workload.v
PodApi.v
ClusterReconcile.v
HttpMapper.v
HttpLoader.v
TargetSourceCtl.v
SourceDiscovery.v
Webhooks.v
StreamLoop.v
Dns.v
ApiServer.v
Progress.v
Convergence.v
Manager.v
GoHeap.v
DeepCopy.v
EndToEnd.v
SourceToPods.v
