(* ===== verification/Prelude.v ===== *)
(** * The gNMIc operator: a verified model of its core

    The operator runs clusters of gNMIc collectors on Kubernetes.  Users write
    Targets, TargetProfiles, Subscriptions, Outputs, Inputs, Processors and
    TunnelTargetPolicies, select them in Pipelines, and attach Pipelines to Clusters;
    TargetSources discover Targets from outside.  For each Cluster the operator
    resolves its Pipelines, builds one plan, distributes the plan's targets over the
    pods of a StatefulSet and sends every pod its part; the pods report the state of
    their targets back through an event stream, and the operator writes it into the
    status of the Targets.

    This library translates that path from the Go code under [src/] into executable
    definitions and proves what each part is relied on for.

    ** Files

    - [Prelude], [GoLib]: the error type and its monad ([res], [(value, error)]), the
      loops ([foldl_res] for a loop that returns at the first error), what Go leaves
      unspecified ([GoRuntime]: the order of [range] over a map and of equal elements
      in [sort.Slice]), and the parts of [strings], [strconv], [net], [sort] and
      [hash/fnv] the code calls, on byte strings and with machine widths written out.
    - [Api] ([api/v1alpha1/*_types.go]), [GnmicTypes] ([internal/gnmic/types.go]): one
      record per Go struct.  Pointers are options, maps are [gmap]s, durations and
      times are integers; object metadata is cut to what the operator reads.
    - [Placement] ([internal/gnmic/placement.go], [placement_blrh.go]): bounded-load
      rendezvous hashing of targets to pods.
    - [Distribute] ([internal/gnmic/distribute.go]): a plan to one plan per pod.
    - [Ports] ([assignPorts] of [internal/gnmic/plan.go]): listen ports by double
      hashing into a pool of prime size.
    - [TargetConfigs] ([target.go], [tunneltarget.go], [subscription.go], [tls.go]) and
      [OutputConfigs] ([output.go], [input.go], [processor.go]): resource specs to
      gNMIc configuration.
    - [PlanBuilder] ([internal/gnmic/plan.go]): the relationships between resources and
      the loop that builds the plan, pipeline by pipeline.
    - [ClusterClient], [Resolve], [Watch], [ClusterPlan]
      ([internal/controller/cluster_controller.go]): the informer cache as an interface
      with laws; the resources a pipeline references or selects; the mapping from a
      changed resource to the clusters to reconcile; and the part of [Reconcile] that
      turns a cluster into its plan.
    - [PipelineStatus] (the same file, and [pipeline_controller.go]): the status the
      cluster controller computes and writes for a pipeline, and what the pipeline
      controller writes over it.
    - [Kube]: the objects the cluster controller owns, the monad its code runs in ([io]:
      a world to a world and a result), the API server as an interface with laws
      ([KubeApi], [ApiLaws]), and one concrete server.
    - [Names], [Services], [Certificates], [Workload], [PodApi], [ClusterReconcile]
      ([internal/controller/cluster_controller.go], [cluster_controller_plan.go],
      [const.go]): names and labels; the headless, tunnel and Prometheus services; the
      certificates and the controller's CA; the base configuration, the ConfigMap and
      the StatefulSet; the HTTP calls to the pods; and [Reconcile] itself, with the
      finalizer, the plan cache and the cluster's status.
    - [KubeClient], [Discovery], [MessageProcessor] ([internal/controller/discovery]):
      the API client as an interface with laws; discovery messages and their chunking;
      and the processor that turns messages into Target resources.
    - [Sse], [StatusClient], [TargetState] ([internal/gnmic/sse.go],
      [internal/controller/targetstate_controller.go]): the event stream; an API server
      with optimistic concurrency and other writers; and the controller that reflects
      events and polls in the status of Targets and keeps one stream per pod.
      [StreamLoop] (the same files): the life of one stream, its goroutine, the reader of
      each connection and the channel between them.
    - [HttpMapper], [HttpLoader] ([discovery/loaders/http/mapper.go], [loader.go],
      [pagination.go], [auth.go], [ressource_fetcher.go]): JSON items to discovered
      targets; the pages of an endpoint and their links, authentication, the HTTP client
      and the polling loop.
    - [TargetSourceCtl], [SourceDiscovery]
      ([internal/controller/targetsource_controller.go], [discovery/loaders.go]): the
      controller that starts and stops the discovery of a source, and the system made of
      its queue, its runtimes and the other writers.
    - [Webhooks] ([internal/webhook/v1alpha1/*_webhook.go], [cmd/main.go]): the admission
      webhooks, their registration and the admission of requests.
    - [Dns] ([internal/gnmic/dns.go]), [ApiServer] ([internal/apiserver/apiserver.go]): the
      domain of the cluster out of resolv.conf; the operator's own HTTP API.
    - [Manager] ([SetupWithManager] of the controllers, [cmd/main.go],
      [tunneltargetpolicy_controller.go]): what each controller watches, with which
      predicates, and the requests an event of the API server puts in its queue; and the
      order in which the operator sets itself up.
    - [Progress], [Convergence]: when the reconciliation of a cluster returns, and with what;
      and how one leads to the next, with cert-manager and Kubernetes in between.
    - [GoHeap], [DeepCopy] ([api/v1alpha1/zz_generated.deepcopy.go]): pointers, slices and
      maps as references into a heap, the shapes of the API types, and their deep copies.
    - [EndToEnd], [SourceToPods]: from the Targets users select, and from the targets a source
      discovers, to the pods that collect from them.

    ** How state and effects are modelled

    The plan builder's functions change a plan they are passed; each is a function from
    the field it changes to its new value, and [Build] threads them through a record.
    The controllers act on an abstract world [W] through a class of operations, every
    call taking the world to a new one; laws state what the API server documents, and a
    concrete world instantiates them for the witnesses.  The cluster controller's own
    code is written in the [io] monad in the order of its calls; what it leaves alone is
    stated once for every call ([preserves], [touches S]: nothing outside the objects
    [S] changes) and carried through a program by the tactic [walk].  The plan cache and
    the ports of the Prometheus loop are states beside the world ([beside]).
    [MessageProcessor] is a record
    of the mutable fields; a run is a function of the inputs its channel delivers, and
    the context may end between any two calls.  In [TargetState] the other writers may
    move between any two calls ([env]), an update succeeds only on the current version
    of an object, and the interleavings of streams and reconciliations are a step
    relation ([cluster_step]).  A stream is a machine ([StreamLoop.step]) whose moves, the
    cases of [select], the inputs of the network and the timers, come in any order; a run
    is a list of moves.  The TargetSource controller runs in a monad ([Ctl]) that lets the
    goroutines it started move between any two of its steps, and [sys_step] adds the queue
    and the other writers.  Between two reconciliations of a cluster others act as
    [elsewhere] allows, and [within] counts the reconciliations until one has nothing left
    to do, for every choice of theirs.

    Recursion is structural but for four loops.  [forEachChunk] takes fuel, and
    [createDiscoverySnapshots_correct] shows that one unit per element and one more is
    enough; [buildSubscriptionConfig] recurses through named subscriptions and takes
    fuel 2, shown enough on any input because the recursive call passes no
    subscriptions; the pages of an endpoint take fuel, one unit per page and one more being
    enough when the links stay among finitely many ([pagination_terminates]; an endpoint
    that always names a fresh page is read for ever, [endless_pages]); conflict retries
    carry the code's own bound.

    ** What the theorems show

    - End to end: once a reconciliation has nothing left to do, the Targets the pipelines
      select are divided between the ready pods, but for those counted unassigned, and
      every pod with a part runs exactly that part ([selected_targets_collected]); a pod
      left without a part is told nothing and keeps what it ran.  And it gets there: with
      the cached resources fixed, whatever state its own objects are in, five
      reconciliations are enough, with the certificates asked for issued and the pods asked
      for started in between ([collects_within_five]), one when they are
      ([settled_cluster_collects]).  What a source discovers gets there too
      ([discovered_targets_collected]).
    - Placement and distribution: each target is on one pod or reported unassigned, pods
      stay within capacity, as many targets as fit are placed, targets move only when
      their pod is over capacity, redistribution is idempotent, and the outcome does not
      depend on what Go leaves unspecified ([placement_*], [distribute_*]); the hashing
      picks the best pod with room ([rendezvous_refines_best_pod]).
    - Plan: exactly the targets and subscriptions the pipelines ask for, with exactly
      the unions of their relations ([build_*_exact]); the recorded assignment is
      consistent; ports agree with the outputs' listen addresses; the build succeeds
      whenever its inputs parse ([build_total]).  Ports are distinct, in range and
      found whenever the pool suffices ([assignPorts_spec]).
    - Cluster: resolution is exact ([resolutions_exact], [processors_in_order]), the
      watches reconcile exactly the clusters it concerns ([watches_exact],
      [profile_watch_exact], [processor_watch_complete]), a cluster is queued by exactly the
      changes the documentation names, but for one it misses ([changes_requeue]), which
      controllers an update of a status alone queues ([status_writes_requeue]), the
      controllers are registered before the
      manager starts ([main_registers_first]), and the plan covers exactly
      what the pipelines select ([plan_covers_targets]).
    - Pipeline status: it says what the resolved data says, keeps transition times, and
      settles after one write ([pipeline_status_exact], [pipeline_status_settles]).
    - Cluster controller: a reconciliation with nothing left to do has the plan cached,
      the StatefulSet in line, all replicas ready and every pod with a part running it
      ([reconcile_converges]); it gets to its end, waiting only for certificates, pods or
      their configuration ([reconcile_completes]); pods that are not ready are left alone
      ([unready_pods_left_alone]); the finalizer goes last ([finalizer_after_cleanup]);
      the status says what happened ([cluster_status_exact]).  Of the parts: the
      Prometheus services, the certificates and the workload end up as wanted, within the
      limits their theorems state, and nothing else is touched
      ([prometheus_services_exact], [certificates_exact], [statefulset_in_step]); the
      StatefulSet is built well formed and, without the CSI driver, mounts every file the
      configurations name out of the secret or ConfigMap it belongs to
      ([statefulset_well_formed], [tls_files_mounted]); the pods get their part of the plan
      over a client that trusts the issuer ([apply_configures_pods], [client_trusts]).
    - Discovery: a chunked snapshot received in any order makes the Targets of a source
      exactly the discovered ones when no call is refused
      ([snapshot_protocol_converges]), and no source touches
      another's ([run_isolated]).  Items are mapped exactly ([mapping_exact]), an endpoint is
      read page by page to its end ([pagination_exact], [pagination_terminates]), and a poll
      makes the Targets those of the pages ([poll_converges]).  A TargetSource is started,
      stopped and left alone as it should be as long as its specification stays
      ([source_reconcile_exact]; a new one only stops it, [spec_change_not_restarted]),
      discovers what its endpoint lists ([source_discovers]) and has one runtime at a time
      ([one_runtime], under a condition that [late_cleanup_two_runtimes] shows is needed).
    - Admission: the webhooks refuse exactly the invalid specifications, subscriptions with
      a range of history aside ([admission_exact]), what is stored is valid ([stored_objects_valid]); which
      discovered targets are admitted ([discovered_admitted]) and which pipelines can work
      ([admitted_pipeline_ready]).
    - Target state: events land atomically and at most once ([handleEvent_atomic]),
      summaries stay right and clusters of different names stay apart in every interleaving
      ([summaries_preserved], [other_clusters_untouched]), polls and reconciliations
      leave exactly the entries of the pods that exist ([poll_entries_exact],
      [reconcile_drops_stale_pods]), each pod of a cluster has one stream
      ([Reconcile_streams]), and the stream's format round-trips as long as its lines fit
      ([streamBody_roundtrip]).  A stream handles the events of its connection in order
      ([stream_in_order]), waits as long as its failures say ([reconnect_delay]), stops when
      it is cancelled ([cancelled_stream_stops]) and does nothing to the server but the
      steps above ([stream_refines_steps]).
    - Memory: the generated deep copies share nothing with what they copy
      ([deepcopies_isolated]).
    - The domain the kubelet writes is read back ([cluster_domain_roundtrip]), and the API
      serves the plan cached last ([plan_served]).
    - Where the code departs from what it means to do, a theorem or an [Example] says so:
      [deferred_events_lost], [distribute_no_targets], [placement_not_balanced],
      [cross_pipeline_port_collision], [reapplied_target_counted_twice],
      [late_delete_erases_new_pod], [tunnel_profile_change_missed],
      [pipeline_status_contended], [prometheus_port_agrees],
      [headless_service_rewritten], [prometheus_names_collide],
      [tls_turned_on_later], [bundle_change_unnoticed], [same_identifier_race],
      [ready_stays_true], [observed_generation_stale], [cel_int_port_lost],
      [unreadable_link_drops_pages], [broken_link_panics], [endless_pages],
      [spec_change_not_restarted], [late_cleanup_two_runtimes], [status_conflict_stops],
      [history_check_inverted], [profile_stuck], [tunnel_port_may_collide],
      [event_dropped_at_end], [stopped_reader_leaks], [namespace_svc_misread],
      [tunnel_only_never_configured], [same_name_shares_entry].

    ** Parameters

    The YAML and JSON codecs, label selectors, the API client, the informer cache, the
    HTTP client, URLs, CEL, regular expressions, UUIDs, files, the environment and key
    pairs are arguments.  The informer cache
    is read at one content during a reconciliation; hypotheses on the others are the
    laws of [KubeClient], [StatusClient], [ClusterClient], [PipelineStatus], [Kube]
    ([ApiLaws]), [PodApi] ([PodLaws], [PodFrame]), [SourceDiscovery], [StreamLoop]
    ([StreamFrame]), [Manager] ([RuntimeLaws]: when the predicates of controller-runtime let
    an event through), [Progress] ([ApiServes], [PipelinesApart], [PodsAnswer]: a server
    that refuses nothing, and pods that answer) and [DeepCopy] ([ExternalLaws]: the copies of
    Kubernetes' own types are deep), each with an instance.  The laws of
    [Kube] are those of a server no one else writes to during the call; a deletion that
    succeeds leaves an object gone, or marked as being deleted and kept by its finalizers.
    [KubeClient] states two kinds of laws: [KubeLaws], which say what a call does that
    succeeds when the client's cache is current (up to the status, which other controllers
    write), and [Reliable], under which no call is refused; only the theorems that say so use the
    second.

    ** Not modelled

    Of [cmd/main.go], the parsing of the flags, the options of the TLS servers and the
    serving loops of the manager, the metrics and the API; of controller-runtime, the work
    queue beyond the requests that enter it.  Outside of [DeepCopy] every value is immutable,
    so a copy is the value, which [deepcopies_isolated] justifies for the objects the caches
    hand out; where the code forgets a copy (the plan in the cache) the aliasing is modelled
    where it happens.  Time passes only as a timer that may fire at any moment.  Logging is left out
    throughout; of an error only its class and, where it is read, its text are kept. *)

From Stdlib Require Export Lia ZArith.
From stdpp Require Export sorting pretty.
From stdpp Require Export base numbers fin_maps gmap strings list.

(** ** Errors and fallible computations *)

(** The error values the code tells apart: the API server's NotFound and
    Conflict ([apierrors.IsNotFound], [apierrors.IsConflict]), and any other
    error, of which the code only reads the text. *)
Inductive GoError : Type :=
| ErrNotFound
| ErrConflict
| ErrMsg (msg : string).

#[export] Instance GoError_eq_dec : EqDecision GoError.
Proof. solve_decision. Defined.

(** A Go function that returns [(value, error)]. *)
Inductive res (A : Type) : Type :=
| Ok (a : A)
| Err (e : GoError).
Arguments Ok {A} a.
Arguments Err {A} e.

#[export] Instance res_ret : MRet res := λ A a, Ok a.
#[export] Instance res_bind : MBind res := λ A B f r,
  match r with Ok a => f a | Err e => Err e end.
#[export] Instance res_fmap : FMap res := λ A B f r,
  match r with Ok a => Ok (f a) | Err e => Err e end.

Definition is_ok {A} (r : res A) : bool :=
  match r with Ok _ => true | Err _ => false end.

(** A computation that returns has returned at every step. *)
Lemma bind_Ok {A B} (r : res A) (f : A → res B) b :
  r ≫= f = Ok b ↔ ∃ a, r = Ok a ∧ f a = Ok b.
Proof. destruct r; cbn; naive_solver. Qed.

Lemma is_ok_spec {A} (r : res A) : is_ok r = true ↔ ∃ a, r = Ok a.
Proof. destruct r; cbn; naive_solver. Qed.

(** A Go loop that stops at the first error. *)
Fixpoint foldl_res {A B} (f : B → A → res B) (b : B) (l : list A) : res B :=
  match l with
  | [] => Ok b
  | a :: l' => match f b a with Ok b' => foldl_res f b' l' | Err e => Err e end
  end.

(** ** What Go leaves unspecified *)

(** Go fixes neither the order in which [range] visits a map, nor where
    [sort.Slice] puts elements its [less] does not order.  Every definition
    that depends on either is written over an instance of this class, so a
    theorem about it holds for every order the runtime may pick. *)
Class GoRuntime : Type := {
  go_range : ∀ {K V : Type} `{Countable K}, gmap K V → list (K * V);
  go_sort_slice : ∀ {A : Type}, (A → A → bool) → list A → list A;
  go_range_perm : ∀ {K V : Type} `{Countable K} (m : gmap K V),
    go_range m ≡ₚ map_to_list m;
  go_sort_slice_perm : ∀ {A : Type} (less : A → A → bool) (l : list A),
    go_sort_slice less l ≡ₚ l;
  go_sort_slice_sorted : ∀ {A : Type} (less : A → A → bool) (l : list A),
    (∀ x, less x x = false) →
    (∀ x y z, less x y = true → less y z = true → less x z = true) →
    (∀ x y z, less x y = false → less y z = false → less x z = false) →
    StronglySorted (λ x y, less y x = false) (go_sort_slice less l)
}.

(** One runtime, used to evaluate the model on concrete inputs. *)
Definition keyed_sort {A} (less : A → A → bool) : list A → list A :=
  @merge_sort A (λ x y, less y x = false) (λ x y, decide (less y x = false)).

(** [sort.Strings]: ascending byte order, where equal strings are equal. *)
Definition sort_strings (l : list string) : list string := merge_sort String.le l.

(** ** Generic lemmas *)

Lemma foldl_res_app {A B} (f : B → A → res B) b l1 l2 :
  foldl_res f b (l1 ++ l2) =
  match foldl_res f b l1 with Ok b' => foldl_res f b' l2 | Err e => Err e end.
Proof.
  revert b; induction l1 as [|a l1 IH]; intros b; cbn; [done|].
  destruct (f b a); [apply IH | done].
Qed.

(** An invariant of a loop that may fail. *)
Lemma foldl_res_inv {A B} (f : B → A → res B) (P : B → Prop) l b b' :
  P b →
  (∀ c a c', a ∈ l → P c → f c a = Ok c' → P c') →
  foldl_res f b l = Ok b' → P b'.
Proof.
  revert b; induction l as [|a l IH]; intros b Hb Hstep Heq; cbn in *; [by simplify_eq|].
  destruct (f b a) as [c|] eqn:E; [|done].
  eapply (IH c); [eapply Hstep; [left|done|done]| |done].
  intros; eapply Hstep; [right| |]; eauto.
Qed.

(** A loop whose body never fails is a plain fold. *)
Lemma foldl_res_ok {A B} (f : B → A → res B) (g : B → A → B) l b :
  (∀ c a, f c a = Ok (g c a)) → foldl_res f b l = Ok (foldl g b l).
Proof. intros H; revert b; induction l as [|a l IH]; intros b; cbn; [done|]; rewrite H; auto. Qed.

(** An invariant of a plain loop. *)
Lemma foldl_inv {A B} (f : B → A → B) (P : B → Prop) l b :
  P b → (∀ c a, a ∈ l → P c → P (f c a)) → P (foldl f b l).
Proof.
  revert b; induction l as [|a l IH]; intros b Hb Hstep; cbn; [done|].
  apply IH; [apply Hstep; [left|done] | intros; apply Hstep; [by right|done]].
Qed.

(** The same, when the invariant speaks of the elements done. *)
Lemma foldl_done {A B} (f : B → A → B) (P : list A → B → Prop) l b :
  P [] b → (∀ done c a rest, l = done ++ a :: rest → P done c → P (done ++ [a]) (f c a)) → P l (foldl f b l).
Proof.
  intros Hb Hstep. cut (∀ l2 done c, l = done ++ l2 → P done c → P l (foldl f c l2)); [intros H; by apply (H l [])|].
  induction l2 as [|a l2 IH]; intros done c -> Hc; cbn; [by rewrite app_nil_r|].
  apply (IH (done ++ [a])); [by rewrite <- app_assoc|]. by eapply Hstep.
Qed.

(** A component of the state of a loop that evolves on its own. *)
Lemma foldl_proj {A B C} (f : B → A → B) (g : C → A → C) (pr : B → C) l b :
  (∀ c a, pr (f c a) = g (pr c) a) → pr (foldl f b l) = foldl g (pr b) l.
Proof. intros H; revert b; induction l as [|a l IH]; intros b; cbn; [done|]. by rewrite IH, H. Qed.

Lemma foldl_res_proj {A B C} (f : B → A → res B) (g : C → A → res C) (pr : B → C) l b b' :
  (∀ c a c', f c a = Ok c' → g (pr c) a = Ok (pr c')) →
  foldl_res f b l = Ok b' → foldl_res g (pr b) l = Ok (pr b').
Proof.
  intros H; revert b; induction l as [|a l IH]; intros b; cbn; [by intros [= ->]|].
  destruct (f b a) as [c|] eqn:E; [|done]. rewrite (H _ _ _ E). apply IH.
Qed.

(** A loop each of whose steps succeeds under an invariant succeeds. *)
Lemma foldl_res_total {A B} (f : B → A → res B) (P : B → Prop) l b :
  P b → (∀ c a, a ∈ l → P c → ∃ c', f c a = Ok c' ∧ P c') →
  ∃ b', foldl_res f b l = Ok b' ∧ P b'.
Proof.
  revert b; induction l as [|a l IH]; intros b Hb H; cbn; [eauto|].
  destruct (H b a ltac:(by left) Hb) as (c & -> & Hc).
  apply IH; [done|]. intros; apply H; [by right|done].
Qed.

(** A loop that fails fails at one of its elements. *)
(** The elements of a loop that returned went well, those before the error too. *)
Lemma NoDup_fmap_key {A B} (f : A → B) l x y : NoDup (f <$> l) → x ∈ l → y ∈ l → f x = f y → x = y.
Proof.
  induction l as [|z l IH]; [by intros _ H%elem_of_nil|]. rewrite fmap_cons, NoDup_cons, !elem_of_cons.
  intros [Hz Hnd] [->|Hx] [->|Hy] E; [done|..|by apply IH].
  - destruct Hz. rewrite E. by apply list_elem_of_fmap_2.
  - destruct Hz. rewrite <-E. by apply list_elem_of_fmap_2.
Qed.

Lemma foldl_res_each {A B} (f : B → A → res B) l b b' :
  foldl_res f b l = Ok b' → ∀ a, a ∈ l → ∃ c c', f c a = Ok c'.
Proof.
  revert b; induction l as [|a l IH]; intros b; cbn [foldl_res]; [by intros _ x ?%elem_of_nil|].
  destruct (f b a) as [c|] eqn:E; [|done]. intros H x [->|Hx]%elem_of_cons; [by exists b, c|by eapply IH].
Qed.

Lemma foldl_res_first {A B} (f : B → A → res B) l b e :
  foldl_res f b l = Err e → ∃ before a after c, l = before ++ a :: after ∧ foldl_res f b before = Ok c ∧ f c a = Err e.
Proof.
  revert b; induction l as [|a l IH]; intros b; cbn [foldl_res]; [done|].
  destruct (f b a) as [c|e'] eqn:E.
  - intros (before & x & after & c' & -> & H1 & H2)%IH. exists (a :: before), x, after, c'. cbn [foldl_res]. by rewrite E.
  - intros [= ->]. by exists [], a, l, b.
Qed.

Lemma foldl_res_Err {A B} (f : B → A → res B) l b e :
  foldl_res f b l = Err e → ∃ c a, a ∈ l ∧ f c a = Err e.
Proof.
  revert b; induction l as [|a l IH]; intros b; cbn; [done|].
  destruct (f b a) as [c|e'] eqn:E; [|intros [= <-]; exists b, a; split; [by left|done]].
  intros (c' & a' & Ha & H)%IH. exists c', a'. split; [by right|done].
Qed.

Lemma bind_Err {A B} (r : res A) (f : A → res B) e :
  r ≫= f = Err e ↔ r = Err e ∨ ∃ a, r = Ok a ∧ f a = Err e.
Proof. destruct r; cbn; naive_solver. Qed.

(** What each element of a successful loop leaves true stays true. *)
Lemma foldl_res_visited {A B} (f : B → A → res B) (Q : A → B → Prop) l b b' :
  (∀ c a c', a ∈ l → f c a = Ok c' → Q a c') →
  (∀ c a a' c', a ∈ l → f c a = Ok c' → Q a' c → Q a' c') →
  foldl_res f b l = Ok b' → ∀ a, a ∈ l → Q a b'.
Proof.
  intros Hdo Hkeep. revert b; induction l as [|a l IH]; intros b; cbn; [set_solver|].
  destruct (f b a) as [c|] eqn:E; [|done]. intros Hl x [->|Hx]%elem_of_cons.
  - eapply (foldl_res_inv f (Q a)); [| |exact Hl].
    + eapply Hdo; [by left|exact E].
    + intros d y d' Hy Hd Hf. eapply Hkeep; [by right|exact Hf|exact Hd].
  - eapply IH; [..|exact Hl|exact Hx]; intros; [eapply Hdo|eapply Hkeep]; eauto; by right.
Qed.

Lemma sort_strings_perm l : sort_strings l ≡ₚ l.
Proof. apply merge_sort_Permutation. Qed.

Lemma elem_of_sort_strings x l : x ∈ sort_strings l ↔ x ∈ l.
Proof. by rewrite sort_strings_perm. Qed.

(** Sorting forgets the order it is given. *)
Lemma sort_strings_proper l1 l2 : l1 ≡ₚ l2 → sort_strings l1 = sort_strings l2.
Proof.
  intros Hp. eapply (StronglySorted_unique String.le).
  - apply (StronglySorted_merge_sort _).
  - apply (StronglySorted_merge_sort _).
  - by rewrite !sort_strings_perm.
Qed.

#[export] Instance sort_strings_Proper :
  Proper (Permutation ==> eq) sort_strings.
Proof. intros l1 l2. apply sort_strings_proper. Qed.

Lemma StronglySorted_mono {A} (P Q : relation A) l :
  (∀ x y, P x y → Q x y) → StronglySorted P l → StronglySorted Q l.
Proof. intros H. induction 1; constructor; [done|]. eapply Forall_impl; eauto. Qed.

Lemma StronglySorted_image {A B} (f : A → B) (P : relation B) l :
  StronglySorted (λ x y, P (f x) (f y)) l → StronglySorted P (f <$> l).
Proof. induction 1; cbn; constructor; [done|]. by apply Forall_fmap. Qed.

Lemma sublist_incl {A} (x : A) l1 l2 : sublist l1 l2 → x ∈ l1 → x ∈ l2.
Proof. intros Hs%sublist_submseteq Hx. by eapply elem_of_submseteq. Qed.

Lemma elem_of_take_l {A} (x : A) n l : x ∈ take n l → x ∈ l.
Proof. apply sublist_incl, sublist_take. Qed.

Lemma fmap_concat {A B} (f : A → B) (l : list (list A)) :
  f <$> concat l = concat (fmap (M := list) f <$> l).
Proof. induction l as [|x l IH]; cbn; [done|]. by rewrite fmap_app, IH. Qed.

Lemma forallb_false {A} (f : A → bool) l : forallb f l = false ↔ ∃ x, x ∈ l ∧ f x = false.
Proof.
  induction l as [|y l IH]; cbn; [set_solver|]. rewrite andb_false_iff, IH. set_solver.
Qed.

(** [List.find] returns the first hit. *)
Lemma find_first {A} (f : A → bool) l :
  match List.find f l with
  | Some x => ∃ i, l !! i = Some x ∧ f x = true ∧
                ∀ j y, (j < i)%nat → l !! j = Some y → f y = false
  | None => ∀ x, x ∈ l → f x = false
  end.
Proof.
  induction l as [|y l IH]; cbn; [set_solver|]. destruct (f y) eqn:E.
  - exists 0%nat. split_and!; [done|done|]. intros j z Hj. lia.
  - destruct (List.find f l) as [x|].
    + destruct IH as (i & Hi & Hx & Hb). exists (S i). split_and!; [done|done|].
      intros [|j] z Hj; cbn; [by intros [= <-]|]. apply Hb. lia.
    + intros x [->|Hx]%elem_of_cons; auto.
Qed.

Section Range.
Context `{R : GoRuntime} {K V : Type} `{Countable K}.

Lemma elem_of_go_range (m : gmap K V) k v : (k, v) ∈ go_range m ↔ m !! k = Some v.
Proof. by rewrite go_range_perm, elem_of_map_to_list. Qed.

Lemma NoDup_fst_go_range (m : gmap K V) : NoDup (go_range m).*1.
Proof. rewrite go_range_perm. apply NoDup_fst_map_to_list. Qed.

Lemma NoDup_go_range (m : gmap K V) : NoDup (go_range m).
Proof. rewrite go_range_perm. apply NoDup_map_to_list. Qed.

Lemma elem_of_go_range_keys (m : gmap K V) k : k ∈ (go_range m).*1 ↔ is_Some (m !! k).
Proof.
  rewrite list_elem_of_fmap. split.
  - intros [[k' v] [-> Hin]]. apply elem_of_go_range in Hin. eauto.
  - intros [v Hv]. exists (k, v). by rewrite elem_of_go_range.
Qed.

Lemma length_go_range (m : gmap K V) : length (go_range m) = size m.
Proof. rewrite go_range_perm. symmetry. by rewrite <- length_map_to_list. Qed.

Lemma go_range_empty : go_range (∅ : gmap K V) = [].
Proof. apply Permutation_nil_r. by rewrite go_range_perm, map_to_list_empty. Qed.
End Range.

(** The order [range] picks never changes the keys, only their order. *)
Lemma go_range_keys_perm (R1 R2 : GoRuntime) {K V : Type} `{Countable K} (m : gmap K V) :
  (@go_range R1 _ _ _ _ m).*1 ≡ₚ (@go_range R2 _ _ _ _ m).*1.
Proof. by rewrite !go_range_perm. Qed.

Lemma keyed_sort_sorted {A} (less : A → A → bool) l :
  (∀ x, less x x = false) →
  (∀ x y z, less x y = true → less y z = true → less x z = true) →
  (∀ x y z, less x y = false → less y z = false → less x z = false) →
  StronglySorted (λ x y, less y x = false) (keyed_sort less l).
Proof.
  intros Hirr Htrans Hinc. unfold keyed_sort. apply StronglySorted_merge_sort.
  - intros x y z Hxy Hyz. eauto.
  - intros x y. destruct (less y x) eqn:E1; [right | by left].
    destruct (less x y) eqn:E2; [|done].
    pose proof (Htrans _ _ _ E1 E2) as C. by rewrite Hirr in C.
Qed.

(** The runtime the model is evaluated with, and one that makes the opposite
    choices wherever Go leaves one. *)
#[export] Program Instance go_reference : GoRuntime := {|
  go_range K V _ _ m := map_to_list m;
  go_sort_slice A less l := keyed_sort less l
|}.
Next Obligation. done. Qed.
Next Obligation. intros A less l. apply merge_sort_Permutation. Qed.
Next Obligation. intros A less l. apply keyed_sort_sorted. Qed.

Program Definition go_reversed : GoRuntime := {|
  go_range K V _ _ m := reverse (map_to_list m);
  go_sort_slice A less l := keyed_sort less (reverse l)
|}.
Next Obligation. intros. by rewrite reverse_Permutation. Qed.
Next Obligation.
  intros A less l. unfold keyed_sort. by rewrite merge_sort_Permutation, reverse_Permutation.
Qed.
Next Obligation. intros A less l. apply keyed_sort_sorted. Qed.

(** ** Automation *)

(** Splits a step on the tests it makes. *)
Ltac split_cases :=
  repeat match goal with
  | |- context [match ?x with _ => _ end] => destruct x eqn:?
  | H : context [match ?x with _ => _ end] |- _ => destruct x eqn:?
  end.

Create HintDb gnmic.
#[export] Hint Resolve NoDup_fst_go_range NoDup_go_range : gnmic.
