(* ===== verification/GoLib.v ===== *)
(** The parts of Go's standard library the operator calls, as executable
    functions on byte strings: [strings], [strconv], [hash/fnv] and the [%s]
    and [%d] verbs of [fmt], with the lemmas the components use.  Integers are
    [Z] with their width written out. *)

From S2P Require Import Prelude.
From Stdlib Require Import Ascii String.
#[local] Open Scope string_scope.

(** ** strings *)

(** [strings.HasPrefix s p]. *)
Fixpoint HasPrefix (s p : string) : bool :=
  match p, s with
  | "", _ => true
  | String c p', String d s' => Ascii.eqb c d && HasPrefix s' p'
  | String _ _, "" => false
  end.

Fixpoint drop_bytes (n : nat) (s : string) : string :=
  match n, s with
  | S n', String _ s' => drop_bytes n' s'
  | _, _ => s
  end.

(** [strings.CutPrefix]: the rest and whether the prefix was there. *)
Definition CutPrefix (s p : string) : string * bool :=
  if HasPrefix s p then (drop_bytes (String.length p) s, true) else (s, false).

Definition TrimPrefix (s p : string) : string := fst (CutPrefix s p).

Definition rev_string (s : string) : string :=
  string_of_list_ascii (rev (list_ascii_of_string s)).

Definition HasSuffix (s p : string) : bool := HasPrefix (rev_string s) (rev_string p).

Definition TrimSuffix (s p : string) : string :=
  rev_string (TrimPrefix (rev_string s) (rev_string p)).

(** The text before and after the first [c], when [s] has one. *)
Fixpoint cut_first (c : ascii) (s : string) : option (string * string) :=
  match s with
  | "" => None
  | String d s' =>
      if Ascii.eqb c d then Some ("", s')
      else match cut_first c s' with
           | Some (a, b) => Some (String d a, b)
           | None => None
           end
  end.

(** [strings.SplitN s sep 2] for a one-byte separator. *)
Definition SplitN2 (s : string) (sep : ascii) : list string :=
  match cut_first sep s with
  | Some (a, b) => [a; b]
  | None => [s]
  end.

(** The text before and after the last [c], when [s] has one
    ([strings.LastIndex] and the two slices around it). *)
Definition cut_last (c : ascii) (s : string) : option (string * string) :=
  match cut_first c (rev_string s) with
  | Some (a, b) => Some (rev_string b, rev_string a)
  | None => None
  end.

(** A string of the given bytes. *)
Definition bytes (l : list N) : string := string_of_list_ascii (ascii_of_N <$> l).

(** The encodings of the runes [unicode.IsSpace] accepts: the ASCII ones, U+0085,
    U+00A0, U+1680, U+2000 to U+200A, U+2028, U+2029, U+202F, U+205F and U+3000. *)
Definition space_runes : list string :=
  (((λ n, bytes [n]) <$> [9; 10; 11; 12; 13; 32]%N) ++
  (bytes <$> [[194; 133]; [194; 160]; [225; 154; 128]; [226; 128; 168]; [226; 128; 169]; [226; 128; 175];
              [226; 129; 159]; [227; 128; 128]]%N) ++
  ((λ n, bytes [226; 128; n]%N) <$> [128; 129; 130; 131; 132; 133; 134; 135; 136; 137; 138]%N))%list.

(** Skips the given prefixes, as often as they occur; one unit of fuel per byte is
    enough. *)
Fixpoint trim_with (fuel : nat) (runes : list string) (s : string) : string :=
  match fuel with
  | O => s
  | S fuel => match List.find (HasPrefix s) runes with
              | Some p => trim_with fuel runes (TrimPrefix s p)
              | None => s
              end
  end.

Definition TrimLeftSpace (s : string) : string := trim_with (String.length s) space_runes s.
Definition TrimRightSpace (s : string) : string :=
  rev_string (trim_with (String.length s) (rev_string <$> space_runes) (rev_string s)).

(** [strings.TrimSpace]. *)
Definition TrimSpace (s : string) : string := TrimRightSpace (TrimLeftSpace s).

(** [strings.Join]. *)
Fixpoint Join (l : list string) (sep : string) : string :=
  match l with
  | [] => ""
  | [x] => x
  | x :: l' => x +:+ sep +:+ Join l' sep
  end.

(** A byte that does not occur in a string. *)
Fixpoint no_byte (c : ascii) (s : string) : bool :=
  match s with
  | "" => true
  | String d s' => negb (Ascii.eqb c d) && no_byte c s'
  end.

(** [strings.Contains s c] for a one-byte [c]. *)
Definition has_byte (c : ascii) (s : string) : bool :=
  match cut_first c s with Some _ => true | None => false end.

(** [strings.Contains]. *)
Fixpoint Contains (s sub : string) : bool :=
  HasPrefix s sub || match s with "" => false | String _ s' => Contains s' sub end.

(** [strings.Split] at a one-byte separator: the pieces, the one being read last. *)
Fixpoint split_go (sep : ascii) (piece s : string) : list string :=
  match s with
  | "" => [rev_string piece]
  | String c s' => if Ascii.eqb sep c then rev_string piece :: split_go sep "" s' else split_go sep (String c piece) s'
  end.
Definition Split (s : string) (sep : ascii) : list string := split_go sep "" s.

(** [strings.Fields]: the words between runs of spaces, the one being read last; one unit of
    fuel per byte is enough. *)
Fixpoint fields_go (fuel : nat) (piece s : string) : list string :=
  let word := match piece with "" => [] | _ => [rev_string piece] end in
  match fuel, s with
  | S fuel, String c s' =>
      match List.find (HasPrefix s) space_runes with
      | Some p => (word ++ fields_go fuel "" (TrimPrefix s p))%list
      | None => fields_go fuel (String c piece) s'
      end
  | _, _ => word
  end.
Definition Fields (s : string) : list string := fields_go (String.length s) "" s.

(** [bufio.Scanner] with its default limit: the line without its carriage return, unless it
    is too long; and the lines it reads until the first that is. *)
Definition MaxScanTokenSize : Z := 65536.
Definition scanText (raw : string) : option string :=
  if bool_decide (MaxScanTokenSize <= Z.of_nat (String.length raw))%Z then None else Some (TrimSuffix raw (String "013" "")).

Fixpoint scan_pieces (pieces : list string) : list string :=
  match pieces with
  | [] | [""] => []
  | raw :: pieces => match scanText raw with None => [] | Some line => line :: scan_pieces pieces end
  end.
Definition scanLines (content : string) : list string := scan_pieces (Split content "010"%char).

(** Whether [Err] is set when the lines have been read. *)
Fixpoint scan_err (pieces : list string) : bool :=
  match pieces with
  | [] | [""] => false
  | raw :: pieces => match scanText raw with None => true | Some _ => scan_err pieces end
  end.
Definition scanErr (content : string) : bool := scan_err (Split content "010"%char).

(** The [<] of strings: byte order. *)
Definition string_less (x y : string) : bool := negb (bool_decide (String.le y x)).

(** ** strconv *)

Definition digit_val (c : ascii) : option Z :=
  let n := Z.of_N (N_of_ascii c) in
  if decide (48 ≤ n ≤ 57)%Z then Some (n - 48)%Z else None.

Fixpoint parse_digits (acc : Z) (s : string) : option Z :=
  match s with
  | "" => Some acc
  | String c s' =>
      match digit_val c with
      | Some d => parse_digits (10 * acc + d) s'
      | None => None
      end
  end.

(** An optional sign and at least one decimal digit. *)
Definition parse_int (s : string) : option Z :=
  match s with
  | "" => None
  | String "+" "" | String "-" "" => None
  | String "+" s' => parse_digits 0 s'
  | String "-" s' => Z.opp <$> parse_digits 0 s'
  | _ => parse_digits 0 s
  end.

(** [strconv.ParseInt s 10 w]: a value outside the signed [w]-bit range is an
    error ([ErrRange]), and so is any other text ([ErrSyntax]). *)
Definition ParseInt (s : string) (w : Z) : option Z :=
  match parse_int s with
  | Some n => if decide (- 2 ^ (w - 1) ≤ n < 2 ^ (w - 1))%Z then Some n else None
  | None => None
  end.

(** [strconv.Atoi] on a 64-bit [int]. *)
Definition Atoi (s : string) : option Z := ParseInt s 64.

(** [strconv.Itoa], and the [%d] verb. *)
Definition Itoa (n : Z) : string := pretty n.

(** [net.JoinHostPort]: a host with a colon is an IPv6 literal. *)
Definition JoinHostPort (host port : string) : string :=
  if has_byte ":"%char host then "[" +:+ host +:+ "]:" +:+ port
  else host +:+ ":" +:+ port.

(** [net.SplitHostPort]: at the last colon; a host with colons is in brackets, and there
    are no others. *)
Definition SplitHostPort (hostport : string) : option (string * string) :=
  match cut_last ":"%char hostport with
  | None => None
  | Some (before, port) =>
      match hostport with
      | String "[" rest =>
          match cut_first "]"%char rest with
          | None => None
          | Some (host, after) =>
              if bool_decide (after = ":" +:+ port) && (no_byte "["%char rest && no_byte "]"%char after)
              then Some (host, port) else None
          end
      | _ =>
          if no_byte ":"%char before && (no_byte "["%char hostport && no_byte "]"%char hostport)
          then Some (before, port) else None
      end
  end.

(** ** HTTP clients *)

(** [tls.Config], as far as it is set; a key pair is opaque, a pool the PEM texts
    appended to it. *)
Record ClientTLS := { CT_Certificates : list (string * string); CT_RootCAs : option (list string) }.

(** [http.Client]; without a TLS configuration it is the plain one. *)
Record HttpClient := { HC_Timeout : Z; HC_TLS : option ClientTLS }.

(** ** Machine integers *)

Definition to_uint32 (n : Z) : Z := (n mod 2 ^ 32)%Z.

(** Conversion to [int32]: the low 32 bits read as two's complement. *)
Definition to_int32 (n : Z) : Z :=
  let m := (n mod 2 ^ 32)%Z in
  if decide (m < 2 ^ 31)%Z then m else (m - 2 ^ 32)%Z.

(** ** hash/fnv *)

Definition fnv64_offset : Z := 14695981039346656037.
Definition fnv64_prime : Z := 1099511628211.
Definition fnv32_offset : Z := 2166136261.
Definition fnv32_prime : Z := 16777619.

(** FNV-1a: xor the byte in, then multiply, in [w]-bit arithmetic. *)
Fixpoint fnv1a (w prime h : Z) (s : string) : Z :=
  match s with
  | "" => h
  | String c s' =>
      fnv1a w prime ((Z.lxor h (Z.of_N (N_of_ascii c)) * prime) mod 2 ^ w) s'
  end.

Definition fnv64a (s : string) : Z := fnv1a 64 fnv64_prime fnv64_offset s.
Definition fnv32a (s : string) : Z := fnv1a 32 fnv32_prime fnv32_offset s.

(** ** Lemmas *)

Lemma fnv1a_range w prime h s :
  (0 < w → 0 ≤ h < 2 ^ w → 0 ≤ fnv1a w prime h s < 2 ^ w)%Z.
Proof.
  intros Hw. revert h. induction s as [|c s IH]; intros h Hh; cbn [fnv1a]; [done|].
  apply IH, Z.mod_pos_bound. apply Z.pow_pos_nonneg; lia.
Qed.

Lemma fnv64a_range s : (0 ≤ fnv64a s < 2 ^ 64)%Z.
Proof. apply fnv1a_range; [done|]. unfold fnv64_offset. lia. Qed.

Lemma fnv32a_range s : (0 ≤ fnv32a s < 2 ^ 32)%Z.
Proof. apply fnv1a_range; [done|]. unfold fnv32_offset. lia. Qed.

Lemma to_int32_small n : (0 ≤ n < 2 ^ 31)%Z → to_int32 n = n.
Proof. intros H. unfold to_int32. rewrite Z.mod_small by lia. case_decide; lia. Qed.

Lemma to_int32_range n : (- 2 ^ 31 ≤ to_int32 n < 2 ^ 31)%Z.
Proof.
  unfold to_int32. pose proof (Z.mod_pos_bound n (2 ^ 32) ltac:(lia)).
  case_decide; lia.
Qed.

Lemma ParseInt_range s w n : ParseInt s w = Some n → (- 2 ^ (w - 1) ≤ n < 2 ^ (w - 1))%Z.
Proof. unfold ParseInt. destruct (parse_int s); [|done]. case_decide; [|done]. by intros [= <-]. Qed.

Lemma string_less_false x y : string_less x y = false ↔ String.le y x.
Proof. unfold string_less. by rewrite negb_false_iff, bool_decide_eq_true. Qed.

Lemma string_less_true x y : string_less x y = true ↔ String.le x y ∧ x ≠ y.
Proof.
  unfold string_less. rewrite negb_true_iff, bool_decide_eq_false. split.
  - intros H. destruct (total String.le x y) as [?|?]; [|done]. split; [done|]. by intros ->.
  - intros [H Hne] H'. apply Hne. by apply (anti_symm String.le).
Qed.

(** [sort.Slice] on names. *)
Lemma sort_by_name_sorted `{R : GoRuntime} {A} (f : A → string) l :
  StronglySorted (λ x y, String.le (f x) (f y)) (go_sort_slice (λ x y, string_less (f x) (f y)) l).
Proof.
  eapply StronglySorted_mono; [|apply go_sort_slice_sorted].
  - intros x y. cbn. by rewrite string_less_false.
  - intros x. by apply string_less_false.
  - intros x y z. rewrite !string_less_true. intros [H1 N1] [H2 N2]. split; [by etrans|].
    intros E. rewrite E in *. apply N2. by apply (anti_symm String.le).
  - intros x y z. rewrite !string_less_false. intros H1 H2. by etrans.
Qed.

Lemma app_str_nil_l (a : string) : "" +:+ a = a.
Proof. done. Qed.

Lemma app_str_cons c (a b : string) : String c a +:+ b = String c (a +:+ b).
Proof. done. Qed.

#[local] Ltac str := repeat first [rewrite app_str_nil_l | rewrite app_str_cons]; cbn.

Lemma app_str_assoc (a b c : string) : a +:+ (b +:+ c) = (a +:+ b) +:+ c.
Proof. induction a as [|x a IH]; str; [done | by rewrite IH]. Qed.

Lemma app_str_nil_r (a : string) : a +:+ "" = a.
Proof. induction a as [|x a IH]; str; [done | by rewrite IH]. Qed.

Lemma HasPrefix_app s p : HasPrefix (p +:+ s) p = true.
Proof. induction p as [|c p IH]; str; [by destruct s|]. by rewrite Ascii.eqb_refl, IH. Qed.

Lemma HasPrefix_spec s p : HasPrefix s p = true ↔ ∃ r, s = p +:+ r.
Proof.
  split; [|intros [r ->]; apply HasPrefix_app].
  revert s; induction p as [|c p IH]; intros s H; [by exists s|].
  destruct s as [|d s]; [done|]. cbn in H. apply andb_true_iff in H as [He Hp].
  apply Ascii.eqb_eq in He as ->. apply IH in Hp as [r ->]. by exists r.
Qed.

Lemma drop_bytes_app p s : drop_bytes (String.length p) (p +:+ s) = s.
Proof. induction p; str; [by destruct s | done]. Qed.

Lemma TrimPrefix_app p s : TrimPrefix (p +:+ s) p = s.
Proof. unfold TrimPrefix, CutPrefix. by rewrite HasPrefix_app, drop_bytes_app. Qed.

Lemma list_ascii_app a b :
  list_ascii_of_string (a +:+ b) = (list_ascii_of_string a ++ list_ascii_of_string b)%list.
Proof. induction a as [|x a IH]; str; [done | by rewrite IH]. Qed.

Lemma string_of_list_app a b :
  string_of_list_ascii (a ++ b)%list = string_of_list_ascii a +:+ string_of_list_ascii b.
Proof. induction a as [|x a IH]; str; [done | by rewrite IH]. Qed.

Lemma rev_string_app a b : rev_string (a +:+ b) = rev_string b +:+ rev_string a.
Proof. unfold rev_string. by rewrite list_ascii_app, List.rev_app_distr, string_of_list_app. Qed.

Lemma rev_string_involutive a : rev_string (rev_string a) = a.
Proof.
  unfold rev_string.
  by rewrite list_ascii_of_string_of_list_ascii, rev_involutive, string_of_list_ascii_of_string.
Qed.

Lemma TrimSuffix_app s p : TrimSuffix (s +:+ p) p = s.
Proof.
  unfold TrimSuffix. by rewrite rev_string_app, TrimPrefix_app, rev_string_involutive.
Qed.

Lemma cut_first_Some c s a b :
  cut_first c s = Some (a, b) → s = a +:+ String c b.
Proof.
  revert a b; induction s as [|d s IH]; intros a b H; cbn in H; [done|].
  destruct (Ascii.eqb c d) eqn:E; [apply Ascii.eqb_eq in E; by simplify_eq/=|].
  destruct (cut_first c s) as [[a' b']|] eqn:E2; [|done].
  injection H as <- <-. rewrite app_str_cons. by rewrite (IH a' b').
Qed.

Lemma cut_first_app c a b : no_byte c a = true → cut_first c (a +:+ String c b) = Some (a, b).
Proof.
  induction a as [|d a IH]; str; intros H; [by rewrite Ascii.eqb_refl|].
  apply andb_true_iff in H as [Hd Ha]. apply negb_true_iff in Hd.
  by rewrite Hd, IH.
Qed.

Lemma cut_first_None c s : cut_first c s = None ↔ no_byte c s = true.
Proof.
  induction s as [|d s IH]; cbn; [done|].
  destruct (Ascii.eqb c d) eqn:E; cbn; [done|].
  destruct (cut_first c s) as [[a b]|]; rewrite <- IH; done.
Qed.

Lemma no_byte_app c a b : no_byte c (a +:+ b) = no_byte c a && no_byte c b.
Proof. induction a as [|d a IH]; str; [done|]. by rewrite IH, andb_assoc. Qed.

Lemma cut_first_sound c s a b : cut_first c s = Some (a, b) → no_byte c a = true.
Proof.
  revert a b; induction s as [|d s IH]; intros a b H; cbn in H; [done|].
  destruct (Ascii.eqb c d) eqn:E; [by simplify_eq/=|].
  destruct (cut_first c s) as [[a' b']|] eqn:E2; [|done].
  injection H as <- <-. cbn. rewrite E, (IH a' b'); done.
Qed.

Lemma app_str_inj_r (a b c : string) : a +:+ c = b +:+ c → a = b.
Proof.
  intros H. apply (f_equal rev_string) in H. rewrite !rev_string_app in H.
  apply (inj _) in H. rewrite <- (rev_string_involutive a), H.
  apply rev_string_involutive.
Qed.

Lemma app_str_inj_l (a b c : string) : a +:+ b = a +:+ c → b = c.
Proof. apply (inj (String.append a)). Qed.

(** A string neither end of which is a space is left alone. *)
Lemma trim_with_id fuel runes s : forallb (λ p, negb (HasPrefix s p)) runes = true → trim_with fuel runes s = s.
Proof.
  intros H. destruct fuel as [|fuel]; [done|]. cbn. destruct (List.find (HasPrefix s) runes) as [p|] eqn:E; [|done].
  apply List.find_some in E as [Hin Hp]. rewrite forallb_forall in H. specialize (H p Hin). by rewrite Hp in H.
Qed.

(** ** Decimal numbers *)

(** Reading what [strconv.Itoa] writes. *)
Definition is_digit (c : ascii) : bool := match digit_val c with Some _ => true | None => false end.

Lemma digit_val_char d : (d < 10)%N → digit_val (pretty_N_char d) = Some (Z.of_N d).
Proof.
  intros H. assert (d = 0 ∨ d = 1 ∨ d = 2 ∨ d = 3 ∨ d = 4 ∨ d = 5 ∨ d = 6 ∨ d = 7 ∨ d = 8 ∨ d = 9)%N as Hd by lia.
  by destruct Hd as [->|[->|[->|[->|[->|[->|[->|[->|[->| ->]]]]]]]]]; vm_compute.
Qed.

Lemma parse_digits_go x s : parse_digits 0 (pretty_N_go x s) = parse_digits (Z.of_N x) s.
Proof.
  revert s. induction (N.lt_wf_0 x) as [x _ IH]; intros s. destruct (decide (x = 0)%N) as [->|Hx]; [done|].
  rewrite pretty_N_go_step by lia. rewrite IH by (apply N.div_lt; lia). cbn [parse_digits].
  rewrite digit_val_char by (apply N.mod_lt; lia). f_equal.
  pose proof (N.div_mod' x 10) as Hdm. lia.
Qed.

Lemma parse_digits_Itoa n : (0 ≤ n)%Z → parse_digits 0 (Itoa n) = Some n ∧ Itoa n ≠ "".
Proof.
  intros H. destruct n as [|p|p]; [by vm_compute| |lia].
  assert (parse_digits 0 (Itoa (Z.pos p)) = Some (Z.pos p)) as E.
  { change (Itoa (Z.pos p)) with (pretty_N_go (N.pos p) ""). by rewrite parse_digits_go. }
  split; [done|]. intros Hn. rewrite Hn in E. done.
Qed.

Lemma parse_digits_app_None acc a c b : digit_val c = None → parse_digits acc (a +:+ String c b) = None.
Proof.
  intros Hc. revert acc; induction a as [|d a IH]; intros acc; str; [by rewrite Hc|].
  destruct (digit_val d); [apply IH|done].
Qed.

(** Without a sign the digits are the number. *)
Lemma parse_int_digits c s : is_digit c = true → parse_int (String c s) = parse_digits 0 (String c s).
Proof. destruct c as [[] [] [] [] [] [] [] []]; vm_compute (is_digit _); try done. Qed.

Lemma Itoa_head n : (0 ≤ n)%Z → ∃ c s, Itoa n = String c s ∧ is_digit c = true.
Proof.
  intros [H1 H2]%parse_digits_Itoa. destruct (Itoa n) as [|c s]; [done|]. exists c, s. split; [done|].
  cbn in H1. unfold is_digit. by destruct (digit_val c).
Qed.

Lemma Atoi_Itoa n : (0 ≤ n < 2 ^ 63)%Z → Atoi (Itoa n) = Some n.
Proof.
  intros Hn. destruct (Itoa_head n ltac:(lia)) as (c & s & E & Hc). pose proof (parse_digits_Itoa n ltac:(lia)) as [H _].
  unfold Atoi, ParseInt. rewrite E in *. rewrite parse_int_digits, H by done. case_decide; [done|lia].
Qed.

Lemma Atoi_Itoa_app n c s : (0 ≤ n)%Z → digit_val c = None → Atoi (Itoa n +:+ String c s) = None.
Proof.
  intros Hn Hc. destruct (Itoa_head n Hn) as (d & t & E & Hd). unfold Atoi, ParseInt. rewrite E, app_str_cons.
  rewrite parse_int_digits by done. rewrite <- app_str_cons. by rewrite parse_digits_app_None.
Qed.

Lemma Atoi_Itoa_neg n : (- 2 ^ 63 ≤ n < 0)%Z → Atoi (Itoa n) = Some n.
Proof.
  intros Hn. destruct n as [|p|p]; [lia..|].
  change (Itoa (Z.neg p)) with ("-" +:+ Itoa (Z.pos p)). destruct (Itoa_head (Z.pos p) ltac:(lia)) as (c & s & E & Hc).
  pose proof (parse_digits_Itoa (Z.pos p) ltac:(lia)) as [H _]. unfold Atoi, ParseInt. rewrite E in *. rewrite app_str_cons, app_str_nil_l.
  change (parse_int (String "-" (String c s))) with (Z.opp <$> parse_digits 0 (String c s)). rewrite H. cbn.
  case_decide; [done|lia].
Qed.

Lemma parse_digits_no_byte acc s n c : digit_val c = None → parse_digits acc s = Some n → no_byte c s = true.
Proof.
  intros Hc. revert acc. induction s as [|d s IH]; intros acc; cbn; [done|].
  destruct (digit_val d) eqn:Ed; [|done]. intros H. rewrite (IH _ H), andb_true_r. apply negb_true_iff.
  destruct (Ascii.eqb c d) eqn:Ecd; [|done]. apply Ascii.eqb_eq in Ecd as ->. congruence.
Qed.

(** A number is written with digits, and a sign. *)
Lemma Itoa_no_byte n c : digit_val c = None → c ≠ "-"%char → no_byte c (Itoa n) = true.
Proof.
  intros Hc Hm. destruct n as [|p|p].
  - eapply parse_digits_no_byte; [done|apply parse_digits_Itoa; lia].
  - eapply parse_digits_no_byte; [done|apply parse_digits_Itoa; lia].
  - change (Itoa (Z.neg p)) with ("-" +:+ Itoa (Z.pos p)). rewrite app_str_cons, app_str_nil_l. cbn [no_byte].
    destruct (Ascii.eqb c "-") eqn:E; [by apply Ascii.eqb_eq in E|]. cbn [negb andb].
    eapply parse_digits_no_byte; [done|apply parse_digits_Itoa; lia].
Qed.

Lemma no_byte_rev c s : no_byte c (rev_string s) = no_byte c s.
Proof.
  induction s as [|d s IH]; [done|]. change (String d s) with (String d "" +:+ s). rewrite rev_string_app, !no_byte_app, IH.
  cbn. by rewrite andb_true_r, andb_comm.
Qed.

Lemma cut_last_app c a b : no_byte c b = true → cut_last c (a +:+ String c b) = Some (a, b).
Proof.
  intros Hb. unfold cut_last. change (String c b) with (String c "" +:+ b).
  rewrite !rev_string_app, <- app_str_assoc. change (rev_string (String c "")) with (String c "").
  rewrite (app_str_cons c ""), app_str_nil_l, cut_first_app by (by rewrite no_byte_rev). by rewrite !rev_string_involutive.
Qed.

(** Splitting what was joined. *)
Lemma SplitHostPort_JoinHostPort host port :
  no_byte "["%char host = true → no_byte "]"%char host = true → no_byte ":"%char port = true →
  no_byte "["%char port = true → no_byte "]"%char port = true → SplitHostPort (JoinHostPort host port) = Some (host, port).
Proof.
  intros H1 H2 P1 P2 P3. unfold JoinHostPort, has_byte, SplitHostPort.
  destruct (cut_first ":"%char host) as [[a b]|] eqn:Ec.
  - assert ("[" +:+ host +:+ "]:" +:+ port = ("[" +:+ host +:+ "]") +:+ String ":" port) as E.
    { change (String ":" port) with (":" +:+ port). by rewrite <- !app_str_assoc. }
    rewrite E, cut_last_app by done. rewrite <- E, app_str_cons, app_str_nil_l. cbn [cut_last].
    change ("]:" +:+ port) with (String "]" (":" +:+ port)). rewrite cut_first_app by done.
    rewrite bool_decide_true by done. rewrite !app_str_cons, !app_str_nil_l, !no_byte_app. cbn. by rewrite H1, P2, P3.
  - apply cut_first_None in Ec. change (":" +:+ port) with (String ":" port). rewrite cut_last_app by done.
    assert (no_byte "[" (host +:+ String ":" port) = true) as N1 by (rewrite no_byte_app; cbn; by rewrite H1, P2).
    assert (no_byte "]" (host +:+ String ":" port) = true) as N2 by (rewrite no_byte_app; cbn; by rewrite H2, P3).
    rewrite N1, N2, Ec. cbn [andb]. destruct (host +:+ String ":" port) as [|c s] eqn:Es; [done|].
    cbn [no_byte] in N1. apply andb_true_iff in N1 as [N1 _]. apply negb_true_iff in N1.
    destruct c as [[] [] [] [] [] [] [] []]; try done.
Qed.

(** ** Lines *)

Definition unlines (l : list string) : string := foldr (λ line s, line +:+ String "010" s) "" l.

(** A line the scanner reads as it is. *)
Definition is_line (l : string) : Prop :=
  no_byte "010"%char l = true ∧ no_byte "013"%char l = true ∧ (Z.of_nat (String.length l) < MaxScanTokenSize)%Z.

Lemma split_go_line sep piece l s : no_byte sep l = true →
  split_go sep piece (l +:+ String sep s) = rev_string (rev_string l +:+ piece) :: split_go sep "" s.
Proof.
  revert piece. induction l as [|c l IH]; intros piece.
  - intros _. rewrite app_str_nil_l. cbn [split_go]. by rewrite Ascii.eqb_refl.
  - cbn [no_byte]. intros [Hc Hl]%andb_true_iff. rewrite app_str_cons. cbn [split_go]. apply negb_true_iff in Hc. rewrite Hc, IH by done.
    change (String c l) with (String c "" +:+ l). by rewrite (rev_string_app (String c "") l), <- app_str_assoc.
Qed.

Lemma Split_unlines sep l : sep = "010"%char → Forall is_line l → Split (unlines l) sep = (l ++ [""])%list.
Proof.
  intros ->. unfold Split. induction 1 as [|line l (Hn & _) _ IH]; [done|]. cbn [unlines foldr app].
  rewrite split_go_line, app_str_nil_r, rev_string_involutive by done. f_equal. exact IH.
Qed.

Lemma Split_more l s : Forall is_line l → Split (unlines l +:+ s) "010"%char = (l ++ Split s "010"%char)%list.
Proof.
  unfold Split. induction 1 as [|line l (Hn & _) _ IH]; [done|]. cbn [unlines foldr app].
  rewrite <- app_str_assoc, app_str_cons, split_go_line, app_str_nil_r, rev_string_involutive by done. f_equal. exact IH.
Qed.

Lemma scanText_line l : is_line l → scanText l = Some l.
Proof.
  intros (_ & Hr & Hl). unfold scanText. rewrite bool_decide_false by lia. f_equal. unfold TrimSuffix, TrimPrefix, CutPrefix.
  change (rev_string (String "013" "")) with (String "013" "").
  assert (HasPrefix (rev_string l) (String "013" "") = false) as ->; [|apply rev_string_involutive].
  rewrite <- no_byte_rev in Hr. destruct (rev_string l) as [|c s]; [done|]. cbn in *.
  apply andb_true_iff in Hr as [Hr _]. apply negb_true_iff in Hr. by rewrite Hr.
Qed.

Lemma scanLines_unlines l : Forall is_line l → scanLines (unlines l) = l.
Proof.
  intros H. unfold scanLines. rewrite Split_unlines by done. induction H as [|line l Hl _ IH]; [done|]. cbn [app scan_pieces].
  rewrite scanText_line, IH by done. by destruct line, l.
Qed.

(** What follows a line that is too long is not read. *)
Lemma scan_overlong l long rest : Forall is_line l → no_byte "010"%char long = true →
  (MaxScanTokenSize <= Z.of_nat (String.length long))%Z →
  scanLines (unlines l +:+ long +:+ String "010" rest) = l ∧ scanErr (unlines l +:+ long +:+ String "010" rest) = true.
Proof.
  intros H Hn Hl. unfold scanLines, scanErr. rewrite Split_more by done. unfold Split.
  rewrite split_go_line, app_str_nil_r, rev_string_involutive by done.
  assert (scanText long = None) as Ht by (unfold scanText; by rewrite bool_decide_true).
  assert (long ≠ "") as Hne by (intros ->; done).
  induction H as [|line l Hline _ [IH1 IH2]]; cbn [app scan_pieces scan_err].
  - rewrite Ht. by destruct long.
  - rewrite scanText_line by done. destruct line; (destruct l; cbn [app] in *; [destruct (split_go _ _ _)|]; by rewrite ?IH1, ?IH2).
Qed.

Lemma scanErr_unlines l : Forall is_line l → scanErr (unlines l) = false.
Proof.
  intros H. unfold scanErr. rewrite Split_unlines by done. induction H as [|line l Hl _ IH]; [done|]. cbn [app scan_err].
  rewrite scanText_line, IH by done. by destruct line, l.
Qed.

#[export] Hint Resolve fnv64a_range fnv32a_range : gnmic.
