(* ===== verification/Api.v ===== *)
(** The custom resources of the operator ([api/v1alpha1/*_types.go]): the
    object every resource is ([metadata], [spec], [status]) and one record per
    Go struct, its fields named after the struct's.  Durations are [Z]
    nanoseconds; an instant is [Z] nanoseconds after Go's zero time, which is
    [0].  A Go pointer is an [option], a Go map a [gmap]. *)

From S2P Require Import Prelude.

(** ** Kubernetes metadata *)

Record NamespacedName := { NN_Namespace : string; NN_Name : string }.

#[export] Instance NamespacedName_eq_dec : EqDecision NamespacedName.
Proof. solve_decision. Defined.
#[export] Instance NamespacedName_countable : Countable NamespacedName.
Proof.
  apply (inj_countable' (λ n, (NN_Namespace n, NN_Name n))
           (λ p, {| NN_Namespace := p.1; NN_Name := p.2 |})). by intros [].
Defined.

Record ObjectMeta := {
  Name : string;
  Namespace : string;
  Labels : gmap string string;
  Annotations : gmap string string;
  Finalizers : list string;
  DeletionTimestamp : Z;
  Generation : Z
}.

(** The metadata of an object the operator creates. *)
Definition new_meta (name namespace : string) (labels annotations : gmap string string) : ObjectMeta := {|
  Name := name; Namespace := namespace; Labels := labels; Annotations := annotations;
  Finalizers := []; DeletionTimestamp := 0; Generation := 0 |}.

Definition with_labels (m : ObjectMeta) (labels : gmap string string) : ObjectMeta := {|
  Name := Name m; Namespace := Namespace m; Labels := labels; Annotations := Annotations m;
  Finalizers := Finalizers m; DeletionTimestamp := DeletionTimestamp m; Generation := Generation m |}.

(** [metav1.LabelSelector]; an expression is kept as the selector's text, since
    only the library that compiles selectors reads it. *)
Record LabelSelector := {
  MatchLabels : gmap string string;
  MatchExpressions : list string
}.

(** [metav1.ConditionStatus]. *)
Inductive ConditionStatus := ConditionTrue | ConditionFalse | ConditionUnknown.

#[export] Instance ConditionStatus_eq_dec : EqDecision ConditionStatus.
Proof. solve_decision. Defined.

(** [metav1.Condition]. *)
Record Condition := {
  Cond_Type : string;
  Cond_Status : ConditionStatus;
  Cond_ObservedGeneration : Z;
  Cond_LastTransitionTime : Z;
  Cond_Reason : string;
  Cond_Message : string
}.

(** A resource: every kind embeds [ObjectMeta] and has a spec and a status. *)
Record Resource (S T : Type) := MkResource {
  Meta : ObjectMeta;
  Spec : S;
  Status : T
}.
Arguments MkResource {S T}.
Arguments Meta {S T}.
Arguments Spec {S T}.
Arguments Status {S T}.

(** [client.ObjectKeyFromObject]. *)
Definition key_of {S T} (o : Resource S T) : NamespacedName :=
  {| NN_Namespace := Namespace (Meta o); NN_Name := Name (Meta o) |}.

(** ** Target *)

Record TargetSpec := { Target_Address : string; Target_Profile : string }.

Record ClusterTargetState := {
  CTS_Pod : string;
  CTS_State : string;
  CTS_FailedReason : string;
  CTS_ConnectionState : string;
  CTS_Subscriptions : gmap string string;
  CTS_LastUpdated : Z
}.

Record TargetStatus := {
  TS_Clusters : Z;
  TS_State : string;
  TS_ClusterStates : gmap string ClusterTargetState
}.

Abbreviation Target := (Resource TargetSpec TargetStatus).

(** ** TargetProfile *)

Record TargetTLSConfig := {
  TLS_ServerName : string;
  TLS_MaxVersion : string;
  TLS_MinVersion : string;
  TLS_CipherSuites : list string
}.

Record GRPCKeepAliveConfig := {
  KA_Time : Z;
  KA_Timeout : Z;
  KA_PermitWithoutStream : bool
}.

Record TargetProfileSpec := {
  TP_CredentialsRef : string;
  TP_TLS : option TargetTLSConfig;
  TP_Timeout : Z;
  TP_RetryTimer : Z;
  TP_Encoding : string;
  TP_Labels : gmap string string;
  TP_Proxy : string;
  TP_GzipCompression : bool;
  TP_TCPKeepAlive : option Z;
  TP_GRCPKeepAlive : option GRPCKeepAliveConfig
}.

Abbreviation TargetProfile := (Resource TargetProfileSpec unit).

(** ** Subscription *)

Record SubscriptionHistoryConfig := {
  Hist_Snapshot : Z;
  Hist_Start : Z;
  Hist_End : Z
}.

Record SubscriptionSpec := {
  Sub_Prefix : string;
  Sub_Target : string;
  Sub_Paths : list string;
  Sub_Mode : string;
  Sub_SampleInterval : Z;
  Sub_HeartbeatInterval : Z;
  Sub_UpdatesOnly : bool;
  Sub_StreamSubscriptions : list string;
  Sub_Depth : Z;
  Sub_Encoding : string;
  Sub_Qos : option Z;
  Sub_SuppressRedundant : bool;
  Sub_History : option SubscriptionHistoryConfig
}.

Abbreviation Subscription := (Resource SubscriptionSpec unit).

(** ** Output, Input, Processor *)

Record ServiceReference := {
  SR_Name : string;
  SR_Namespace : string;
  SR_Port : string;
  SR_URL : string
}.

Record ServiceSelector := {
  SS_MatchLabels : gmap string string;
  SS_Namespace : string;
  SS_Port : string;
  SS_URL : string
}.

Record OutputServiceSpec := {
  OS_Type : string;
  OS_Annotations : gmap string string;
  OS_Labels : gmap string string
}.

(** [Output_Config] is [Config.Raw]: absent, or the bytes of a JSON object. *)
Record OutputSpec := {
  Output_Type : string;
  Output_Config : option string;
  Output_Service : option OutputServiceSpec;
  Output_ServiceRef : option ServiceReference;
  Output_ServiceSelector : option ServiceSelector
}.

Record InputSpec := { Input_Type : string; Input_Config : option string }.

Record ProcessorSpec := { Proc_Type : string; Proc_Config : option string }.

Abbreviation Output := (Resource OutputSpec unit).
Abbreviation Input := (Resource InputSpec unit).
Abbreviation Processor := (Resource ProcessorSpec unit).

(** ** TunnelTargetPolicy *)

Record tunnelTargetMatch := { ttm_Type : string; ttm_ID : string }.

Record TunnelTargetPolicySpec := {
  TTP_Match : option tunnelTargetMatch;
  TTP_Profile : string
}.

Abbreviation TunnelTargetPolicy := (Resource TunnelTargetPolicySpec unit).

(** ** Pipeline *)

Record OutputSelector := {
  OutSel_OutputSelectors : list LabelSelector;
  OutSel_OutputRefs : list string;
  OutSel_ProcessorSelectors : list LabelSelector;
  OutSel_ProcessorRefs : list string
}.

Record InputSelector := {
  InSel_InputSelectors : list LabelSelector;
  InSel_InputRefs : list string;
  InSel_ProcessorSelectors : list LabelSelector;
  InSel_ProcessorRefs : list string
}.

Record PipelineSpec := {
  PL_ClusterRef : string;
  PL_Enabled : bool;
  PL_TargetSelectors : list LabelSelector;
  PL_TargetRefs : list string;
  PL_TunnelTargetPolicySelectors : list LabelSelector;
  PL_TunnelTargetPolicyRefs : list string;
  PL_SubscriptionSelectors : list LabelSelector;
  PL_SubscriptionRefs : list string;
  PL_Outputs : OutputSelector;
  PL_Inputs : InputSelector;
  PL_Labels : gmap string string
}.

Record PipelineStatus := {
  PS_Status : string;
  PS_TargetsCount : Z;
  PS_SubscriptionsCount : Z;
  PS_InputsCount : Z;
  PS_OutputsCount : Z;
  PS_TunnelTargetPoliciesCount : Z;
  PS_Conditions : list Condition
}.

Abbreviation Pipeline := (Resource PipelineSpec PipelineStatus).

(** ** Cluster *)

Record ClusterTLSConfig := {
  CTLS_IssuerRef : string;
  CTLS_BundleRef : string;
  CTLS_UseCSIDriver : bool
}.

Record APIConfig := {
  API_RestPort : Z;
  API_GNMIPort : Z;
  API_TLS : option ClusterTLSConfig
}.

Record ServiceConfig := {
  SC_Type : string;
  SC_Annotations : gmap string string;
  SC_Labels : gmap string string
}.

Record GRPCTunnelConfig := {
  GT_Port : Z;
  GT_TLS : option ClusterTLSConfig;
  GT_Service : option ServiceConfig
}.

Record TargetDistributionConfig := { PodCapacity : Z }.

(** [corev1.ResourceRequirements]: resource name to quantity. *)
Record ResourceRequirements := { Requests : gmap string Z; Limits : gmap string Z }.

(** [corev1.EnvVar], with the downward-API field path if it has one. *)
Record EnvVar := { Env_Name : string; Env_Value : string; Env_FieldPath : option string }.

Record ClusterSpec := {
  CS_Image : string;
  CS_Replicas : option Z;
  CS_API : option APIConfig;
  CS_ClientTLS : option ClusterTLSConfig;
  CS_GRPCTunnel : option GRPCTunnelConfig;
  CS_Resources : ResourceRequirements;
  CS_Env : list EnvVar;
  CS_TargetDistribution : option TargetDistributionConfig
}.

Record ClusterStatus := {
  CSt_Conditions : list Condition;
  CSt_ReadyReplicas : Z;
  CSt_Selector : string;
  CSt_PipelinesCount : Z;
  CSt_TargetsCount : Z;
  CSt_UnassignedTargets : Z;
  CSt_SubscriptionsCount : Z;
  CSt_InputsCount : Z;
  CSt_OutputsCount : Z
}.

Abbreviation Cluster := (Resource ClusterSpec ClusterStatus).

(** ** TargetSource *)

(** [corev1.SecretKeySelector] and [corev1.ConfigMapKeySelector]. *)
Record KeySelector := { Sel_Name : string; Sel_Key : string }.

Record BasicAuthSpec := { Basic_CredentialSecretRef : option KeySelector }.

Record TokenAuthSpec := { Token_Scheme : string; Token_TokenSecretRef : option KeySelector }.

Record AuthenticationSpec := {
  Auth_Basic : option BasicAuthSpec;
  Auth_Token : option TokenAuthSpec
}.

Record ClientTLSConfig := {
  CliTLS_InsecureSkipVerify : bool;
  CliTLS_CABundleRef : option KeySelector
}.

Record PaginationSpec := { Page_NextField : string; Page_RequestParam : string }.

Record ResponseMappingSpec := {
  Map_TargetsField : string;
  Map_Name : string;
  Map_Address : string;
  Map_Port : string;
  Map_Labels : string;
  Map_TargetProfile : string
}.

Record PushBearerAuthSpec := { Bearer_TokenSecretRef : option KeySelector }.

Record PushSignatureAuthSpec := {
  Sig_SecretRef : option KeySelector;
  Sig_Header : string;
  Sig_Algorithm : string
}.

Record PushAuthSpec := {
  Push_Bearer : option PushBearerAuthSpec;
  Push_Signature : option PushSignatureAuthSpec
}.

Record PushSpec := { Push_Enabled : bool; Push_Auth : option PushAuthSpec }.

Record HTTPConfig := {
  HTTP_URL : string;
  HTTP_Method : string;
  HTTP_Headers : gmap string string;
  HTTP_Body : string;
  HTTP_Authentication : option AuthenticationSpec;
  HTTP_Interval : option Z;
  HTTP_Timeout : option Z;
  HTTP_TLS : option ClientTLSConfig;
  HTTP_Pagination : option PaginationSpec;
  HTTP_ResponseMapping : option ResponseMappingSpec;
  HTTP_Push : option PushSpec
}.

Record ProviderSpec := { Prov_HTTP : option HTTPConfig }.

Record TargetSourceSpec := {
  TSrc_Provider : option ProviderSpec;
  TSrc_TargetPort : Z;
  TSrc_TargetLabels : gmap string string;
  TSrc_TargetProfile : string
}.

Record TargetSourceStatus := {
  TSrcSt_Status : string;
  TSrcSt_ObservedGeneration : Z;
  TSrcSt_TargetsCount : Z;
  TSrcSt_LastSync : Z
}.

Abbreviation TargetSource := (Resource TargetSourceSpec TargetSourceStatus).

#[export] Instance Condition_eq_dec : EqDecision Condition.
Proof. solve_decision. Defined.
#[export] Instance ClusterTargetState_eq_dec : EqDecision ClusterTargetState.
Proof. solve_decision. Defined.
#[export] Instance TargetStatus_eq_dec : EqDecision TargetStatus.
Proof. solve_decision. Defined.
