(* ===== verification/GnmicTypes.v ===== *)
(** The configuration the operator computes for gNMIc
    ([internal/gnmic/types.go]): the apply plan, the resolved data of a
    pipeline, and the parts of the gNMIc configuration structures
    ([TargetConfig], [SubscriptionConfig]) that the operator fills in. *)

From S2P Require Import Prelude Api.

#[local] Set Warnings "-register-all".

(** ** Untyped configuration values *)

(** A Go [any] as YAML and JSON decoding produce it: [VStrMap] is a
    [map[string]any], [VAnyMap] a [map[any]any], [VStrings] a [[]string].  Maps
    are kept as the list of their entries. *)
Inductive Value : Type :=
| VNull
| VBool (b : bool)
| VNum (n : Z)
| VStr (s : string)
| VStrings (l : list string)
| VList (l : list Value)
| VStrMap (m : list (string * Value))
| VAnyMap (m : list (Value * Value)).

(** ** gNMIc configuration structures (fields the operator sets) *)

Record ClientKeepalive := {
  CK_Time : Z;
  CK_Timeout : Z;
  CK_PermitWithoutStream : bool
}.

Record TargetConfig := {
  TC_Name : string;
  TC_Address : string;
  TC_Username : option string;
  TC_Password : option string;
  TC_Token : option string;
  TC_Timeout : Z;
  TC_RetryTimer : Z;
  TC_Encoding : option string;
  TC_Insecure : option bool;
  TC_SkipVerify : option bool;
  TC_TLSCert : option string;
  TC_TLSKey : option string;
  TC_TLSCA : option string;
  TC_TLSServerName : string;
  TC_TLSMaxVersion : string;
  TC_TLSMinVersion : string;
  TC_CipherSuites : list string;
  TC_TCPKeepalive : Z;
  TC_GRPCKeepalive : option ClientKeepalive;
  TC_Subscriptions : list string
}.

Record HistoryConfig := { HC_Snapshot : Z; HC_Start : Z; HC_End : Z }.

(** A nil entry of [StreamSubscriptions] is a [None]. *)
Inductive SubscriptionConfig := MkSubscriptionConfig {
  SubC_Name : string;
  SubC_Prefix : string;
  SubC_Paths : list string;
  SubC_Mode : string;
  SubC_StreamMode : string;
  SubC_UpdatesOnly : bool;
  SubC_Depth : Z;
  SubC_Target : string;
  SubC_Outputs : list string;
  SubC_Encoding : option string;
  SubC_SampleInterval : option Z;
  SubC_HeartbeatInterval : option Z;
  SubC_Qos : option Z;
  SubC_History : option HistoryConfig;
  SubC_StreamSubscriptions : list (option SubscriptionConfig)
}.

(** ** types.go *)

Record TunnelTargetMatch := {
  TTM_Type : string;
  TTM_ID : string;
  TTM_Config : option TargetConfig
}.

(** A target of a pod's plan may be a nil pointer, hence the [option]. *)
Record ApplyPlan := {
  AP_Targets : gmap string (option TargetConfig);
  AP_CurrentTargetAssignment : gmap Z (gmap string unit);
  AP_Subscriptions : gmap string SubscriptionConfig;
  AP_Outputs : gmap string (gmap string Value);
  AP_Inputs : gmap string (gmap string Value);
  AP_Processors : gmap string (list (string * Value));
  AP_TunnelTargetMatches : gmap string TunnelTargetMatch;
  AP_PrometheusPorts : gmap string Z
}.

Record PipelineData := {
  PD_Targets : gmap string Target;
  PD_TargetProfiles : gmap string TargetProfileSpec;
  PD_Subscriptions : gmap string SubscriptionSpec;
  PD_Outputs : gmap string OutputSpec;
  PD_Inputs : gmap string InputSpec;
  PD_OutputProcessors : gmap string ProcessorSpec;
  PD_InputProcessors : gmap string ProcessorSpec;
  PD_TunnelTargetPolicies : gmap string TunnelTargetPolicySpec;
  PD_OutputProcessorOrder : list string;
  PD_InputProcessorOrder : list string;
  PD_ResolvedOutputAddresses : gmap string (list string)
}.

Definition NewPipelineData : PipelineData := {|
  PD_Targets := ∅; PD_TargetProfiles := ∅; PD_Subscriptions := ∅;
  PD_Outputs := ∅; PD_Inputs := ∅; PD_OutputProcessors := ∅;
  PD_InputProcessors := ∅; PD_TunnelTargetPolicies := ∅;
  PD_OutputProcessorOrder := []; PD_InputProcessorOrder := [];
  PD_ResolvedOutputAddresses := ∅
|}.

Record Credentials := {
  Cred_Username : string;
  Cred_Password : string;
  Cred_Token : string
}.

(** [CredentialsFetcher], the one interface the plan builder is given. *)
Class CredentialsFetcher := {
  FetchCredentials : string → string → res Credentials
}.

(** [ClientTLSPaths] of [internal/gnmic/tls.go]. *)
Record ClientTLSPaths := {
  CTP_CertFile : string;
  CTP_KeyFile : string;
  CTP_CAFile : string
}.

Definition Delimiter : string := "/".
