(* ===== verification/Placement.v ===== *)
(** Bounded-load rendezvous hashing ([internal/gnmic/placement.go],
    [internal/gnmic/placement_blrh.go]): which pod collects which target. *)

From S2P Require Import Prelude GoLib.
#[local] Open Scope Z_scope.

(** [Assignment]: pod index to target names. *)
Abbreviation Assignment := (gmap Z (list string)).

Inductive PlacementStrategyType := BoundedLoadHashing | OtherStrategy (name : string).

Record PlacementStrategyOpts := {
  Strategy : PlacementStrategyType;
  NumPods : Z;
  Capacity : Z;
  CurrentAssignment : option Assignment
}.

(** [podScore]: a pod's index and its score for a target. *)
Record podScore := { ps_index : Z; ps_score : Z }.

(** The score of a pod for a target: FNV-1a of ["target:pod"]. *)
Definition hashScore (targetNN : string) (podIndex : Z) : Z :=
  fnv64a (targetNN +:+ ":" +:+ Itoa podIndex).

(** [len(assignments[i])]; a missing key reads as the nil slice. *)
Definition podLen (a : Assignment) (i : Z) : Z :=
  Z.of_nat (length (default [] (a !! i))).

(** The order of [sort.Slice] over scores: highest score first, ties by index. *)
Definition score_less (x y : podScore) : bool :=
  if decide (ps_score x = ps_score y) then bool_decide (ps_index x < ps_index y)
  else bool_decide (ps_score x > ps_score y).

(** The order of [sort.Slice] over the targets a pod already has. *)
Definition name_less (podIndex : Z) (x y : string) : bool :=
  bool_decide (hashScore x podIndex > hashScore y podIndex).

Section Blrh.
Context `{R : GoRuntime}.

(** The pod with the highest score among those below capacity. *)
Definition boundedRendezvousHash (targetNN : string) (numPods capacity : Z)
    (assignments : Assignment) : option Z :=
  let scores := (λ i, {| ps_index := i; ps_score := hashScore targetNN i |})
                  <$> seqZ 0 numPods in
  let scores := go_sort_slice score_less scores in
  ps_index <$> List.find (λ ps, bool_decide (podLen assignments (ps_index ps) < capacity)) scores.

(** The inner loop over one pod's current targets: the slice is created on the
    first one, and targets past the capacity are dropped. *)
Definition keepTarget (capacity podIndex : Z) (st : Assignment * gset string)
    (targetNN : string) : Assignment * gset string :=
  let '(assignments, preAssigned) := st in
  let assignments := match assignments !! podIndex with
                     | None => <[podIndex := []]> assignments
                     | Some _ => assignments
                     end in
  if decide (podLen assignments podIndex >= capacity) then (assignments, preAssigned)
  else (<[podIndex := default [] (assignments !! podIndex) ++ [targetNN]]> assignments,
        {[targetNN]} ∪ preAssigned).

(** The outer loop over the current assignment. *)
Definition keepPod (numPods capacity : Z) (st : Assignment * gset string)
    (entry : Z * list string) : Assignment * gset string :=
  let '(podIndex, targets) := entry in
  if decide (podIndex >= numPods) then st
  else foldl (keepTarget capacity podIndex) st (go_sort_slice (name_less podIndex) targets).

(** The last loop: place one target that is not pre-assigned. *)
Definition assignTarget (numPods capacity : Z) (preAssigned : gset string)
    (assignments : Assignment) (targetNN : string) : Assignment :=
  if decide (targetNN ∈ preAssigned) then assignments
  else match boundedRendezvousHash targetNN numPods capacity assignments with
       | None => assignments
       | Some pod => <[pod := default [] (assignments !! pod) ++ [targetNN]]> assignments
       end.

(** [ceil(numTargets/numPods)] unless a capacity is set. *)
Definition effectiveCapacity (numTargets : Z) (options : PlacementStrategyOpts) : Z :=
  if decide (Capacity options = 0)
  then (numTargets + NumPods options - 1) `quot` NumPods options
  else Capacity options.

Definition boundedLoadRendezvousHash {V} (targets : gmap string V)
    (options : PlacementStrategyOpts) : Assignment :=
  let numTargets := Z.of_nat (size targets) in
  if decide (numTargets = 0) then ∅
  else
    let capacity := effectiveCapacity numTargets options in
    let sortedTargets := sort_strings (go_range targets).*1 in
    let '(assignments, preAssignedTargets) :=
      match CurrentAssignment options with
      | None => (∅, ∅)
      | Some current => foldl (keepPod (NumPods options) capacity) (∅, ∅) (go_range current)
      end in
    foldl (assignTarget (NumPods options) capacity preAssignedTargets)
      assignments sortedTargets.

Definition normalizeOptions (opts : option PlacementStrategyOpts) : PlacementStrategyOpts :=
  match opts with
  | None => {| Strategy := BoundedLoadHashing; NumPods := 1; Capacity := 0;
               CurrentAssignment := None |}
  | Some n => if decide (NumPods n <= 0)
              then {| Strategy := Strategy n; NumPods := 1; Capacity := Capacity n;
                      CurrentAssignment := CurrentAssignment n |}
              else n
  end.

(** [New(strategy).distributeTargets]: every strategy is the bounded one. *)
Definition distributeTargets {V} (strategy : PlacementStrategyType)
    (targets : gmap string V) (options : option PlacementStrategyOpts) : Assignment :=
  match strategy with
  | BoundedLoadHashing => boundedLoadRendezvousHash targets (normalizeOptions options)
  | OtherStrategy _ => boundedLoadRendezvousHash targets (normalizeOptions options)
  end.
End Blrh.

(** ** Reference notions *)

(** The pod rendezvous hashing must pick: it has room, and every other pod with
    room scores less, or the same with a larger index. *)
Definition best_pod (targetNN : string) (numPods capacity : Z) (a : Assignment) (i : Z) : Prop :=
  0 ≤ i < numPods ∧ podLen a i < capacity ∧
  ∀ j, 0 ≤ j < numPods → podLen a j < capacity → j ≠ i →
    hashScore targetNN j < hashScore targetNN i ∨
    (hashScore targetNN j = hashScore targetNN i ∧ i < j).

(** What survives of the current assignment: per pod that still exists, its
    best-scoring targets up to the capacity. *)
Definition kept `{R : GoRuntime} (numPods capacity : Z) (current : Assignment) : Assignment :=
  map_imap (λ p ts,
    if decide (p >= numPods) then None
    else match ts with
         | [] => None
         | _ => Some (take (Z.to_nat capacity) (go_sort_slice (name_less p) ts))
         end) current.

(** Every target placed on a pod of the cluster, with its multiplicity. *)
Definition placed (a : Assignment) (numPods : Z) : list string :=
  concat ((λ i, default [] (a !! i)) <$> seqZ 0 numPods).

(** A current assignment that lists no target twice, on pods of index >= 0. *)
Definition current_wf (cur : Assignment) : Prop :=
  (∀ i l, cur !! i = Some l → 0 ≤ i ∧ NoDup l) ∧
  (∀ i j l l' t, cur !! i = Some l → cur !! j = Some l' → t ∈ l → t ∈ l' → i = j).

Definition current_of (options : PlacementStrategyOpts) : Assignment :=
  default ∅ (CurrentAssignment options).

(** ** The score order *)

Lemma hashScore_range t i : 0 ≤ hashScore t i < 2 ^ 64.
Proof. apply fnv64a_range. Qed.

Lemma score_less_irrefl x : score_less x x = false.
Proof. unfold score_less. rewrite decide_True by done. apply bool_decide_eq_false. lia. Qed.

Lemma score_less_spec x y :
  score_less x y = true ↔
  ps_score y < ps_score x ∨ (ps_score x = ps_score y ∧ ps_index x < ps_index y).
Proof. unfold score_less. case_decide; rewrite bool_decide_eq_true; lia. Qed.

Lemma score_less_false x y :
  score_less x y = false ↔
  ps_score x < ps_score y ∨ (ps_score x = ps_score y ∧ ps_index y ≤ ps_index x).
Proof. unfold score_less. case_decide; rewrite bool_decide_eq_false; lia. Qed.

Lemma name_less_spec p x y : name_less p x y = true ↔ hashScore y p < hashScore x p.
Proof. unfold name_less. rewrite bool_decide_eq_true. lia. Qed.

Lemma name_less_false p x y : name_less p x y = false ↔ hashScore x p ≤ hashScore y p.
Proof. unfold name_less. rewrite bool_decide_eq_false. lia. Qed.

Section Sorted.
Context `{R : GoRuntime}.

Lemma scores_sorted l : StronglySorted (λ x y, score_less y x = false) (go_sort_slice score_less l).
Proof.
  apply go_sort_slice_sorted.
  - apply score_less_irrefl.
  - intros x y z. rewrite !score_less_spec. lia.
  - intros x y z. rewrite !score_less_false. lia.
Qed.

Lemma names_sorted p l : StronglySorted (λ x y, name_less p y x = false) (go_sort_slice (name_less p) l).
Proof.
  apply go_sort_slice_sorted.
  - intros x. rewrite name_less_false. lia.
  - intros x y z. rewrite !name_less_spec. lia.
  - intros x y z. rewrite !name_less_false. lia.
Qed.
End Sorted.

(** The first hit in a sorted list precedes every other hit. *)
Lemma find_sorted {A} (Rel : A → A → Prop) (p : A → bool) l x :
  StronglySorted Rel l → List.find p l = Some x →
  ∀ y, y ∈ l → p y = true → y = x ∨ Rel x y.
Proof.
  induction 1 as [|z l Hs IH Hall]; cbn; [done|]. destruct (p z) eqn:Ez.
  - intros [= ->] y Hy Hp. apply elem_of_cons in Hy as [->|Hy]; [by left|right].
    rewrite list.Forall_forall in Hall. by apply Hall.
  - intros Hf y Hy Hp. apply elem_of_cons in Hy as [->|Hy]; [congruence|]. eauto.
Qed.

Lemma best_pod_unique t n c a i j : best_pod t n c a i → best_pod t n c a j → i = j.
Proof.
  intros (Hi & Hri & Hbi) (Hj & Hrj & Hbj).
  destruct (decide (i = j)) as [|Hne]; [done|].
  specialize (Hbi j Hj Hrj ltac:(done)). specialize (Hbj i Hi Hri ltac:(done)). lia.
Qed.

Section Choice.
Context `{R : GoRuntime}.

Lemma find_room_spec t n c a :
  match boundedRendezvousHash t n c a with
  | Some i => best_pod t n c a i
  | None => ∀ j, 0 ≤ j < n → c ≤ podLen a j
  end.
Proof.
  unfold boundedRendezvousHash. cbn zeta.
  set (mk := λ i, {| ps_index := i; ps_score := hashScore t i |}).
  set (l := go_sort_slice _ _).
  set (room := λ ps, bool_decide (podLen a (ps_index ps) < c)).
  assert (Hl : ∀ x, x ∈ l ↔ ∃ i, x = mk i ∧ 0 ≤ i < n).
  { intros x. unfold l. rewrite go_sort_slice_perm, list_elem_of_fmap.
    setoid_rewrite elem_of_seqZ. naive_solver. }
  destruct (List.find room l) as [x|] eqn:Hf; cbn [fmap option_fmap option_map].
  - destruct (List.find_some _ _ Hf) as [Hin Hroom].
    apply list_elem_of_In, Hl in Hin as (i & -> & Hi). cbn.
    apply bool_decide_eq_true in Hroom. cbn in Hroom.
    split; [done|]. split; [done|]. intros j Hj Hrj Hne.
    destruct (find_sorted _ room l (mk i) (scores_sorted _) Hf (mk j)) as [Heq|Hlt].
    + apply Hl. eauto.
    + by apply bool_decide_eq_true.
    + injection Heq; congruence.
    + apply score_less_false in Hlt. cbn in Hlt. lia.
  - intros j Hj. pose proof (List.find_none _ _ Hf (mk j)) as Hn.
    assert (bool_decide (podLen a j < c) = false) as E%bool_decide_eq_false; [|lia].
    apply Hn, list_elem_of_In, Hl. eauto.
Qed.

Lemma find_room_iff t n c a i :
  boundedRendezvousHash t n c a = Some i ↔ best_pod t n c a i.
Proof.
  pose proof (find_room_spec t n c a) as H.
  destruct (boundedRendezvousHash t n c a) as [k|]; split; try done.
  - by intros [= ->].
  - intros Hb. by rewrite (best_pod_unique _ _ _ _ _ _ H Hb).
  - intros (Hi & Hr & _). specialize (H i Hi). lia.
Qed.

Lemma assignTarget_cases n c pre a t :
  (assignTarget n c pre a t = a ∧ (t ∈ pre ∨ (∀ j, 0 ≤ j < n → c ≤ podLen a j))) ∨
  (∃ i, best_pod t n c a i ∧ (t ∉ pre) ∧
        assignTarget n c pre a t = <[i := default [] (a !! i) ++ [t]]> a).
Proof.
  unfold assignTarget. case_decide; [by left; eauto|].
  pose proof (find_room_spec t n c a) as Hr.
  destruct (boundedRendezvousHash t n c a) as [i|]; [right|left]; eauto.
Qed.
End Choice.

(** ** The pre-assignment loops, in closed form *)

Lemma podLen_insert a i l j :
  podLen (<[i := l]> a) j = if decide (i = j) then Z.of_nat (length l) else podLen a j.
Proof. unfold podLen. rewrite lookup_insert. by case_decide. Qed.

Section Keep.
Context `{R : GoRuntime}.

(** One pod's loop keeps exactly the first [capacity] targets. *)
Lemma keepTarget_loop c p ts a pre l :
  a !! p = Some l →
  foldl (keepTarget c p) (a, pre) ts =
    (<[p := l ++ take (Z.to_nat c - length l) ts]> a,
     list_to_set (take (Z.to_nat c - length l) ts) ∪ pre).
Proof.
  revert a pre l; induction ts as [|t ts IH]; intros a pre l Ha; cbn [foldl].
  - rewrite take_nil, app_nil_r, insert_id by done. f_equal. set_solver.
  - unfold keepTarget at 2. rewrite Ha. unfold podLen. rewrite Ha. cbn [default].
    unfold id. case_decide as Hc.
    + rewrite (IH _ _ l Ha). replace (Z.to_nat c - length l)%nat with O by lia. done.
    + rewrite (IH _ _ (l ++ [t])) by apply lookup_insert_eq.
      rewrite insert_insert_eq, length_app. cbn [length].
      replace (Z.to_nat c - length l)%nat with (S (Z.to_nat c - (length l + 1)))%nat by lia.
      cbn [take]. rewrite <- app_assoc. f_equal. set_solver.
Qed.

Lemma keepTarget_first c p ts a pre :
  a !! p = None → ts ≠ [] →
  foldl (keepTarget c p) (a, pre) ts =
    (<[p := take (Z.to_nat c) ts]> a, list_to_set (take (Z.to_nat c) ts) ∪ pre).
Proof.
  intros Ha Hts. destruct ts as [|t ts]; [done|].
  transitivity (foldl (keepTarget c p) (<[p := []]> a, pre) (t :: ts)).
  - cbn [foldl]. f_equal. unfold keepTarget. by rewrite Ha, !lookup_insert_eq.
  - rewrite (keepTarget_loop _ _ _ _ _ []) by apply lookup_insert_eq.
    rewrite insert_insert_eq, app_nil_l. cbn [length]. by rewrite Nat.sub_0_r.
Qed.

Lemma kept_insert n c cur p ts :
  cur !! p = None →
  kept n c (<[p := ts]> cur) =
    if decide (p >= n) then kept n c cur
    else match ts with
         | [] => kept n c cur
         | _ => <[p := take (Z.to_nat c) (go_sort_slice (name_less p) ts)]> (kept n c cur)
         end.
Proof.
  intros Hp. unfold kept. rewrite map_imap_insert.
  assert (∀ f : Z → list string → option (list string), map_imap f cur !! p = None) as Hn.
  { intros f. by rewrite map_lookup_imap, Hp. }
  case_decide; [by rewrite delete_id|]. destruct ts; [by rewrite delete_id | done].
Qed.

Lemma keepPods n c kvs a pre :
  NoDup kvs.*1 → (∀ k, k ∈ kvs.*1 → a !! k = None) →
  let st := foldl (keepPod n c) (a, pre) kvs in
  st.1 = kept n c (list_to_map kvs) ∪ a ∧
  ∀ t, t ∈ st.2 ↔ t ∈ pre ∨ ∃ p l, kept n c (list_to_map kvs) !! p = Some l ∧ t ∈ l.
Proof.
  revert a pre; induction kvs as [|[p ts] kvs IH]; intros a pre Hnd Hfresh; cbn [foldl].
  - unfold kept. cbn. rewrite map_imap_empty. split; [by rewrite map_empty_union|].
    intros t. setoid_rewrite lookup_empty. naive_solver.
  - apply NoDup_cons in Hnd as [Hp Hnd]. cbn [fst] in Hp.
    assert (Hpn : (list_to_map kvs : Assignment) !! p = None) by by apply not_elem_of_list_to_map_1.
    assert (Hkn : kept n c (list_to_map kvs) !! p = None).
    { unfold kept. by rewrite map_lookup_imap, Hpn. }
    assert (Ha : a !! p = None) by (apply Hfresh; by left).
    assert (Hsort : go_sort_slice (name_less p) ts = [] ↔ ts = []).
    { rewrite <- !length_zero_iff_nil. by rewrite go_sort_slice_perm. }
    cbn [list_to_map foldr fst snd]. rewrite kept_insert by done. unfold keepPod at 2 4. cbn.
    case_decide; [apply IH; [done|]; intros; apply Hfresh; by right|].
    destruct ts as [|t0 ts']; [rewrite (proj2 Hsort) by done; apply IH; [done|]; intros; apply Hfresh; by right|].
    rewrite keepTarget_first by (try done; by intros ?%Hsort).
    set (l := take _ _).
    destruct (IH (<[p := l]> a) (list_to_set l ∪ pre) Hnd) as [H1 H2].
    { intros k Hk. rewrite lookup_insert_ne; [apply Hfresh; by right | by intros ->]. }
    split.
    + rewrite H1. rewrite <- insert_union_l. by rewrite insert_union_r.
    + intros t. rewrite H2. rewrite elem_of_union, elem_of_list_to_set. split.
      * intros [[Hl|Hpre]|(q & l' & Hq & Ht)]; [right|by left|right].
        -- exists p, l. by rewrite lookup_insert_eq.
        -- exists q, l'. rewrite lookup_insert_ne; [done | by intros ->; simplify_eq].
      * intros [Hpre|(q & l' & Hq & Ht)]; [by left; right|].
        apply lookup_insert_Some in Hq as [[-> ->]|[Hne Hq]]; [by left; left | right; eauto].
Qed.

(** The whole function: the targets placed are those kept, and then those the
    last loop adds. *)
Lemma blrh_unfold {V} (targets : gmap string V) o :
  size targets ≠ 0%nat →
  let c := effectiveCapacity (Z.of_nat (size targets)) o in
  let k := kept (NumPods o) c (current_of o) in
  ∃ pre : gset string,
    (∀ t, t ∈ pre ↔ ∃ p l, k !! p = Some l ∧ t ∈ l) ∧
    boundedLoadRendezvousHash targets o =
      foldl (assignTarget (NumPods o) c pre) k (sort_strings (go_range targets).*1).
Proof.
  intros Hs c k. unfold boundedLoadRendezvousHash. cbn zeta.
  rewrite decide_False by lia. fold c.
  destruct (CurrentAssignment o) as [cur|] eqn:Ecur; unfold k, current_of; rewrite Ecur; cbn [default].
  - destruct (keepPods (NumPods o) c (go_range cur) ∅ ∅) as [H1 H2]; [auto with gnmic|done|].
    assert (Hcur : (list_to_map (go_range cur) : Assignment) = cur).
    { symmetry. apply list_to_map_flip. symmetry. apply go_range_perm. }
    rewrite Hcur in H1, H2. rewrite map_union_empty in H1.
    destruct (foldl _ (∅, ∅) _) as [a pre]. cbn in H1, H2. subst a.
    exists pre. split; [|done]. intros t. rewrite H2. set_solver.
  - exists ∅. unfold kept. rewrite map_imap_empty. split; [|done].
    intros t. setoid_rewrite lookup_empty. set_solver.
Qed.
End Keep.

(** ** The last loop *)

Lemma placed_insert a n i t :
  0 ≤ i < n →
  placed (<[i := default [] (a !! i) ++ [t]]> a) n ≡ₚ t :: placed a n.
Proof.
  intros Hi. unfold placed.
  assert (i ∈ seqZ 0 n) as Hin by (apply elem_of_seqZ; lia).
  apply list_elem_of_split in Hin as (l1 & l2 & Hsplit).
  pose proof (NoDup_seqZ 0 n) as Hnd. rewrite Hsplit in Hnd |- *.
  apply NoDup_app in Hnd as (_ & Hnd1 & Hnd2). apply NoDup_cons in Hnd2 as [Hnd2 _].
  assert (∀ l : list Z, i ∉ l →
    fmap (M := list) (λ j, default [] (<[i := default [] (a !! i) ++ [t]]> a !! j)) l =
    fmap (M := list) (λ j, default [] (a !! j)) l) as Hext.
  { intros l Hl. apply list_fmap_ext. intros k j Hk. rewrite lookup_insert_ne; [done|].
    intros ->. by apply Hl, (list_elem_of_lookup_2 _ k). }
  rewrite !fmap_app, !fmap_cons, !concat_app, !Hext, lookup_insert_eq.
  - cbn [default concat]. unfold id. rewrite <- !app_assoc. cbn [app].
    by rewrite <- !Permutation_middle.
  - done.
  - intros Hin. by apply (Hnd1 i); [done | left].
Qed.

Lemma elem_of_placed a n t :
  t ∈ placed a n ↔ ∃ i l, 0 ≤ i < n ∧ a !! i = Some l ∧ t ∈ l.
Proof.
  unfold placed. rewrite list_elem_of_In, in_concat. setoid_rewrite <- list_elem_of_In.
  setoid_rewrite list_elem_of_fmap. setoid_rewrite elem_of_seqZ. split.
  - intros (l & (i & -> & Hi) & Ht). destruct (a !! i) as [l|] eqn:E; cbn in Ht; [|set_solver].
    exists i, l. auto with lia.
  - intros (i & l & Hi & E & Ht). exists l. split; [|done]. exists i. rewrite E. auto with lia.
Qed.

Lemma NoDup_concat_parts {A} (f : Z → list A) (l : list Z) :
  NoDup (concat (f <$> l)) →
  (∀ i, i ∈ l → NoDup (f i)) ∧
  (∀ i j x, i ∈ l → j ∈ l → x ∈ f i → x ∈ f j → i = j).
Proof.
  induction l as [|k l IH]; cbn [fmap list_fmap concat]; [split; set_solver|].
  intros (Hk & Hdisj & Hl)%NoDup_app. destruct (IH Hl) as [IH1 IH2].
  assert (Hin : ∀ j x, j ∈ l → x ∈ f j → x ∈ concat (f <$> l)).
  { intros j x Hj Hx. apply list_elem_of_In, in_concat. exists (f j).
    split; apply list_elem_of_In; [apply list_elem_of_fmap; eauto | done]. }
  split.
  - intros i [->|Hi]%elem_of_cons; auto.
  - intros i j x [->|Hi]%elem_of_cons [->|Hj]%elem_of_cons Hx Hx'; [done|..].
    + exfalso. eapply Hdisj; eauto.
    + exfalso. eapply Hdisj; eauto.
    + eauto.
Qed.

(** In an assignment without repetition a target has one pod. *)
Lemma placed_parts a n :
  NoDup (placed a n) → (∀ i, is_Some (a !! i) → 0 ≤ i < n) →
  (∀ i, NoDup (default [] (a !! i))) ∧
  (∀ i j t, t ∈ default [] (a !! i) → t ∈ default [] (a !! j) → i = j).
Proof.
  intros [H1 H2]%NoDup_concat_parts Hdom.
  assert (Hin : ∀ i, is_Some (a !! i) → i ∈ seqZ 0 n) by (intros i ?%Hdom; apply elem_of_seqZ; lia).
  split.
  - intros i. destruct (a !! i) as [l|] eqn:E; [|constructor].
    specialize (H1 i (Hin i ltac:(eauto))). by rewrite E in H1.
  - intros i j t Hi Hj.
    destruct (a !! i) as [l|] eqn:Ei; [|cbn in Hi; set_solver].
    destruct (a !! j) as [l'|] eqn:Ej; [|cbn in Hj; set_solver].
    apply (H2 i j t (Hin i ltac:(eauto)) (Hin j ltac:(eauto))); [rewrite Ei|rewrite Ej]; done.
Qed.

Section Assign.
Context `{R : GoRuntime} (n c : Z) (pre : gset string).

(** What one run of the last loop over [l] does to [a]: the targets [added]. *)
Definition loop_result (l : list string) (a a' : Assignment) : Prop :=
  ∃ added,
    sublist added (filter (λ t, t ∉ pre) l) ∧
    placed a' n ≡ₚ added ++ placed a n ∧
    (∀ t, t ∈ l → t ∈ pre ∨ t ∈ added ∨ (∀ i, 0 ≤ i < n → c ≤ podLen a' i)) ∧
    (∀ i, prefix (default [] (a !! i)) (default [] (a' !! i))) ∧
    (∀ i, podLen a i ≤ 0 `max` c → podLen a' i ≤ 0 `max` c) ∧
    (∀ i, ¬ 0 ≤ i < n → a' !! i = a !! i).

Lemma podLen_prefix a a' i :
  prefix (default [] (a !! i)) (default [] (a' !! i)) → podLen a i ≤ podLen a' i.
Proof. intros H%prefix_length. unfold podLen. lia. Qed.

Lemma assign_loop l a : loop_result l a (foldl (assignTarget n c pre) a l).
Proof.
  revert a; induction l as [|t l IH]; intros a; cbn [foldl].
  - exists []. repeat split; cbn; try done; set_solver.
  - destruct (IH (assignTarget n c pre a t)) as (added & Hsub & Hpl & Hall & Hpre & Hcap & Hout).
    set (a' := foldl _ _ l) in *.
    destruct (assignTarget_cases n c pre a t) as [[Heq Hwhy]|(i & Hbest & Ht & Heq)];
      rewrite Heq in *.
    + exists added. split_and!; try done.
      * rewrite filter_cons. case_decide; [by constructor | done].
      * intros t' [->|Ht']%elem_of_cons; [|by apply Hall].
        destruct Hwhy as [|Hfull]; [by left|]. right; right. intros j Hj.
        specialize (Hfull j Hj). pose proof (podLen_prefix a a' j (Hpre j)). lia.
    + destruct Hbest as (Hi & Hroom & _). exists (t :: added). split_and!.
      * rewrite filter_cons_True by done. by constructor.
      * rewrite Hpl, placed_insert by done. cbn. by rewrite Permutation_middle.
      * intros t' [->|Ht']%elem_of_cons; [set_solver|]. destruct (Hall t' Ht'); set_solver.
      * intros j. destruct (decide (i = j)) as [<-|Hne].
        -- specialize (Hpre i). rewrite lookup_insert_eq in Hpre. cbn in Hpre.
           etrans; [|exact Hpre]. by apply prefix_app_r.
        -- specialize (Hpre j). by rewrite lookup_insert_ne in Hpre.
      * intros j Hj. apply Hcap. rewrite podLen_insert. case_decide; [|done]. subst j.
        rewrite length_app. unfold podLen in *. cbn. lia.
      * intros j Hj. rewrite Hout by done. rewrite lookup_insert_ne; [done | by intros ->].
Qed.
End Assign.

(** ** Counting *)

Lemma length_concat_bounds {A} (f : Z → list A) (l : list Z) (c : Z) :
  ((∀ i, i ∈ l → Z.of_nat (length (f i)) ≤ c) →
     Z.of_nat (length (concat (f <$> l))) ≤ Z.of_nat (length l) * c) ∧
  ((∀ i, i ∈ l → c ≤ Z.of_nat (length (f i))) →
     Z.of_nat (length l) * c ≤ Z.of_nat (length (concat (f <$> l)))).
Proof.
  induction l as [|i l [IH1 IH2]]; cbn [fmap list_fmap concat length]; [lia|].
  rewrite length_app. split; intros H.
  - pose proof (H i ltac:(by left)). specialize (IH1 ltac:(intros; apply H; by right)). lia.
  - pose proof (H i ltac:(by left)). specialize (IH2 ltac:(intros; apply H; by right)). lia.
Qed.

Lemma length_placed_le a n c :
  0 ≤ n → (∀ i, podLen a i ≤ c) → Z.of_nat (length (placed a n)) ≤ n * c.
Proof.
  intros Hn H. unfold placed.
  pose proof (proj1 (length_concat_bounds (λ i, default [] (a !! i)) (seqZ 0 n) c)) as Hb.
  rewrite length_seqZ, Z2Nat.id in Hb by done. apply Hb. intros i _. apply H.
Qed.

Lemma length_placed_ge a n c :
  0 ≤ n → (∀ i, 0 ≤ i < n → c ≤ podLen a i) → n * c ≤ Z.of_nat (length (placed a n)).
Proof.
  intros Hn H. unfold placed.
  pose proof (proj2 (length_concat_bounds (λ i, default [] (a !! i)) (seqZ 0 n) c)) as Hb.
  rewrite length_seqZ, Z2Nat.id in Hb by done. apply Hb.
  intros i Hi%elem_of_seqZ. apply H. lia.
Qed.

Lemma NoDup_placed a n :
  (∀ i l, a !! i = Some l → NoDup l) →
  (∀ i j l l' t, a !! i = Some l → a !! j = Some l' → t ∈ l → t ∈ l' → i = j) →
  NoDup (placed a n).
Proof.
  intros Hnd Hdisj. unfold placed. generalize (NoDup_seqZ 0 n). generalize (seqZ 0 n) as idx.
  induction idx as [|i idx IH]; cbn [fmap list_fmap concat]; intros Hi; [constructor|].
  apply NoDup_cons in Hi as [Hni Hi]. apply NoDup_app. split_and!; [| |by apply IH].
  - destruct (a !! i) eqn:E; cbn; [by eapply Hnd | constructor].
  - intros t Ht. rewrite list_elem_of_In, in_concat. intros (l & Hl & Ht').
    apply list_elem_of_In, list_elem_of_fmap in Hl as (j & -> & Hj).
    apply list_elem_of_In in Ht'.
    destruct (a !! i) eqn:Ei; cbn in Ht; [|set_solver].
    destruct (a !! j) eqn:Ej; cbn in Ht'; [|set_solver].
    by rewrite (Hdisj _ _ _ _ _ Ei Ej Ht Ht') in Hni.
Qed.

Section Kept.
Context `{R : GoRuntime}.

Lemma kept_lookup n c cur p l :
  kept n c cur !! p = Some l →
  p < n ∧ ∃ ts, cur !! p = Some ts ∧ l = take (Z.to_nat c) (go_sort_slice (name_less p) ts).
Proof.
  unfold kept. rewrite map_lookup_imap. destruct (cur !! p) as [ts|]; cbn; [|done].
  case_decide; [done|]. destruct ts; [done|]. intros [= <-]. split; [lia|eauto].
Qed.

Lemma kept_wf n c cur :
  current_wf cur →
  (∀ i l, kept n c cur !! i = Some l → 0 ≤ i < n ∧ NoDup l ∧ Z.of_nat (length l) ≤ 0 `max` c) ∧
  (∀ i j l l' t, kept n c cur !! i = Some l → kept n c cur !! j = Some l' →
     t ∈ l → t ∈ l' → i = j).
Proof.
  intros [Hwf Hdisj]. split.
  - intros i l (Hi & ts & Hts & ->)%kept_lookup. destruct (Hwf _ _ Hts) as [? Hnd].
    split; [lia|]. split.
    + eapply sublist_NoDup; [|apply sublist_take]. by rewrite go_sort_slice_perm.
    + rewrite length_take. lia.
  - intros i j l l' t (Hi & ts & Hts & ->)%kept_lookup (Hj & ts' & Hts' & ->)%kept_lookup Ht Ht'.
    eapply Hdisj; [exact Hts|exact Hts'| |].
    + rewrite <- (go_sort_slice_perm (name_less i)). by eapply elem_of_take_l.
    + rewrite <- (go_sort_slice_perm (name_less j)). by eapply elem_of_take_l.
Qed.

Lemma sorted_targets_spec {V} (targets : gmap string V) :
  NoDup (sort_strings (go_range targets).*1) ∧
  (∀ t, t ∈ sort_strings (go_range targets).*1 ↔ is_Some (targets !! t)) ∧
  length (sort_strings (go_range targets).*1) = size targets.
Proof.
  split_and!.
  - rewrite sort_strings_perm. auto with gnmic.
  - intros t. by rewrite elem_of_sort_strings, elem_of_go_range_keys.
  - by rewrite sort_strings_perm, length_fmap, length_go_range.
Qed.
End Kept.

Lemma ceil_capacity t n : 0 < n → 0 ≤ t → t ≤ n * ((t + n - 1) `quot` n).
Proof.
  intros Hn Ht. rewrite Z.quot_div_nonneg by lia.
  pose proof (Z.div_mod (t + n - 1) n ltac:(lia)).
  pose proof (Z.mod_pos_bound (t + n - 1) n Hn). lia.
Qed.

(** The loop result on the whole target set, with the facts both the counting
    and the completeness theorem need. *)
Lemma blrh_result `{R : GoRuntime} {V} (targets : gmap string V) o :
  size targets ≠ 0%nat → 0 < NumPods o → current_wf (current_of o) →
  let n := NumPods o in
  let c := effectiveCapacity (Z.of_nat (size targets)) o in
  let a := boundedLoadRendezvousHash targets o in
  (∀ i, podLen a i ≤ 0 `max` c) ∧ NoDup (placed a n) ∧
  (∀ i, is_Some (a !! i) → 0 ≤ i < n) ∧
  (∀ t, is_Some (targets !! t) → t ∈ placed a n ∨ (∀ i, 0 ≤ i < n → c ≤ podLen a i)) ∧
  (∀ t, t ∈ placed a n → is_Some (targets !! t) ∨
        ∃ p l, p < n ∧ current_of o !! p = Some l ∧ t ∈ l).
Proof.
  intros Hs Hn Hwf n c a.
  destruct (blrh_unfold targets o Hs) as (pre & Hpre & Heq). fold n c a in Hpre, Heq.
  destruct (kept_wf n c _ Hwf) as [Hk Hdisj].
  destruct (sorted_targets_spec targets) as (Hnd & Hin & Hlen).
  set (k := kept n c (current_of o)) in *.
  destruct (assign_loop n c pre (sort_strings (go_range targets).*1) k)
    as (added & Hsub & Hpl & Hall & Hpfx & Hcap & Hout). rewrite <- Heq in Hpl, Hall, Hpfx, Hcap, Hout.
  assert (Hkp : ∀ t, t ∈ placed k n → t ∈ pre).
  { intros t (i & l & _ & Hl & Ht)%elem_of_placed. apply Hpre. eauto. }
  assert (Hadd : ∀ t, t ∈ added → (t ∉ pre) ∧ is_Some (targets !! t)).
  { intros t Ht. apply (sublist_incl _ _ _ Hsub) in Ht.
    apply list_elem_of_filter in Ht as [? ?%Hin]. done. }
  split_and!.
  - intros i. apply Hcap. unfold podLen. destruct (k !! i) as [l|] eqn:E; cbn; [|lia].
    destruct (Hk _ _ E) as (_ & _ & ?). unfold id. lia.
  - rewrite Hpl. apply NoDup_app. split_and!.
    + eapply sublist_NoDup; [|exact Hsub]. by apply NoDup_filter.
    + intros t Ht Ht'. destruct (Hadd t Ht) as [Hnp _]. by apply Hnp, Hkp.
    + apply NoDup_placed; [|done]. intros i l Hl. by destruct (Hk _ _ Hl) as (_ & ? & _).
  - intros i Hi. destruct (decide (0 ≤ i < n)) as [|Ho]; [done|].
    rewrite Hout in Hi by done. destruct Hi as [l Hl]. by destruct (Hk _ _ Hl).
  - intros t Ht. destruct (Hall t) as [Hp|[Ha|Hfull]]; [by apply Hin| | |by right]; left.
    + rewrite Hpl. apply elem_of_app. right. apply Hpre in Hp as (p & l & Hl & Htl).
      apply elem_of_placed. exists p, l. by destruct (Hk _ _ Hl).
    + rewrite Hpl. apply elem_of_app. by left.
  - intros t. rewrite Hpl, elem_of_app. intros [Ha|Hk']; [left; by apply Hadd|right].
    apply elem_of_placed in Hk' as (p & l & Hp & Hl & Ht).
    apply kept_lookup in Hl as (Hp' & ts & Hts & ->). exists p, ts. split_and!; [done..|].
    rewrite <- (go_sort_slice_perm (name_less p)). by eapply elem_of_take_l.
Qed.

(** ** Theorems *)

(** C5: [boundedRendezvousHash] refines rendezvous hashing with bounded load: it
    returns pod [i] exactly when [i] is the pod of the highest FNV-1a score, ties
    to the lowest index, among the pods below capacity; so it returns nil exactly
    when no pod has room. *)
Theorem rendezvous_refines_best_pod `{R : GoRuntime} t n c a i :
  (boundedRendezvousHash t n c a = Some i ↔ best_pod t n c a i) ∧
  (boundedRendezvousHash t n c a = None ↔ ∀ j, 0 ≤ j < n → c ≤ podLen a j).
Proof.
  split; [apply find_room_iff|].
  pose proof (find_room_spec t n c a) as H.
  destruct (boundedRendezvousHash t n c a) as [k|]; split; try done.
  intros Hf. destruct H as (Hk & Hr & _). specialize (Hf k Hk). lia.
Qed.

(** No pod is ever given more targets than its capacity (the configured one,
    or [ceil(targets/pods)]), whatever the current assignment lists. *)
Theorem placement_respects_capacity `{R : GoRuntime} {V} (targets : gmap string V) o i :
  podLen (boundedLoadRendezvousHash targets o) i ≤
    0 `max` effectiveCapacity (Z.of_nat (size targets)) o.
Proof.
  destruct (decide (size targets = 0%nat)) as [Hs|Hs].
  { unfold boundedLoadRendezvousHash, podLen. cbn zeta.
    rewrite decide_True by lia. rewrite lookup_empty. cbn. lia. }
  destruct (blrh_unfold targets o Hs) as (pre & _ & Heq). cbn zeta in Heq. rewrite Heq.
  destruct (assign_loop (NumPods o) (effectiveCapacity (Z.of_nat (size targets)) o) pre
    (sort_strings (go_range targets).*1)
    (kept (NumPods o) (effectiveCapacity (Z.of_nat (size targets)) o) (current_of o)))
    as (_ & _ & _ & _ & _ & Hcap & _).
  apply Hcap. unfold podLen. destruct (kept _ _ _ !! i) as [l|] eqn:E; cbn; [|lia].
  apply kept_lookup in E as (_ & ts & _ & ->). unfold id. rewrite length_take. lia.
Qed.

(** C4: Placement is an exact bounded assignment: when the current assignment
    lists no target twice and only targets of the plan, every target sits on at
    most one pod of the cluster, only targets of the plan are placed, and exactly
    [min(targets, pods * capacity)] of them are. *)
Theorem placement_exact `{R : GoRuntime} {V} (targets : gmap string V) o :
  0 < NumPods o → 0 ≤ Capacity o → current_wf (current_of o) →
  (∀ p l t, current_of o !! p = Some l → t ∈ l → is_Some (targets !! t)) →
  let n := NumPods o in
  let T := Z.of_nat (size targets) in
  let a := boundedLoadRendezvousHash targets o in
  NoDup (placed a n) ∧ (∀ t, t ∈ placed a n → is_Some (targets !! t)) ∧
  (∀ i, is_Some (a !! i) → 0 ≤ i < n) ∧
  Z.of_nat (length (placed a n)) = T `min` (n * effectiveCapacity T o).
Proof.
  intros Hn Hc Hwf Hcur n T a.
  destruct (decide (size targets = 0%nat)) as [Hs|Hs].
  { assert (a = ∅) as -> by (unfold a, boundedLoadRendezvousHash; cbn zeta; by rewrite decide_True by lia).
    assert (placed ∅ n = []) as ->.
    { unfold placed. generalize (seqZ 0 n). intros l. by induction l. }
    assert (0 ≤ effectiveCapacity T o).
    { unfold effectiveCapacity. case_decide; [apply Z.quot_pos|]; lia. }
    split_and!; [constructor | set_solver | by intros i [] | cbn; nia]. }
  destruct (blrh_result targets o Hs Hn Hwf) as (Hcap & Hnd & Hdom & Hall & Hsub).
  fold n T a in Hcap, Hnd, Hdom, Hall, Hsub. set (c := effectiveCapacity T o) in *.
  assert (0 ≤ c) as Hc0. { unfold c, effectiveCapacity. case_decide; [apply Z.quot_pos|]; lia. }
  assert (Hin : ∀ t, t ∈ placed a n → is_Some (targets !! t)).
  { intros t [?|(p & l & _ & Hl & Ht)]%Hsub; [done|]. by eapply Hcur. }
  split_and!; [done..|].
  assert (Hperm : (sort_strings (go_range targets).*1 ⊆+ placed a n) ∨ n * c ≤ Z.of_nat (length (placed a n))).
  { destruct (decide (Forall (λ t, t ∈ placed a n) (sort_strings (go_range targets).*1))) as [Hf|Hf].
    - left. apply NoDup_submseteq; [apply sorted_targets_spec|]. by apply list.Forall_forall.
    - right. apply not_Forall_Exists, Exists_exists in Hf as (t & Ht & Hnt); [|apply _].
      apply length_placed_ge; [lia|]. destruct (Hall t) as [|]; [|done|done].
      by apply sorted_targets_spec. }
  assert (Hle : Z.of_nat (length (placed a n)) ≤ T).
  { assert (placed a n ⊆+ sort_strings (go_range targets).*1) as Hp%submseteq_length.
    { apply NoDup_submseteq; [done|]. intros t ?%Hin. by apply sorted_targets_spec. }
    rewrite (proj2 (proj2 (sorted_targets_spec targets))) in Hp. lia. }
  pose proof (length_placed_le a n c ltac:(lia) ltac:(intros i; specialize (Hcap i); lia)).
  destruct Hperm as [Hp%submseteq_length|]; [|lia].
  rewrite (proj2 (proj2 (sorted_targets_spec targets))) in Hp. lia.
Qed.

(** A pod keeps the targets it already has: a current target leaves its pod
    only when the pod's list is longer than the capacity, and then the pod keeps,
    ahead of every newly placed target, exactly [capacity] of its old targets,
    none of which scores less than the one that left. *)
Theorem placement_stable `{R : GoRuntime} {V} (targets : gmap string V) o p ts t :
  size targets ≠ 0%nat → p < NumPods o → current_of o !! p = Some ts → t ∈ ts →
  let c := effectiveCapacity (Z.of_nat (size targets)) o in
  let now := default [] (boundedLoadRendezvousHash targets o !! p) in
  t ∉ now →
  c < Z.of_nat (length ts) ∧
  ∃ l, prefix l now ∧ length l = Z.to_nat c ∧
    ∀ u, u ∈ l → u ∈ ts ∧ hashScore t p ≤ hashScore u p.
Proof.
  intros Hs Hp Hcur Ht c now Hgone.
  destruct (blrh_unfold targets o Hs) as (pre & _ & Heq). fold c in Heq.
  destruct (assign_loop (NumPods o) c pre (sort_strings (go_range targets).*1)
    (kept (NumPods o) c (current_of o))) as (_ & _ & _ & _ & Hpre & _).
  rewrite <- Heq in Hpre. specialize (Hpre p). fold now in Hpre.
  set (s := go_sort_slice (name_less p) ts).
  assert (Hk : kept (NumPods o) c (current_of o) !! p = Some (take (Z.to_nat c) s)).
  { unfold kept. rewrite map_lookup_imap, Hcur. cbn. rewrite decide_False by lia.
    destruct ts; [set_solver | done]. }
  rewrite Hk in Hpre. cbn in Hpre. unfold id in Hpre.
  assert (Hts : t ∈ s) by (unfold s; by rewrite go_sort_slice_perm).
  assert (Hnt : t ∉ take (Z.to_nat c) s).
  { intros Hin. apply Hgone. destruct Hpre as [r ->]. set_solver. }
  assert (Hd : t ∈ drop (Z.to_nat c) s).
  { rewrite <- (take_drop (Z.to_nat c) s) in Hts. set_solver. }
  assert (Hlen : (Z.to_nat c < length s)%nat).
  { destruct (decide (length s ≤ Z.to_nat c)%nat) as [Hge|]; [|lia].
    rewrite drop_ge in Hd by done. set_solver. }
  split; [assert (length s = length ts) by (unfold s; by rewrite go_sort_slice_perm); lia|].
  exists (take (Z.to_nat c) s). split_and!; [done | rewrite length_take; lia |].
  intros u Hu. split; [rewrite <- (go_sort_slice_perm (name_less p) ts); by eapply elem_of_take_l|].
  pose proof (names_sorted p ts) as Hsort. fold s in Hsort.
  rewrite <- (take_drop (Z.to_nat c) s) in Hsort.
  apply name_less_false. exact (StronglySorted_app_1_elem_of _ _ _ _ _ Hsort Hu Hd).
Qed.

(** No two targets of a pod's current list have the same score for that pod. *)
Definition no_ties (cur : Assignment) : Prop :=
  ∀ p ts t u, cur !! p = Some ts → t ∈ ts → u ∈ ts →
    hashScore t p = hashScore u p → t = u.

Lemma sort_names_unique (R1 R2 : GoRuntime) p ts :
  (∀ t u, t ∈ ts → u ∈ ts → hashScore t p = hashScore u p → t = u) →
  @go_sort_slice R1 _ (name_less p) ts = @go_sort_slice R2 _ (name_less p) ts.
Proof.
  intros Hties.
  apply (StronglySorted_unique_strong (λ x y, name_less p y x = false)).
  - intros x y Hx Hy. rewrite (@go_sort_slice_perm R1) in Hx. rewrite (@go_sort_slice_perm R2) in Hy.
    rewrite !name_less_false. intros. apply Hties; [done..|lia].
  - apply names_sorted.
  - apply names_sorted.
  - by rewrite !go_sort_slice_perm.
Qed.

Lemma rendezvous_unique (R1 R2 : GoRuntime) t n c a :
  @boundedRendezvousHash R1 t n c a = @boundedRendezvousHash R2 t n c a.
Proof.
  destruct (@boundedRendezvousHash R1 t n c a) as [i|] eqn:E1; symmetry.
  - apply find_room_iff. by apply find_room_iff in E1.
  - pose proof (@find_room_spec R2 t n c a) as H2. pose proof (@find_room_spec R1 t n c a) as H1.
    rewrite E1 in H1. destruct (@boundedRendezvousHash R2 t n c a) as [j|]; [|done].
    destruct H2 as (Hj & Hr & _). specialize (H1 j Hj). lia.
Qed.

(** Placement depends neither on the order Go ranges over maps nor on where
    [sort.Slice] leaves ties: two runs on equal inputs agree, unless two current
    targets of one pod have the same 64-bit score. *)
Theorem placement_deterministic (R1 R2 : GoRuntime) {V} (targets : gmap string V) o :
  no_ties (current_of o) →
  @boundedLoadRendezvousHash R1 _ targets o = @boundedLoadRendezvousHash R2 _ targets o.
Proof.
  intros Hties. destruct (decide (size targets = 0%nat)) as [Hs|Hs].
  { unfold boundedLoadRendezvousHash. cbn zeta. by rewrite !decide_True by lia. }
  destruct (@blrh_unfold R1 _ targets o Hs) as (pre1 & Hpre1 & ->).
  destruct (@blrh_unfold R2 _ targets o Hs) as (pre2 & Hpre2 & ->).
  set (c := effectiveCapacity _ _) in *.
  assert (Hk : @kept R1 (NumPods o) c (current_of o) = @kept R2 (NumPods o) c (current_of o)).
  { unfold kept. apply map_imap_ext. intros p. destruct (current_of o !! p) as [ts|] eqn:E; cbn; [|done].
    rewrite (sort_names_unique R1 R2); [done|]. intros. by eapply Hties. }
  rewrite Hk in Hpre1 |- *.
  assert (pre1 = pre2) as -> by (apply set_eq; intros t; by rewrite Hpre1, Hpre2).
  rewrite (sort_strings_proper _ _ (go_range_keys_perm R1 R2 targets)).
  generalize (@kept R2 (NumPods o) c (current_of o)).
  induction (sort_strings _) as [|t l IH]; intros a; cbn; [done|].
  rewrite IH. unfold assignTarget. by rewrite (rendezvous_unique R1 R2).
Qed.

(** Same content per pod, in any order. *)
Definition same_pods (a b : Assignment) : Prop :=
  ∀ p, default [] (a !! p) ≡ₚ default [] (b !! p).

Definition with_current (o : PlacementStrategyOpts) (cur : Assignment) : PlacementStrategyOpts :=
  {| Strategy := Strategy o; NumPods := NumPods o; Capacity := Capacity o;
     CurrentAssignment := Some cur |}.

Lemma same_pods_len a b p : same_pods a b → podLen a p = podLen b p.
Proof. intros H. unfold podLen. by rewrite (H p). Qed.

Lemma kept_same_pods `{R : GoRuntime} n c cur a :
  same_pods cur a → (∀ i, podLen a i ≤ 0 `max` c) → (∀ i, is_Some (a !! i) → 0 ≤ i < n) →
  same_pods (kept n c cur) a.
Proof.
  intros Hsame Hcap Hdom p. rewrite <- (Hsame p). unfold kept. rewrite map_lookup_imap.
  specialize (Hsame p). specialize (Hcap p). unfold podLen in Hcap.
  destruct (cur !! p) as [ts|]; [|done]. cbn [default mbind option_bind] in *. unfold id in *.
  case_decide as Hp.
  - destruct (a !! p) eqn:Ha; [destruct (Hdom p); [by eauto|lia]|]. done.
  - destruct ts as [|t ts]; [done|]. rewrite <- Hsame in Hcap.
    rewrite take_ge; [apply go_sort_slice_perm|].
    rewrite go_sort_slice_perm. cbn [length] in *. lia.
Qed.

(** Feeding a computed assignment back as the current one, with its lists in any
    order, moves no target. *)
Lemma placement_idempotent `{R : GoRuntime} {V} (targets : gmap string V) o cur :
  0 < NumPods o → current_wf (current_of o) →
  same_pods cur (boundedLoadRendezvousHash targets o) →
  same_pods (boundedLoadRendezvousHash targets (with_current o cur))
            (boundedLoadRendezvousHash targets o).
Proof.
  intros Hn Hwf Hsame. destruct (decide (size targets = 0%nat)) as [Hs|Hs].
  { unfold boundedLoadRendezvousHash. cbn zeta. rewrite !decide_True by lia. by intros p. }
  destruct (blrh_result targets o Hs Hn Hwf) as (Hcap & _ & Hdom & Hall & _).
  destruct (blrh_unfold targets (with_current o cur) Hs) as (pre & Hpre & ->).
  cbn [NumPods with_current CurrentAssignment] in *.
  change (effectiveCapacity (Z.of_nat (size targets)) (with_current o cur))
    with (effectiveCapacity (Z.of_nat (size targets)) o) in *.
  change (current_of (with_current o cur)) with cur in *.
  set (c := effectiveCapacity _ o) in *. set (a := boundedLoadRendezvousHash targets o) in *.
  pose proof (kept_same_pods (NumPods o) c cur a Hsame Hcap Hdom) as Hk.
  set (k := kept (NumPods o) c cur) in *.
  assert (Hid : ∀ t, is_Some (targets !! t) → assignTarget (NumPods o) c pre k t = k).
  { intros t Ht. destruct (assignTarget_cases (NumPods o) c pre k t) as [[? _]|(i & (Hi & Hr & _) & Hnp & _)]; [done|].
    rewrite (same_pods_len _ _ _ Hk) in Hr. destruct (Hall t Ht) as [Hin|Hfull].
    - exfalso. apply Hnp, Hpre. apply elem_of_placed in Hin as (j & l & _ & Hl & Hjt).
      specialize (Hk j). rewrite Hl in Hk. cbn in Hk. unfold id in Hk. rewrite <- Hk in Hjt.
      exists j. destruct (k !! j); cbn in Hjt; [eauto|set_solver].
    - specialize (Hfull i Hi). lia. }
  rewrite (foldl_inv _ (λ b, b = k)); [done|done|].
  intros b t Ht ->. apply Hid. by apply sorted_targets_spec.
Qed.

(** ** Witnesses *)

Definition three_pods : PlacementStrategyOpts := {|
  Strategy := BoundedLoadHashing; NumPods := 3; Capacity := 0;
  CurrentAssignment := Some {[ 1 := ["a"; "b"; "c"]; 4 := ["d"] ]} |}.

Definition five_targets : gmap string unit :=
  list_to_map [("a", ()); ("b", ()); ("c", ()); ("d", ()); ("e", ())].

Lemma three_pods_wf : current_wf (current_of three_pods).
Proof.
  split.
  - intros i l H. cbn in H. unfold id in H. apply lookup_insert_Some in H as [[<- <-]|[_ H]].
    + split; [lia|]. by apply (bool_decide_unpack _).
    + apply lookup_singleton_Some in H as [<- <-]. split; [lia|]. by apply (bool_decide_unpack _).
  - intros i j l l' t H H' Ht Ht'. cbn in H, H'. unfold id in H, H'.
    apply lookup_insert_Some in H as [[<- <-]|[_ H]];
      apply lookup_insert_Some in H' as [[<- <-]|[_ H']]; try done.
    + apply lookup_singleton_Some in H' as [<- <-]. set_solver.
    + apply lookup_singleton_Some in H as [<- <-]. set_solver.
    + apply lookup_singleton_Some in H as [<- _], H' as [<- _]. done.
Qed.

Lemma three_pods_known p l t :
  current_of three_pods !! p = Some l → t ∈ l → is_Some (five_targets !! t).
Proof.
  intros H Ht. cbn in H. unfold id in H. apply lookup_insert_Some in H as [[_ <-]|[_ H]].
  - repeat (apply elem_of_cons in Ht as [->|Ht]; [by vm_compute; eauto|]). set_solver.
  - apply lookup_singleton_Some in H as [_ <-].
    repeat (apply elem_of_cons in Ht as [->|Ht]; [by vm_compute; eauto|]). set_solver.
Qed.

(** The comment of [boundedLoadRendezvousHash] says the default capacity makes
    the distribution differ by at most 1 between pods; it does not. *)
Example placement_not_balanced :
  let targets := list_to_map [("r0", ()); ("r4", ()); ("r8", ()); ("v0", ())] : gmap string unit in
  let a := boundedLoadRendezvousHash targets
    {| Strategy := BoundedLoadHashing; NumPods := 3; Capacity := 0; CurrentAssignment := None |} in
  podLen a 0 = 2 ∧ podLen a 1 = 2 ∧ podLen a 2 = 0.
Proof. by vm_compute. Qed.

Lemma placement_exact_witness :
  Z.of_nat (length (placed (boundedLoadRendezvousHash five_targets three_pods) 3)) = 5.
Proof.
  exact (proj2 (proj2 (proj2 (placement_exact five_targets three_pods
    ltac:(by vm_compute) ltac:(by vm_compute) three_pods_wf three_pods_known)))).
Defined.

(** Two pods of capacity one, and a current list one too long. *)
Definition tight_pods : PlacementStrategyOpts := {|
  Strategy := BoundedLoadHashing; NumPods := 2; Capacity := 1;
  CurrentAssignment := Some {[ 1 := ["a"; "b"; "c"] ]} |}.

Lemma placement_stable_witness :
  1 < 3 ∧ "a" ∉ default [] (boundedLoadRendezvousHash five_targets tight_pods !! 1).
Proof.
  assert (H : "a" ∉ default [] (boundedLoadRendezvousHash five_targets tight_pods !! 1)).
  { apply (bool_decide_unpack _). by vm_compute. }
  split; [|exact H].
  exact (proj1 (placement_stable five_targets tight_pods 1 ["a"; "b"; "c"] "a"
    ltac:(by vm_compute) ltac:(by vm_compute) ltac:(by vm_compute) ltac:(by left) H)).
Defined.

Lemma three_pods_no_ties : no_ties (current_of three_pods).
Proof.
  assert (Hdec : ∀ p ts, Forall (λ t, Forall (λ u, hashScore t p = hashScore u p → t = u) ts) ts →
    ∀ t u, t ∈ ts → u ∈ ts → hashScore t p = hashScore u p → t = u).
  { intros p ts H t u Ht Hu. rewrite list.Forall_forall in H. specialize (H t Ht). rewrite list.Forall_forall in H. by apply H. }
  intros p ts t u H. cbn in H. unfold id in H.
  apply lookup_insert_Some in H as [[<- <-]|[_ H]]; [|apply lookup_singleton_Some in H as [<- <-]];
    revert t u; apply Hdec, (bool_decide_unpack _); by vm_compute.
Qed.

Lemma placement_deterministic_witness :
  @boundedLoadRendezvousHash go_reference _ five_targets three_pods =
  @boundedLoadRendezvousHash go_reversed _ five_targets three_pods.
Proof. exact (placement_deterministic _ _ five_targets three_pods three_pods_no_ties). Defined.
