(* ===== verification/Distribute.v ===== *)
(** Splitting a cluster's plan over its pods ([internal/gnmic/distribute.go]). *)

From S2P Require Import Prelude GoLib Api GnmicTypes Placement.
#[local] Open Scope Z_scope.

Record DistributeResult := {
  PerPodPlans : gmap Z ApplyPlan;
  UnassignedTargets : list string
}.

Section Distribute.
Context `{R : GoRuntime}.

(** One pod of [plan.CurrentTargetAssignment]: append its names, then sort the
    slice; a pod without targets never gets a key. *)
Definition currentPod (current : Assignment) (entry : Z * gmap string unit) : Assignment :=
  let '(podIndex, targets) := entry in
  let current := foldl (λ m targetNN, <[podIndex := default [] (m !! podIndex) ++ [targetNN]]> m)
                   current (go_range targets).*1 in
  match current !! podIndex with
  | None => current
  | Some l => <[podIndex := sort_strings l]> current
  end.

Definition currentAssignment (plan : ApplyPlan) : Assignment :=
  foldl currentPod ∅ (go_range (AP_CurrentTargetAssignment plan)).

(** The plan of one pod: the shared parts of the plan and the pod's targets. *)
Definition podPlan (plan : ApplyPlan) (targets : list string) : ApplyPlan := {|
  AP_Targets := foldl (λ m targetNN, <[targetNN := mjoin (AP_Targets plan !! targetNN)]> m) ∅ targets;
  AP_CurrentTargetAssignment := ∅;
  AP_Subscriptions := AP_Subscriptions plan;
  AP_Outputs := AP_Outputs plan;
  AP_Inputs := AP_Inputs plan;
  AP_Processors := AP_Processors plan;
  AP_TunnelTargetMatches := AP_TunnelTargetMatches plan;
  AP_PrometheusPorts := ∅
|}.

(** The loop over the new assignment fills [result] and [assigned]. *)
Definition addPod (plan : ApplyPlan) (st : gmap Z ApplyPlan * gset string)
    (entry : Z * list string) : gmap Z ApplyPlan * gset string :=
  let '(result, assigned) := st in
  let '(podIndex, targets) := entry in
  (<[podIndex := podPlan plan targets]> result, list_to_set targets ∪ assigned).

Definition placementOptions (plan : ApplyPlan) (numPods : Z)
    (targetDistribution : option TargetDistributionConfig) : PlacementStrategyOpts := {|
  Strategy := OtherStrategy "";
  NumPods := if decide (numPods <= 0) then 1 else numPods;
  Capacity := match targetDistribution with Some d => PodCapacity d | None => 0 end;
  CurrentAssignment := Some (currentAssignment plan)
|}.

Definition DistributeTargets (plan : ApplyPlan) (numPods : Z)
    (targetDistribution : option TargetDistributionConfig) : DistributeResult :=
  let newAssignment := distributeTargets BoundedLoadHashing (AP_Targets plan)
                         (Some (placementOptions plan numPods targetDistribution)) in
  let '(result, assigned) := foldl (addPod plan) (∅, ∅) (go_range newAssignment) in
  let unassigned := filter (λ targetNN, targetNN ∉ assigned) (go_range (AP_Targets plan)).*1 in
  {| PerPodPlans := result; UnassignedTargets := sort_strings unassigned |}.
End Distribute.

(** ** The loops in closed form *)

Section Closed.
Context `{R : GoRuntime}.

Lemma append_loop (p : Z) l (m : Assignment) :
  foldl (λ m t, <[p := default [] (m !! p) ++ [t]]> m) m l =
  match l with [] => m | _ => <[p := default [] (m !! p) ++ l]> m end.
Proof.
  revert m; induction l as [|t l IH]; intros m; cbn [foldl]; [done|].
  rewrite IH. destruct l as [|u l]; [done|].
  by rewrite lookup_insert_eq, insert_insert_eq; cbn; rewrite <- app_assoc.
Qed.

Definition current_pods (cur : gmap Z (gmap string unit)) : Assignment :=
  omap (λ ts : gmap string unit, match (go_range ts).*1 with [] => None | l => Some (sort_strings l) end) cur.

Lemma currentAssignment_loop kvs (m : Assignment) :
  NoDup kvs.*1 → (∀ k, k ∈ kvs.*1 → m !! k = None) →
  foldl currentPod m kvs = current_pods (list_to_map kvs) ∪ m.
Proof.
  revert m; induction kvs as [|[p ts] kvs IH]; intros m Hnd Hfresh; cbn [foldl].
  - unfold current_pods. by rewrite list_to_map_nil, omap_empty, map_empty_union.
  - apply NoDup_cons in Hnd as [Hp Hnd]. cbn [fst] in Hp.
    assert (Hm : m !! p = None) by (apply Hfresh; by left).
    assert (Hpn : (list_to_map kvs : gmap Z (gmap string unit)) !! p = None)
      by by apply not_elem_of_list_to_map_1.
    assert (Hcp : current_pods (list_to_map kvs) !! p = None)
      by (unfold current_pods; by rewrite lookup_omap, Hpn).
    cbn [list_to_map foldr fst snd]. unfold currentPod at 2. rewrite append_loop.
    destruct (go_range ts).*1 as [|t l] eqn:El.
    + rewrite Hm, IH by (try done; intros; apply Hfresh; by right). f_equal.
      unfold current_pods. rewrite omap_insert_None; [by rewrite delete_id|]. by rewrite El.
    + rewrite lookup_insert_eq, insert_insert_eq, Hm. cbn [default app]. unfold id.
      rewrite IH; [|done|].
      * unfold current_pods at 2. erewrite omap_insert_Some by by rewrite El.
        fold (current_pods (list_to_map kvs)). rewrite <- insert_union_l. by rewrite insert_union_r.
      * intros k Hk. rewrite lookup_insert_ne; [apply Hfresh; by right | by intros ->].
Qed.

Lemma currentAssignment_closed plan :
  currentAssignment plan = current_pods (AP_CurrentTargetAssignment plan).
Proof.
  unfold currentAssignment. rewrite currentAssignment_loop; [|auto with gnmic|done].
  rewrite map_union_empty. f_equal. symmetry. apply list_to_map_flip. symmetry. apply go_range_perm.
Qed.

Lemma elem_of_currentAssignment plan p l t :
  currentAssignment plan !! p = Some l → t ∈ l →
  ∃ ts, AP_CurrentTargetAssignment plan !! p = Some ts ∧ is_Some (ts !! t).
Proof.
  rewrite currentAssignment_closed. unfold current_pods. rewrite lookup_omap.
  destruct (AP_CurrentTargetAssignment plan !! p) as [ts|]; cbn [mbind option_bind]; [|done].
  destruct (go_range ts).*1 as [|u us] eqn:E; [done|]. intros H. apply (inj Some) in H as <-.
  rewrite elem_of_sort_strings, <- E, elem_of_go_range_keys. eauto.
Qed.

Lemma NoDup_currentAssignment plan p l : currentAssignment plan !! p = Some l → NoDup l.
Proof.
  rewrite currentAssignment_closed. unfold current_pods. rewrite lookup_omap.
  destruct (AP_CurrentTargetAssignment plan !! p) as [ts|]; cbn [mbind option_bind]; [|done].
  destruct (go_range ts).*1 as [|u us] eqn:E; [done|]. intros H. apply (inj Some) in H as <-.
  rewrite sort_strings_perm, <- E. auto with gnmic.
Qed.

Lemma addPod_loop plan kvs r s :
  NoDup kvs.*1 →
  let st := foldl (addPod plan) (r, s) kvs in
  (∀ p, st.1 !! p = match (list_to_map kvs : Assignment) !! p with
                    | Some l => Some (podPlan plan l) | None => r !! p end) ∧
  (∀ t, t ∈ st.2 ↔ t ∈ s ∨ ∃ p l, (list_to_map kvs : Assignment) !! p = Some l ∧ t ∈ l).
Proof.
  revert r s; induction kvs as [|[p ts] kvs IH]; intros r s Hnd; cbn [foldl].
  - split; [done|]. intros t. setoid_rewrite lookup_empty. naive_solver.
  - apply NoDup_cons in Hnd as [Hp Hnd]. cbn [fst] in Hp.
    assert (Hpn : (list_to_map kvs : Assignment) !! p = None) by by apply not_elem_of_list_to_map_1.
    destruct (IH (<[p := podPlan plan ts]> r) (list_to_set ts ∪ s) Hnd) as [H1 H2].
    cbn [list_to_map foldr fst snd addPod]. split.
    + intros q. rewrite H1. destruct (decide (p = q)) as [<-|Hne].
      * by rewrite Hpn, !lookup_insert_eq.
      * by rewrite !lookup_insert_ne.
    + intros t. rewrite H2, elem_of_union, elem_of_list_to_set. split.
      * intros [[Ht|Hs]|(q & l & Hq & Ht)]; [right|by left|right].
        -- exists p, ts. by rewrite lookup_insert_eq.
        -- exists q, l. rewrite lookup_insert_ne; [done | by intros ->; simplify_eq].
      * intros [Hs|(q & l & Hq & Ht)]; [by left; right|].
        apply lookup_insert_Some in Hq as [[-> ->]|[Hne Hq]]; [by left; left|right; eauto].
Qed.

(** The assignment behind a distribution, and what is read off it. *)
Definition newAssignment (plan : ApplyPlan) numPods td : Assignment :=
  boundedLoadRendezvousHash (AP_Targets plan) (placementOptions plan numPods td).

Lemma placementOptions_pods plan numPods td : 0 < NumPods (placementOptions plan numPods td).
Proof. cbn. case_decide; lia. Qed.

Lemma distribute_spec plan numPods td :
  let r := DistributeTargets plan numPods td in
  let a := newAssignment plan numPods td in
  (∀ p, PerPodPlans r !! p = podPlan plan <$> (a !! p)) ∧
  NoDup (UnassignedTargets r) ∧
  StronglySorted String.le (UnassignedTargets r) ∧
  (∀ t, t ∈ UnassignedTargets r ↔
     is_Some (AP_Targets plan !! t) ∧ ¬ ∃ p l, a !! p = Some l ∧ t ∈ l).
Proof.
  intros r a. unfold r, DistributeTargets.
  assert (distributeTargets BoundedLoadHashing (AP_Targets plan)
    (Some (placementOptions plan numPods td)) = a) as ->.
  { unfold distributeTargets, normalizeOptions.
    rewrite decide_False; [done|]. pose proof (placementOptions_pods plan numPods td). lia. }
  destruct (addPod_loop plan (go_range a) ∅ ∅) as [H1 H2]; [auto with gnmic|].
  assert ((list_to_map (go_range a) : Assignment) = a) as Ha.
  { symmetry. apply list_to_map_flip. symmetry. apply go_range_perm. }
  rewrite Ha in H1, H2. destruct (foldl _ (∅, ∅) _) as [result assigned]. cbn in H1, H2 |- *.
  split_and!.
  - intros p. rewrite H1. by destruct (a !! p).
  - rewrite sort_strings_perm. apply NoDup_filter. auto with gnmic.
  - apply (StronglySorted_merge_sort _).
  - intros t. rewrite elem_of_sort_strings, list_elem_of_filter, elem_of_go_range_keys, H2. set_solver.
Qed.

Lemma podPlan_targets plan l t :
  AP_Targets (podPlan plan l) !! t =
    if decide (t ∈ l) then Some (mjoin (AP_Targets plan !! t)) else None.
Proof.
  cbn. assert (H : ∀ m : gmap string (option TargetConfig),
    foldl (λ m t, <[t := mjoin (AP_Targets plan !! t)]> m) m l !! t =
    if decide (t ∈ l) then Some (mjoin (AP_Targets plan !! t)) else m !! t); [|apply H].
  induction l as [|u l IH]; intros m; cbn [foldl]; [by rewrite decide_False by set_solver|].
  rewrite IH. destruct (decide (t ∈ l)) as [Hin|Hin].
  - by rewrite decide_True by set_solver.
  - destruct (decide (u = t)) as [->|Hne].
    + rewrite lookup_insert_eq. by rewrite decide_True by by left.
    + rewrite lookup_insert_ne by done. by rewrite decide_False by set_solver.
Qed.
End Closed.

(** ** What a distribution promises *)

(** Target [t] is in the plan of pod [p]. *)
Definition runs_on (r : DistributeResult) (p : Z) (t : string) : Prop :=
  ∃ pp, PerPodPlans r !! p = Some pp ∧ is_Some (AP_Targets pp !! t).

(** The recorded assignment names only targets of the plan, each for one pod. *)
Definition current_consistent (plan : ApplyPlan) : Prop :=
  (∀ p ts t, AP_CurrentTargetAssignment plan !! p = Some ts → is_Some (ts !! t) →
     0 ≤ p ∧ is_Some (AP_Targets plan !! t)) ∧
  (∀ p q ts us t, AP_CurrentTargetAssignment plan !! p = Some ts →
     AP_CurrentTargetAssignment plan !! q = Some us →
     is_Some (ts !! t) → is_Some (us !! t) → p = q).

(** The parts every pod's plan shares with the cluster's. *)
Definition shares (plan pp : ApplyPlan) : Prop :=
  AP_Subscriptions pp = AP_Subscriptions plan ∧ AP_Outputs pp = AP_Outputs plan ∧
  AP_Inputs pp = AP_Inputs plan ∧ AP_Processors pp = AP_Processors plan ∧
  AP_TunnelTargetMatches pp = AP_TunnelTargetMatches plan.

Section Promises.
Context `{R : GoRuntime}.

Lemma current_consistent_wf plan :
  current_consistent plan → current_wf (currentAssignment plan).
Proof.
  intros [H1 H2]. split.
  - intros i l Hl. split; [|by eapply NoDup_currentAssignment].
    assert (∃ t, t ∈ l) as [t Ht].
    { rewrite currentAssignment_closed in Hl. unfold current_pods in Hl. rewrite lookup_omap in Hl.
      destruct (AP_CurrentTargetAssignment plan !! i) as [ts|]; cbn [mbind option_bind] in Hl; [|done].
      destruct (go_range ts).*1 as [|u us]; [done|]. apply (inj Some) in Hl as <-.
      exists u. rewrite elem_of_sort_strings. by left. }
    destruct (elem_of_currentAssignment _ _ _ _ Hl Ht) as (ts & Hts & Htt).
    by eapply H1.
  - intros i j l l' t Hl Hl' Ht Ht'.
    destruct (elem_of_currentAssignment _ _ _ _ Hl Ht) as (ts & Hts & Htt).
    destruct (elem_of_currentAssignment _ _ _ _ Hl' Ht') as (us & Hus & Huu). eauto.
Qed.

Lemma runs_on_assignment plan numPods td p t :
  runs_on (DistributeTargets plan numPods td) p t ↔
  t ∈ default [] (newAssignment plan numPods td !! p).
Proof.
  destruct (distribute_spec plan numPods td) as (Hpp & _). unfold runs_on. setoid_rewrite Hpp.
  destruct (newAssignment plan numPods td !! p) as [l|]; cbn; [|set_solver]. unfold id. split.
  - intros (pp & [= <-] & [c Hc]). rewrite podPlan_targets in Hc. by case_decide.
  - intros Ht. exists (podPlan plan l). split; [done|]. rewrite podPlan_targets, decide_True by done. eauto.
Qed.

Lemma elem_of_Unassigned plan numPods td t :
  t ∈ UnassignedTargets (DistributeTargets plan numPods td) ↔
  is_Some (AP_Targets plan !! t) ∧ ∀ p, ¬ runs_on (DistributeTargets plan numPods td) p t.
Proof.
  setoid_rewrite runs_on_assignment.
  destruct (distribute_spec plan numPods td) as (_ & _ & _ & Hu). rewrite Hu. f_equiv. split.
  - intros H p Hp. apply H. destruct (newAssignment _ _ _ !! p) eqn:E; [|by apply elem_of_nil in Hp].
    eauto.
  - intros H (p & l & Hl & Ht). apply (H p). by rewrite Hl.
Qed.

Lemma no_targets_no_part plan numPods td p :
  AP_Targets plan = ∅ → PerPodPlans (DistributeTargets plan numPods td) !! p = None.
Proof.
  intros He. destruct (distribute_spec plan numPods td) as (-> & _).
  unfold newAssignment, boundedLoadRendezvousHash. rewrite He. cbn zeta. by rewrite decide_True by (by rewrite map_size_empty).
Qed.

(** The facts of the placement, read for a plan. *)
Lemma newAssignment_facts plan numPods td :
  current_consistent plan →
  let o := placementOptions plan numPods td in
  let a := newAssignment plan numPods td in
  (∀ i, is_Some (a !! i) → 0 ≤ i < NumPods o) ∧
  (∀ i, NoDup (default [] (a !! i))) ∧
  (∀ i j t, t ∈ default [] (a !! i) → t ∈ default [] (a !! j) → i = j) ∧
  (∀ i t, t ∈ default [] (a !! i) → is_Some (AP_Targets plan !! t)) ∧
  (∀ t, is_Some (AP_Targets plan !! t) →
     (∃ i, t ∈ default [] (a !! i)) ∨
     ∀ i, 0 ≤ i < NumPods o →
       effectiveCapacity (Z.of_nat (size (AP_Targets plan))) o ≤ podLen a i).
Proof.
  intros Hc o a. destruct (decide (size (AP_Targets plan) = 0%nat)) as [Hs|Hs].
  { assert (a = ∅) as ->.
    { unfold a, newAssignment, boundedLoadRendezvousHash. cbn zeta. by rewrite decide_True by lia. }
    apply map_size_empty_inv in Hs. rewrite Hs.
    split_and!; intros *; try (rewrite !lookup_empty; cbn); try by intros [].
    - constructor.
    - set_solver.
    - set_solver. }
  pose proof (placementOptions_pods plan numPods td) as Hn.
  destruct (blrh_result (AP_Targets plan) o Hs Hn (current_consistent_wf _ Hc))
    as (_ & Hnd & Hdom & Hall & Hsub). fold a in Hnd, Hdom, Hall, Hsub.
  assert (Hin : ∀ i t, t ∈ default [] (a !! i) → t ∈ placed a (NumPods o)).
  { intros i t Ht. apply elem_of_placed. destruct (a !! i) as [l|] eqn:E; [|cbn in Ht; set_solver].
    exists i, l. split_and!; [apply Hdom; eauto..|done|done]. }
  destruct (placed_parts a _ Hnd Hdom) as [Hp1 Hp2]. split_and!; [done..| |].
  - intros i t Ht%Hin%Hsub. destruct Ht as [|(p & l & _ & Hl & Ht)]; [done|].
    destruct (elem_of_currentAssignment _ _ _ _ Hl Ht) as (ts & Hts & Htt). by eapply (proj1 Hc).
  - intros t Ht. destruct (Hall t Ht) as [Hp|]; [left|by right].
    apply elem_of_placed in Hp as (i & l & _ & Hl & Hil). exists i.
    unfold a, newAssignment. fold o. by rewrite Hl.
Qed.
End Promises.

(** ** Theorems *)

Lemma distribute_partitions_Ok `{R : GoRuntime} plan numPods td :
  current_consistent plan →
  let r := DistributeTargets plan numPods td in
  (∀ t, is_Some (AP_Targets plan !! t) ↔ t ∈ UnassignedTargets r ∨ ∃ p, runs_on r p t) ∧
  (∀ t p q, runs_on r p t → runs_on r q t → p = q) ∧
  (∀ t p, runs_on r p t → t ∉ UnassignedTargets r) ∧
  (∀ p pp, PerPodPlans r !! p = Some pp →
     0 ≤ p < 1 `max` numPods ∧ shares plan pp ∧
     ∀ t, is_Some (AP_Targets pp !! t) → AP_Targets pp !! t = AP_Targets plan !! t).
Proof.
  intros Hc r. destruct (newAssignment_facts plan numPods td Hc) as (Hdom & _ & Huniq & Hknown & _).
  split_and!.
  - intros t. unfold r. rewrite elem_of_Unassigned. split.
    + intros Ht. destruct (decide (Exists (λ p, t ∈ default [] (newAssignment plan numPods td !! p))
        (go_range (newAssignment plan numPods td)).*1)) as [Hex|Hno].
      * right. apply Exists_exists in Hex as (p & _ & Hp). exists p. by apply runs_on_assignment.
      * left. split; [done|]. intros p Hp%runs_on_assignment. apply Hno, Exists_exists.
        exists p. split; [|done]. apply elem_of_go_range_keys.
        destruct (_ !! p); [eauto | by apply elem_of_nil in Hp].
    + intros [[? _]|[p Hp%runs_on_assignment]]; [done|]. by eapply Hknown.
  - intros t p q. unfold r. rewrite !runs_on_assignment. apply Huniq.
  - intros t p Hp Hu. apply elem_of_Unassigned in Hu as [_ Hu]. by eapply Hu.
  - intros p pp Hpp. unfold r in Hpp.
    rewrite (proj1 (distribute_spec plan numPods td)) in Hpp.
    destruct (newAssignment plan numPods td !! p) as [l|] eqn:El; [|done]. injection Hpp as <-.
    split_and!; [..|done|].
    1,2: specialize (Hdom p ltac:(eauto)); cbn in Hdom; case_decide; lia.
    intros t. rewrite podPlan_targets. case_decide as Ht; [|by intros []]. intros _.
    destruct (Hknown p t) as [c ->]; [by rewrite El | done].
Qed.

(** C6: [DistributeTargets] splits the plan's targets exactly: every target is in
    one pod's plan or in [UnassignedTargets], never in two pods and never in both;
    each pod (of index below the pod count) gets for its targets the plan's own
    configuration, and the plan's subscriptions, outputs, inputs, processors and
    tunnel matches unchanged. *)
Theorem distribute_partitions `{R : GoRuntime} plan numPods td :
  current_consistent plan →
  let r := DistributeTargets plan numPods td in
  (∀ t, is_Some (AP_Targets plan !! t) ↔ t ∈ UnassignedTargets r ∨ ∃ p, runs_on r p t) ∧
  (∀ t p q, runs_on r p t → runs_on r q t → p = q) ∧
  (∀ t p, runs_on r p t → t ∉ UnassignedTargets r) ∧
  (∀ p pp, PerPodPlans r !! p = Some pp →
     0 ≤ p < 1 `max` numPods ∧ shares plan pp ∧
     ∀ t, is_Some (AP_Targets pp !! t) → AP_Targets pp !! t = AP_Targets plan !! t).
Proof. exact (distribute_partitions_Ok plan numPods td). Qed.

(** With no capacity configured, no target is ever left unassigned. *)
Theorem distribute_default_capacity_complete `{R : GoRuntime} plan numPods td :
  current_consistent plan → Capacity (placementOptions plan numPods td) = 0 →
  UnassignedTargets (DistributeTargets plan numPods td) = [].
Proof.
  intros Hc Hcap. destruct (UnassignedTargets _) as [|t us] eqn:E; [done|exfalso].
  assert (Ht : t ∈ UnassignedTargets (DistributeTargets plan numPods td)) by (rewrite E; by left).
  apply elem_of_Unassigned in Ht as [Ht Hno]. setoid_rewrite runs_on_assignment in Hno.
  destruct (newAssignment_facts plan numPods td Hc) as (Hdom & Hnd & Huniq & Hknown & Hall).
  destruct (Hall t Ht) as [[p Hp]|Hfull]; [by eapply Hno|].
  set (a := newAssignment plan numPods td) in *. set (o := placementOptions plan numPods td) in *.
  pose proof (placementOptions_pods plan numPods td) as Hn. fold o in Hn.
  assert (Hge : NumPods o * effectiveCapacity (Z.of_nat (size (AP_Targets plan))) o
    ≤ Z.of_nat (length (placed a (NumPods o)))) by (apply length_placed_ge; [lia|done]).
  unfold effectiveCapacity in Hge. rewrite decide_True in Hge by done.
  pose proof (ceil_capacity (Z.of_nat (size (AP_Targets plan))) (NumPods o) Hn ltac:(lia)).
  assert (Hsub : t :: placed a (NumPods o) ⊆+ (map_to_list (AP_Targets plan)).*1).
  { apply NoDup_submseteq.
    - apply NoDup_cons. split.
      + intros (i & l & _ & Hl & Hil)%elem_of_placed. apply (Hno i). by rewrite Hl.
      + apply NoDup_placed.
        * intros i l Hl. specialize (Hnd i). by rewrite Hl in Hnd.
        * intros i j l l' u Hl Hl' Hu Hu'. apply (Huniq i j u); [by rewrite Hl | by rewrite Hl'].
    - intros u [->|Hu]%elem_of_cons.
      + destruct Ht as [c Hc']. apply list_elem_of_fmap. exists (t, c).
        by rewrite elem_of_map_to_list.
      + apply elem_of_placed in Hu as (i & l & _ & Hl & Hil).
        destruct (Hknown i u) as [c Hc']; [by rewrite Hl|].
        apply list_elem_of_fmap. exists (u, c). by rewrite elem_of_map_to_list. }
  apply submseteq_length in Hsub. rewrite length_fmap, length_map_to_list in Hsub. cbn [length] in Hsub. lia.
Qed.

(** The plan after the assignment [r] has been observed on the targets. *)
Definition with_assignment (plan : ApplyPlan) (r : DistributeResult) : ApplyPlan := {|
  AP_Targets := AP_Targets plan;
  AP_CurrentTargetAssignment :=
    (λ pp : ApplyPlan, (λ _, ()) <$> AP_Targets pp) <$> PerPodPlans r;
  AP_Subscriptions := AP_Subscriptions plan;
  AP_Outputs := AP_Outputs plan;
  AP_Inputs := AP_Inputs plan;
  AP_Processors := AP_Processors plan;
  AP_TunnelTargetMatches := AP_TunnelTargetMatches plan;
  AP_PrometheusPorts := AP_PrometheusPorts plan
|}.

Lemma with_assignment_same_pods `{R : GoRuntime} plan numPods td :
  current_consistent plan →
  same_pods (currentAssignment (with_assignment plan (DistributeTargets plan numPods td)))
            (newAssignment plan numPods td).
Proof.
  intros Hc p. destruct (newAssignment_facts plan numPods td Hc) as (_ & Hnd & _).
  specialize (Hnd p). rewrite currentAssignment_closed. unfold current_pods.
  rewrite lookup_omap. cbn [AP_CurrentTargetAssignment with_assignment].
  rewrite lookup_fmap, (proj1 (distribute_spec plan numPods td)).
  destruct (newAssignment plan numPods td !! p) as [l|]; [|done].
  cbn [fmap option_fmap option_map mbind option_bind default] in *. unfold id in *.
  set (m := (λ _, ()) <$> AP_Targets (podPlan plan l)).
  assert (Hk : (go_range m).*1 ≡ₚ l).
  { apply NoDup_Permutation; [auto with gnmic|done|]. intros t.
    rewrite elem_of_go_range_keys. unfold m. rewrite lookup_fmap, podPlan_targets.
    case_decide; cbn; [by split; eauto|]. by split; [intros [? ?]|]. }
  destruct (go_range m).*1 as [|u us]; [by apply Permutation_nil_l in Hk as ->|].
  cbn [default]. unfold id. by rewrite sort_strings_perm.
Qed.

(** C7: Distribution is a fixpoint of reconciliation: once the pods report the
    assignment that was computed, the next run with the same plan, pod count and
    capacity gives every pod the same targets and leaves the same ones out. *)
Theorem distribute_idempotent `{R : GoRuntime} plan numPods td :
  current_consistent plan →
  let r := DistributeTargets plan numPods td in
  let r' := DistributeTargets (with_assignment plan r) numPods td in
  (∀ p t, runs_on r' p t ↔ runs_on r p t) ∧
  UnassignedTargets r' = UnassignedTargets r.
Proof.
  intros Hc r r'.
  assert (Hsame : same_pods (newAssignment (with_assignment plan r) numPods td)
                            (newAssignment plan numPods td)).
  { exact (placement_idempotent (AP_Targets plan) (placementOptions plan numPods td) _
      (placementOptions_pods plan numPods td) (current_consistent_wf _ Hc)
      (with_assignment_same_pods plan numPods td Hc)). }
  assert (Hruns : ∀ p t, runs_on r' p t ↔ runs_on r p t).
  { intros p t. specialize (Hsame p). unfold r', r in *. rewrite !runs_on_assignment. by rewrite Hsame. }
  split; [done|].
  destruct (distribute_spec plan numPods td) as (_ & Hnd & Hs & _).
  destruct (distribute_spec (with_assignment plan r) numPods td) as (_ & Hnd' & Hs' & _).
  apply (StronglySorted_unique String.le); [done..|].
  apply NoDup_Permutation; [done..|]. intros t.
  unfold r', r in *. rewrite !elem_of_Unassigned. by setoid_rewrite Hruns.
Qed.

(** A plan without targets is distributed to no pod at all, whatever inputs,
    outputs, processors and tunnel matches it holds. *)
Theorem distribute_no_targets `{R : GoRuntime} plan numPods td :
  AP_Targets plan = ∅ →
  PerPodPlans (DistributeTargets plan numPods td) = ∅ ∧
  UnassignedTargets (DistributeTargets plan numPods td) = [].
Proof.
  intros He. unfold DistributeTargets.
  assert (distributeTargets BoundedLoadHashing (AP_Targets plan)
    (Some (placementOptions plan numPods td)) = ∅) as ->.
  { unfold distributeTargets, boundedLoadRendezvousHash. by rewrite He. }
  rewrite !go_range_empty. cbn. by rewrite He, go_range_empty.
Qed.

(** ** Witnesses *)

Definition demo_target (n : string) : TargetConfig := {|
  TC_Name := n; TC_Address := n +:+ ":57400"; TC_Username := None; TC_Password := None;
  TC_Token := None; TC_Timeout := 0; TC_RetryTimer := 0; TC_Encoding := None;
  TC_Insecure := None; TC_SkipVerify := None; TC_TLSCert := None; TC_TLSKey := None;
  TC_TLSCA := None; TC_TLSServerName := ""; TC_TLSMaxVersion := ""; TC_TLSMinVersion := "";
  TC_CipherSuites := []; TC_TCPKeepalive := 0; TC_GRPCKeepalive := None;
  TC_Subscriptions := [] |}.

Definition demo_plan : ApplyPlan := {|
  AP_Targets := list_to_map ((λ n, (n, Some (demo_target n))) <$> ["ns/a"; "ns/b"; "ns/c"]);
  AP_CurrentTargetAssignment := {[ 0 := {[ "ns/c" := () ]} ]};
  AP_Subscriptions := ∅; AP_Outputs := ∅; AP_Inputs := {[ "in" := ∅ ]}; AP_Processors := ∅;
  AP_TunnelTargetMatches := ∅; AP_PrometheusPorts := ∅ |}.

Lemma demo_consistent : current_consistent demo_plan.
Proof.
  split.
  - intros p ts t H Ht. cbn in H. apply lookup_singleton_Some in H as [<- <-]. split; [done|].
    destruct Ht as [u Ht]. apply lookup_singleton_Some in Ht as [<- _]. by vm_compute; eauto.
  - intros p q ts us t H H'. cbn in H, H'. apply lookup_singleton_Some in H as [<- _], H' as [<- _]. done.
Qed.

Lemma distribute_partitions_witness :
  "ns/a" ∈ UnassignedTargets (DistributeTargets demo_plan 2 None) ∨
  ∃ p, runs_on (DistributeTargets demo_plan 2 None) p "ns/a".
Proof.
  apply (proj1 (distribute_partitions demo_plan 2 None demo_consistent)).
  vm_compute. by eexists.
Defined.

Lemma distribute_default_capacity_complete_witness :
  UnassignedTargets (DistributeTargets demo_plan 2 None) = [].
Proof.
  exact (distribute_default_capacity_complete demo_plan 2 None demo_consistent eq_refl).
Defined.

Lemma distribute_idempotent_witness :
  UnassignedTargets (DistributeTargets
    (with_assignment demo_plan (DistributeTargets demo_plan 2 (Some {| PodCapacity := 1 |})))
    2 (Some {| PodCapacity := 1 |})) =
  UnassignedTargets (DistributeTargets demo_plan 2 (Some {| PodCapacity := 1 |})).
Proof.
  exact (proj2 (distribute_idempotent demo_plan 2 (Some {| PodCapacity := 1 |}) demo_consistent)).
Defined.
