(* ===== verification/Ports.v ===== *)
(** Prometheus listen ports ([assignPorts] of [internal/gnmic/plan.go]): double
    hashing of output names into a pool of prime size. *)

From S2P Require Import Prelude GoLib.
#[local] Open Scope Z_scope.

Definition PrometheusDefaultPort : Z := 9804.
Definition PrmetheusPortPoolSize : Z := 1009.

Definition hash32 (s : string) : Z := fnv32a s.

(** [(start + i*step) % rangeSize] on [int32]; [%] truncates towards zero. *)
Definition probe (start step rangeSize i : Z) : Z :=
  Z.rem (to_int32 (start + to_int32 (i * step))) rangeSize.

(** The search loop: the first probed slot that is not used. *)
Definition findSlot (used : gset Z) (start step rangeSize : Z) : option Z :=
  List.find (λ slot, bool_decide (slot ∉ used)) (probe start step rangeSize <$> seqZ 0 rangeSize).

(** One name.  With [rangeSize = 1] Go panics on [h2 % 0]. *)
Definition assignPort (base rangeSize : Z) (st : gset Z * gmap string Z) (name : string)
    : res (gset Z * gmap string Z) :=
  let '(used, result) := st in
  let h1 := hash32 name in
  let h2 := hash32 ("step:" +:+ name) in
  if decide (to_uint32 (rangeSize - 1) = 0) then Err (ErrMsg "integer divide by zero") else
  let start := to_int32 (h1 `mod` to_uint32 rangeSize) in
  let step := to_int32 (to_int32 (h2 `mod` to_uint32 (rangeSize - 1)) + 1) in
  match findSlot used start step rangeSize with
  | None => Err (ErrMsg "no free ports available in range")
  | Some slot => Ok ({[slot]} ∪ used, <[name := to_int32 (base + slot)]> result)
  end.

Definition assignPorts (names : list string) (base rangeSize : Z) : res (gmap string Z) :=
  if decide (rangeSize <= 0) then Err (ErrMsg "rangeSize must be > 0")
  else snd <$> foldl_res (assignPort base rangeSize) (∅, ∅) (sort_strings names).

(** ** Double hashing over a prime visits every slot *)

Section Probe.
Context (p start step : Z) (Hp : Z.prime p) (Hsmall : p * p < 2 ^ 31).
Context (Hstart : 0 ≤ start < p) (Hstep : 1 ≤ step < p).

Lemma probe_no_overflow i : 0 ≤ i < p → probe start step p i = (start + i * step) `mod` p.
Proof.
  intros Hi. unfold probe. rewrite (to_int32_small (i * step)) by nia.
  rewrite to_int32_small by nia. apply Z.rem_mod_nonneg; nia.
Qed.

Lemma probe_inj i j :
  0 ≤ i < p → 0 ≤ j < p → probe start step p i = probe start step p j → i = j.
Proof.
  intros Hi Hj. rewrite !probe_no_overflow by done. intros Heq.
  assert (Hdiv : (p | (i - j) * step)).
  { apply Z.mod_divide; [lia|].
    replace ((i - j) * step) with ((start + i * step) - (start + j * step)) by lia.
    rewrite Zminus_mod, Heq, Z.sub_diag. by apply Z.mod_0_l; lia. }
  apply Z.divide_prime_mul in Hdiv; [|done]. destruct Hdiv as [Hd|Hd]; [|apply Z.absle_divide in Hd; lia].
  destruct (decide (i = j)) as [|Hne]; [done|]. apply Z.absle_divide in Hd; lia.
Qed.

Lemma probe_range i : 0 ≤ i < p → 0 ≤ probe start step p i < p.
Proof. intros Hi. rewrite probe_no_overflow by done. apply Z.mod_pos_bound. lia. Qed.

Lemma findSlot_sound used slot :
  findSlot used start step p = Some slot → (slot ∉ used) ∧ 0 ≤ slot < p.
Proof.
  intros [Hin Hfree%bool_decide_eq_true]%List.find_some.
  apply list_elem_of_In, list_elem_of_fmap in Hin as (i & -> & Hi%elem_of_seqZ).
  split; [done|]. apply probe_range. lia.
Qed.

(** A pool with a free slot always yields one. *)
Lemma findSlot_complete used :
  Z.of_nat (size used) < p → is_Some (findSlot used start step p).
Proof.
  intros Hsize. unfold findSlot. destruct (List.find _ _) as [slot|] eqn:Hf; [eauto|exfalso].
  assert (Hsub : (probe start step p <$> seqZ 0 p) ⊆+ elements used).
  { apply NoDup_submseteq.
    - apply NoDup_fmap_2_strong; [|apply NoDup_seqZ].
      intros i j Hi%elem_of_seqZ Hj%elem_of_seqZ. apply probe_inj; lia.
    - intros x Hx. apply elem_of_elements. apply list_elem_of_In in Hx.
      pose proof (List.find_none _ _ Hf x Hx) as Hn.
      apply bool_decide_eq_false in Hn. by apply dec_stable in Hn. }
  apply submseteq_length in Hsub. rewrite length_fmap, length_seqZ in Hsub.
  change (length (elements used)) with (size used) in Hsub. lia.
Qed.
End Probe.

(** ** The loop *)

(** The ports given so far: one per name, all different, all in the pool. *)
Definition ports_inv (base rangeSize : Z) (names : list string)
    (st : gset Z * gmap string Z) : Prop :=
  let '(used, result) := st in
  (∀ n, is_Some (result !! n) ↔ n ∈ names) ∧
  (∀ n q, result !! n = Some q → base ≤ q < base + rangeSize ∧ (q - base) ∈ used) ∧
  (∀ n m q, result !! n = Some q → result !! m = Some q → n = m) ∧
  size used = length names.

Lemma ports_inv_nil base p : ports_inv base p [] (∅, ∅).
Proof.
  split_and!; [|done..]. intros n. rewrite lookup_empty.
  split; [by intros [] | by intros ?%elem_of_nil].
Qed.

Section Loop.
Context (base p : Z) (Hp : Z.prime p) (Hp3 : 3 ≤ p) (Hsmall : p * p < 2 ^ 31).
Context (Hbase : 0 ≤ base) (Htop : base + p ≤ 2 ^ 31).

Lemma start_step_range name :
  let start := to_int32 (hash32 name `mod` to_uint32 p) in
  let step := to_int32 (to_int32 (hash32 ("step:" +:+ name) `mod` to_uint32 (p - 1)) + 1) in
  0 ≤ start < p ∧ 1 ≤ step < p.
Proof.
  cbn zeta. unfold to_uint32. rewrite !(Z.mod_small _ (2 ^ 32)) by nia.
  pose proof (Z.mod_pos_bound (hash32 name) p ltac:(lia)).
  pose proof (Z.mod_pos_bound (hash32 ("step:" +:+ name)) (p - 1) ltac:(lia)).
  rewrite (to_int32_small (hash32 name `mod` p)) by nia.
  rewrite (to_int32_small (_ `mod` (p - 1))) by nia.
  rewrite to_int32_small by nia. lia.
Qed.

Lemma assignPort_inv names st name st' :
  ports_inv base p names st → name ∉ names →
  assignPort base p st name = Ok st' → ports_inv base p (names ++ [name]) st'.
Proof.
  destruct st as [used result]. intros (Hdom & Hrange & Hinj & Hsize) Hfresh.
  unfold assignPort. case_decide; [done|]. destruct (start_step_range name) as [Hs1 Hs2].
  destruct (findSlot _ _ _ _) as [slot|] eqn:Hf; [|done]. intros [= <-].
  destruct (findSlot_sound p _ _ Hsmall Hs1 Hs2 _ _ Hf) as [Hfree Hslot].
  rewrite to_int32_small by lia.
  assert (Hnew : ∀ m q, result !! m = Some q → base + slot ≠ q).
  { intros m q Hm <-. destruct (Hrange _ _ Hm) as [_ Hu].
    by replace (base + slot - base) with slot in Hu by lia. }
  split_and!.
  - intros n. rewrite lookup_insert_is_Some, Hdom, elem_of_app, list_elem_of_singleton.
    destruct (decide (name = n)); naive_solver.
  - intros n q [[<- <-]|[Hne Hq]]%lookup_insert_Some.
    + split; [lia|]. replace (base + slot - base) with slot by lia. set_solver.
    + destruct (Hrange n q Hq). split; [done|set_solver].
  - intros n m q [[<- <-]|[Hne Hq]]%lookup_insert_Some [[<- Hq']|[Hne' Hq']]%lookup_insert_Some.
    + done.
    + by destruct (Hnew _ _ Hq').
    + subst q. by destruct (Hnew _ _ Hq).
    + eauto.
  - rewrite size_union, size_singleton, length_app by set_solver. cbn. lia.
Qed.

Lemma assignPort_ok names st name :
  ports_inv base p names st → Z.of_nat (length names) < p →
  is_ok (assignPort base p st name) = true.
Proof.
  destruct st as [used result]. intros (_ & _ & _ & Hsize) Hlen. unfold assignPort.
  rewrite decide_False by (unfold to_uint32; rewrite Z.mod_small by nia; lia).
  destruct (start_step_range name) as [Hs1 Hs2].
  edestruct (findSlot_complete p _ _ Hp Hsmall Hs1 Hs2 used) as [slot ->]; [lia|done].
Qed.

(** The loop succeeds exactly while the names fit in the pool. *)
Lemma assignPorts_loop l names st :
  ports_inv base p names st → NoDup (names ++ l) →
  match foldl_res (assignPort base p) st l with
  | Ok st' => ports_inv base p (names ++ l) st'
  | Err _ => p < Z.of_nat (length (names ++ l))
  end.
Proof.
  revert names st; induction l as [|name l IH]; intros names st Hinv Hnd; cbn.
  - by rewrite app_nil_r.
  - assert (Hfresh : name ∉ names).
    { apply NoDup_app in Hnd as (_ & Hd & _). intros Hin. by apply (Hd name Hin); left. }
    destruct (assignPort base p st name) as [st1|e] eqn:E.
    + pose proof (assignPort_inv _ _ _ _ Hinv Hfresh E) as Hinv1.
      specialize (IH (names ++ [name]) st1 Hinv1). rewrite <- app_assoc in IH. by apply IH.
    + rewrite length_app. cbn.
      destruct (decide (Z.of_nat (length names) < p)) as [Hlt|]; [|lia].
      pose proof (assignPort_ok _ _ name Hinv Hlt) as Hok. by rewrite E in Hok.
Qed.

(** Ports never outnumber the pool. *)
Lemma ports_inv_length names st :
  ports_inv base p names st → NoDup names → Z.of_nat (length names) ≤ p.
Proof.
  destruct st as [used result]. intros (Hdom & Hrange & Hinj & _) Hnd.
  assert (Hsub : ((λ n, default 0 (result !! n)) <$> names) ⊆+ seqZ base p).
  { apply NoDup_submseteq.
    - apply NoDup_fmap_2_strong; [|done]. intros n m Hn Hm.
      apply Hdom in Hn as [q Hq], Hm as [q' Hq']. rewrite Hq, Hq'. cbn. intros ->. eauto.
    - intros q (n & -> & Hn)%list_elem_of_fmap. apply Hdom in Hn as [q Hq]. rewrite Hq. cbn.
      apply elem_of_seqZ. by destruct (Hrange _ _ Hq). }
  apply submseteq_length in Hsub. rewrite length_fmap, length_seqZ in Hsub. lia.
Qed.
End Loop.

Lemma pool_prime : Z.prime PrmetheusPortPoolSize.
Proof.
  split; [done|]. intros n Hn Hdiv.
  assert (H : forallb (λ k, negb (PrmetheusPortPoolSize `mod` k =? 0)) (seqZ 2 1007) = true)
    by by vm_compute.
  rewrite forallb_forall in H.
  specialize (H n ltac:(apply list_elem_of_In, elem_of_seqZ; unfold PrmetheusPortPoolSize in *; lia)).
  apply Z.mod_divide in Hdiv; [|lia]. by rewrite Hdiv in H.
Qed.


(** The assignment is a function of the set of names. *)
Lemma assignPorts_perm names names' base rangeSize :
  names ≡ₚ names' → assignPorts names base rangeSize = assignPorts names' base rangeSize.
Proof. intros Hp. unfold assignPorts. by rewrite (sort_strings_proper _ _ Hp). Qed.

(** What a port assignment promises, for a pool of [p] ports from [base]. *)
Definition ports_for (base p : Z) (names : list string) (r : res (gmap string Z)) : Prop :=
  match r with
  | Ok ports =>
      Z.of_nat (length names) ≤ p ∧
      (∀ n, is_Some (ports !! n) ↔ n ∈ names) ∧
      (∀ n q, ports !! n = Some q → base ≤ q < base + p) ∧
      (∀ n m q, ports !! n = Some q → ports !! m = Some q → n = m)
  | Err _ => p < Z.of_nat (length names)
  end.

Lemma assignPorts_correct base p names :
  Z.prime p → 3 ≤ p → p * p < 2 ^ 31 → 0 ≤ base → base + p ≤ 2 ^ 31 → NoDup names →
  ports_for base p names (assignPorts names base p).
Proof.
  intros Hp H3 Hsmall Hb Ht Hnd. unfold assignPorts. rewrite decide_False by lia.
  assert (Hnds : NoDup (sort_strings names)) by by rewrite sort_strings_perm.
  pose proof (assignPorts_loop base p Hp H3 Hsmall Hb Ht (sort_strings names) [] (∅, ∅)
    (ports_inv_nil _ _) Hnds) as H. cbn [app] in H.
  destruct (foldl_res _ _ _) as [[used ports]|e]; cbn [fmap res_fmap snd ports_for].
  - pose proof (ports_inv_length base p H3 _ (used, ports) H Hnds) as Hlen. rewrite sort_strings_perm in Hlen.
    destruct H as (Hdom & Hrange & Hinj & _). split_and!; [done| | |done].
    + intros n. by rewrite Hdom, elem_of_sort_strings.
    + intros n q Hq. by destruct (Hrange n q Hq).
  - by rewrite sort_strings_perm in H.
Qed.

(** The pool the operator uses. *)
Lemma assignPorts_pool names :
  NoDup names →
  ports_for PrometheusDefaultPort PrmetheusPortPoolSize names
    (assignPorts names PrometheusDefaultPort PrmetheusPortPoolSize).
Proof. apply assignPorts_correct; [apply pool_prime|by vm_compute..]. Qed.

(** ** Theorems *)

(** C39: For the pool the operator uses (1009 ports from 9804), [assignPorts] is
    total and exact: it fails only when there are more outputs than ports, and
    otherwise gives every output, and nothing else, its own port in
    [9804..10812]; no [int32] computation on the way overflows. *)
Theorem assignPorts_spec names :
  NoDup names →
  match assignPorts names PrometheusDefaultPort PrmetheusPortPoolSize with
  | Ok ports =>
      Z.of_nat (length names) ≤ 1009 ∧
      (∀ n, is_Some (ports !! n) ↔ n ∈ names) ∧
      (∀ n q, ports !! n = Some q → 9804 ≤ q ≤ 10812) ∧
      (∀ n m q, ports !! n = Some q → ports !! m = Some q → n = m)
  | Err _ => 1009 < Z.of_nat (length names)
  end.
Proof.
  intros H%assignPorts_pool. destruct (assignPorts _ _ _); [|done].
  destruct H as (? & ? & Hr & ?). split_and!; [done..| |done].
  intros n q Hq%Hr. unfold PrometheusDefaultPort, PrmetheusPortPoolSize in Hq. lia.
Qed.

(** ** Witness *)

Lemma assignPorts_spec_witness :
  ∃ ports, assignPorts ["ns/p1"; "ns/p2"] PrometheusDefaultPort PrmetheusPortPoolSize = Ok ports ∧
    ∀ n q, ports !! n = Some q → 9804 ≤ q ≤ 10812.
Proof.
  pose proof (assignPorts_spec ["ns/p1"; "ns/p2"] ltac:(apply (bool_decide_unpack _); by vm_compute)) as H.
  destruct (assignPorts _ _ _) as [ports|e]; [|by vm_compute in H].
  exists ports. split; [done|]. apply H.
Defined.
