(* ===== verification/TargetConfigs.v ===== *)
(** What gNMIc is told about one target, one tunnel policy and one subscription
    ([target.go], [tunneltarget.go], [subscription.go], [tls.go] of
    [internal/gnmic]). *)

From S2P Require Import Prelude GoLib Api GnmicTypes.
From Stdlib Require Import Ascii.
#[local] Open Scope Z_scope.

(** ** tls.go *)

Definition CertFilePath := "/etc/gnmic/tls/tls.crt".
Definition KeyFilePath := "/etc/gnmic/tls/tls.key".
Definition ControllerCAFilePath := "/etc/gnmic/controller-ca/ca.crt".
Definition TunnelCertFilePath := "/etc/gnmic/tunnel-tls/tls.crt".
Definition TunnelKeyFilePath := "/etc/gnmic/tunnel-tls/tls.key".
Definition TunnelCABundleFilePath := "/etc/gnmic/tunnel-ca/ca.crt".
Definition ClientTLSCertFilePath := "/etc/gnmic/client-tls/tls.crt".
Definition ClientTLSKeyFilePath := "/etc/gnmic/client-tls/tls.key".
Definition ClientCABundleFilePath := "/etc/gnmic/client-ca/ca.crt".
Definition clientAuthRequireVerify := "require-verify".

Record TLSConfig := {
  TLSC_CAFile : string;
  TLSC_CertFile : string;
  TLSC_KeyFile : string;
  TLSC_SkipVerify : bool;
  TLSC_ClientAuth : string
}.

Definition noTLSConfig : TLSConfig :=
  {| TLSC_CAFile := ""; TLSC_CertFile := ""; TLSC_KeyFile := "";
     TLSC_SkipVerify := false; TLSC_ClientAuth := "" |}.

(** The server certificate of the pods' REST API, with mutual TLS. *)
Definition TLSConfigForClusterPod (cluster : ClusterSpec) : option TLSConfig :=
  match CS_API cluster with
  | None => None
  | Some api =>
      match API_TLS api with
      | None => None
      | Some tls =>
          Some (if bool_decide (CTLS_IssuerRef tls ≠ "")
                then {| TLSC_CAFile := ControllerCAFilePath; TLSC_CertFile := CertFilePath;
                        TLSC_KeyFile := KeyFilePath; TLSC_SkipVerify := false;
                        TLSC_ClientAuth := clientAuthRequireVerify |}
                else noTLSConfig)
      end
  end.

Definition TunnelServerTLSConfig (cluster : ClusterSpec) : option TLSConfig :=
  match CS_GRPCTunnel cluster with
  | None => None
  | Some tunnel =>
      match GT_TLS tunnel with
      | None => None
      | Some tls =>
          let issuer := bool_decide (CTLS_IssuerRef tls ≠ "") in
          let bundle := bool_decide (CTLS_BundleRef tls ≠ "") in
          Some {| TLSC_CAFile := if bundle then TunnelCABundleFilePath else "";
                  TLSC_CertFile := if issuer then TunnelCertFilePath else "";
                  TLSC_KeyFile := if issuer then TunnelKeyFilePath else "";
                  TLSC_SkipVerify := false;
                  TLSC_ClientAuth := if bundle then clientAuthRequireVerify else "" |}
      end
  end.

Definition ClientTLSConfigForCluster (cluster : ClusterSpec) : option ClientTLSPaths :=
  match CS_ClientTLS cluster with
  | None => None
  | Some tls =>
      let issuer := bool_decide (CTLS_IssuerRef tls ≠ "") in
      Some {| CTP_CertFile := if issuer then ClientTLSCertFilePath else "";
              CTP_KeyFile := if issuer then ClientTLSKeyFilePath else "";
              CTP_CAFile := if bool_decide (CTLS_BundleRef tls ≠ "")
                            then ClientCABundleFilePath else "" |}
  end.

(** ** target.go *)

Definition second : Z := 1000000000.

(** The caller passes the address of a field, which is never nil. *)
Definition durationOrDefault (duration : option Z) (defaultDuration : Z) : Z :=
  match duration with Some d => d | None => defaultDuration end.

(** [if s != "" { p = ptr.To(s) }] over a nil pointer. *)
Definition set_nonempty (s : string) : option string :=
  if bool_decide (s ≠ "") then Some s else None.

Definition buildTargetConfig (target : Target) (profile : TargetProfileSpec)
    (creds : option Credentials) (clientTLS : option ClientTLSPaths) : TargetConfig :=
  let config := {|
    TC_Name := Namespace (Meta target) +:+ Delimiter +:+ Name (Meta target);
    TC_Address := Target_Address (Spec target);
    TC_Username := creds ≫= λ c, set_nonempty (Cred_Username c);
    TC_Password := creds ≫= λ c, set_nonempty (Cred_Password c);
    TC_Token := creds ≫= λ c, set_nonempty (Cred_Token c);
    TC_Timeout := durationOrDefault (Some (TP_Timeout profile)) (10 * second);
    TC_RetryTimer := durationOrDefault (Some (TP_RetryTimer profile)) (2 * second);
    TC_Encoding := Some (TP_Encoding profile);
    TC_Insecure := None; TC_SkipVerify := None;
    TC_TLSCert := None; TC_TLSKey := None; TC_TLSCA := None;
    TC_TLSServerName := ""; TC_TLSMaxVersion := ""; TC_TLSMinVersion := "";
    TC_CipherSuites := []; TC_TCPKeepalive := 0; TC_GRPCKeepalive := None;
    TC_Subscriptions := [] |} in
  let secure insecure skipVerify cert key ca serverName maxV minV suites tcp grpc := {|
    TC_Name := TC_Name config; TC_Address := TC_Address config;
    TC_Username := TC_Username config; TC_Password := TC_Password config;
    TC_Token := TC_Token config; TC_Timeout := TC_Timeout config;
    TC_RetryTimer := TC_RetryTimer config; TC_Encoding := TC_Encoding config;
    TC_Insecure := insecure; TC_SkipVerify := skipVerify;
    TC_TLSCert := cert; TC_TLSKey := key; TC_TLSCA := ca;
    TC_TLSServerName := serverName; TC_TLSMaxVersion := maxV; TC_TLSMinVersion := minV;
    TC_CipherSuites := suites; TC_TCPKeepalive := tcp; TC_GRPCKeepalive := grpc;
    TC_Subscriptions := [] |} in
  match clientTLS, TP_TLS profile with
  | None, None => secure (Some true) None None None None "" "" "" [] 0 None
  | None, Some tls =>
      secure None (Some true) None None None "" (TLS_MaxVersion tls) (TLS_MinVersion tls)
        (TLS_CipherSuites tls) 0 None
  | Some paths, tls =>
      let skipVerify := bool_decide (CTP_CAFile paths = "") in
      let cert := set_nonempty (CTP_CertFile paths) in
      let key := set_nonempty (CTP_KeyFile paths) in
      let ca := set_nonempty (CTP_CAFile paths) in
      match tls with
      | None => secure None (Some skipVerify) cert key ca "" "" "" [] 0 None
      | Some tls =>
          secure None (Some skipVerify) cert key ca (TLS_ServerName tls)
            (TLS_MaxVersion tls) (TLS_MinVersion tls) (TLS_CipherSuites tls)
            (default 0 (TP_TCPKeepAlive profile))
            ((λ k, {| CK_Time := KA_Time k; CK_Timeout := KA_Timeout k;
                      CK_PermitWithoutStream := KA_PermitWithoutStream k |})
               <$> TP_GRCPKeepAlive profile)
      end
  end.

(** ** tunneltarget.go *)

Definition buildTunnelTargetMatch (policySpec : TunnelTargetPolicySpec)
    (profile : option TargetProfileSpec) (creds : option Credentials)
    (clientTLS : option ClientTLSPaths) : TunnelTargetMatch :=
  let config_of profile insecure skipVerify cert key ca serverName maxV minV suites := {|
    TC_Name := ""; TC_Address := "";
    TC_Username := creds ≫= λ c, set_nonempty (Cred_Username c);
    TC_Password := creds ≫= λ c, set_nonempty (Cred_Password c);
    TC_Token := creds ≫= λ c, set_nonempty (Cred_Token c);
    TC_Timeout := durationOrDefault (Some (TP_Timeout profile)) (10 * second);
    TC_RetryTimer := durationOrDefault (Some (TP_RetryTimer profile)) (2 * second);
    TC_Encoding := Some (TP_Encoding profile);
    TC_Insecure := insecure; TC_SkipVerify := skipVerify;
    TC_TLSCert := cert; TC_TLSKey := key; TC_TLSCA := ca;
    TC_TLSServerName := serverName; TC_TLSMaxVersion := maxV; TC_TLSMinVersion := minV;
    TC_CipherSuites := suites; TC_TCPKeepalive := 0; TC_GRPCKeepalive := None;
    TC_Subscriptions := [] |} in
  {| TTM_Type := match TTP_Match policySpec with Some m => ttm_Type m | None => "" end;
     TTM_ID := match TTP_Match policySpec with Some m => ttm_ID m | None => "" end;
     TTM_Config :=
       match profile with
       | None => None
       | Some profile => Some (
         match clientTLS with
         | None =>
             match TP_TLS profile with
             | None => config_of profile (Some true) None None None None "" "" "" []
             | Some tls =>
                 config_of profile None (Some true) None None None "" (TLS_MaxVersion tls)
                   (TLS_MinVersion tls) (TLS_CipherSuites tls)
             end
         | Some paths =>
             let skipVerify := bool_decide (CTP_CAFile paths = "") in
             let cert := set_nonempty (CTP_CertFile paths) in
             let key := set_nonempty (CTP_KeyFile paths) in
             let ca := set_nonempty (CTP_CAFile paths) in
             match TP_TLS profile with
             | None => config_of profile None (Some skipVerify) cert key ca "" "" "" []
             | Some tls =>
                 config_of profile None (Some skipVerify) cert key ca (TLS_ServerName tls)
                   (TLS_MaxVersion tls) (TLS_MinVersion tls) (TLS_CipherSuites tls)
             end
         end)
       end |}.

(** ** subscription.go *)

(** ["STREAM/SAMPLE"] splits into mode and stream mode. *)
Definition specModeToConfig (mode : string) : string * string :=
  match SplitN2 mode "/"%char with
  | [a] => (a, "")
  | [a; b] => (a, b)
  | _ => ("", "")
  end.

Definition positive (d : Z) : option Z := if decide (d > 0) then Some d else None.

(** The fields set before the stream subscriptions. *)
Definition subscriptionFields (subNN : string) (subscription : SubscriptionSpec)
    (outputs : list string) (stream : list (option SubscriptionConfig)) : SubscriptionConfig :=
  let '(mode, streamMode) := specModeToConfig (Sub_Mode subscription) in
  {| SubC_Name := subNN;
     SubC_Prefix := Sub_Prefix subscription;
     SubC_Paths := Sub_Paths subscription;
     SubC_Mode := mode;
     SubC_StreamMode := streamMode;
     SubC_UpdatesOnly := Sub_UpdatesOnly subscription;
     SubC_Depth := Sub_Depth subscription;
     SubC_Target := Sub_Target subscription;
     SubC_Outputs := outputs;
     SubC_Encoding := set_nonempty (Sub_Encoding subscription);
     SubC_SampleInterval := positive (Sub_SampleInterval subscription);
     SubC_HeartbeatInterval := positive (Sub_HeartbeatInterval subscription);
     SubC_Qos := Sub_Qos subscription;
     SubC_History := (λ h, {| HC_Snapshot := Hist_Snapshot h; HC_Start := Hist_Start h;
                              HC_End := Hist_End h |}) <$> Sub_History subscription;
     SubC_StreamSubscriptions := stream |}.

(** One entry of the stream list; a name that is not in [allSubs] leaves nil. *)
Definition streamEntry (build : string → SubscriptionSpec → option SubscriptionConfig)
    (allSubs : gmap string SubscriptionSpec) (name : string)
    : option (option SubscriptionConfig) :=
  match allSubs !! name with
  | None => Some None
  | Some spec => Some <$> build name spec
  end.

(** The Go function calls itself for each stream subscription, with no
    subscriptions to look up; [fuel] bounds the calls. *)
Fixpoint buildSubscriptionConfig_fuel (fuel : nat) (subNN : string)
    (subscription : SubscriptionSpec) (outputs : list string)
    (allSubs : gmap string SubscriptionSpec) : option SubscriptionConfig :=
  match fuel with
  | O => None
  | S fuel =>
      subscriptionFields subNN subscription outputs <$>
        mapM (streamEntry (λ name spec, buildSubscriptionConfig_fuel fuel name spec [] ∅) allSubs)
          (Sub_StreamSubscriptions subscription)
  end.

(** Two levels always suffice ([buildSubscriptionConfig_terminates]). *)
Definition buildSubscriptionConfig (subNN : string) (subscription : SubscriptionSpec)
    (outputs : list string) (allSubs : gmap string SubscriptionSpec)
    : option SubscriptionConfig :=
  buildSubscriptionConfig_fuel 2 subNN subscription outputs allSubs.

(** ** Lemmas *)

Lemma set_nonempty_Some s t : set_nonempty s = Some t ↔ s = t ∧ s ≠ "".
Proof. unfold set_nonempty. case_bool_decide; naive_solver. Qed.

Lemma positive_Some d e : positive d = Some e ↔ d = e ∧ 0 < d.
Proof. unfold positive. case_decide; naive_solver lia. Qed.

Lemma specModeToConfig_plain mode :
  no_byte "/"%char mode = true → specModeToConfig mode = (mode, "").
Proof. unfold specModeToConfig, SplitN2. by intros ->%cut_first_None. Qed.

Lemma specModeToConfig_stream a b :
  no_byte "/"%char a = true → specModeToConfig (a +:+ "/" +:+ b) = (a, b).
Proof.
  intros Ha. unfold specModeToConfig, SplitN2.
  change ("/" +:+ b) with (String "/" b). by rewrite cut_first_app.
Qed.

(** The result of the nested call: no stream entry resolves. *)
Definition streamLeaf (name : string) (spec : SubscriptionSpec) : SubscriptionConfig :=
  subscriptionFields name spec [] ((λ _, None) <$> Sub_StreamSubscriptions spec).

Lemma mapM_total {A B} (f : A → option B) (g : A → B) l :
  (∀ x, f x = Some (g x)) → mapM f l = Some (g <$> l).
Proof. intros H. induction l as [|x l IH]; cbn; [done|]. by rewrite H, IH. Qed.

Lemma build_leaf fuel name spec :
  buildSubscriptionConfig_fuel (S fuel) name spec [] ∅ = Some (streamLeaf name spec).
Proof. cbn. by rewrite (mapM_total _ (λ _, None)). Qed.

Lemma build_two fuel n spec outputs allSubs :
  buildSubscriptionConfig_fuel (S (S fuel)) n spec outputs allSubs =
  Some (subscriptionFields n spec outputs
    ((λ s, streamLeaf s <$> allSubs !! s) <$> Sub_StreamSubscriptions spec)).
Proof.
  change (buildSubscriptionConfig_fuel (S (S fuel)) n spec outputs allSubs) with
    (subscriptionFields n spec outputs <$>
      mapM (streamEntry (λ name spec, buildSubscriptionConfig_fuel (S fuel) name spec [] ∅) allSubs)
        (Sub_StreamSubscriptions spec)).
  rewrite (mapM_total _ (λ s, streamLeaf s <$> allSubs !! s)); [done|].
  intros s. unfold streamEntry. destruct (allSubs !! s) as [sp|]; [|done]. by rewrite build_leaf.
Qed.

(** The configuration without its name and address. *)
Definition unnamed (c : TargetConfig) : TargetConfig := {|
  TC_Name := ""; TC_Address := ""; TC_Username := TC_Username c; TC_Password := TC_Password c;
  TC_Token := TC_Token c; TC_Timeout := TC_Timeout c; TC_RetryTimer := TC_RetryTimer c;
  TC_Encoding := TC_Encoding c; TC_Insecure := TC_Insecure c; TC_SkipVerify := TC_SkipVerify c;
  TC_TLSCert := TC_TLSCert c; TC_TLSKey := TC_TLSKey c; TC_TLSCA := TC_TLSCA c;
  TC_TLSServerName := TC_TLSServerName c; TC_TLSMaxVersion := TC_TLSMaxVersion c;
  TC_TLSMinVersion := TC_TLSMinVersion c; TC_CipherSuites := TC_CipherSuites c;
  TC_TCPKeepalive := TC_TCPKeepalive c; TC_GRPCKeepalive := TC_GRPCKeepalive c;
  TC_Subscriptions := TC_Subscriptions c |}.

(** ** Theorems *)

(** Transport security of a target follows the cluster's client TLS, read
    from the resource to the final configuration: the connection is plaintext
    exactly when neither the cluster nor the profile asks for TLS; otherwise the
    peer is verified exactly when the cluster names a CA bundle, which is then the
    CA file of the target; a client certificate is presented, always with its key,
    exactly when the cluster names an issuer. *)
Theorem target_transport_security (cluster : ClusterSpec) target profile creds :
  let c := buildTargetConfig target profile creds (ClientTLSConfigForCluster cluster) in
  let bundle := match CS_ClientTLS cluster with Some t => CTLS_BundleRef t | None => "" end in
  let issuer := match CS_ClientTLS cluster with Some t => CTLS_IssuerRef t | None => "" end in
  (TC_Insecure c = Some true ↔ CS_ClientTLS cluster = None ∧ TP_TLS profile = None) ∧
  (TC_Insecure c = None ↔ is_Some (TC_SkipVerify c)) ∧
  (TC_SkipVerify c = Some false ↔ bundle ≠ "") ∧
  (TC_TLSCA c = Some ClientCABundleFilePath ↔ bundle ≠ "") ∧
  (is_Some (TC_TLSCert c) ↔ issuer ≠ "") ∧
  (is_Some (TC_TLSKey c) ↔ is_Some (TC_TLSCert c)).
Proof.
  unfold buildTargetConfig, ClientTLSConfigForCluster.
  destruct (CS_ClientTLS cluster) as [tls|]; destruct (TP_TLS profile) as [ptls|]; cbn zeta;
    [destruct (decide (CTLS_BundleRef tls = "")) as [Eb|Eb];
     destruct (decide (CTLS_IssuerRef tls = "")) as [Ei|Ei];
     rewrite ?(bool_decide_eq_true_2 (CTLS_BundleRef tls ≠ "")) by done;
     rewrite ?(bool_decide_eq_true_2 (CTLS_IssuerRef tls ≠ "")) by done;
     rewrite ?Eb, ?Ei..| |]; cbn; unfold is_Some; naive_solver.
Qed.

(** Tunnel targets are configured as ordinary targets with the same profile,
    credentials and client TLS are, name and address aside, except for the
    keepalive settings, which the tunnel path never sets. *)
Theorem tunnel_config_equivalent policy target profile creds clientTLS :
  TP_TCPKeepAlive profile = None → TP_GRCPKeepAlive profile = None →
  TTM_Config (buildTunnelTargetMatch policy (Some profile) creds clientTLS) =
  Some (unnamed (buildTargetConfig target profile creds clientTLS)).
Proof.
  intros Ht Hg. unfold buildTunnelTargetMatch, buildTargetConfig, unnamed. rewrite Ht, Hg.
  by destruct clientTLS, (TP_TLS profile).
Qed.

(** [buildSubscriptionConfig] terminates after one level of stream
    subscriptions, whatever the specs refer to: any two or more levels of fuel give
    the same configuration, whose stream entries are, in order, the referenced
    subscriptions of the pipeline (nil for a name the pipeline does not have), and
    whose nested entries have no stream subscriptions of their own. *)
Theorem buildSubscriptionConfig_terminates fuel n spec outputs allSubs :
  (2 ≤ fuel)%nat →
  ∃ c, buildSubscriptionConfig n spec outputs allSubs = Some c ∧
    buildSubscriptionConfig_fuel fuel n spec outputs allSubs = Some c ∧
    length (SubC_StreamSubscriptions c) = length (Sub_StreamSubscriptions spec) ∧
    ∀ i s e, Sub_StreamSubscriptions spec !! i = Some s →
      SubC_StreamSubscriptions c !! i = Some e →
      (e = None ↔ allSubs !! s = None) ∧
      ∀ c', e = Some c' → SubC_Name c' = s ∧ Forall (eq None) (SubC_StreamSubscriptions c').
Proof.
  intros Hf. destruct fuel as [|[|fuel]]; [lia|lia|].
  unfold buildSubscriptionConfig. rewrite !build_two. eexists. split_and!; [done|done|..].
  - unfold subscriptionFields. destruct (specModeToConfig _). cbn. apply length_fmap.
  - intros i s e Hs. unfold subscriptionFields at 1. destruct (specModeToConfig _). cbn.
    rewrite list_lookup_fmap, Hs. cbn. intros [= <-]. split.
    + by destruct (allSubs !! s).
    + destruct (allSubs !! s) as [sp|]; [|done]. intros c' [= <-].
      unfold streamLeaf, subscriptionFields. destruct (specModeToConfig _). cbn. split; [done|].
      by apply list.Forall_forall; intros x (y & -> & _)%list_elem_of_fmap.
Qed.

(** ** Witnesses *)

Definition demo_profile : TargetProfileSpec := {|
  TP_CredentialsRef := "creds"; TP_TLS := Some {| TLS_ServerName := "r1"; TLS_MaxVersion := "";
    TLS_MinVersion := "1.2"; TLS_CipherSuites := [] |};
  TP_Timeout := 10 * second; TP_RetryTimer := 0; TP_Encoding := "PROTO"; TP_Labels := ∅;
  TP_Proxy := ""; TP_GzipCompression := false; TP_TCPKeepAlive := None; TP_GRCPKeepAlive := None |}.

Definition demo_target_cr : Target := MkResource
  {| Name := "r1"; Namespace := "ns"; Labels := ∅; Annotations := ∅; Finalizers := []; DeletionTimestamp := 0; Generation := 1 |}
  {| Target_Address := "10.0.0.1:57400"; Target_Profile := "p" |}
  {| TS_Clusters := 0; TS_State := ""; TS_ClusterStates := ∅ |}.

Lemma tunnel_config_equivalent_witness :
  TTM_Config (buildTunnelTargetMatch {| TTP_Match := None; TTP_Profile := "p" |}
    (Some demo_profile) None None) =
  Some (unnamed (buildTargetConfig demo_target_cr demo_profile None None)).
Proof. exact (tunnel_config_equivalent _ demo_target_cr demo_profile None None eq_refl eq_refl). Defined.

Definition demo_subscription (streams : list string) : SubscriptionSpec := {|
  Sub_Prefix := ""; Sub_Target := ""; Sub_Paths := ["/interfaces"]; Sub_Mode := "STREAM/SAMPLE";
  Sub_SampleInterval := 10 * second; Sub_HeartbeatInterval := 0; Sub_UpdatesOnly := false;
  Sub_StreamSubscriptions := streams; Sub_Depth := 0; Sub_Encoding := ""; Sub_Qos := None;
  Sub_SuppressRedundant := true; Sub_History := None |}.

(** A subscription that lists itself. *)
Lemma buildSubscriptionConfig_terminates_witness :
  ∃ c, buildSubscriptionConfig "ns/s" (demo_subscription ["ns/s"; "ns/gone"]) []
         {[ "ns/s" := demo_subscription ["ns/s"] ]} = Some c.
Proof.
  destruct (buildSubscriptionConfig_terminates 7 "ns/s" (demo_subscription ["ns/s"; "ns/gone"]) []
    {[ "ns/s" := demo_subscription ["ns/s"] ]} ltac:(lia)) as (c & Hc & _).
  exact (ex_intro _ c Hc).
Defined.
