(* ===== verification/OutputConfigs.v ===== *)
(** What gNMIc is told about outputs, inputs and processors ([output.go],
    [input.go], [processor.go] of [internal/gnmic]). *)

From S2P Require Import Prelude GoLib Api GnmicTypes Ports.
#[local] Open Scope Z_scope.

Definition PrometheusOutputType := "prometheus".
Definition PrometheusWriteOutputType := "prometheus_write".
Definition KafkaOutputType := "kafka".
Definition InfluxDBOutputType := "influxdb".
Definition NATSOutputType := "nats".
Definition JetstreamOutputType := "jetstream".
Definition PrometheusDefaultPath := "/metrics".

(** The YAML library ([gopkg.in/yaml.v2]): what decoding [raw] into an empty
    [map[string]any] gives. *)
Class YAML := { Unmarshal : string → res (gmap string Value) }.

Definition OutputTypesWithServiceRef : list string :=
  [NATSOutputType; JetstreamOutputType; KafkaOutputType; PrometheusWriteOutputType;
   InfluxDBOutputType].

Record outputConfigOptions := {
  Opt_Processors : list string;
  Opt_ResolvedAddresses : list string
}.

Record ServicePort := { SP_Name : string; SP_Port : Z }.

(** [m[k] == nil]: the key is missing or its value is nil. *)
Definition is_nil (m : gmap string Value) (k : string) : bool :=
  match m !! k with None | Some VNull => true | Some _ => false end.

(** [if len(l) > 0 { config[k] = l }]. *)
Definition set_list (k : string) (l : list string) (m : gmap string Value) : gmap string Value :=
  match l with [] => m | _ => <[k := VStrings l]> m end.

Section Configs.
Context `{Y : YAML}.

(** The common start of the three builders. *)
Definition parse_config (raw : option string) : res (gmap string Value) :=
  match raw with None => Ok ∅ | Some raw => Unmarshal raw end.

(** The field that receives the resolved service addresses. *)
Definition address_key (ty : string) : option string :=
  if bool_decide (ty ∈ OutputTypesWithServiceRef) then
    if bool_decide (ty = NATSOutputType ∨ ty = JetstreamOutputType) then Some "address"
    else if bool_decide (ty = KafkaOutputType) then Some "address"
    else if bool_decide (ty = PrometheusWriteOutputType) then Some "url"
    else if bool_decide (ty = InfluxDBOutputType) then Some "url"
    else None
  else None.

Definition inject_addresses (ty : string) (addrs : list string) (config : gmap string Value)
    : gmap string Value :=
  match addrs with
  | [] => config
  | _ => match address_key ty with
         | Some k => <[k := VStr (Join addrs ",")]> config
         | None => config
         end
  end.

Definition default_path (ty : string) (config : gmap string Value) : gmap string Value :=
  if bool_decide (ty = "prometheus") && is_nil config "path"
  then <["path" := VStr PrometheusDefaultPath]> config else config.

Definition buildOutputConfig (spec : OutputSpec) (options : outputConfigOptions)
    : res (gmap string Value) :=
  config ← parse_config (Output_Config spec);
  let config := <["type" := VStr (Output_Type spec)]> config in
  let config := set_list "event-processors" (Opt_Processors options) config in
  let config := inject_addresses (Output_Type spec) (Opt_ResolvedAddresses options) config in
  Ok (default_path (Output_Type spec) config).

Definition buildInputConfig (spec : InputSpec) (outputs processors : list string)
    : res (gmap string Value) :=
  config ← parse_config (Input_Config spec);
  let config := <["type" := VStr (Input_Type spec)]> config in
  let config := set_list "outputs" outputs config in
  Ok (set_list "event-processors" processors config).

(** [convert]: [map[any]any] becomes [map[string]any], dropping other keys. *)
Fixpoint convert (v : Value) : Value :=
  match v with
  | VStrMap m => VStrMap (List.map (λ kv, (kv.1, convert kv.2)) m)
  | VAnyMap m =>
      VStrMap ((fix go (m : list (Value * Value)) := match m with
                | [] => []
                | (VStr k, x) :: m => (k, convert x) :: go m
                | _ :: m => go m
                end) m)
  | VList l => VList (List.map convert l)
  | v => v
  end.

Definition buildProcessorConfig (spec : ProcessorSpec) : res (list (string * Value)) :=
  config ← parse_config (Proc_Config spec);
  let result := VStrMap [(Proc_Type spec, VStrMap (map_to_list config))] in
  match convert result with
  | VStrMap m => Ok m
  | _ => Err (ErrMsg "invalid processor config type")
  end.

(** [fmt.Sprintf "%s:%d"]. *)
Definition host_port (host : string) (port : Z) : string := host +:+ ":" +:+ Itoa port.

(** [http] or [https], by the [tls] key of the raw config. *)
Definition http_address (raw : option string) (host : string) (port : Z) : string :=
  match raw with
  | Some raw =>
      match Unmarshal raw with
      | Err _ => "http://" +:+ host_port host port
      | Ok config => if is_nil config "tls" then "http://" +:+ host_port host port
                     else "https://" +:+ host_port host port
      end
  | None => "http://" +:+ host_port host port
  end.

Definition FormatServiceAddress (spec : OutputSpec) (host : string) (port : Z) : string :=
  let ty := Output_Type spec in
  if bool_decide (ty = NATSOutputType ∨ ty = JetstreamOutputType)
  then "nats://" +:+ host_port host port
  else if bool_decide (ty = KafkaOutputType) then host_port host port
  else if bool_decide (ty = PrometheusWriteOutputType) then http_address (Output_Config spec) host port
  else if bool_decide (ty = InfluxDBOutputType) then http_address (Output_Config spec) host port
  else host_port host port.
End Configs.

(** An empty string is the first port, a number itself, else a port's name. *)
Definition ParseServicePort (portStr : string) (ports : list ServicePort) : res Z :=
  match (if bool_decide (portStr = "") then head ports else None) with
  | Some p => Ok (SP_Port p)
  | None =>
      match ParseInt portStr 32 with
      | Some portNum => Ok portNum
      | None =>
          match List.find (λ p, bool_decide (SP_Name p = portStr)) ports with
          | Some p => Ok (SP_Port p)
          | None => Err (ErrMsg "port not found in service")
          end
      end
  end.

(** ** Values *)

(** The induction principle that reaches inside lists and maps. *)
Section ValueInd.
Context (P : Value → Prop)
  (Hnull : P VNull) (Hbool : ∀ b, P (VBool b)) (Hnum : ∀ n, P (VNum n)) (Hstr : ∀ s, P (VStr s))
  (Hstrs : ∀ l, P (VStrings l)) (Hlist : ∀ l, Forall P l → P (VList l))
  (Hsm : ∀ m, Forall (λ kv, P kv.2) m → P (VStrMap m))
  (Ham : ∀ m, Forall (λ kv, P kv.1 ∧ P kv.2) m → P (VAnyMap m)).

Fixpoint Value_deep_ind (v : Value) : P v :=
  match v with
  | VNull => Hnull | VBool b => Hbool b | VNum n => Hnum n | VStr s => Hstr s
  | VStrings l => Hstrs l
  | VList l => Hlist l ((fix go l : Forall P l := match l with
      | [] => Forall_nil_2 _ | x :: l => Forall_cons_2 _ _ _ (Value_deep_ind x) (go l) end) l)
  | VStrMap m => Hsm m ((fix go m : Forall (λ kv, P kv.2) m := match m with
      | [] => Forall_nil_2 _
      | kv :: m => Forall_cons_2 _ _ _ (Value_deep_ind kv.2) (go m) end) m)
  | VAnyMap m => Ham m ((fix go m : Forall (λ kv, P kv.1 ∧ P kv.2) m := match m with
      | [] => Forall_nil_2 _
      | kv :: m => Forall_cons_2 _ _ _ (conj (Value_deep_ind kv.1) (Value_deep_ind kv.2)) (go m)
      end) m)
  end.
End ValueInd.

(** Only string-keyed maps, at every depth: what JSON can encode. *)
Fixpoint strings_only (v : Value) : bool :=
  match v with
  | VStrMap m => forallb (λ kv, strings_only kv.2) m
  | VAnyMap _ => false
  | VList l => forallb strings_only l
  | _ => true
  end.

(** The entries [convert] keeps of a [map[any]any]. *)
Definition any_entries (m : list (Value * Value)) : list (string * Value) :=
  omap (λ kv, match kv.1 with VStr k => Some (k, convert kv.2) | _ => None end) m.

Lemma convert_any m : convert (VAnyMap m) = VStrMap (any_entries m).
Proof.
  cbn. f_equal. induction m as [|[k x] m IH]; [done|].
  unfold any_entries in *. cbn. destruct k; cbn; rewrite ?IH; done.
Qed.

Lemma convert_strings_only v : strings_only (convert v) = true.
Proof.
  induction v as [| | | | |l IH|m IH|m IH] using Value_deep_ind; try done.
  - cbn. induction IH as [|x l Hx _ IH]; cbn; [done|]. by rewrite Hx.
  - cbn. induction IH as [|x m Hx _ IH]; cbn; [done|]. by rewrite Hx.
  - rewrite convert_any. cbn. unfold any_entries. induction IH as [|[k x] m [_ Hx] _ IH]; cbn; [done|].
    destruct k; cbn; [done..| |done|done|done|done]. cbn in Hx. by rewrite Hx.
Qed.

Lemma convert_id v : strings_only v = true → convert v = v.
Proof.
  induction v as [| | | | |l IH|m IH|m IH] using Value_deep_ind; intros H; try done.
  - cbn in *. f_equal. induction IH as [|x l Hx _ IH]; cbn in *; [done|].
    apply andb_true_iff in H as [H1 H2]. by rewrite (Hx H1), (IH H2).
  - cbn in *. f_equal. induction IH as [|[k x] m Hx _ IH]; cbn in *; [done|].
    apply andb_true_iff in H as [H1 H2]. by rewrite (Hx H1), (IH H2).
Qed.

Lemma is_nil_insert_eq m k v : v ≠ VNull → is_nil (<[k := v]> m) k = false.
Proof. intros H. unfold is_nil. rewrite lookup_insert_eq. by destruct v. Qed.

Lemma lookup_set_list k l m j :
  set_list k l m !! j = if decide (j = k ∧ l ≠ []) then Some (VStrings l) else m !! j.
Proof.
  unfold set_list. destruct l as [|x l]; [by rewrite decide_False by naive_solver|].
  destruct (decide (j = k)) as [->|Hne].
  - rewrite lookup_insert_eq. by rewrite decide_True.
  - rewrite lookup_insert_ne by done. by rewrite decide_False by naive_solver.
Qed.

(** ** Theorems *)

(** [convert] makes every processor configuration encodable: its result has
    only string-keyed maps at every depth; it changes nothing when that is already
    so, and running it twice is running it once. *)
Theorem convert_normalises v :
  strings_only (convert v) = true ∧
  (strings_only v = true ↔ convert v = v) ∧
  convert (convert v) = convert v.
Proof.
  split_and!.
  - apply convert_strings_only.
  - split; [apply convert_id|]. intros <-. apply convert_strings_only.
  - apply convert_id, convert_strings_only.
Qed.

(** [buildProcessorConfig] fails only when the raw configuration does not
    parse; otherwise it returns one encodable entry, the processor's type, holding
    every key of the raw configuration. *)
Theorem buildProcessorConfig_spec `{Y : YAML} spec :
  match parse_config (Proc_Config spec) with
  | Err e => buildProcessorConfig spec = Err e
  | Ok config => ∃ entries,
      buildProcessorConfig spec = Ok [(Proc_Type spec, VStrMap entries)] ∧
      strings_only (VStrMap entries) = true ∧
      ∀ k, k ∈ entries.*1 ↔ is_Some (config !! k)
  end.
Proof.
  unfold buildProcessorConfig. destruct (parse_config _) as [config|e]; [|done].
  cbn [mbind res_bind]. cbn [convert List.map fst snd].
  exists (List.map (λ kv, (kv.1, convert kv.2)) (map_to_list config)). split_and!; [done| |].
  - apply (convert_strings_only (VStrMap (map_to_list config))).
  - intros k. rewrite list_elem_of_fmap. split.
    + intros ([k' v] & -> & Hin). apply list_elem_of_In, in_map_iff in Hin as ([k2 v2] & [= -> <-] & Hin).
      apply list_elem_of_In, elem_of_map_to_list in Hin. eauto.
    + intros [v Hv]. exists (k, convert v). split; [done|].
      apply list_elem_of_In, in_map_iff. exists (k, v). split; [done|].
      by apply list_elem_of_In, elem_of_map_to_list.
Qed.

(** The keys the operator writes over the user's output configuration. *)
Definition managed_keys (spec : OutputSpec) (options : outputConfigOptions) : list string :=
  "type" :: (match Opt_Processors options with [] => [] | _ => ["event-processors"] end)
  ++ (match Opt_ResolvedAddresses options with
      | [] => [] | _ => match address_key (Output_Type spec) with Some k => [k] | None => [] end end)
  ++ (if bool_decide (Output_Type spec = "prometheus") then ["path"] else []).

Lemma address_key_cases ty k : address_key ty = Some k → k = "address" ∨ k = "url".
Proof. unfold address_key. repeat case_bool_decide; naive_solver. Qed.

Lemma lookup_inject_addresses ty addrs m k :
  inject_addresses ty addrs m !! k =
  if decide (address_key ty = Some k ∧ addrs ≠ []) then Some (VStr (Join addrs ",")) else m !! k.
Proof.
  unfold inject_addresses. destruct addrs as [|a l]; [by rewrite decide_False by naive_solver|].
  destruct (address_key _) as [k'|]; [|by rewrite decide_False by naive_solver].
  destruct (decide (k' = k)) as [->|Hne].
  - rewrite lookup_insert_eq. by rewrite decide_True.
  - rewrite lookup_insert_ne by done. by rewrite decide_False by naive_solver.
Qed.

Lemma lookup_default_path ty m k :
  k ≠ "path" ∨ ty ≠ "prometheus" → default_path ty m !! k = m !! k.
Proof.
  intros Hk. unfold default_path. case_bool_decide; [|done].
  destruct (is_nil m "path"); [|done]. cbn. rewrite lookup_insert_ne; naive_solver.
Qed.

(** [buildOutputConfig] keeps the user's configuration and overrides exactly
    the keys the operator owns: the type, the event processors when there are any,
    the resolved addresses (comma separated, under [address] or [url] by output
    type) and, for a Prometheus output that sets none, the path. *)
Theorem buildOutputConfig_spec `{Y : YAML} spec options config :
  parse_config (Output_Config spec) = Ok config →
  ∃ out, buildOutputConfig spec options = Ok out ∧
    out !! "type" = Some (VStr (Output_Type spec)) ∧
    (Opt_Processors options ≠ [] →
       out !! "event-processors" = Some (VStrings (Opt_Processors options))) ∧
    (∀ k, address_key (Output_Type spec) = Some k → Opt_ResolvedAddresses options ≠ [] →
       out !! k = Some (VStr (Join (Opt_ResolvedAddresses options) ","))) ∧
    (Output_Type spec = "prometheus" →
       out !! "path" = if is_nil config "path" then Some (VStr PrometheusDefaultPath)
                       else config !! "path") ∧
    (∀ k, k ∉ managed_keys spec options → out !! k = config !! k).
Proof.
  intros Hp. unfold buildOutputConfig. rewrite Hp. cbn [mbind res_bind]. eexists. split; [done|].
  assert (Hinj := λ m k, lookup_inject_addresses (Output_Type spec) (Opt_ResolvedAddresses options) m k).
  assert (Hpath := λ m k, lookup_default_path (Output_Type spec) m k).
  assert (Hak : ∀ k, address_key (Output_Type spec) = Some k → k = "address" ∨ k = "url")
    by apply address_key_cases.
  assert (Hnok : ∀ k, k ≠ "address" → k ≠ "url" →
    ¬ (address_key (Output_Type spec) = Some k ∧ Opt_ResolvedAddresses options ≠ [])).
  { intros k H1 H2 [Hk _]. by destruct (Hak k Hk). }
  split_and!.
  - rewrite Hpath by by left. rewrite Hinj, decide_False by by apply Hnok.
    rewrite lookup_set_list, decide_False by naive_solver. by rewrite lookup_insert_eq.
  - intros Hl. rewrite Hpath by by left. rewrite Hinj, decide_False by by apply Hnok.
    by rewrite lookup_set_list, decide_True.
  - intros k Hk Hl. rewrite Hpath by (destruct (Hak k Hk) as [->| ->]; by left).
    by rewrite Hinj, decide_True.
  - intros Ht. unfold default_path. rewrite bool_decide_eq_true_2 by done. cbn [andb].
    assert (∀ m, is_nil (inject_addresses (Output_Type spec) (Opt_ResolvedAddresses options)
      (set_list "event-processors" (Opt_Processors options) m)) "path" = is_nil m "path") as Hn.
    { intros m. unfold is_nil. rewrite Hinj, decide_False by by apply Hnok.
      by rewrite lookup_set_list, decide_False by naive_solver. }
    rewrite Hn. unfold is_nil at 1. rewrite lookup_insert_ne by done. fold (is_nil config "path").
    destruct (is_nil config "path") eqn:E; [by rewrite lookup_insert_eq|].
    rewrite Hinj, decide_False by by apply Hnok.
    rewrite lookup_set_list, decide_False by naive_solver. by rewrite lookup_insert_ne.
  - intros k Hk. unfold managed_keys in Hk. rewrite not_elem_of_cons, !not_elem_of_app in Hk.
    destruct Hk as (H1 & H2 & H3 & H4). rewrite Hpath.
    + rewrite Hinj, decide_False.
      * rewrite lookup_set_list, decide_False; [by rewrite lookup_insert_ne|].
        intros [-> Hne]. destruct (Opt_Processors options); [done|set_solver].
      * intros [Hk Hne]. destruct (Opt_ResolvedAddresses options); [done|]. rewrite Hk in H3. set_solver.
    + case_bool_decide; [left; set_solver | by right].
Qed.

(** [ParseServicePort] resolves a port as documented: an empty string to the
    first port, a number that fits 32 bits to itself, a name to the first port of
    that name; and it fails exactly when none of the three applies. *)
Theorem ParseServicePort_spec portStr ports :
  match ParseServicePort portStr ports with
  | Ok n =>
      (portStr = "" ∧ SP_Port <$> head ports = Some n) ∨
      (ParseInt portStr 32 = Some n ∧ - 2 ^ 31 ≤ n < 2 ^ 31) ∨
      (ParseInt portStr 32 = None ∧
       ∃ i p, ports !! i = Some p ∧ SP_Name p = portStr ∧ SP_Port p = n ∧
         ∀ j q, (j < i)%nat → ports !! j = Some q → SP_Name q ≠ portStr)
  | Err _ =>
      (portStr = "" → ports = []) ∧ ParseInt portStr 32 = None ∧
      ∀ p, p ∈ ports → SP_Name p ≠ portStr
  end.
Proof.
  unfold ParseServicePort.
  destruct (if bool_decide (portStr = "") then head ports else None) as [p|] eqn:Eh.
  { left. case_bool_decide; [|done]. by rewrite Eh. }
  assert (He : portStr = "" → ports = []).
  { intros ->. rewrite bool_decide_eq_true_2 in Eh by done. by destruct ports. }
  destruct (ParseInt portStr 32) as [n|] eqn:Ep.
  { right; left. split; [done|]. by apply ParseInt_range in Ep. }
  pose proof (find_first (λ p, bool_decide (SP_Name p = portStr)) ports) as Hf.
  destruct (List.find _ ports) as [p|].
  - right; right. split; [done|]. destruct Hf as (i & Hi & Hp & Hbefore).
    exists i, p. apply bool_decide_eq_true in Hp. split_and!; [done..|].
    intros j q Hj Hq. specialize (Hbefore j q Hj Hq). by apply bool_decide_eq_false in Hbefore.
  - split_and!; [done|done|]. intros p Hp. specialize (Hf p Hp). by apply bool_decide_eq_false in Hf.
Qed.

(** ** Witnesses *)

(** A decoder that knows two documents. *)
Definition demo_yaml : YAML := {|
  Unmarshal raw :=
    if bool_decide (raw = "path: /m") then Ok {[ "path" := VStr "/m"; "debug" := VBool true ]}
    else Err (ErrMsg "yaml") |}.

Lemma buildOutputConfig_spec_witness :
  ∃ out, @buildOutputConfig demo_yaml
    {| Output_Type := "prometheus"; Output_Config := Some "path: /m"; Output_Service := None;
       Output_ServiceRef := None; Output_ServiceSelector := None |}
    {| Opt_Processors := ["p"]; Opt_ResolvedAddresses := [] |} = Ok out.
Proof.
  destruct (@buildOutputConfig_spec demo_yaml
    {| Output_Type := "prometheus"; Output_Config := Some "path: /m"; Output_Service := None;
       Output_ServiceRef := None; Output_ServiceSelector := None |}
    {| Opt_Processors := ["p"]; Opt_ResolvedAddresses := [] |} _ eq_refl) as (out & Hout & _).
  exact (ex_intro _ out Hout).
Defined.
