(* ===== verification/PlanBuilder.v ===== *)
(** The plan builder ([internal/gnmic/plan.go]): from the resolved pipelines of a
    cluster to one [ApplyPlan].  Each [build*] function of the code changes one
    field of the plan it is passed; here it takes and returns that field. *)

From S2P Require Import Prelude GoLib Api GnmicTypes Placement Distribute Ports TargetConfigs OutputConfigs.
From Stdlib Require Import Ascii.
#[local] Open Scope Z_scope.

(** A Go [map[string]struct{}]. *)
Abbreviation StrSet := (gmap string unit).

Record resourceRelationship := {
  subscriptionOutputs : gmap string StrSet;
  targetSubscriptions : gmap string StrSet;
  inputOutputs : gmap string StrSet;
  outputProcessors : gmap string (list string);
  inputProcessors : gmap string (list string)
}.

(** [prometheusOutputPorts] and [targetDistributionCapacity] are left out: they are set
    and never read. *)
Record PlanBuilder := {
  PB_clusterName : string;
  PB_pipelines : gmap string PipelineData;
  PB_credsFetcher : option CredentialsFetcher;
  PB_clientTLS : option ClientTLSPaths;
  PB_relationships : resourceRelationship
}.

Definition NewPlanBuilder (clusterName : string) (credsFetcher : option CredentialsFetcher)
    : PlanBuilder := {|
  PB_clusterName := clusterName; PB_pipelines := ∅; PB_credsFetcher := credsFetcher;
  PB_clientTLS := None;
  PB_relationships := {| subscriptionOutputs := ∅; targetSubscriptions := ∅; inputOutputs := ∅;
                         outputProcessors := ∅; inputProcessors := ∅ |} |}.

Definition WithClientTLS (b : PlanBuilder) (clientTLS : option ClientTLSPaths) : PlanBuilder := {|
  PB_clusterName := PB_clusterName b; PB_pipelines := PB_pipelines b;
  PB_credsFetcher := PB_credsFetcher b; PB_clientTLS := clientTLS;
  PB_relationships := PB_relationships b |}.

Definition AddPipeline (b : PlanBuilder) (name : string) (data : PipelineData) : PlanBuilder := {|
  PB_clusterName := PB_clusterName b; PB_pipelines := <[name := data]> (PB_pipelines b);
  PB_credsFetcher := PB_credsFetcher b; PB_clientTLS := PB_clientTLS b;
  PB_relationships := PB_relationships b |}.

(** [utils.SplitNN]: ["namespace/name"] to its parts. *)
Definition SplitNN (nn : string) : string * string :=
  match SplitN2 nn "/"%char with
  | [a; b] => (a, b)
  | _ => ("", nn)
  end.

(** ** collectRelationships *)

Definition add_names (names : list string) (s : StrSet) : StrSet :=
  foldl (λ s n, <[n := ()]> s) s names.

(** Every key of [keys] gets every name of [names]. *)
Definition relate (keys names : list string) (rel : gmap string StrSet) : gmap string StrSet :=
  foldl (λ rel k, <[k := add_names names (default ∅ (rel !! k))]> rel) rel keys.

Definition appendProcessors (keys names : list string) (rel : gmap string (list string))
    : gmap string (list string) :=
  foldl (λ rel k, <[k := default [] (rel !! k) ++ names]> rel) rel keys.

(** The pod a target's status reports for the cluster: the number after the last
    ['-'] of the pod name. *)
Definition findTargetCurrentAssignmentBoundedLoadHashing (clusterName : string)
    (targetCR : Target) : option Z :=
  let podID := match TS_ClusterStates (Status targetCR) !! clusterName with
               | Some cs => CTS_Pod cs | None => "" end in
  if bool_decide (podID = "") then None
  else
    let podSuffix := match cut_last "-"%char podID with Some (_, s) => s | None => "" end in
    Atoi podSuffix.

Definition findTargetCurrentAssignment := findTargetCurrentAssignmentBoundedLoadHashing.

Section Collect.
Context `{R : GoRuntime}.

Definition names_of {V} (m : gmap string V) : list string := (go_range m).*1.

(** The status part of the loop over a pipeline's targets. *)
Definition recordAssignment (clusterName : string) (current : gmap Z StrSet)
    (entry : string * Target) : gmap Z StrSet :=
  let '(targetNN, targetCR) := entry in
  match findTargetCurrentAssignment clusterName targetCR with
  | Some podIdx =>
      if decide (podIdx >= 0)
      then <[podIdx := <[targetNN := ()]> (default ∅ (current !! podIdx))]> current
      else current
  | None => current
  end.

Definition collectPipeline (clusterName : string)
    (st : resourceRelationship * gmap Z StrSet) (pipelineData : PipelineData)
    : resourceRelationship * gmap Z StrSet :=
  let '(rel, current) := st in
  let outputs := names_of (PD_Outputs pipelineData) in
  let subs := names_of (PD_Subscriptions pipelineData) in
  let targets := names_of (PD_Targets pipelineData) in
  let inputs := names_of (PD_Inputs pipelineData) in
  ({| subscriptionOutputs := relate subs outputs (subscriptionOutputs rel);
      targetSubscriptions := relate targets subs (targetSubscriptions rel);
      inputOutputs := relate inputs outputs (inputOutputs rel);
      outputProcessors := appendProcessors outputs
        (names_of (PD_OutputProcessors pipelineData)) (outputProcessors rel);
      inputProcessors := appendProcessors inputs
        (names_of (PD_InputProcessors pipelineData)) (inputProcessors rel) |},
   foldl (recordAssignment clusterName) current (go_range (PD_Targets pipelineData))).

Definition collectRelationships (b : PlanBuilder) : resourceRelationship * gmap Z StrSet :=
  foldl (collectPipeline (PB_clusterName b)) (PB_relationships b, ∅)
    (go_range (PB_pipelines b)).*2.
End Collect.

(** ** The build steps *)

Section BuildSteps.
Context `{R : GoRuntime} `{Y : YAML} (b : PlanBuilder) (rel : resourceRelationship).

Definition fetchCredentials (namespace secretRef : string) : res (option Credentials) :=
  match PB_credsFetcher b with
  | Some f => if bool_decide (secretRef ≠ "")
              then Some <$> @FetchCredentials f namespace secretRef else Ok None
  | None => Ok None
  end.

Definition with_subscriptions (c : TargetConfig) (subs : list string) : TargetConfig := {|
  TC_Name := TC_Name c; TC_Address := TC_Address c; TC_Username := TC_Username c;
  TC_Password := TC_Password c; TC_Token := TC_Token c; TC_Timeout := TC_Timeout c;
  TC_RetryTimer := TC_RetryTimer c; TC_Encoding := TC_Encoding c; TC_Insecure := TC_Insecure c;
  TC_SkipVerify := TC_SkipVerify c; TC_TLSCert := TC_TLSCert c; TC_TLSKey := TC_TLSKey c;
  TC_TLSCA := TC_TLSCA c; TC_TLSServerName := TC_TLSServerName c;
  TC_TLSMaxVersion := TC_TLSMaxVersion c; TC_TLSMinVersion := TC_TLSMinVersion c;
  TC_CipherSuites := TC_CipherSuites c; TC_TCPKeepalive := TC_TCPKeepalive c;
  TC_GRPCKeepalive := TC_GRPCKeepalive c; TC_Subscriptions := subs |}.

(** The names of a relationship set, in the order of the range. *)
Definition related (m : gmap string StrSet) (k : string) : list string :=
  match m !! k with Some s => names_of s | None => [] end.

Definition buildTarget (pd : PipelineData) (targets : gmap string (option TargetConfig))
    (entry : string * Target) : res (gmap string (option TargetConfig)) :=
  let '(targetNN, target) := entry in
  if decide (is_Some (targets !! targetNN)) then Ok targets else
  let namespace := (SplitNN targetNN).1 in
  match PD_TargetProfiles pd !! (namespace +:+ Delimiter +:+ Target_Profile (Spec target)) with
  | None => Ok targets
  | Some profileSpec =>
      creds ← fetchCredentials namespace (TP_CredentialsRef profileSpec);
      Ok (<[targetNN := Some (with_subscriptions
              (buildTargetConfig target profileSpec creds (PB_clientTLS b))
              (related (targetSubscriptions rel) targetNN))]> targets)
  end.

Definition buildTargets (pd : PipelineData) (targets : gmap string (option TargetConfig)) :=
  foldl_res (buildTarget pd) targets (go_range (PD_Targets pd)).

(** The configuration built always exists ([buildSubscriptionConfig_terminates]). *)
Definition buildSubscription (pd : PipelineData) (subs : gmap string SubscriptionConfig)
    (entry : string * SubscriptionSpec) : gmap string SubscriptionConfig :=
  let '(subNN, subSpec) := entry in
  if decide (is_Some (subs !! subNN)) then subs else
  match buildSubscriptionConfig subNN subSpec (related (subscriptionOutputs rel) subNN)
          (PD_Subscriptions pd) with
  | Some c => <[subNN := c]> subs
  | None => subs
  end.

Definition buildSubscriptions (pd : PipelineData) (subs : gmap string SubscriptionConfig) :=
  foldl (buildSubscription pd) subs (go_range (PD_Subscriptions pd)).

Definition buildOutput (pd : PipelineData) (outputs : gmap string (gmap string Value))
    (entry : string * OutputSpec) : res (gmap string (gmap string Value)) :=
  let '(outputNN, outputSpec) := entry in
  if decide (is_Some (outputs !! outputNN)) then Ok outputs else
  config ← buildOutputConfig outputSpec
    {| Opt_Processors := default [] (outputProcessors rel !! outputNN);
       Opt_ResolvedAddresses := default [] (PD_ResolvedOutputAddresses pd !! outputNN) |};
  Ok (<[outputNN := config]> outputs).

Definition buildOutputs (pd : PipelineData) (outputs : gmap string (gmap string Value)) :=
  foldl_res (buildOutput pd) outputs (go_range (PD_Outputs pd)).

Definition buildInput (inputs : gmap string (gmap string Value)) (entry : string * InputSpec)
    : res (gmap string (gmap string Value)) :=
  let '(inputNN, inputSpec) := entry in
  if decide (is_Some (inputs !! inputNN)) then Ok inputs else
  config ← buildInputConfig inputSpec (related (inputOutputs rel) inputNN)
             (default [] (inputProcessors rel !! inputNN));
  Ok (<[inputNN := config]> inputs).

Definition buildInputs (pd : PipelineData) (inputs : gmap string (gmap string Value)) :=
  foldl_res buildInput inputs (go_range (PD_Inputs pd)).

Definition buildProcessor (procs : gmap string (list (string * Value)))
    (entry : string * ProcessorSpec) : res (gmap string (list (string * Value))) :=
  let '(processorNN, processorSpec) := entry in
  if decide (is_Some (procs !! processorNN)) then Ok procs else
  config ← buildProcessorConfig processorSpec;
  Ok (<[processorNN := config]> procs).

Definition buildProcessors (pd : PipelineData) (procs : gmap string (list (string * Value))) :=
  procs ← foldl_res buildProcessor procs (go_range (PD_OutputProcessors pd));
  foldl_res buildProcessor procs (go_range (PD_InputProcessors pd)).

Definition buildTunnelMatch (pd : PipelineData) (matches : gmap string TunnelTargetMatch)
    (entry : string * TunnelTargetPolicySpec) : res (gmap string TunnelTargetMatch) :=
  let '(policyNN, policySpec) := entry in
  if decide (is_Some (matches !! policyNN)) then Ok matches else
  let namespace := (SplitNN policyNN).1 in
  match PD_TargetProfiles pd !! (namespace +:+ Delimiter +:+ TTP_Profile policySpec) with
  | None => Ok matches
  | Some profileSpec =>
      creds ← fetchCredentials namespace (TP_CredentialsRef profileSpec);
      Ok (<[policyNN := buildTunnelTargetMatch policySpec (Some profileSpec) creds
                          (PB_clientTLS b)]> matches)
  end.

Definition buildTunnelTargetMatches (pd : PipelineData) (matches : gmap string TunnelTargetMatch) :=
  foldl_res (buildTunnelMatch pd) matches (go_range (PD_TunnelTargetPolicies pd)).

(** Writing to the nil map of an unknown output panics. *)
Definition setListen (outputs : gmap string (gmap string Value)) (entry : string * Z)
    : res (gmap string (gmap string Value)) :=
  let '(outputPNN, port) := entry in
  match outputs !! outputPNN with
  | Some config => Ok (<[outputPNN := <["listen" := VStr (":" +:+ Itoa port)]> config]> outputs)
  | None => Err (ErrMsg "assignment to entry in nil map")
  end.

Definition prometheusOutputs (pd : PipelineData) : list string :=
  (filter (λ e, Output_Type e.2 = PrometheusOutputType) (go_range (PD_Outputs pd))).*1.

Definition assignPrometheusOutputPorts (pd : PipelineData)
    (st : gmap string Z * gmap string (gmap string Value))
    : res (gmap string Z * gmap string (gmap string Value)) :=
  let '(prometheusPorts, outputs) := st in
  ports ← assignPorts (prometheusOutputs pd) PrometheusDefaultPort PrmetheusPortPoolSize;
  outputs ← foldl_res setListen outputs (go_range ports);
  Ok (ports ∪ prometheusPorts, outputs).

(** One iteration of [Build]'s loop. *)
Definition buildPipeline (plan : ApplyPlan) (pd : PipelineData) : res ApplyPlan :=
  targets ← buildTargets pd (AP_Targets plan);
  let subs := buildSubscriptions pd (AP_Subscriptions plan) in
  outputs ← buildOutputs pd (AP_Outputs plan);
  inputs ← buildInputs pd (AP_Inputs plan);
  procs ← buildProcessors pd (AP_Processors plan);
  matches ← buildTunnelTargetMatches pd (AP_TunnelTargetMatches plan);
  st ← assignPrometheusOutputPorts pd (AP_PrometheusPorts plan, outputs);
  Ok {| AP_Targets := targets; AP_CurrentTargetAssignment := AP_CurrentTargetAssignment plan;
        AP_Subscriptions := subs; AP_Outputs := st.2; AP_Inputs := inputs; AP_Processors := procs;
        AP_TunnelTargetMatches := matches; AP_PrometheusPorts := st.1 |}.
End BuildSteps.

(** [Build]: the two loops over the pipelines may visit them in different orders,
    hence two runtimes. *)
Definition Build (R1 R2 : GoRuntime) `{Y : YAML} (b : PlanBuilder) : PlanBuilder * res ApplyPlan :=
  let '(rel, current) := @collectRelationships R1 b in
  ({| PB_clusterName := PB_clusterName b; PB_pipelines := PB_pipelines b;
      PB_credsFetcher := PB_credsFetcher b; PB_clientTLS := PB_clientTLS b;
      PB_relationships := rel |},
   foldl_res (@buildPipeline R2 Y b rel)
     {| AP_Targets := ∅; AP_CurrentTargetAssignment := current; AP_Subscriptions := ∅;
        AP_Outputs := ∅; AP_Inputs := ∅; AP_Processors := ∅; AP_TunnelTargetMatches := ∅;
        AP_PrometheusPorts := ∅ |}
     (@go_range R2 _ _ _ _ (PB_pipelines b)).*2).

(** ** Relationships *)

(** [k] is related to [n]. *)
Definition has {K} `{Countable K} (rel : gmap K StrSet) (k : K) (n : string) : Prop :=
  is_Some (default ∅ (rel !! k) !! n).

Lemma has_empty {K} `{Countable K} (k : K) n : ¬ has ∅ k n.
Proof. unfold has. rewrite lookup_empty. cbn. unfold id. rewrite lookup_empty. by intros []. Qed.

Lemma has_insert {K} `{Countable K} (rel : gmap K StrSet) j k s n :
  has (<[j := s]> rel) k n ↔ if decide (j = k) then is_Some (s !! n) else has rel k n.
Proof. unfold has. rewrite lookup_insert. by case_decide. Qed.

Lemma lookup_add_names names s n :
  is_Some (add_names names s !! n) ↔ n ∈ names ∨ is_Some (s !! n).
Proof.
  unfold add_names. revert s; induction names as [|m names IH]; intros s; cbn; [set_solver|].
  rewrite IH, lookup_insert_is_Some, elem_of_cons. destruct (decide (m = n)); naive_solver.
Qed.

Lemma has_relate keys names rel k n :
  has (relate keys names rel) k n ↔ has rel k n ∨ (k ∈ keys ∧ n ∈ names).
Proof.
  unfold relate. revert rel; induction keys as [|j keys IH]; intros rel; cbn; [set_solver|].
  rewrite IH, elem_of_cons, has_insert. case_decide as Hj; [subst j|naive_solver].
  rewrite lookup_add_names. fold (has rel k n). naive_solver.
Qed.

Section CollectLemmas.
Context `{R : GoRuntime}.

Lemma elem_of_names_of {V} (m : gmap string V) n : n ∈ names_of m ↔ is_Some (m !! n).
Proof. apply elem_of_go_range_keys. Qed.

Lemma NoDup_names_of {V} (m : gmap string V) : NoDup (names_of m).
Proof. apply NoDup_fst_go_range. Qed.

(** A relationship collected pipeline by pipeline. *)
Lemma has_relate_loop {V W} (K : PipelineData → gmap string V) (N : PipelineData → gmap string W)
    pds rel k n :
  has (foldl (λ rel pd, relate (names_of (K pd)) (names_of (N pd)) rel) rel pds) k n ↔
  has rel k n ∨ ∃ pd, pd ∈ pds ∧ is_Some (K pd !! k) ∧ is_Some (N pd !! n).
Proof.
  revert rel; induction pds as [|pd pds IH]; intros rel; cbn [foldl]; [set_solver|].
  rewrite IH, has_relate, !elem_of_names_of. setoid_rewrite elem_of_cons. naive_solver.
Qed.

Lemma elem_of_pipelines (m : gmap string PipelineData) pd :
  pd ∈ (go_range m).*2 ↔ ∃ p, m !! p = Some pd.
Proof.
  rewrite list_elem_of_fmap. split.
  - intros ([p pd'] & -> & Hin). apply elem_of_go_range in Hin. eauto.
  - intros [p Hp]. exists (p, pd). by rewrite elem_of_go_range.
Qed.

Lemma targetSubscriptions_spec b t s :
  has (targetSubscriptions (collectRelationships b).1) t s ↔
  has (targetSubscriptions (PB_relationships b)) t s ∨
  ∃ p pd, PB_pipelines b !! p = Some pd ∧ is_Some (PD_Targets pd !! t) ∧
          is_Some (PD_Subscriptions pd !! s).
Proof.
  unfold collectRelationships.
  rewrite (foldl_proj _ (λ rel pd, relate (names_of (PD_Targets pd)) (names_of (PD_Subscriptions pd)) rel)
    (λ st, targetSubscriptions st.1)) by by intros [] ?.
  rewrite has_relate_loop. setoid_rewrite elem_of_pipelines. naive_solver.
Qed.

Lemma subscriptionOutputs_spec b s o :
  has (subscriptionOutputs (collectRelationships b).1) s o ↔
  has (subscriptionOutputs (PB_relationships b)) s o ∨
  ∃ p pd, PB_pipelines b !! p = Some pd ∧ is_Some (PD_Subscriptions pd !! s) ∧
          is_Some (PD_Outputs pd !! o).
Proof.
  unfold collectRelationships.
  rewrite (foldl_proj _ (λ rel pd, relate (names_of (PD_Subscriptions pd)) (names_of (PD_Outputs pd)) rel)
    (λ st, subscriptionOutputs st.1)) by by intros [] ?.
  rewrite has_relate_loop. setoid_rewrite elem_of_pipelines. naive_solver.
Qed.

Lemma inputOutputs_spec b i o :
  has (inputOutputs (collectRelationships b).1) i o ↔
  has (inputOutputs (PB_relationships b)) i o ∨
  ∃ p pd, PB_pipelines b !! p = Some pd ∧ is_Some (PD_Inputs pd !! i) ∧
          is_Some (PD_Outputs pd !! o).
Proof.
  unfold collectRelationships.
  rewrite (foldl_proj _ (λ rel pd, relate (names_of (PD_Inputs pd)) (names_of (PD_Outputs pd)) rel)
    (λ st, inputOutputs st.1)) by by intros [] ?.
  rewrite has_relate_loop. setoid_rewrite elem_of_pipelines. naive_solver.
Qed.

Lemma has_recordAssignment cn cur nn target p t :
  has (recordAssignment cn cur (nn, target)) p t ↔
  has cur p t ∨ (t = nn ∧ findTargetCurrentAssignment cn target = Some p ∧ 0 ≤ p).
Proof.
  unfold recordAssignment. destruct (findTargetCurrentAssignment cn target) as [q|]; [|naive_solver].
  case_decide as Hq; [|naive_solver lia]. rewrite has_insert.
  case_decide as Hp; [subst q|naive_solver].
  rewrite lookup_insert_is_Some. fold (has cur p t).
  destruct (decide (nn = t)); naive_solver lia.
Qed.

Lemma has_record_loop cn l cur p t :
  has (foldl (recordAssignment cn) cur l) p t ↔
  has cur p t ∨ ∃ target, (t, target) ∈ l ∧ findTargetCurrentAssignment cn target = Some p ∧ 0 ≤ p.
Proof.
  revert cur; induction l as [|[nn target] l IH]; intros cur; cbn [foldl]; [set_solver|].
  rewrite IH, has_recordAssignment. setoid_rewrite elem_of_cons. naive_solver.
Qed.

Lemma currentAssignment_spec b p t :
  has (collectRelationships b).2 p t ↔
  ∃ n pd target, PB_pipelines b !! n = Some pd ∧ PD_Targets pd !! t = Some target ∧
    findTargetCurrentAssignment (PB_clusterName b) target = Some p ∧ 0 ≤ p.
Proof.
  unfold collectRelationships.
  rewrite (foldl_proj _ (λ cur pd, foldl (recordAssignment (PB_clusterName b)) cur (go_range (PD_Targets pd)))
    snd) by by intros [] ?.
  assert (H : ∀ pds cur, has (foldl (λ cur pd, foldl (recordAssignment (PB_clusterName b)) cur
      (go_range (PD_Targets pd))) cur pds) p t ↔
    has cur p t ∨ ∃ pd target, pd ∈ pds ∧ PD_Targets pd !! t = Some target ∧
      findTargetCurrentAssignment (PB_clusterName b) target = Some p ∧ 0 ≤ p).
  { induction pds as [|pd pds IH]; intros cur; cbn [foldl]; [set_solver|].
    rewrite IH, has_record_loop. setoid_rewrite elem_of_go_range. setoid_rewrite elem_of_cons. naive_solver. }
  rewrite H. cbn. setoid_rewrite elem_of_pipelines. pose proof (has_empty p t). naive_solver.
Qed.
End CollectLemmas.

(** ** Loops that fill a map, first writer first *)

(** The shape of every [build*] loop: skip a key that is there, else compute its
    value, which may fail or be left out. *)
Section Absent.
Context {V W : Type} (F : PipelineData → string * V → res (option W)).
Context (E : PipelineData → list (string * V)).

Definition absent_step (pd : PipelineData) (m : gmap string W) (e : string * V) : res (gmap string W) :=
  if decide (is_Some (m !! e.1)) then Ok m
  else w ← F pd e; Ok (match w with Some w => <[e.1 := w]> m | None => m end).

Definition absent_loop (pds : list PipelineData) (m : gmap string W) : res (gmap string W) :=
  foldl_res (λ m pd, foldl_res (absent_step pd) m (E pd)) m pds.

Lemma absent_step_mono pd m e m' k :
  absent_step pd m e = Ok m' → is_Some (m !! k) → is_Some (m' !! k).
Proof.
  unfold absent_step. case_decide; [by intros [= ->]|].
  intros ([w|] & _ & [= <-])%bind_Ok; [|done]. intros Hk. apply lookup_insert_is_Some'. by right.
Qed.

(** A value once written is never replaced. *)
Lemma absent_inner_keep pd m m' l k w :
  foldl_res (absent_step pd) m l = Ok m' → m !! k = Some w → m' !! k = Some w.
Proof.
  intros H Hk. eapply (foldl_res_inv _ (λ m, m !! k = Some w)); [exact Hk| |exact H].
  intros c e c' _ Hc. unfold absent_step. case_decide as Hp; [by intros [= <-]|].
  intros ([x|] & _ & [= <-])%bind_Ok; [|done]. rewrite lookup_insert_ne; [done|].
  intros Heq. apply Hp. rewrite Heq. eauto.
Qed.

Lemma absent_inner_mono pd m m' l k :
  foldl_res (absent_step pd) m l = Ok m' → is_Some (m !! k) → is_Some (m' !! k).
Proof.
  intros H Hk. eapply (foldl_res_inv _ (λ m, is_Some (m !! k))); [exact Hk| |exact H].
  intros. by eapply absent_step_mono.
Qed.

Lemma absent_inner_visited pd m m' l e :
  foldl_res (absent_step pd) m l = Ok m' → e ∈ l → is_Some (m' !! e.1) ∨ F pd e = Ok None.
Proof.
  intros Hin He.
  refine (foldl_res_visited _ (λ e m, is_Some (m !! e.1) ∨ F pd e = Ok None) _ _ _ _ _ Hin e He); clear.
  - intros m1 e m2 _. unfold absent_step. case_decide; [intros [= <-]; by left|].
    intros ([w|] & HF & [= <-])%bind_Ok; [|by right]. left. rewrite lookup_insert_eq. eauto.
  - intros m1 e e' m2 _ Hs [Hq|Hq]; [left|by right]. by eapply absent_step_mono.
Qed.

(** Every value comes from an entry of some pipeline; every entry is there or was
    left out. *)
Lemma absent_loop_spec pds m :
  absent_loop pds ∅ = Ok m →
  (∀ k w, m !! k = Some w → ∃ pd v, pd ∈ pds ∧ (k, v) ∈ E pd ∧ F pd (k, v) = Ok (Some w)) ∧
  (∀ pd k v, pd ∈ pds → (k, v) ∈ E pd → is_Some (m !! k) ∨ F pd (k, v) = Ok None).
Proof.
  unfold absent_loop. intros Hall. split.
  - set (P := λ m : gmap string W, ∀ k w, m !! k = Some w →
      ∃ pd v, pd ∈ pds ∧ (k, v) ∈ E pd ∧ F pd (k, v) = Ok (Some w)).
    eapply (foldl_res_inv _ P); [by intros k w; rewrite lookup_empty| |exact Hall].
    intros m1 pd m2 Hpd HP Hin. eapply (foldl_res_inv _ P); [exact HP| |exact Hin].
    intros m3 [k v] m4 Hk HP3. unfold absent_step. case_decide; [by intros [= <-]|].
    intros ([w|] & HF & [= <-])%bind_Ok; [|done].
    intros k' w' [[<- <-]|[_ Hk']]%lookup_insert_Some; [|by apply HP3]. cbn. eauto.
  - intros pd k v Hpd Hk.
    refine (foldl_res_visited _ (λ pd m, ∀ k v, (k, v) ∈ E pd → is_Some (m !! k) ∨ F pd (k, v) = Ok None)
      _ _ _ _ _ Hall pd Hpd k v Hk); clear.
    + intros m1 pd m2 _ Hin k v Hk. exact (absent_inner_visited _ _ _ _ _ Hin Hk).
    + intros m1 pd pd' m2 _ Hin Hq k v Hk. destruct (Hq k v Hk) as [H|H]; [left|by right].
      by eapply absent_inner_mono.
Qed.

(** A single pipeline's loop succeeds when every value can be computed. *)
Lemma absent_inner_total pd m :
  (∀ e, e ∈ E pd → is_ok (F pd e) = true) → is_ok (foldl_res (absent_step pd) m (E pd)) = true.
Proof.
  intros H. apply is_ok_spec. destruct (foldl_res_total (absent_step pd) (λ _, True) (E pd) m) as (m' & Hm & _);
    [done| |eauto].
  intros m1 e He _. unfold absent_step. case_decide; [eauto|].
  apply H, is_ok_spec in He as [w ->]. cbn. eauto.
Qed.
End Absent.

(** ** The loop of [Build], one field at a time *)

Definition profile_key (nn profile : string) : string :=
  (SplitNN nn).1 +:+ Delimiter +:+ profile.

Section BuildLemmas.
Context `{R : GoRuntime} `{Y : YAML} (b : PlanBuilder) (rel : resourceRelationship).

(** The value each loop computes for an entry. *)
Definition target_value (pd : PipelineData) (e : string * Target) : res (option (option TargetConfig)) :=
  match PD_TargetProfiles pd !! profile_key e.1 (Target_Profile (Spec e.2)) with
  | None => Ok None
  | Some profile =>
      creds ← fetchCredentials b (SplitNN e.1).1 (TP_CredentialsRef profile);
      Ok (Some (Some (with_subscriptions (buildTargetConfig e.2 profile creds (PB_clientTLS b))
                        (related (targetSubscriptions rel) e.1))))
  end.

Definition subscription_value (pd : PipelineData) (e : string * SubscriptionSpec)
    : res (option SubscriptionConfig) :=
  Ok (buildSubscriptionConfig e.1 e.2 (related (subscriptionOutputs rel) e.1) (PD_Subscriptions pd)).

Definition output_value (pd : PipelineData) (e : string * OutputSpec)
    : res (option (gmap string Value)) :=
  Some <$> buildOutputConfig e.2
    {| Opt_Processors := default [] (outputProcessors rel !! e.1);
       Opt_ResolvedAddresses := default [] (PD_ResolvedOutputAddresses pd !! e.1) |}.

Definition input_value (pd : PipelineData) (e : string * InputSpec) : res (option (gmap string Value)) :=
  Some <$> buildInputConfig e.2 (related (inputOutputs rel) e.1) (default [] (inputProcessors rel !! e.1)).

Definition processor_value (pd : PipelineData) (e : string * ProcessorSpec)
    : res (option (list (string * Value))) :=
  Some <$> buildProcessorConfig e.2.

Definition tunnel_value (pd : PipelineData) (e : string * TunnelTargetPolicySpec)
    : res (option TunnelTargetMatch) :=
  match PD_TargetProfiles pd !! profile_key e.1 (TTP_Profile e.2) with
  | None => Ok None
  | Some profile =>
      creds ← fetchCredentials b (SplitNN e.1).1 (TP_CredentialsRef profile);
      Ok (Some (buildTunnelTargetMatch e.2 (Some profile) creds (PB_clientTLS b)))
  end.

Lemma foldl_res_ext {A B} (f g : B → A → res B) l c :
  (∀ c a, f c a = g c a) → foldl_res f c l = foldl_res g c l.
Proof. intros H. revert c; induction l as [|a l IH]; intros c; cbn; [done|]. rewrite H. by destruct (g c a). Qed.

Lemma buildTargets_absent pd m :
  buildTargets b rel pd m = foldl_res (absent_step target_value pd) m (go_range (PD_Targets pd)).
Proof.
  apply foldl_res_ext. intros c [t target]. unfold buildTarget, absent_step, target_value, profile_key.
  cbn [fst snd]. case_decide; [done|]. destruct (PD_TargetProfiles pd !! _); [|done].
  by destruct (fetchCredentials _ _ _).
Qed.

Lemma buildSubscriptions_absent pd m :
  Ok (buildSubscriptions rel pd m) =
  foldl_res (absent_step subscription_value pd) m (go_range (PD_Subscriptions pd)).
Proof.
  symmetry. apply foldl_res_ok. intros c [s spec]. unfold buildSubscription, absent_step, subscription_value.
  cbn [fst snd]. by case_decide.
Qed.

Lemma buildOutputs_absent pd m :
  buildOutputs rel pd m = foldl_res (absent_step output_value pd) m (go_range (PD_Outputs pd)).
Proof.
  apply foldl_res_ext. intros c [o spec]. unfold buildOutput, absent_step, output_value.
  cbn [fst snd]. case_decide; [done|]. by destruct (buildOutputConfig _ _).
Qed.

Lemma buildInputs_absent pd m :
  buildInputs rel pd m = foldl_res (absent_step input_value pd) m (go_range (PD_Inputs pd)).
Proof.
  apply foldl_res_ext. intros c [o spec]. unfold buildInput, absent_step, input_value.
  cbn [fst snd]. case_decide; [done|]. by destruct (buildInputConfig _ _ _).
Qed.

Lemma buildProcessors_absent pd m :
  buildProcessors pd m = foldl_res (absent_step processor_value pd) m
    (go_range (PD_OutputProcessors pd) ++ go_range (PD_InputProcessors pd)).
Proof.
  rewrite foldl_res_app. unfold buildProcessors.
  assert (H : ∀ l m, foldl_res buildProcessor m l = foldl_res (absent_step processor_value pd) m l).
  { intros l m'. apply foldl_res_ext. intros c [o spec].
    unfold buildProcessor, absent_step, processor_value.
    cbn [fst snd]. case_decide; [done|]. by destruct (buildProcessorConfig _). }
  rewrite H. cbn [mbind res_bind]. destruct (foldl_res _ m _); [|done]. apply H.
Qed.

Lemma buildTunnelTargetMatches_absent pd m :
  buildTunnelTargetMatches b pd m =
  foldl_res (absent_step tunnel_value pd) m (go_range (PD_TunnelTargetPolicies pd)).
Proof.
  apply foldl_res_ext. intros c [t policy]. unfold buildTunnelMatch, absent_step, tunnel_value, profile_key.
  cbn [fst snd]. case_decide; [done|]. destruct (PD_TargetProfiles pd !! _); [|done].
  by destruct (fetchCredentials _ _ _).
Qed.

Lemma buildPipeline_Ok plan pd plan' :
  buildPipeline b rel plan pd = Ok plan' →
  buildTargets b rel pd (AP_Targets plan) = Ok (AP_Targets plan') ∧
  AP_CurrentTargetAssignment plan' = AP_CurrentTargetAssignment plan ∧
  AP_Subscriptions plan' = buildSubscriptions rel pd (AP_Subscriptions plan) ∧
  (∃ outputs, buildOutputs rel pd (AP_Outputs plan) = Ok outputs ∧
     assignPrometheusOutputPorts pd (AP_PrometheusPorts plan, outputs) =
       Ok (AP_PrometheusPorts plan', AP_Outputs plan')) ∧
  buildInputs rel pd (AP_Inputs plan) = Ok (AP_Inputs plan') ∧
  buildProcessors pd (AP_Processors plan) = Ok (AP_Processors plan') ∧
  buildTunnelTargetMatches b pd (AP_TunnelTargetMatches plan) = Ok (AP_TunnelTargetMatches plan').
Proof.
  unfold buildPipeline. intros (targets & Ht & H)%bind_Ok.
  apply bind_Ok in H as (outputs & Ho & H). apply bind_Ok in H as (inputs & Hi & H).
  apply bind_Ok in H as (procs & Hp & H). apply bind_Ok in H as (matches & Hm & H).
  apply bind_Ok in H as ([ports outs] & Hs & [= <-]). cbn. split_and!; eauto.
Qed.

(** Each field of the final plan is the result of its own loop. *)
Lemma buildAll_fields pds plan0 plan :
  foldl_res (buildPipeline b rel) plan0 pds = Ok plan →
  absent_loop target_value (λ pd, go_range (PD_Targets pd)) pds (AP_Targets plan0) = Ok (AP_Targets plan) ∧
  AP_CurrentTargetAssignment plan = AP_CurrentTargetAssignment plan0 ∧
  absent_loop subscription_value (λ pd, go_range (PD_Subscriptions pd)) pds (AP_Subscriptions plan0)
    = Ok (AP_Subscriptions plan) ∧
  absent_loop input_value (λ pd, go_range (PD_Inputs pd)) pds (AP_Inputs plan0) = Ok (AP_Inputs plan) ∧
  absent_loop processor_value (λ pd, go_range (PD_OutputProcessors pd) ++ go_range (PD_InputProcessors pd))
    pds (AP_Processors plan0) = Ok (AP_Processors plan) ∧
  absent_loop tunnel_value (λ pd, go_range (PD_TunnelTargetPolicies pd)) pds (AP_TunnelTargetMatches plan0)
    = Ok (AP_TunnelTargetMatches plan).
Proof.
  intros H. unfold absent_loop. split_and!.
  - revert H. apply foldl_res_proj. intros pl pd pl' (Ht & _)%buildPipeline_Ok.
    by rewrite <- buildTargets_absent.
  - apply (foldl_res_inv _ (λ pl, AP_CurrentTargetAssignment pl = AP_CurrentTargetAssignment plan0)) in H;
      [done|done|]. by intros pl pd pl' _ <- (_ & -> & _)%buildPipeline_Ok.
  - revert H. apply foldl_res_proj. intros pl pd pl' (_ & _ & Hs & _)%buildPipeline_Ok.
    by rewrite <- buildSubscriptions_absent, Hs.
  - revert H. apply foldl_res_proj. intros pl pd pl' (_ & _ & _ & _ & Hi & _)%buildPipeline_Ok.
    by rewrite <- buildInputs_absent.
  - revert H. apply foldl_res_proj. intros pl pd pl' (_ & _ & _ & _ & _ & Hp & _)%buildPipeline_Ok.
    by rewrite <- buildProcessors_absent.
  - revert H. apply foldl_res_proj. intros pl pd pl' (_ & _ & _ & _ & _ & _ & Hm)%buildPipeline_Ok.
    by rewrite <- buildTunnelTargetMatches_absent.
Qed.
End BuildLemmas.

Section Related.
Context `{R : GoRuntime}.

Lemma elem_of_related m k n : n ∈ related m k ↔ has m k n.
Proof.
  unfold related, has. destruct (m !! k) as [s|]; cbn; unfold id; [apply elem_of_names_of|].
  rewrite lookup_empty. split; [set_solver|by intros []].
Qed.

Lemma NoDup_related m k : NoDup (related m k).
Proof. unfold related. destruct (m !! k); [apply NoDup_names_of | constructor]. Qed.
End Related.

(** A builder that has not built yet ([NewPlanBuilder] and [AddPipeline]s). *)
Definition fresh (b : PlanBuilder) : Prop :=
  PB_relationships b = PB_relationships (NewPlanBuilder "" None).

(** Some pipeline of the cluster satisfies [P]. *)
Definition some_pipeline (b : PlanBuilder) (P : PipelineData → Prop) : Prop :=
  ∃ p pd, PB_pipelines b !! p = Some pd ∧ P pd.

Lemma some_pipeline_range `{R : GoRuntime} b (P : PipelineData → Prop) :
  (∃ pd, pd ∈ (go_range (PB_pipelines b)).*2 ∧ P pd) ↔ some_pipeline b P.
Proof. setoid_rewrite elem_of_pipelines. unfold some_pipeline. naive_solver. Qed.

Lemma Build_fields R1 R2 `{Y : YAML} b b' plan :
  Build R1 R2 b = (b', Ok plan) →
  let rel := (@collectRelationships R1 b).1 in
  let pds := (@go_range R2 _ _ _ _ (PB_pipelines b)).*2 in
  foldl_res (@buildPipeline R2 Y b rel)
    {| AP_Targets := ∅; AP_CurrentTargetAssignment := (@collectRelationships R1 b).2;
       AP_Subscriptions := ∅; AP_Outputs := ∅; AP_Inputs := ∅; AP_Processors := ∅;
       AP_TunnelTargetMatches := ∅; AP_PrometheusPorts := ∅ |} pds = Ok plan.
Proof. unfold Build. destruct (@collectRelationships R1 b) as [rel cur]. by intros [= _ H]. Qed.

(** ** Listen ports *)

Section Listen.
Context `{R : GoRuntime}.

Definition listens (outputs : gmap string (gmap string Value)) (o : string) (port : Z) : Prop :=
  ∃ config, outputs !! o = Some config ∧ config !! "listen" = Some (VStr (":" +:+ Itoa port)).

Lemma setListen_loop l outputs outputs' :
  NoDup l.*1 → foldl_res setListen outputs l = Ok outputs' →
  (∀ o port, (o, port) ∈ l → listens outputs' o port) ∧
  (∀ o, o ∉ l.*1 → outputs' !! o = outputs !! o) ∧
  (∀ o, is_Some (outputs' !! o) ↔ is_Some (outputs !! o)).
Proof.
  revert outputs; induction l as [|[u q] l IH]; intros outputs; cbn [foldl_res].
  - intros _ [= <-]. split_and!; [set_solver|done|done].
  - intros [Hu Hnd]%NoDup_cons. unfold setListen at 1.
    destruct (outputs !! u) as [config|] eqn:Eu; [|done]. intros Hl.
    destruct (IH _ Hnd Hl) as (H1 & H2 & H3). split_and!.
    + intros o port [[= -> ->]|Hin]%elem_of_cons; [|by apply H1].
      unfold listens. rewrite (H2 u Hu), lookup_insert_eq. eexists. split; [done|]. apply lookup_insert_eq.
    + intros o Ho. rewrite H2 by set_solver. rewrite lookup_insert_ne; [done|]. intros ->. apply Ho. by left.
    + intros o. rewrite H3, lookup_insert_is_Some. destruct (decide (u = o)) as [->|]; naive_solver.
Qed.

Lemma setListen_total l outputs :
  (∀ o, o ∈ l.*1 → is_Some (outputs !! o)) → is_ok (foldl_res setListen outputs l) = true.
Proof.
  revert outputs; induction l as [|[u q] l IH]; intros outputs H; cbn [foldl_res]; [done|].
  destruct (H u) as [c Hc]; [by left|]. unfold setListen at 1. rewrite Hc.
  apply IH. intros o Ho. apply lookup_insert_is_Some'. right. apply H. by right.
Qed.

Lemma elem_of_prometheusOutputs pd o :
  o ∈ prometheusOutputs pd ↔ ∃ spec, PD_Outputs pd !! o = Some spec ∧ Output_Type spec = PrometheusOutputType.
Proof.
  unfold prometheusOutputs. rewrite list_elem_of_fmap. split.
  - intros ([o' spec] & -> & [Hty Hin%elem_of_go_range]%list_elem_of_filter). eauto.
  - intros (spec & Ho & Hty). exists (o, spec). split; [done|].
    apply list_elem_of_filter. by rewrite elem_of_go_range.
Qed.

Lemma NoDup_prometheusOutputs pd : NoDup (prometheusOutputs pd).
Proof.
  unfold prometheusOutputs. eapply sublist_NoDup; [apply (NoDup_fst_go_range (PD_Outputs pd))|].
  apply fmap_sublist, sublist_filter.
Qed.

(** What the plan reports and what it configures agree. *)
Definition ports_agree (st : gmap string Z * gmap string (gmap string Value)) : Prop :=
  ∀ o port, st.1 !! o = Some port → 9804 ≤ port ≤ 10812 ∧ listens st.2 o port.

Lemma assignPrometheus_agree pd ports outputs ports' outputs' :
  ports_agree (ports, outputs) →
  assignPrometheusOutputPorts pd (ports, outputs) = Ok (ports', outputs') →
  ports_agree (ports', outputs') ∧
  (∀ o, is_Some (ports' !! o) ↔ is_Some (ports !! o) ∨ o ∈ prometheusOutputs pd) ∧
  (∀ o p q, o ∈ prometheusOutputs pd → p ∈ prometheusOutputs pd →
     ports' !! o = Some q → ports' !! p = Some q → o = p).
Proof.
  intros Hinv. unfold assignPrometheusOutputPorts. intros (new & Hnew & H)%bind_Ok.
  apply bind_Ok in H as (outs & Houts & [= <- <-]).
  pose proof (assignPorts_pool _ (NoDup_prometheusOutputs pd)) as Hp. rewrite Hnew in Hp.
  destruct Hp as (_ & Hdom & Hrange & Hinj).
  destruct (setListen_loop _ _ _ (NoDup_fst_go_range new) Houts) as (H1 & H2 & _).
  split_and!.
  - intros o port [Ho|[Hno Ho]]%lookup_union_Some_raw; cbn [fst snd] in *.
    + specialize (Hrange o port Ho). unfold PrometheusDefaultPort, PrmetheusPortPoolSize in Hrange.
      split; [lia|]. apply H1. by apply elem_of_go_range.
    + destruct (Hinv o port Ho) as [Hr (config & Hc & Hl)]. split; [done|].
      exists config. split; [|done]. rewrite H2; [done|].
      rewrite elem_of_go_range_keys. rewrite Hno. by intros [].
  - intros o. rewrite lookup_union_is_Some, Hdom. tauto.
  - intros o p q Ho Hp. rewrite <- Hdom in Ho, Hp. destruct Ho as [x Hx], Hp as [y Hy].
    rewrite (lookup_union_Some_l _ _ _ _ Hx), (lookup_union_Some_l _ _ _ _ Hy).
    intros [= ->] [= ->]. eauto.
Qed.
End Listen.

(** ** Theorems *)

(** C8: Every target the plan configures is the target of some pipeline, built from
    its own profile and the credentials fetched for it, and is subscribed to
    exactly the union of the subscriptions of all pipelines that select it, each
    once; and a target of any pipeline that is missing from the plan has no profile
    in any pipeline that selects it. *)
Theorem build_targets_exact (R1 R2 : GoRuntime) `{Y : YAML} b b' plan t :
  fresh b → Build R1 R2 b = (b', Ok plan) →
  match AP_Targets plan !! t with
  | Some c => ∃ subs,
      some_pipeline b (λ pd, ∃ target profile creds,
        PD_Targets pd !! t = Some target ∧
        PD_TargetProfiles pd !! profile_key t (Target_Profile (Spec target)) = Some profile ∧
        fetchCredentials b (SplitNN t).1 (TP_CredentialsRef profile) = Ok creds ∧
        c = Some (with_subscriptions (buildTargetConfig target profile creds (PB_clientTLS b)) subs)) ∧
      NoDup subs ∧
      ∀ s, s ∈ subs ↔ some_pipeline b (λ pd, is_Some (PD_Targets pd !! t) ∧ is_Some (PD_Subscriptions pd !! s))
  | None => ∀ p pd target, PB_pipelines b !! p = Some pd → PD_Targets pd !! t = Some target →
      PD_TargetProfiles pd !! profile_key t (Target_Profile (Spec target)) = None
  end.
Proof.
  intros Hf HB%Build_fields. cbn zeta in HB.
  apply buildAll_fields in HB as (Ht & _). cbn in Ht. apply absent_loop_spec in Ht as [Hs Hc].
  destruct (AP_Targets plan !! t) as [c|] eqn:E.
  - destruct (Hs t c E) as (pd & target & Hpd & Hin%elem_of_go_range & HF). unfold target_value in HF. cbn in HF.
    destruct (PD_TargetProfiles pd !! _) as [profile|] eqn:Ep; [|done].
    apply bind_Ok in HF as (creds & Hcr & [= <-]).
    eexists. split_and!; [|apply NoDup_related|].
    + apply some_pipeline_range. exists pd. split; [done|]. by exists target, profile, creds.
    + intros s. rewrite elem_of_related, (@targetSubscriptions_spec R1), Hf. cbn.
      pose proof (has_empty t s). unfold some_pipeline. naive_solver.
  - intros p pd target Hp Htg. destruct (Hc pd t target) as [[? ?]|HF].
    + apply elem_of_pipelines. eauto.
    + by apply elem_of_go_range.
    + by simplify_eq.
    + unfold target_value in HF. cbn in HF. destruct (PD_TargetProfiles pd !! _); [|done].
      apply bind_Ok in HF as (? & _ & [=]).
Qed.

(** C9: The plan configures exactly the subscriptions of its pipelines, each from
    the spec of one of them, and each sends to exactly the union of the outputs of
    all pipelines that select it, each once. *)
Theorem build_subscriptions_exact (R1 R2 : GoRuntime) `{Y : YAML} b b' plan s :
  fresh b → Build R1 R2 b = (b', Ok plan) →
  (is_Some (AP_Subscriptions plan !! s) ↔ some_pipeline b (λ pd, is_Some (PD_Subscriptions pd !! s))) ∧
  ∀ c, AP_Subscriptions plan !! s = Some c →
    some_pipeline b (λ pd, ∃ spec, PD_Subscriptions pd !! s = Some spec ∧
      buildSubscriptionConfig s spec (SubC_Outputs c) (PD_Subscriptions pd) = Some c) ∧
    NoDup (SubC_Outputs c) ∧
    ∀ o, o ∈ SubC_Outputs c ↔
      some_pipeline b (λ pd, is_Some (PD_Subscriptions pd !! s) ∧ is_Some (PD_Outputs pd !! o)).
Proof.
  intros Hf HB%Build_fields. cbn zeta in HB.
  apply buildAll_fields in HB as (_ & _ & Hs & _). cbn in Hs. apply absent_loop_spec in Hs as [Hs Hc].
  split; [split|].
  - intros [c E]. destruct (Hs s c E) as (pd & spec & Hpd & Hin%elem_of_go_range & _).
    apply some_pipeline_range. eauto.
  - intros (p & pd & Hp & [spec Hspec]). destruct (Hc pd s spec) as [|HF].
    + apply elem_of_pipelines. eauto.
    + by apply elem_of_go_range.
    + done.
    + unfold subscription_value, buildSubscriptionConfig in HF. rewrite build_two in HF. done.
  - intros c E. destruct (Hs s c E) as (pd & spec & Hpd & Hin%elem_of_go_range & [= HF]).
    cbn [fst snd] in HF.
    assert (Ho : SubC_Outputs c = @related R2 (subscriptionOutputs (@collectRelationships R1 b).1) s).
    { unfold buildSubscriptionConfig in HF. rewrite build_two in HF. injection HF as <-.
      unfold subscriptionFields. by destruct (specModeToConfig _). }
    rewrite Ho. split_and!; [|apply NoDup_related|].
    + apply some_pipeline_range. eauto.
    + intros o. rewrite elem_of_related, (@subscriptionOutputs_spec R1), Hf. cbn.
      pose proof (has_empty s o). unfold some_pipeline. naive_solver.
Qed.

(** Every pipeline's view of a target's pod is the same, and every target has a
    profile: the targets of a cluster read at one moment. *)
Definition targets_coherent (b : PlanBuilder) : Prop :=
  (∀ p pd t target, PB_pipelines b !! p = Some pd → PD_Targets pd !! t = Some target →
     is_Some (PD_TargetProfiles pd !! profile_key t (Target_Profile (Spec target)))) ∧
  (∀ p q pd qd t target target', PB_pipelines b !! p = Some pd → PB_pipelines b !! q = Some qd →
     PD_Targets pd !! t = Some target → PD_Targets qd !! t = Some target' →
     findTargetCurrentAssignment (PB_clusterName b) target =
     findTargetCurrentAssignment (PB_clusterName b) target').

(** The assignment the builder reads off the targets' status is one the
    distribution accepts: when the pipelines agree on a target's status and every
    target has its profile, [Build] records each target for at most one pod, of
    index at least 0, and only targets the plan configures. *)
Theorem build_current_consistent (R1 R2 : GoRuntime) `{Y : YAML} b b' plan :
  targets_coherent b → Build R1 R2 b = (b', Ok plan) → current_consistent plan.
Proof.
  intros [Hprof Hagree] HB%Build_fields. cbn zeta in HB.
  apply buildAll_fields in HB as (Ht & Hcur & _). cbn in Ht, Hcur.
  apply absent_loop_spec in Ht as [_ Hc].
  assert (Hhas : ∀ p ts t, AP_CurrentTargetAssignment plan !! p = Some ts → is_Some (ts !! t) →
    ∃ n pd target, PB_pipelines b !! n = Some pd ∧ PD_Targets pd !! t = Some target ∧
      findTargetCurrentAssignment (PB_clusterName b) target = Some p ∧ 0 ≤ p).
  { intros p ts t Hp Htt. apply (@currentAssignment_spec R1). rewrite <- Hcur. unfold has. by rewrite Hp. }
  split.
  - intros p ts t Hp Htt. destruct (Hhas p ts t Hp Htt) as (n & pd & target & Hn & Htg & _ & Hpos).
    split; [done|]. destruct (Hc pd t target) as [|HF].
    + apply elem_of_pipelines. eauto.
    + by apply elem_of_go_range.
    + done.
    + destruct (Hprof n pd t target Hn Htg) as [profile Hpr].
      unfold target_value in HF. cbn [fst snd] in HF. rewrite Hpr in HF.
      apply bind_Ok in HF as (? & _ & [=]).
  - intros p q ts us t Hp Hq Htt Huu.
    destruct (Hhas p ts t Hp Htt) as (n & pd & target & Hn & Htg & Hfind & _).
    destruct (Hhas q us t Hq Huu) as (m & qd & target' & Hm & Htg' & Hfind' & _).
    pose proof (Hagree n m pd qd t target target' Hn Hm Htg Htg'). congruence.
Qed.

Section Ports.
Context `{R : GoRuntime} `{Y : YAML} (b : PlanBuilder) (rel : resourceRelationship).

(** The part of an iteration that touches outputs and ports. *)
Definition portStep (st : gmap string Z * gmap string (gmap string Value)) (pd : PipelineData) :=
  outputs ← buildOutputs rel pd st.2; assignPrometheusOutputPorts pd (st.1, outputs).

Lemma portStep_agree st pd st' :
  ports_agree st → portStep st pd = Ok st' →
  ports_agree st' ∧
  (∀ o, is_Some (st'.1 !! o) ↔ is_Some (st.1 !! o) ∨ o ∈ prometheusOutputs pd).
Proof.
  destruct st as [ports outputs], st' as [ports' outputs']. intros Hinv (outs & Ho & Ha)%bind_Ok.
  cbn [fst snd] in *. rewrite buildOutputs_absent in Ho.
  destruct (assignPrometheus_agree pd ports outs ports' outputs') as (H1 & H2 & _); [|done|done].
  intros o port Hport. cbn [fst snd] in *. destruct (Hinv o port Hport) as [Hr (config & Hc & Hl)].
  split; [done|]. exists config. split; [|done]. by eapply absent_inner_keep.
Qed.

Lemma portStep_loop pds st st' :
  ports_agree st → foldl_res portStep st pds = Ok st' →
  ports_agree st' ∧
  ∀ o, is_Some (st'.1 !! o) ↔ is_Some (st.1 !! o) ∨ ∃ pd, pd ∈ pds ∧ o ∈ prometheusOutputs pd.
Proof.
  revert st; induction pds as [|pd pds IH]; intros st Hinv; cbn [foldl_res].
  - intros [= ->]. split; [done|]. set_solver.
  - destruct (portStep st pd) as [st1|] eqn:E; [|done]. intros Hl.
    destruct (portStep_agree _ _ _ Hinv E) as [Hinv1 Hdom1].
    destruct (IH st1 Hinv1 Hl) as [Hinv2 Hdom2]. split; [done|]. intros o.
    rewrite Hdom2, Hdom1. setoid_rewrite elem_of_cons. naive_solver.
Qed.
End Ports.

Lemma Build_ports (R1 R2 : GoRuntime) `{Y : YAML} b b' plan :
  Build R1 R2 b = (b', Ok plan) →
  (∀ o, is_Some (AP_PrometheusPorts plan !! o) ↔
     some_pipeline b (λ pd, ∃ spec, PD_Outputs pd !! o = Some spec ∧ Output_Type spec = PrometheusOutputType)) ∧
  (∀ o port, AP_PrometheusPorts plan !! o = Some port →
     9804 ≤ port ≤ 10812 ∧
     ∃ config, AP_Outputs plan !! o = Some config ∧
       config !! "listen" = Some (VStr (":" +:+ Itoa port))).
Proof.
  intros HB%Build_fields. cbn zeta in HB.
  apply (foldl_res_proj _ (@portStep R2 Y (@collectRelationships R1 b).1)
    (λ pl, (AP_PrometheusPorts pl, AP_Outputs pl))) in HB.
  2:{ intros pl pd pl' (_ & _ & _ & (outs & Ho & Ha) & _)%buildPipeline_Ok.
      unfold portStep. cbn [fst snd]. rewrite Ho. exact Ha. }
  apply portStep_loop in HB as [Hinv Hdom]; [|by intros o port; cbn; rewrite lookup_empty].
  split; [|done]. intros o. rewrite <- (@some_pipeline_range R2).
  setoid_rewrite <- (@elem_of_prometheusOutputs R2).
  cbn [fst] in Hdom. rewrite Hdom. cbn. rewrite lookup_empty. split; [|by right].
  intros [[? ?]|]; done.
Qed.

(** C10: The Prometheus ports the plan reports are the ports it configures: exactly
    the Prometheus outputs of the pipelines have one, it lies in [9804..10812], and
    the output's own configuration listens on it, even for an output that several
    pipelines share and whose port is assigned again for each of them. *)
Theorem build_ports_agree (R1 R2 : GoRuntime) `{Y : YAML} b b' plan :
  Build R1 R2 b = (b', Ok plan) →
  (∀ o, is_Some (AP_PrometheusPorts plan !! o) ↔
     some_pipeline b (λ pd, ∃ spec, PD_Outputs pd !! o = Some spec ∧ Output_Type spec = PrometheusOutputType)) ∧
  (∀ o port, AP_PrometheusPorts plan !! o = Some port →
     9804 ≤ port ≤ 10812 ∧
     ∃ config, AP_Outputs plan !! o = Some config ∧
       config !! "listen" = Some (VStr (":" +:+ Itoa port))).
Proof. apply Build_ports. Qed.

(** What a pipeline's data must offer for the builder to succeed. *)
Definition buildable (b : PlanBuilder) `{Y : YAML} (pd : PipelineData) : Prop :=
  (∀ t target profile, PD_Targets pd !! t = Some target →
     PD_TargetProfiles pd !! profile_key t (Target_Profile (Spec target)) = Some profile →
     is_ok (fetchCredentials b (SplitNN t).1 (TP_CredentialsRef profile)) = true) ∧
  (∀ t policy profile, PD_TunnelTargetPolicies pd !! t = Some policy →
     PD_TargetProfiles pd !! profile_key t (TTP_Profile policy) = Some profile →
     is_ok (fetchCredentials b (SplitNN t).1 (TP_CredentialsRef profile)) = true) ∧
  (∀ o spec, PD_Outputs pd !! o = Some spec → is_ok (parse_config (Output_Config spec)) = true) ∧
  (∀ i spec, PD_Inputs pd !! i = Some spec → is_ok (parse_config (Input_Config spec)) = true) ∧
  (∀ p spec, PD_OutputProcessors pd !! p = Some spec → is_ok (parse_config (Proc_Config spec)) = true) ∧
  (∀ p spec, PD_InputProcessors pd !! p = Some spec → is_ok (parse_config (Proc_Config spec)) = true) ∧
  (size (PD_Outputs pd) ≤ 1009)%nat.

Section Total.
Context `{R : GoRuntime} `{Y : YAML} (b : PlanBuilder) (rel : resourceRelationship).

Lemma assignPrometheus_total pd ports outputs :
  (size (PD_Outputs pd) ≤ 1009)%nat → (∀ o, o ∈ prometheusOutputs pd → is_Some (outputs !! o)) →
  is_ok (assignPrometheusOutputPorts pd (ports, outputs)) = true.
Proof.
  intros Hsize Hin. unfold assignPrometheusOutputPorts.
  pose proof (assignPorts_pool _ (NoDup_prometheusOutputs pd)) as Hp.
  destruct (assignPorts _ _ _) as [new|e]; cbn [mbind res_bind ports_for] in *.
  - destruct Hp as (_ & Hdom & _).
    pose proof (setListen_total (go_range new) outputs) as Ht.
    destruct (foldl_res setListen outputs (go_range new)); [done|].
    apply Ht. intros o Ho%elem_of_go_range_keys. by apply Hin, Hdom.
  - exfalso. assert (length (prometheusOutputs pd) ≤ size (PD_Outputs pd))%nat.
    { unfold prometheusOutputs. rewrite length_fmap, <- (length_go_range (PD_Outputs pd)).
      apply sublist_length, sublist_filter. }
    unfold PrmetheusPortPoolSize in Hp. lia.
Qed.

Lemma is_ok_fmap {A B} (f : A → B) (r : res A) : is_ok (f <$> r) = is_ok r.
Proof. by destruct r. Qed.

Lemma is_ok_bind {A B} (r : res A) (f : A → res B) :
  is_ok r = true → (∀ a, r = Ok a → is_ok (f a) = true) → is_ok (r ≫= f) = true.
Proof. destruct r; cbn; [|done]. auto. Qed.

Lemma buildPipeline_total plan pd : buildable b pd → is_ok (buildPipeline b rel plan pd) = true.
Proof.
  intros (Ht & Htun & Ho & Hi & Hpo & Hpi & Hsize). unfold buildPipeline.
  apply is_ok_bind; [|intros targets _; apply is_ok_bind; [|intros outputs Houts;
    apply is_ok_bind; [|intros inputs _; apply is_ok_bind; [|intros procs _;
    apply is_ok_bind; [|intros matches _; apply is_ok_bind; [|done]]]]]].
  - rewrite buildTargets_absent. apply (absent_inner_total _ (λ pd, go_range (PD_Targets pd))).
    intros [t target] He%elem_of_go_range. unfold target_value. cbn [fst snd].
    destruct (PD_TargetProfiles pd !! _) as [profile|] eqn:Ep; [|done].
    apply is_ok_bind; [by eapply Ht|done].
  - rewrite buildOutputs_absent. apply (absent_inner_total _ (λ pd, go_range (PD_Outputs pd))).
    intros [o spec] He%elem_of_go_range. unfold output_value. rewrite is_ok_fmap. cbn [fst snd].
    unfold buildOutputConfig. apply is_ok_bind; [by eapply Ho|done].
  - rewrite buildInputs_absent. apply (absent_inner_total _ (λ pd, go_range (PD_Inputs pd))).
    intros [o spec] He%elem_of_go_range. unfold input_value. rewrite is_ok_fmap. cbn [fst snd].
    unfold buildInputConfig. apply is_ok_bind; [by eapply Hi|done].
  - rewrite buildProcessors_absent.
    apply (absent_inner_total _ (λ pd, go_range (PD_OutputProcessors pd) ++ go_range (PD_InputProcessors pd))).
    intros [o spec] He%elem_of_app. rewrite !elem_of_go_range in He. unfold processor_value.
    rewrite is_ok_fmap. cbn [fst snd]. unfold buildProcessorConfig.
    apply is_ok_bind; [destruct He; eauto|done].
  - rewrite buildTunnelTargetMatches_absent.
    apply (absent_inner_total _ (λ pd, go_range (PD_TunnelTargetPolicies pd))).
    intros [t policy] He%elem_of_go_range. unfold tunnel_value. cbn [fst snd].
    destruct (PD_TargetProfiles pd !! _) as [profile|] eqn:Ep; [|done].
    apply is_ok_bind; [by eapply Htun|done].
  - apply assignPrometheus_total; [done|].
    intros o (spec & Hspec & _)%elem_of_prometheusOutputs.
    rewrite buildOutputs_absent in Houts.
    destruct (absent_inner_visited (output_value rel) pd _ _ _ (o, spec) Houts) as [|HF]; [by apply elem_of_go_range|done|].
    unfold output_value in HF. by destruct (buildOutputConfig _ _).
Qed.
End Total.

(** C11: [Build] never fails for want of a port, on a nil map or on a processor's
    type: it returns a plan whenever every credentials reference it needs can be
    fetched, every raw configuration parses and no pipeline has more than 1009
    outputs. *)
Theorem build_total (R1 R2 : GoRuntime) `{Y : YAML} b :
  (∀ p pd, PB_pipelines b !! p = Some pd → buildable b pd) →
  ∃ plan, (Build R1 R2 b).2 = Ok plan.
Proof.
  intros H. unfold Build. destruct (@collectRelationships R1 b) as [rel cur]. cbn [snd].
  edestruct (foldl_res_total (@buildPipeline R2 Y b rel) (λ _, True)) as (plan & Hplan & _);
    [done| |exists plan; exact Hplan].
  intros pl pd Hpd _. apply (@elem_of_pipelines R2) in Hpd as [p Hp].
  destruct (proj1 (is_ok_spec _) (@buildPipeline_total R2 Y b rel pl pd (H p pd Hp))) as [pl' ->]. eauto.
Qed.

(** ** Witnesses *)

Definition demo_fetcher : CredentialsFetcher := {|
  FetchCredentials ns ref := Ok {| Cred_Username := "admin"; Cred_Password := "pw"; Cred_Token := "" |} |}.

Definition demo_output (ty : string) : OutputSpec := {|
  Output_Type := ty; Output_Config := None; Output_Service := None; Output_ServiceRef := None;
  Output_ServiceSelector := None |}.

Definition demo_pipeline (s o : string) : PipelineData := {|
  PD_Targets := {[ "ns/r1" := demo_target_cr ]};
  PD_TargetProfiles := {[ "ns/p" := demo_profile ]};
  PD_Subscriptions := {[ s := demo_subscription [] ]};
  PD_Outputs := {[ o := demo_output "prometheus" ]};
  PD_Inputs := ∅; PD_OutputProcessors := ∅; PD_InputProcessors := ∅; PD_TunnelTargetPolicies := ∅;
  PD_OutputProcessorOrder := []; PD_InputProcessorOrder := []; PD_ResolvedOutputAddresses := ∅ |}.

Definition demo_builder : PlanBuilder :=
  AddPipeline (AddPipeline (NewPlanBuilder "c" (Some demo_fetcher)) "a" (demo_pipeline "ns/s1" "ns/o1"))
    "b" (demo_pipeline "ns/s2" "ns/o2").

Definition demo_built : PlanBuilder * res ApplyPlan :=
  @Build go_reference go_reversed demo_yaml demo_builder.

Definition demo_built_plan : ApplyPlan :=
  match demo_built.2 with Ok plan => plan | Err _ => demo_plan end.

Lemma demo_built_eq :
  @Build go_reference go_reversed demo_yaml demo_builder = (demo_built.1, Ok demo_built_plan).
Proof. by vm_compute. Qed.

Lemma demo_pipelines p pd :
  PB_pipelines demo_builder !! p = Some pd →
  pd = demo_pipeline "ns/s2" "ns/o2" ∨ pd = demo_pipeline "ns/s1" "ns/o1".
Proof.
  cbn. intros [[_ <-]|[_ H]]%lookup_insert_Some; [by left|].
  apply lookup_insert_Some in H as [[_ <-]|[_ H]]; [by right|done].
Qed.

Lemma demo_pipeline_target s o t target :
  PD_Targets (demo_pipeline s o) !! t = Some target → t = "ns/r1" ∧ target = demo_target_cr.
Proof. cbn. intros H. by apply lookup_singleton_Some in H as [<- <-]. Qed.

Lemma demo_buildable s o : @buildable demo_builder demo_yaml (demo_pipeline s o).
Proof.
  unfold buildable. split_and!.
  1,2: by intros t x profile _ _; unfold fetchCredentials; cbn; case_bool_decide.
  - intros k spec H. cbn in H. by apply lookup_singleton_Some in H as [_ <-].
  - by intros k spec H.
  - by intros k spec H.
  - by intros k spec H.
  - change (size ({[ o := demo_output "prometheus" ]} : gmap string OutputSpec) ≤ 1009)%nat.
    rewrite map_size_singleton. lia.
Qed.

Lemma build_targets_exact_witness :
  match AP_Targets demo_built_plan !! "ns/r1" with
  | Some c => ∃ subs : list string, "ns/s1" ∈ subs ∧ "ns/s2" ∈ subs
  | None => False
  end.
Proof.
  pose proof (@build_targets_exact go_reference go_reversed demo_yaml demo_builder _ _ "ns/r1"
    eq_refl demo_built_eq) as H.
  destruct (AP_Targets demo_built_plan !! "ns/r1") as [c|].
  - destruct H as (subs & _ & _ & Hs). exists subs. rewrite !Hs. unfold some_pipeline. split.
    + exists "a", (demo_pipeline "ns/s1" "ns/o1"). vm_compute. eauto.
    + exists "b", (demo_pipeline "ns/s2" "ns/o2"). vm_compute. eauto.
  - by specialize (H "a" (demo_pipeline "ns/s1" "ns/o1") demo_target_cr eq_refl eq_refl).
Defined.

Lemma build_subscriptions_exact_witness :
  is_Some (AP_Subscriptions demo_built_plan !! "ns/s1").
Proof.
  apply (@build_subscriptions_exact go_reference go_reversed demo_yaml demo_builder _ _ "ns/s1"
    eq_refl demo_built_eq).
  exists "a", (demo_pipeline "ns/s1" "ns/o1"). vm_compute. eauto.
Defined.

Lemma build_current_consistent_witness : current_consistent demo_built_plan.
Proof.
  apply (@build_current_consistent go_reference go_reversed demo_yaml demo_builder demo_built.1);
    [|exact demo_built_eq].
  split.
  - by intros p pd t target [->| ->]%demo_pipelines [-> ->]%demo_pipeline_target; vm_compute; eauto.
  - by intros p q pd qd t target target' [->| ->]%demo_pipelines [->| ->]%demo_pipelines
      [_ ->]%demo_pipeline_target [_ ->]%demo_pipeline_target.
Defined.

Lemma build_ports_agree_witness :
  is_Some (AP_PrometheusPorts demo_built_plan !! "ns/o1").
Proof.
  apply (@build_ports_agree go_reference go_reversed demo_yaml demo_builder _ _ demo_built_eq).
  exists "a", (demo_pipeline "ns/s1" "ns/o1"). vm_compute. eauto.
Defined.

Lemma build_total_witness :
  ∃ plan, (@Build go_reference go_reversed demo_yaml demo_builder).2 = Ok plan.
Proof.
  apply (@build_total go_reference go_reversed demo_yaml demo_builder).
  intros p pd [->| ->]%demo_pipelines; apply demo_buildable.
Defined.

(** Ports are assigned per pipeline, so two outputs of different pipelines can be
    given the same one. *)
Example cross_pipeline_port_collision :
  let b := AddPipeline (AddPipeline (NewPlanBuilder "c" None) "a" (demo_pipeline "ns/s1" "ns/o46"))
             "b" (demo_pipeline "ns/s2" "ns/o66") in
  match (@Build go_reference go_reference demo_yaml b).2 with
  | Ok plan => AP_PrometheusPorts plan !! "ns/o46" = Some 10346 ∧
               AP_PrometheusPorts plan !! "ns/o66" = Some 10346
  | Err _ => False
  end.
Proof. by vm_compute. Qed.
