(* ===== verification/KubeClient.v ===== *)
(** The Kubernetes API client as the discovery code uses it: a parameter, given by
    its operations on an abstract world [W] and the documented behaviour the
    theorems rely on; and one concrete client, used by the witnesses. *)

From S2P Require Import Prelude Api.
#[local] Open Scope Z_scope.

(** ** Operations *)

(** Every call takes the world to a new one: other actors, retries and the
    cancellation of the context may change it at any time.  [kc_done] polls
    [ctx.Done()].  [kc_createOrUpdate] is [controllerutil.CreateOrUpdate], which is given
    the function that mutates the object, and [kc_setControllerReference] the check and
    the reference of [controllerutil.SetControllerReference]; the owner references are not
    in the records of the model, so it looks at the world. *)
Class KubeClient (W : Type) : Type := {
  kc_done : W → W * bool;
  kc_now : W → W * Z;
  kc_listTargets : string → string → W → W * res (list Target);
  kc_createOrUpdate : Target → (Target → W → res Target) → W → W * res unit;
  kc_setControllerReference : TargetSource → Target → W → res Target;
  kc_getTarget : NamespacedName → W → W * res Target;
  kc_deleteTarget : Target → W → W * res unit;
  kc_getSource : NamespacedName → W → W * res TargetSource;
  kc_updateSourceStatus : TargetSource → W → W * res unit;
  kc_retryOnConflict : (W → W * res unit) → W → W * res unit
}.

(** The targets the API server holds. *)
Class TargetStore (W : Type) : Type := { targets_of : W → gmap NamespacedName Target }.

Definition source_label := "operator.gnmic.dev/targetsource".

(** [t] is listed for the source [name] of namespace [ns]. *)
Definition listed (ns name : string) (t : Target) : Prop :=
  Namespace (Meta t) = ns ∧ Labels (Meta t) !! source_label = Some name.

(** Two states of one object, up to its status. *)
Definition same_object (t t' : Target) : Prop := Meta t = Meta t' ∧ Spec t = Spec t'.

(** What the libraries document about these calls.  Reads change nothing and are current;
    a write touches only its own object, and a reported success is a success:
    [CreateOrUpdate] stores what the mutating function makes of the object, an accepted
    delete leaves nothing or an object with a deletion timestamp.  Nobody else writes the
    targets seen through [targets_of] between two calls; the reads are tied to it up to
    the status only, so an instance may hide the statuses, which the target-state
    controller writes meanwhile. *)
Class KubeLaws (W : Type) `{C : KubeClient W} `{S : TargetStore W} : Prop := {
  kl_key : ∀ w k t, targets_of w !! k = Some t → key_of t = k;
  kl_done : ∀ w, targets_of (kc_done w).1 = targets_of w;
  kl_now : ∀ w, targets_of (kc_now w).1 = targets_of w;
  kl_list_view : ∀ ns name w, targets_of (kc_listTargets ns name w).1 = targets_of w;
  kl_list : ∀ ns name w l, (kc_listTargets ns name w).2 = Ok l →
    (∀ t, t ∈ l → listed ns name t ∧ ∃ t', targets_of w !! key_of t = Some t' ∧ same_object t t') ∧
    ∀ k t', targets_of w !! k = Some t' → listed ns name t' → ∃ t, t ∈ l ∧ key_of t = k;
  kl_create_frame : ∀ d mutate w k, k ≠ key_of d →
    targets_of (kc_createOrUpdate d mutate w).1 !! k = targets_of w !! k;
  kl_create : ∀ d mutate w u, (kc_createOrUpdate d mutate w).2 = Ok u →
    ∃ o w1 o' t, mutate o w1 = Ok o' ∧ targets_of (kc_createOrUpdate d mutate w).1 !! key_of d = Some t ∧
      Spec t = Spec o' ∧ Labels (Meta t) = Labels (Meta o');
  kl_setOwner : ∀ ts o w o', kc_setControllerReference ts o w = Ok o' →
    Spec o' = Spec o ∧ Labels (Meta o') = Labels (Meta o);
  kl_get_view : ∀ k w, targets_of (kc_getTarget k w).1 = targets_of w;
  kl_get : ∀ k w, match (kc_getTarget k w).2 with
    | Ok t => ∃ t', targets_of w !! k = Some t' ∧ same_object t t'
    | Err ErrNotFound => targets_of w !! k = None
    | Err _ => True end;
  kl_delete_frame : ∀ t w k, k ≠ key_of t →
    targets_of (kc_deleteTarget t w).1 !! k = targets_of w !! k;
  kl_delete : ∀ t w, match (kc_deleteTarget t w).2 with
    | Ok _ => ∀ t', targets_of (kc_deleteTarget t w).1 !! key_of t = Some t' → DeletionTimestamp (Meta t') ≠ 0
    | Err ErrNotFound => targets_of (kc_deleteTarget t w).1 !! key_of t = None
    | Err _ => True end;
  kl_getSource : ∀ k w, targets_of (kc_getSource k w).1 = targets_of w;
  kl_updateSource : ∀ ts w, targets_of (kc_updateSourceStatus ts w).1 = targets_of w;
  (** [RetryOnConflict] does nothing to the world but call its argument. *)
  kl_retry : ∀ (P : W → Prop) f w, (∀ w, P w → P (f w).1) → P w → P (kc_retryOnConflict f w).1
}.

(** A run in which the context stays alive and no target call is refused: no target of
    the names in question is controlled by another source, which would make
    [SetControllerReference] fail, and none carries a finalizer, so that what is deleted
    is gone. *)
Class Reliable (W : Type) `{C : KubeClient W} `{S : TargetStore W} : Prop := {
  rl_alive : ∀ w, (kc_done w).2 = false;
  rl_list : ∀ ns name w, is_ok (kc_listTargets ns name w).2 = true;
  rl_create : ∀ d mutate w, (∀ o w, is_ok (mutate o w) = true) → is_ok (kc_createOrUpdate d mutate w).2 = true;
  rl_setOwner : ∀ ts o w, is_ok (kc_setControllerReference ts o w) = true;
  rl_get : ∀ k w e, (kc_getTarget k w).2 = Err e → e = ErrNotFound;
  rl_delete : ∀ t w e, (kc_deleteTarget t w).2 = Err e → e = ErrNotFound;
  rl_gone : ∀ t w u, (kc_deleteTarget t w).2 = Ok u → targets_of (kc_deleteTarget t w).1 !! key_of t = None
}.

(** ** A concrete client: the targets, and the status updates so far *)

Record MemWorld := { mem_targets : gmap NamespacedName Target; mem_status : list Z }.

(** The entries stored under their own key. *)
Definition mem_view (w : MemWorld) : gmap NamespacedName Target :=
  filter (λ kt, key_of kt.2 = kt.1) (mem_targets w).

Definition mem_set (w : MemWorld) (m : gmap NamespacedName Target) : MemWorld :=
  {| mem_targets := m; mem_status := mem_status w |}.

Definition mem_source (k : NamespacedName) : TargetSource := MkResource
  {| Name := NN_Name k; Namespace := NN_Namespace k; Labels := ∅; Annotations := ∅; Finalizers := []; DeletionTimestamp := 0; Generation := 1 |}
  {| TSrc_Provider := None; TSrc_TargetPort := 57400; TSrc_TargetLabels := ∅; TSrc_TargetProfile := "p" |}
  {| TSrcSt_Status := ""; TSrcSt_ObservedGeneration := 0; TSrcSt_TargetsCount := 0; TSrcSt_LastSync := 0 |}.

#[export] Instance listed_dec ns name t : Decision (listed ns name t).
Proof. unfold listed. apply _. Defined.

(** The mutating function may not rename the object. *)
Definition with_key (k : NamespacedName) (m : ObjectMeta) : ObjectMeta := {|
  Name := NN_Name k; Namespace := NN_Namespace k; Labels := Labels m; Annotations := Annotations m;
  Finalizers := Finalizers m; DeletionTimestamp := DeletionTimestamp m; Generation := Generation m |}.

#[export] Instance mem_client : KubeClient MemWorld := {
  kc_done w := (w, false);
  kc_now w := (w, 0);
  kc_listTargets ns name w := (w, Ok (filter (listed ns name) (map_to_list (mem_view w)).*2));
  kc_createOrUpdate d mutate w :=
    match mutate (default d (mem_view w !! key_of d)) w with
    | Ok o => (mem_set w (<[key_of d := MkResource (with_key (key_of d) (Meta o)) (Spec o) (Status o)]> (mem_view w)), Ok tt)
    | Err e => (w, Err e)
    end;
  kc_setControllerReference ts o w := Ok o;
  kc_getTarget k w := (w, match mem_view w !! k with Some t => Ok t | None => Err ErrNotFound end);
  kc_deleteTarget t w := (mem_set w (delete (key_of t) (mem_view w)), Ok tt);
  kc_getSource k w := (w, Ok (mem_source k));
  kc_updateSourceStatus ts w :=
    ({| mem_targets := mem_targets w; mem_status := mem_status w ++ [TSrcSt_TargetsCount (Status ts)] |}, Ok tt);
  kc_retryOnConflict f w := f w
}.

#[export] Instance mem_store : TargetStore MemWorld := { targets_of := mem_view }.

Lemma mem_view_key w k t : mem_view w !! k = Some t → key_of t = k.
Proof. intros [_ H]%map_lookup_filter_Some. exact H. Qed.

Lemma mem_view_set w m :
  (∀ k t, m !! k = Some t → key_of t = k) → mem_view (mem_set w m) = m.
Proof. intros H. unfold mem_view, mem_set. cbn. by apply map_filter_id. Qed.

Lemma mem_view_insert w k d : key_of d = k → mem_view (mem_set w (<[k := d]> (mem_view w))) = <[k := d]> (mem_view w).
Proof. intros Hd. apply mem_view_set. intros k' t [[<- <-]|[_ H]]%lookup_insert_Some; [done|]. by eapply mem_view_key. Qed.

Lemma mem_view_delete w k : mem_view (mem_set w (delete k (mem_view w))) = delete k (mem_view w).
Proof. apply mem_view_set. intros j t [_ H]%lookup_delete_Some. by eapply mem_view_key. Qed.

#[export] Instance mem_laws : KubeLaws MemWorld.
Proof.
  split; cbn; try done.
  - apply mem_view_key.
  - intros ns name w l [= <-]. split.
    + intros t [Hl Ht]%list_elem_of_filter. split; [done|]. apply list_elem_of_fmap in Ht as ([k t'] & -> & Hin).
      apply elem_of_map_to_list in Hin. cbn. pose proof (mem_view_key _ _ _ Hin) as ->. by exists t'.
    + intros k t Hin Hl. exists t. split; [|by eapply mem_view_key]. apply list_elem_of_filter. split; [done|].
      apply list_elem_of_fmap. exists (k, t). split; [done|]. by apply elem_of_map_to_list.
  - intros d mutate w k Hk. destruct (mutate _ w) as [o|e]; [|done]. cbn. rewrite mem_view_insert by done.
    by rewrite lookup_insert_ne.
  - intros d mutate w u. destruct (mutate _ w) as [o|e] eqn:Em; [|done]. cbn. intros _. eexists _, _, o, _.
    split; [exact Em|]. rewrite mem_view_insert by done. by rewrite lookup_insert_eq.
  - intros ts o w o' [= ->]. done.
  - intros k w. destruct (mem_view w !! k) eqn:E; [by eexists|done].
  - intros t w k Hk. rewrite mem_view_delete. by rewrite lookup_delete_ne.
  - intros t w t'. rewrite mem_view_delete. by rewrite lookup_delete_eq.
  - intros P f w Hf HP. by apply Hf.
Qed.

#[export] Instance mem_reliable : Reliable MemWorld.
Proof.
  split; cbn; try done.
  - intros d mutate w Hm. specialize (Hm (default d (mem_view w !! key_of d)) w). by destruct (mutate _ w).
  - intros k w e. destruct (mem_view w !! k); [done|]. by intros [= <-].
  - intros t w u _. rewrite mem_view_delete. apply lookup_delete_eq.
Qed.
