(* ===== verification/Discovery.v ===== *)
(** Discovered targets ([internal/controller/discovery]): the messages loaders
    send, the chunking of snapshots ([loaders/utils/send.go]), the mapping to
    Target resources ([mapper.go]) and the registry of running sources. *)

From S2P Require Import Prelude GoLib Api.
#[local] Open Scope Z_scope.

(** ** core/types.go *)

Inductive EventAction := EventDelete | EventApply.

Record DiscoveredTarget := {
  DT_Name : string;
  DT_Address : string;
  DT_Port : Z;
  DT_Labels : gmap string string;
  DT_TargetProfile : string
}.

Record DiscoveryEvent := { DE_Target : DiscoveredTarget; DE_Event : EventAction }.

Record DiscoverySnapshot := {
  DS_SnapshotID : string;
  DS_ChunkIndex : Z;
  DS_TotalChunks : Z;
  DS_Targets : list DiscoveredTarget
}.

Inductive DiscoveryMessage :=
| MsgEvent (e : DiscoveryEvent)
| MsgSnapshot (s : DiscoverySnapshot).

(** ** send.go *)

(** The loop over ranges [start, end); [fuel] bounds its iterations. *)
Fixpoint forEachChunk {S} (fuel : nat) (total chunkSize i : Z) (fn : Z → Z → S → res S) (s : S)
    : option (res S) :=
  match fuel with
  | O => None
  | Datatypes.S fuel =>
      if decide (i < total) then
        let e := if decide (i + chunkSize > total) then total else i + chunkSize in
        match fn i e s with
        | Err err => Some (Err err)
        | Ok s => forEachChunk fuel total chunkSize (i + chunkSize) fn s
        end
      else Some (Ok s)
  end.

(** [targets[i:end]]. *)
Definition slice {A} (l : list A) (i e : Z) : list A :=
  take (Z.to_nat (e - i)) (drop (Z.to_nat i) l).

(** No result: the loop does not end, or a zero chunk size divides by zero. *)
Definition createDiscoverySnapshots (fuel : nat) (targets : list DiscoveredTarget)
    (snapshotID : string) (chunkSize : Z) : option (list DiscoverySnapshot) :=
  let totalTargets := Z.of_nat (length targets) in
  if decide (chunkSize = 0) then None else
  let totalChunks := (totalTargets + chunkSize - 1) `quot` chunkSize in
  r ← forEachChunk fuel totalTargets chunkSize 0
        (λ i e snapshots, Ok (snapshots ++ [{|
           DS_SnapshotID := snapshotID;
           DS_ChunkIndex := i `quot` chunkSize;
           DS_TotalChunks := totalChunks;
           DS_Targets := slice targets i e |}])) [];
  match r with Ok l => Some l | Err _ => None end.

(** The batches [SendSnapshot] puts on the channel, one chunk each. *)
Definition SendSnapshot (fuel : nat) (targets : list DiscoveredTarget) (snapshotID : string)
    (chunkSize : Z) : option (res (list (list DiscoveryMessage))) :=
  match targets with
  | [] => Some (Err (ErrMsg "no targets in Snapshot"))
  | _ => match createDiscoverySnapshots fuel targets snapshotID chunkSize with
         | Some snapshots => Some (Ok ((λ s, [MsgSnapshot s]) <$> snapshots))
         | None => None
         end
  end.

(** The batches [SendEvents] puts on the channel. *)
Definition SendEvents (fuel : nat) (events : list DiscoveryEvent) (chunkSize : Z)
    : option (res (list (list DiscoveryMessage))) :=
  match events with
  | [] => Some (Err (ErrMsg "no events to process"))
  | _ => let messages := MsgEvent <$> events in
         forEachChunk fuel (Z.of_nat (length messages)) chunkSize 0
           (λ i e out, Ok (out ++ [slice messages i e])) []
  end.

(** ** mapper.go *)

Definition LabelTargetSourceName := "operator.gnmic.dev/targetsource".

Definition generateTargetResource (d : DiscoveredTarget) (ts : TargetSource) : Target :=
  let targetPort := if decide (DT_Port d = 0) then TSrc_TargetPort (Spec ts) else DT_Port d in
  let targetProfile := if decide (DT_TargetProfile d = "") then TSrc_TargetProfile (Spec ts)
                       else DT_TargetProfile d in
  MkResource
    {| Name := DT_Name d;
       Namespace := Namespace (Meta ts);
       Labels := <[LabelTargetSourceName := Name (Meta ts)]>
                   (DT_Labels d ∪ (TSrc_TargetLabels (Spec ts) ∪ ∅));
       Annotations := ∅; Finalizers := []; DeletionTimestamp := 0; Generation := 0 |}
    {| Target_Address := JoinHostPort (DT_Address d) (Itoa targetPort);
       Target_Profile := targetProfile |}
    {| TS_Clusters := 0; TS_State := ""; TS_ClusterStates := ∅ |}.

Definition emptyDiscovered (name : string) : DiscoveredTarget :=
  {| DT_Name := name; DT_Address := ""; DT_Port := 0; DT_Labels := ∅; DT_TargetProfile := "" |}.

Definition generateEvents (existing : list Target) (discovered : list DiscoveredTarget)
    : list DiscoveryEvent :=
  let discoveredMap := foldl (λ m d, <[DT_Name d := d]> m) (∅ : gmap string DiscoveredTarget) discovered in
  let deletes := omap (λ e : Target,
      match discoveredMap !! Name (Meta e) with
      | Some _ => None
      | None => Some {| DE_Target := emptyDiscovered (Name (Meta e)); DE_Event := EventDelete |}
      end) existing in
  deletes ++ ((λ d, {| DE_Target := d; DE_Event := EventApply |}) <$> discovered).

Definition normalizeTarget (t : DiscoveredTarget) (tsName : string) : DiscoveredTarget := {|
  DT_Name := tsName +:+ "-" +:+ DT_Name t;
  DT_Address := DT_Address t; DT_Port := DT_Port t; DT_Labels := DT_Labels t;
  DT_TargetProfile := DT_TargetProfile t |}.

(** ** registry.go *)

Section Registry.
Context {K V : Type} `{Countable K}.

Definition Registry := gmap K V.

Definition Register (r : Registry) (key : K) (value : V) : Registry * res unit :=
  match r !! key with
  | Some _ => (r, Err (ErrMsg "already registered"))
  | None => (<[key := value]> r, Ok tt)
  end.

Definition Unregister (r : Registry) (key : K) : Registry := delete key r.
Definition Get (r : Registry) (key : K) : option V := r !! key.
Definition Exists_ (r : Registry) (key : K) : bool := bool_decide (is_Some (r !! key)).
End Registry.

(** ** Chunking *)

Section Chunks.
Context (targets : list DiscoveredTarget) (id : string) (size : Z) (Hsize : 0 < size).

(** The chunks made so far cover the first [i] targets. *)
Definition chunks_inv (total : Z) (k : nat) (acc : list DiscoverySnapshot) : Prop :=
  length acc = k ∧
  concat (DS_Targets <$> acc) = take (Z.to_nat (Z.of_nat k * size)) targets ∧
  ∀ j c, acc !! j = Some c →
    DS_SnapshotID c = id ∧ DS_ChunkIndex c = Z.of_nat j ∧ DS_TotalChunks c = total ∧
    1 ≤ Z.of_nat (length (DS_Targets c)) ≤ size.

Definition mk_chunk (total : Z) (i e : Z) (acc : list DiscoverySnapshot) : res (list DiscoverySnapshot) :=
  Ok (acc ++ [{| DS_SnapshotID := id; DS_ChunkIndex := i `quot` size; DS_TotalChunks := total;
                 DS_Targets := slice targets i e |}]).

Lemma slice_app i e : 0 ≤ i ≤ e → take (Z.to_nat i) targets ++ slice targets i e = take (Z.to_nat e) targets.
Proof.
  intros H. unfold slice. replace (Z.to_nat e) with (Z.to_nat i + Z.to_nat (e - i))%nat by lia.
  apply take_take_drop.
Qed.

Lemma length_slice i e :
  0 ≤ i ≤ e → e ≤ Z.of_nat (length targets) → Z.of_nat (length (slice targets i e)) = e - i.
Proof. intros H He. unfold slice. rewrite length_take, length_drop. lia. Qed.

Lemma chunks_step total k acc :
  chunks_inv total k acc → Z.of_nat k * size < Z.of_nat (length targets) →
  let i := Z.of_nat k * size in
  let e := if decide (i + size > Z.of_nat (length targets)) then Z.of_nat (length targets) else i + size in
  ∃ acc', mk_chunk total i e acc = Ok acc' ∧ chunks_inv total (S k) acc'.
Proof.
  intros (Hlen & Hcat & Hall) Hi i e. eexists. split; [done|].
  assert (He : i < e ≤ Z.of_nat (length targets) ∧ e ≤ i + size) by (unfold e; case_decide; lia).
  assert (Hi0 : 0 ≤ i) by (unfold i; lia). split_and!.
  - rewrite length_app. cbn. lia.
  - rewrite fmap_app, concat_app, Hcat. cbn. rewrite app_nil_r. rewrite slice_app by (unfold i in *; lia).
    unfold e. case_decide; [rewrite !take_ge by (unfold i in *; lia); done|].
    f_equal. unfold i. lia.
  - intros j c. rewrite lookup_app. destruct (acc !! j) as [c'|] eqn:E; [intros [= <-]; by apply Hall|].
    apply lookup_ge_None in E. destruct (j - length acc)%nat eqn:Ej; [|done].
    intros [= <-]. cbn. split_and!; [done| |done|..]; rewrite ?length_slice by lia; [|lia..].
    replace j with k by lia. unfold i. by rewrite Z.quot_mul by lia.
Qed.

Lemma chunks_loop total fuel k acc :
  chunks_inv total k acc → (0 < fuel)%nat →
  Z.of_nat (length targets) < Z.of_nat fuel + Z.of_nat k * size →
  Z.of_nat k * size < Z.of_nat (length targets) + size →
  ∃ n acc', forEachChunk fuel (Z.of_nat (length targets)) size (Z.of_nat k * size) (mk_chunk total) acc
              = Some (Ok acc') ∧
    chunks_inv total n acc' ∧
    Z.of_nat (length targets) ≤ Z.of_nat n * size < Z.of_nat (length targets) + size.
Proof.
  revert k acc; induction fuel as [|fuel IH]; intros k acc Hinv H0 Hfuel Hk; cbn [forEachChunk].
  - lia.
  - case_decide as Hlt; [|exists k, acc; split_and!; [done|done|lia|lia]].
    destruct (chunks_step total k acc Hinv Hlt) as (acc1 & Hstep & Hinv1). cbn zeta in Hstep. rewrite Hstep.
    replace (Z.of_nat k * size + size) with (Z.of_nat (S k) * size) by lia.
    apply IH; [done|lia..].
Qed.
End Chunks.

Lemma ceil_quot t n k :
  0 < n → 0 ≤ t → t ≤ k * n < t + n → (t + n - 1) `quot` n = k.
Proof.
  intros Hn Ht Hk. rewrite Z.quot_div_nonneg by lia. symmetry.
  apply (Z.div_unique _ _ _ (t + n - 1 - k * n)); lia.
Qed.

(** Splitting always returns, and loses nothing. *)
Lemma createDiscoverySnapshots_correct targets id size fuel :
  0 < size → (length targets < fuel)%nat →
  ∃ chunks, createDiscoverySnapshots fuel targets id size = Some chunks ∧
    concat (DS_Targets <$> chunks) = targets ∧
    ∀ j c, chunks !! j = Some c →
      DS_SnapshotID c = id ∧ DS_ChunkIndex c = Z.of_nat j ∧
      DS_TotalChunks c = Z.of_nat (length chunks) ∧
      1 ≤ Z.of_nat (length (DS_Targets c)) ≤ size.
Proof.
  intros Hs Hf. unfold createDiscoverySnapshots. rewrite decide_False by lia.
  set (total := _ `quot` _).
  destruct (chunks_loop targets id size Hs total fuel 0 []) as (n & acc & Hrun & (Hlen & Hcat & Hall) & Hn); [|lia..|].
  { split_and!; [done|done|]. by intros j c. }
  change (λ i e snapshots, _) with (mk_chunk targets id size total).
  change (Z.of_nat 0 * size) with 0 in Hrun. rewrite Hrun. cbn [mbind option_bind].
  exists acc. split_and!; [done| |].
  - rewrite Hcat. apply take_ge. lia.
  - intros j c Hc. destruct (Hall j c Hc) as (H1 & H2 & H3 & H4). split_and!; try done; try lia.
    rewrite H3, Hlen. unfold total. apply ceil_quot; lia.
Qed.
