(* ===== verification/MessageProcessor.v ===== *)
(** The message processor ([discovery/message_processor.go], with the client
    helpers of [discovery/client.go]): from discovery messages to Target
    resources. *)

From S2P Require Import Prelude GoLib Api KubeClient Discovery.
#[local] Open Scope Z_scope.

(** ** client.go *)

Section Helpers.
Context {W : Type} `{C : KubeClient W}.

Definition fetchExistingTargets (ts : TargetSource) (w : W) : W * res (list Target) :=
  kc_listTargets (Namespace (Meta ts)) (Name (Meta ts)) w.

(** What [CreateOrUpdate] is given: the object to look for, and the function that makes it
    what is wanted, whether it was found or is to be created. *)
Definition emptyTarget (name namespace : string) : Target :=
  MkResource (new_meta name namespace ∅ ∅) {| Target_Address := ""; Target_Profile := "" |}
    {| TS_Clusters := 0; TS_State := ""; TS_ClusterStates := ∅ |}.

Definition mutateTarget (desired : Target) (ts : TargetSource) (existing : Target) (w : W) : res Target :=
  kc_setControllerReference ts
    (MkResource (with_labels (Meta existing) (Labels (Meta desired))) (Spec desired) (Status existing)) w.

Definition applyTarget (desired : Target) (ts : TargetSource) (w : W) : W * res unit :=
  kc_createOrUpdate (emptyTarget (Name (Meta desired)) (Namespace (Meta desired))) (mutateTarget desired ts) w.

Definition deleteTarget (name namespace : string) (w : W) : W * res unit :=
  let '(w, r) := kc_getTarget {| NN_Namespace := namespace; NN_Name := name |} w in
  match r with
  | Err ErrNotFound => (w, Ok tt)
  | Err e => (w, Err e)
  | Ok existing =>
      let '(w, r) := kc_deleteTarget existing w in
      match r with
      | Err ErrNotFound => (w, Ok tt)
      | r => (w, r)
      end
  end.

Definition setSourceStatus (ts : TargetSource) (targetCount now : Z) : TargetSource :=
  MkResource (Meta ts) (Spec ts)
    {| TSrcSt_Status := TSrcSt_Status (Status ts);
       TSrcSt_ObservedGeneration := TSrcSt_ObservedGeneration (Status ts);
       TSrcSt_TargetsCount := targetCount; TSrcSt_LastSync := now |}.

Definition updateTargetSourceStatus (ts : TargetSource) (targetCount : Z) (w : W) : W * res unit :=
  kc_retryOnConflict (λ w,
    let '(w, r) := kc_getSource (key_of ts) w in
    match r with
    | Err e => (w, Err e)
    | Ok latest =>
        let '(w, now) := kc_now w in
        kc_updateSourceStatus (setSourceStatus latest targetCount now) w
    end) w.
End Helpers.

(** ** message_processor.go *)

Record snapshotBuffer := {
  SB_snapshotID : string;
  SB_totalChunks : Z;
  SB_received : gmap Z (list DiscoveredTarget);
  SB_complete : bool
}.

(** The mutable part of a [MessageProcessor], its queue aside. *)
Record MessageProcessor := {
  MP_activeSnapshot : option snapshotBuffer;
  MP_deferredEvents : list DiscoveryEvent;
  MP_targetCount : Z
}.

Definition NewMessageProcessor : MessageProcessor :=
  {| MP_activeSnapshot := None; MP_deferredEvents := []; MP_targetCount := 0 |}.

Definition with_snapshot (m : MessageProcessor) (s : option snapshotBuffer) : MessageProcessor :=
  {| MP_activeSnapshot := s; MP_deferredEvents := MP_deferredEvents m;
     MP_targetCount := MP_targetCount m |}.

Definition with_deferred (m : MessageProcessor) (l : list DiscoveryEvent) : MessageProcessor :=
  {| MP_activeSnapshot := MP_activeSnapshot m; MP_deferredEvents := l;
     MP_targetCount := MP_targetCount m |}.

Definition with_count (m : MessageProcessor) (n : Z) : MessageProcessor :=
  {| MP_activeSnapshot := MP_activeSnapshot m; MP_deferredEvents := MP_deferredEvents m;
     MP_targetCount := n |}.

Definition resetSnapshot (m : MessageProcessor) : MessageProcessor := with_snapshot m None.

Section Processor.
Context {W : Type} `{C : KubeClient W} (ts : TargetSource).

(** The state of the processor and the world, and the error of the call. *)
Abbreviation Step := (MessageProcessor * W * res unit)%type.

Definition applyEvent (event : DiscoveryEvent) (w : W) : W * res unit :=
  match DE_Event event with
  | EventDelete => deleteTarget (DT_Name (DE_Target event)) (Namespace (Meta ts)) w
  | EventApply => applyTarget (generateTargetResource (DE_Target event) ts) ts w
  end.

(** A failed status update is only logged. *)
Definition updateStatus (m : MessageProcessor) (w : W) : W :=
  (updateTargetSourceStatus ts (MP_targetCount m) w).1.

Definition processEvent (m : MessageProcessor) (w : W) (event : DiscoveryEvent) : Step :=
  match MP_activeSnapshot m with
  | Some _ => (with_deferred m (MP_deferredEvents m ++ [event]), w, Ok tt)
  | None =>
      let '(w, r) := applyEvent event w in
      match r with
      | Err e => (m, w, Err e)
      | Ok _ =>
          let m := with_count m (to_int32 (MP_targetCount m +
                     match DE_Event event with EventApply => 1 | EventDelete => -1 end)) in
          (m, updateStatus m w, Ok tt)
      end
  end.

(** The loop over the chunk indexes: [None] when the context ends, an error when
    a chunk is missing. *)
Fixpoint collectChunks (snapshot : snapshotBuffer) (idx : list Z) (acc : list DiscoveredTarget) (w : W)
    : W * option (res (list DiscoveredTarget)) :=
  match idx with
  | [] => (w, Some (Ok acc))
  | i :: idx =>
      let '(w, done) := kc_done w in
      if (done : bool) then (w, None) else
      match SB_received snapshot !! i with
      | None => (w, Some (Err (ErrMsg "missing snapshot chunk")))
      | Some chunk => collectChunks snapshot idx (acc ++ chunk) w
      end
  end.

(** Errors of the single events are only logged. *)
Definition applyEvents (events : list DiscoveryEvent) (w : W) : W :=
  foldl (λ w e, (applyEvent e w).1) w events.

(** The replay of the deferred events: [Some r] when it returns from
    [applySnapshot], [None] when it falls through.  The range is over the slice as
    it was when the loop began. *)
Fixpoint replayDeferred (m : MessageProcessor) (w : W) (events : list DiscoveryEvent)
    : MessageProcessor * W * option (res unit) :=
  match events with
  | [] => (m, w, None)
  | event :: events =>
      let '(w, done) := kc_done w in
      if (done : bool) then (m, w, Some (Ok tt)) else
      let '(m, w, r) := processEvent m w event in
      match r with
      | Err e => (m, w, Some (Err e))
      | Ok _ => replayDeferred m w events
      end
  end.

(** [applySnapshot], once all the chunks are together. *)
Definition applyTargets (m : MessageProcessor) (w : W) (allTargets : list DiscoveredTarget) : Step :=
  let '(w, existing) := fetchExistingTargets ts w in
  let existing := match existing with Ok l => l | Err _ => [] end in
  let w := applyEvents (generateEvents existing allTargets) w in
  let '(m, w, r) := replayDeferred m w (MP_deferredEvents m) in
  match r with
  | Some r => (m, w, r)
  | None =>
      let m := with_count m (to_int32 (Z.of_nat (length allTargets))) in
      let w := updateStatus m w in
      (with_deferred (resetSnapshot m) [], w, Ok tt)
  end.

Definition applySnapshot (m : MessageProcessor) (w : W) (snapshot : snapshotBuffer) : Step :=
  let '(w, done) := kc_done w in
  if (done : bool) then (resetSnapshot m, w, Ok tt) else
  let '(w, r) := collectChunks snapshot (seqZ 0 (SB_totalChunks snapshot)) [] w in
  match r with
  | None => (resetSnapshot m, w, Ok tt)
  | Some (Err e) => (resetSnapshot m, w, Err e)
  | Some (Ok allTargets) => applyTargets m w allTargets
  end.

(** Called with the active snapshot set to [snapshot]. *)
Definition collectSnapshot (m : MessageProcessor) (w : W) (snapshot : snapshotBuffer)
    (chunk : DiscoverySnapshot) : Step :=
  if decide (DS_TotalChunks chunk ≠ SB_totalChunks snapshot)
  then (m, w, Err (ErrMsg "snapshot totalChunks mismatch"))
  else if decide (DS_ChunkIndex chunk < 0 ∨ DS_ChunkIndex chunk >= SB_totalChunks snapshot)
  then (resetSnapshot m, w, Err (ErrMsg "invalid chunk index"))
  else match SB_received snapshot !! DS_ChunkIndex chunk with
  | Some _ => (resetSnapshot m, w, Err (ErrMsg "duplicate snapshot chunk"))
  | None =>
      let received := <[DS_ChunkIndex chunk := DS_Targets chunk]> (SB_received snapshot) in
      let complete := bool_decide (Z.of_nat (size received) = SB_totalChunks snapshot) in
      let snapshot := {| SB_snapshotID := SB_snapshotID snapshot;
                         SB_totalChunks := SB_totalChunks snapshot;
                         SB_received := received;
                         SB_complete := SB_complete snapshot || complete |} in
      let m := with_snapshot m (Some snapshot) in
      if complete then applySnapshot m w snapshot else (m, w, Ok tt)
  end.

Definition startNewSnapshot (m : MessageProcessor) (w : W) (chunk : DiscoverySnapshot) : Step :=
  let snapshot := {| SB_snapshotID := DS_SnapshotID chunk; SB_totalChunks := DS_TotalChunks chunk;
                     SB_received := ∅; SB_complete := false |} in
  collectSnapshot (with_deferred (with_snapshot m (Some snapshot)) []) w snapshot chunk.

Definition processSnapshot (m : MessageProcessor) (w : W) (chunk : DiscoverySnapshot) : Step :=
  match MP_activeSnapshot m with
  | None => startNewSnapshot m w chunk
  | Some snapshot =>
      if decide (SB_snapshotID snapshot ≠ DS_SnapshotID chunk) then
        if SB_complete snapshot then
          let '(m, w, r) := applySnapshot m w snapshot in
          match r with Err e => (m, w, Err e) | Ok _ => startNewSnapshot m w chunk end
        else startNewSnapshot m w chunk
      else collectSnapshot m w snapshot chunk
  end.

Definition normalizeChunk (s : DiscoverySnapshot) : DiscoverySnapshot := {|
  DS_SnapshotID := DS_SnapshotID s; DS_ChunkIndex := DS_ChunkIndex s;
  DS_TotalChunks := DS_TotalChunks s;
  DS_Targets := (λ t, normalizeTarget t (Name (Meta ts))) <$> DS_Targets s |}.

Definition normalizeEvent (e : DiscoveryEvent) : DiscoveryEvent :=
  {| DE_Target := normalizeTarget (DE_Target e) (Name (Meta ts)); DE_Event := DE_Event e |}.

Definition processMessage (m : MessageProcessor) (w : W) (message : DiscoveryMessage) : Step :=
  let '(w, done) := kc_done w in
  if (done : bool) then (m, w, Err (ErrMsg "context canceled")) else
  match message with
  | MsgSnapshot s => processSnapshot m w (normalizeChunk s)
  | MsgEvent e => processEvent m w (normalizeEvent e)
  end.

(** The inner loop of [Run] over the queue; it ends with the context's error, or
    with [nil] (not the error) at the first message that fails. *)
Inductive RunEnd := Stopped (r : res unit).

Fixpoint drainQueue (m : MessageProcessor) (w : W) (queue : list DiscoveryMessage)
    : MessageProcessor * W * option RunEnd :=
  match queue with
  | [] => (m, w, None)
  | msg :: queue =>
      let '(w, done) := kc_done w in
      if (done : bool) then (m, w, Some (Stopped (Err (ErrMsg "context canceled")))) else
      let '(m, w, r) := processMessage m w msg in
      match r with
      | Err _ => (m, w, Some (Stopped (Ok tt)))
      | Ok _ => drainQueue m w queue
      end
  end.

(** What [select] returns: a batch, or the end of the channel or context. *)
Fixpoint runLoop (m : MessageProcessor) (w : W) (inputs : list (option (list DiscoveryMessage)))
    : MessageProcessor * W * option RunEnd :=
  match inputs with
  | [] => (m, w, None)
  | None :: _ => (m, w, Some (Stopped (Ok tt)))
  | Some batch :: inputs =>
      let '(m, w, e) := drainQueue m w batch in
      match e with Some e => (m, w, Some e) | None => runLoop m w inputs end
  end.

(** [Run] on the inputs the channel delivers; [None] when it is still waiting. *)
Definition Run (w : W) (inputs : list (option (list DiscoveryMessage)))
    : MessageProcessor * W * option RunEnd :=
  let '(w, existing) := fetchExistingTargets ts w in
  let m := match existing with
           | Ok l => with_count NewMessageProcessor (to_int32 (Z.of_nat (length l)))
           | Err _ => NewMessageProcessor end in
  runLoop m w inputs.
End Processor.

(** ** What each call does to the targets *)

(** The key a discovered target of the source is stored under. *)
Definition key_in (ts : TargetSource) (name : string) : NamespacedName :=
  {| NN_Namespace := Namespace (Meta ts); NN_Name := name |}.

Definition event_key (ts : TargetSource) (e : DiscoveryEvent) : NamespacedName :=
  key_in ts (DT_Name (DE_Target e)).

(** [t] is what the source asks for [d]: the spec and labels of its resource. *)
Definition materialises (ts : TargetSource) (d : DiscoveredTarget) (t : Target) : Prop :=
  Spec t = Spec (generateTargetResource d ts) ∧
  Labels (Meta t) = Labels (Meta (generateTargetResource d ts)).

Section Effects.
Context {W : Type} `{L : KubeLaws W} (ts : TargetSource).

Lemma deleteTarget_frame name ns w k :
  k ≠ {| NN_Namespace := ns; NN_Name := name |} →
  targets_of (deleteTarget name ns w).1 !! k = targets_of w !! k.
Proof.
  intros Hk. unfold deleteTarget.
  pose proof (kl_get_view {| NN_Namespace := ns; NN_Name := name |} w) as Hv.
  pose proof (kl_get {| NN_Namespace := ns; NN_Name := name |} w) as Hg.
  destruct (kc_getTarget _ w) as [w1 [t|e]]; cbn [fst snd] in *.
  - destruct Hg as (t' & Hg%kl_key & Hm & _). unfold key_of in Hg. rewrite <- Hm in Hg. fold (key_of t) in Hg.
    pose proof (kl_delete_frame t w1 k) as Hf.
    destruct (kc_deleteTarget t w1) as [w2 [u|[]]]; cbn [fst] in *; rewrite Hf, Hv; congruence.
  - by destruct e; cbn; rewrite Hv.
Qed.

Lemma applyTarget_frame desired w k : k ≠ key_of desired → targets_of (applyTarget desired ts w).1 !! k = targets_of w !! k.
Proof. intros Hk. by apply kl_create_frame. Qed.

Lemma applyEvent_frame e w k :
  k ≠ event_key ts e → targets_of (applyEvent ts e w).1 !! k = targets_of w !! k.
Proof.
  intros Hk. unfold applyEvent. destruct (DE_Event e); [by apply deleteTarget_frame|].
  by apply applyTarget_frame.
Qed.

Lemma applyEvents_frame l w k :
  (∀ e, e ∈ l → k ≠ event_key ts e) → targets_of (applyEvents ts l w) !! k = targets_of w !! k.
Proof.
  intros H. unfold applyEvents. apply (foldl_inv _ (λ w', targets_of w' !! k = targets_of w !! k)); [done|].
  intros w' e He <-. by apply applyEvent_frame, H.
Qed.

Lemma applyEvents_app l1 l2 w : applyEvents ts (l1 ++ l2) w = applyEvents ts l2 (applyEvents ts l1 w).
Proof. apply foldl_app. Qed.

Lemma applyEvents_snoc l e w : applyEvents ts (l ++ [e]) w = (applyEvent ts e (applyEvents ts l w)).1.
Proof. unfold applyEvents. by rewrite foldl_app. Qed.

Lemma updateStatus_view m w : targets_of (updateStatus ts m w) = targets_of w.
Proof.
  unfold updateStatus, updateTargetSourceStatus.
  apply (kl_retry (λ w', targets_of w' = targets_of w)); [|done]. intros w1 <-.
  pose proof (kl_getSource (key_of ts) w1) as Hg. destruct (kc_getSource _ w1) as [w2 [s|e]]; cbn in *; [|done].
  pose proof (kl_now w2) as Hn. destruct (kc_now w2) as [w3 now]. cbn in *.
  by rewrite kl_updateSource, Hn.
Qed.

Lemma collectChunks_view s idx acc w :
  targets_of (collectChunks s idx acc w).1 = targets_of w.
Proof.
  revert acc w; induction idx as [|i idx IH]; intros acc w; cbn [collectChunks]; [done|].
  pose proof (kl_done w) as Hd. destruct (kc_done w) as [w1 []]; cbn [fst] in *; [done|].
  destruct (SB_received s !! i); [by rewrite IH|done].
Qed.

(** While a snapshot is active, replaying an event only defers it again. *)
Lemma replayDeferred_active m w l :
  MP_activeSnapshot m ≠ None →
  targets_of (replayDeferred ts m w l).1.2 = targets_of w ∧
  (replayDeferred ts m w l).2 ∈ [None; Some (Ok tt)] ∧
  MP_activeSnapshot (replayDeferred ts m w l).1.1 = MP_activeSnapshot m.
Proof.
  revert m w; induction l as [|e l IH]; intros m w Hm; cbn [replayDeferred]; [set_solver|].
  pose proof (kl_done w) as Hd. destruct (kc_done w) as [w1 []]; cbn [fst] in *; [set_solver|].
  unfold processEvent. destruct (MP_activeSnapshot m) as [s|] eqn:E; [|done].
  destruct (IH (with_deferred m (MP_deferredEvents m ++ [e])) w1) as (H1 & H2 & H3); [by cbn; rewrite E|].
  rewrite H1, H3. cbn. by rewrite E, Hd.
Qed.

(** The targets after a snapshot is applied, whatever was deferred. *)
Lemma applyTargets_view m w all :
  MP_activeSnapshot m ≠ None →
  targets_of (applyTargets ts m w all).1.2 =
  targets_of (applyEvents ts
    (generateEvents (match (fetchExistingTargets ts w).2 with Ok l => l | Err _ => [] end) all)
    (fetchExistingTargets ts w).1).
Proof.
  intros Hm. unfold applyTargets. destruct (fetchExistingTargets ts w) as [w1 ex]. cbn [fst snd].
  set (w2 := applyEvents _ _ _).
  destruct (replayDeferred_active m w2 (MP_deferredEvents m) Hm) as (H1 & _ & _).
  destruct (replayDeferred ts m w2 (MP_deferredEvents m)) as [[m' w3] [r|]]; cbn in *; [done|].
  by rewrite updateStatus_view.
Qed.
End Effects.

(** ** Events of a snapshot *)

Lemma discoveredMap_lookup l (m : gmap string DiscoveredTarget) n :
  is_Some (foldl (λ m d, <[DT_Name d := d]> m) m l !! n) ↔
  is_Some (m !! n) ∨ n ∈ DT_Name <$> l.
Proof.
  revert m; induction l as [|d l IH]; intros m; cbn [foldl fmap list_fmap]; [set_solver|].
  rewrite IH, lookup_insert_is_Some, elem_of_cons. destruct (decide (DT_Name d = n)); naive_solver.
Qed.

Definition delete_event (name : string) : DiscoveryEvent :=
  {| DE_Target := emptyDiscovered name; DE_Event := EventDelete |}.
Definition apply_event (d : DiscoveredTarget) : DiscoveryEvent :=
  {| DE_Target := d; DE_Event := EventApply |}.

(** The deletions come first, one per existing target that is not discovered. *)
Lemma generateEvents_split existing discovered :
  ∃ gone, generateEvents existing discovered =
    (delete_event <$> gone) ++ (apply_event <$> discovered) ∧
    ∀ n, n ∈ gone ↔ (∃ e, e ∈ existing ∧ Name (Meta e) = n) ∧ n ∉ DT_Name <$> discovered.
Proof.
  unfold generateEvents. set (dm := foldl _ _ _).
  exists (omap (λ e : Target, match dm !! Name (Meta e) with Some _ => None | None => Some (Name (Meta e)) end) existing).
  split.
  - f_equal. induction existing as [|e l IH]; cbn; [done|]. by destruct (dm !! _); cbn; rewrite IH.
  - intros n. rewrite list_elem_of_omap. unfold dm. split.
    + intros (e & He & Hn). destruct (foldl _ _ _ !! _) eqn:E; [done|]. injection Hn as <-.
      split; [eauto|]. intros Hin. apply eq_None_not_Some in E. apply E, discoveredMap_lookup. by right.
    + intros [(e & He & <-) Hno]. exists e. split; [done|].
      destruct (foldl _ _ _ !! _) eqn:E; [|done]. exfalso.
      destruct (proj1 (discoveredMap_lookup discovered ∅ (Name (Meta e)))) as [[? H]|]; [by rewrite E|done|done].
Qed.

(** The last discovered target of a name: the one that stays. *)
Definition last_named (n : string) (l : list DiscoveredTarget) : option DiscoveredTarget :=
  last (filter (λ d, DT_Name d = n) l).

Lemma last_named_snoc n l d :
  last_named n (l ++ [d]) = if decide (DT_Name d = n) then Some d else last_named n l.
Proof.
  unfold last_named. rewrite filter_app, filter_cons, filter_nil. case_decide.
  - by rewrite last_snoc.
  - by rewrite app_nil_r.
Qed.

Section Converge.
Context {W : Type} `{L : KubeLaws W} `{Rl : !Reliable W} (ts : TargetSource).

Lemma deleteTarget_gone name w :
  targets_of (deleteTarget name (Namespace (Meta ts)) w).1 !! key_in ts name = None.
Proof.
  unfold deleteTarget. fold (key_in ts name).
  pose proof (kl_get_view (key_in ts name) w) as Hv. pose proof (kl_get (key_in ts name) w) as Hg.
  pose proof (rl_get (key_in ts name) w) as Hr.
  destruct (kc_getTarget _ w) as [w1 [t|e]]; cbn [fst snd] in *.
  - destruct Hg as (t' & Hg%kl_key & Hm & _). unfold key_of in Hg. rewrite <- Hm in Hg. fold (key_of t) in Hg.
    pose proof (kl_delete t w1) as Hd. pose proof (rl_delete t w1) as Hrd. pose proof (rl_gone t w1) as Hgo.
    destruct (kc_deleteTarget t w1) as [w2 [u|e]]; cbn [fst snd] in *; [rewrite <- Hg; by eapply Hgo|].
    rewrite (Hrd e) in * by done. cbn. by rewrite <- Hg.
  - rewrite (Hr e) in * by done. cbn. by rewrite Hv.
Qed.

Lemma applyTarget_applied desired w : ∃ t, targets_of (applyTarget desired ts w).1 !! key_of desired = Some t ∧
  Spec t = Spec desired ∧ Labels (Meta t) = Labels (Meta desired).
Proof.
  unfold applyTarget. set (d := emptyTarget _ _). assert (is_ok (kc_createOrUpdate d (mutateTarget desired ts) w).2 = true) as Hok
    by (apply rl_create; intros; apply rl_setOwner).
  apply is_ok_spec in Hok as [u Hu]. destruct (kl_create d _ w u Hu) as (o & w1 & o' & t & Hm & Ht & Hs & Hl).
  apply kl_setOwner in Hm as [Hs' Hl']. exists t. split; [exact Ht|]. by rewrite Hs, Hl, Hs', Hl'.
Qed.

Lemma deletes_view gone w k :
  targets_of (applyEvents ts (delete_event <$> gone) w) !! k =
  if decide (k ∈ key_in ts <$> gone) then None else targets_of w !! k.
Proof.
  induction gone as [|n gone IH] using rev_ind; [by rewrite decide_False by set_solver|].
  rewrite fmap_app. change (delete_event <$> [n]) with [delete_event n]. rewrite applyEvents_snoc.
  set (w' := applyEvents ts _ w) in *. change (applyEvent ts (delete_event n) w')
    with (deleteTarget n (Namespace (Meta ts)) w').
  destruct (decide (k = key_in ts n)) as [->|Hk].
  - rewrite deleteTarget_gone, decide_True; [done|]. rewrite fmap_app. set_solver.
  - rewrite deleteTarget_frame by done. rewrite IH. rewrite fmap_app.
    destruct (decide (k ∈ key_in ts <$> gone)); [rewrite decide_True by set_solver; done|].
    rewrite decide_False; [done|]. set_solver.
Qed.

Lemma applies_view all w k :
  match (if decide (NN_Namespace k = Namespace (Meta ts)) then last_named (NN_Name k) all else None) with
  | Some d => ∃ t, targets_of (applyEvents ts (apply_event <$> all) w) !! k = Some t ∧ materialises ts d t
  | None => targets_of (applyEvents ts (apply_event <$> all) w) !! k = targets_of w !! k
  end.
Proof.
  induction all as [|d all IH] using rev_ind; [by case_decide|].
  rewrite fmap_app. change (apply_event <$> [d]) with [apply_event d]. rewrite applyEvents_snoc.
  set (w' := applyEvents ts _ w) in *. change (applyEvent ts (apply_event d) w')
    with (applyTarget (generateTargetResource d ts) ts w').
  rewrite last_named_snoc. destruct (decide (k = key_in ts (DT_Name d))) as [->|Hk].
  - cbn. rewrite !decide_True by done.
    exact (applyTarget_applied (generateTargetResource d ts) w').
  - rewrite applyTarget_frame by done. case_decide as Hns; [|done].
    destruct (decide (DT_Name d = NN_Name k)) as [Hn|]; [|done].
    exfalso. apply Hk. unfold key_in. rewrite Hn, <- Hns. by destruct k.
Qed.
End Converge.

(** ** Convergence *)

(** [w'] is [w] with the source's targets replaced by [all]: a discovered name
    holds the resource of the last target of that name, every other target that
    was listed for the source is gone, and nothing else has changed. *)
Definition reconciled {W} `{TargetStore W} (ts : TargetSource) (all : list DiscoveredTarget) (w w' : W) : Prop :=
  ∀ k,
  match (if decide (NN_Namespace k = Namespace (Meta ts)) then last_named (NN_Name k) all else None) with
  | Some d => ∃ t, targets_of w' !! k = Some t ∧ materialises ts d t
  | None => targets_of w' !! k =
      match targets_of w !! k with
      | Some t => if decide (listed (Namespace (Meta ts)) (Name (Meta ts)) t) then None else Some t
      | None => None
      end
  end.

Definition normalizeAll (tsName : string) (l : list DiscoveredTarget) : list DiscoveredTarget :=
  (λ t, normalizeTarget t tsName) <$> l.

Definition idle (m : MessageProcessor) : Prop :=
  MP_activeSnapshot m = None ∧ MP_deferredEvents m = [].

Lemma last_named_None n l : last_named n l = None ↔ n ∉ DT_Name <$> l.
Proof.
  unfold last_named. rewrite last_None. split.
  - intros H Hin. apply list_elem_of_fmap in Hin as (d & -> & Hd).
    assert (d ∈ filter (λ d', DT_Name d' = DT_Name d) l) as Hf by by apply list_elem_of_filter.
    rewrite H in Hf. by apply elem_of_nil in Hf.
  - intros Hno. destruct (filter _ l) as [|d f] eqn:E; [done|]. exfalso.
    assert (d ∈ filter (λ d, DT_Name d = n) l) as [<- Hd]%list_elem_of_filter by (rewrite E; by left).
    apply Hno, list_elem_of_fmap. eauto.
Qed.

Section Convergence.
Context {W : Type} `{L : KubeLaws W} `{Rl : !Reliable W} (ts : TargetSource).

Lemma alive w : ∃ w', kc_done w = (w', false) ∧ targets_of w' = targets_of w.
Proof.
  pose proof (rl_alive w) as Ha. pose proof (kl_done w) as Hd.
  destruct (kc_done w) as [w' d]. cbn in *. subst d. eauto.
Qed.

Lemma collectChunks_all s idx acc w :
  (∀ i, i ∈ idx → is_Some (SB_received s !! i)) →
  ∃ w', collectChunks s idx acc w =
    (w', Some (Ok (acc ++ concat ((λ i, default [] (SB_received s !! i)) <$> idx)))) ∧
    targets_of w' = targets_of w.
Proof.
  revert acc w; induction idx as [|i idx IH]; intros acc w H; cbn [collectChunks fmap list_fmap concat].
  - exists w. by rewrite app_nil_r.
  - destruct (alive w) as (w1 & -> & Hw1). destruct (H i) as [chunk Hc]; [by left|]. rewrite Hc. cbn [default].
    destruct (IH (acc ++ chunk) w1) as (w2 & -> & Hw2); [intros; apply H; by right|].
    exists w2. rewrite <- app_assoc, Hw2, Hw1. done.
Qed.

Lemma replayDeferred_runs m w l :
  MP_activeSnapshot m ≠ None →
  ∃ m' w', replayDeferred ts m w l = (m', w', None) ∧ targets_of w' = targets_of w.
Proof.
  revert m w; induction l as [|e l IH]; intros m w Hm; cbn [replayDeferred]; [eauto|].
  destruct (alive w) as (w1 & -> & Hw1). unfold processEvent.
  destruct (MP_activeSnapshot m) as [s|] eqn:E; [|done].
  destruct (IH (with_deferred m (MP_deferredEvents m ++ [e])) w1) as (m' & w' & -> & Hw'); [by cbn; rewrite E|].
  exists m', w'. by rewrite Hw', Hw1.
Qed.

Lemma applyTargets_converges m w all :
  MP_activeSnapshot m ≠ None →
  ∃ m' w', applyTargets ts m w all = (m', w', Ok tt) ∧ idle m' ∧
    MP_targetCount m' = to_int32 (Z.of_nat (length all)) ∧ reconciled ts all w w'.
Proof.
  intros Hm. pose proof (applyTargets_view ts m w all Hm) as Hview. unfold applyTargets in *.
  unfold fetchExistingTargets in *.
  pose proof (rl_list (Namespace (Meta ts)) (Name (Meta ts)) w) as Hok.
  pose proof (kl_list (Namespace (Meta ts)) (Name (Meta ts)) w) as Hl.
  pose proof (kl_list_view (Namespace (Meta ts)) (Name (Meta ts)) w) as Hv.
  destruct (kc_listTargets _ _ w) as [w1 [l|e]]; cbn in Hok; [|done]. cbn [fst snd] in *.
  specialize (Hl l eq_refl). set (w2 := applyEvents _ _ _) in *.
  destruct (replayDeferred_runs m w2 (MP_deferredEvents m) Hm) as (m' & w3 & Hr & Hw3). rewrite Hr in *.
  eexists _, _. split_and!; [done|done|done|]. cbn [fst snd] in Hview. intros k. rewrite Hview.
  destruct (generateEvents_split l all) as (gone & Heq & Hgone). unfold w2. rewrite Heq, applyEvents_app.
  pose proof (applies_view ts all (applyEvents ts (delete_event <$> gone) w1) k) as Ha.
  destruct (if decide _ then _ else None) as [d|] eqn:Ed; [done|]. rewrite Ha, deletes_view, Hv.
  destruct (targets_of w !! k) as [t|] eqn:Et; [|by destruct (decide (k ∈ _))].
  pose proof (kl_key w k t Et) as Hk.
  assert (Hiff : k ∈ key_in ts <$> gone ↔ listed (Namespace (Meta ts)) (Name (Meta ts)) t).
  { rewrite list_elem_of_fmap. split.
    - intros (n & -> & Hn). apply Hgone in Hn as [(e & He & <-) _]. apply (proj1 Hl) in He as [Hle (e' & He & Hme & _)].
      assert (Hke : key_of e = key_in ts (Name (Meta e))) by (unfold key_of, key_in; by rewrite (proj1 Hle)).
      rewrite Hke, Et in He. injection He as ->. unfold listed. by rewrite <- Hme.
    - intros Hle. exists (Name (Meta t)). split; [rewrite <- Hk; unfold key_of, key_in; by rewrite (proj1 Hle)|].
      apply Hgone. split.
      + destruct (proj2 Hl k t Et Hle) as (e & He & Hke). exists e. split; [done|]. rewrite <- Hk in Hke.
        exact (f_equal NN_Name Hke).
      + rewrite decide_True in Ed by (rewrite <- Hk; apply Hle). apply last_named_None in Ed.
        by rewrite <- Hk in Ed. }
  destruct (decide (k ∈ _)) as [Hin|Hin]; [rewrite decide_True by by apply Hiff|
    rewrite decide_False by by rewrite <- Hiff]; done.
Qed.
End Convergence.

(** ** The snapshot protocol *)

Section Protocol.
Context {W : Type} `{L : KubeLaws W} `{Rl : !Reliable W} (ts : TargetSource).
Context (chunks : list DiscoverySnapshot) (id : string).
Context (Hchunks : ∀ j c, chunks !! j = Some c →
  DS_SnapshotID c = id ∧ DS_ChunkIndex c = Z.of_nat j ∧ DS_TotalChunks c = Z.of_nat (length chunks)).

(** The buffer after the chunks of [l] (the latest first) have come in. *)
Definition received (l : list DiscoverySnapshot) : gmap Z (list DiscoveredTarget) :=
  list_to_map ((λ c, (DS_ChunkIndex c, DS_Targets (normalizeChunk ts c))) <$> l).

Definition buffer (l : list DiscoverySnapshot) (complete : bool) : snapshotBuffer := {|
  SB_snapshotID := id; SB_totalChunks := Z.of_nat (length chunks);
  SB_received := received l; SB_complete := complete |}.

Lemma chunk_facts c : c ∈ chunks →
  DS_SnapshotID c = id ∧ 0 ≤ DS_ChunkIndex c < Z.of_nat (length chunks) ∧
  DS_TotalChunks c = Z.of_nat (length chunks).
Proof.
  intros [j Hj]%list_elem_of_lookup. destruct (Hchunks j c Hj) as (H1 & H2 & H3).
  apply lookup_lt_Some in Hj. split_and!; [done|lia..|done].
Qed.

Lemma NoDup_indexes : NoDup (DS_ChunkIndex <$> chunks).
Proof.
  apply NoDup_alt. intros i j x Hi Hj. rewrite list_lookup_fmap in Hi, Hj.
  destruct (chunks !! i) as [c|] eqn:Ei; [|done]. destruct (chunks !! j) as [d|] eqn:Ej; [|done].
  cbn in Hi, Hj. destruct (Hchunks _ _ Ei) as (_ & H1 & _). destruct (Hchunks _ _ Ej) as (_ & H2 & _).
  simplify_eq. lia.
Qed.

Lemma received_spec l c :
  NoDup (DS_ChunkIndex <$> l) → c ∈ l →
  received l !! DS_ChunkIndex c = Some (DS_Targets (normalizeChunk ts c)).
Proof.
  intros Hnd Hc. unfold received. apply elem_of_list_to_map_1.
  - rewrite <- list_fmap_compose. exact Hnd.
  - apply list_elem_of_fmap. eauto.
Qed.

Lemma received_None l i : i ∉ DS_ChunkIndex <$> l → received l !! i = None.
Proof. intros H. unfold received. apply not_elem_of_list_to_map_1. by rewrite <- list_fmap_compose. Qed.

Lemma size_received l : NoDup (DS_ChunkIndex <$> l) → size (received l) = length l.
Proof.
  intros Hnd. induction l as [|c l IH]; [done|]. apply NoDup_cons in Hnd as [Hc Hnd].
  change (received (c :: l)) with (<[DS_ChunkIndex c := DS_Targets (normalizeChunk ts c)]> (received l)).
  rewrite map_size_insert_None by by apply received_None. cbn. by rewrite IH.
Qed.

(** One more chunk: the snapshot is applied when it was the last one. *)
Lemma collect_chunk m w l c rest :
  l ++ c :: rest ≡ₚ chunks →
  collectSnapshot ts m w (buffer l false) (normalizeChunk ts c) =
  match rest with
  | [] => applySnapshot ts (with_snapshot m (Some (buffer (c :: l) true))) w (buffer (c :: l) true)
  | _ => (with_snapshot m (Some (buffer (c :: l) false)), w, Ok tt)
  end.
Proof.
  intros Hp. assert (Hc : c ∈ chunks) by (rewrite <- Hp; set_solver).
  destruct (chunk_facts c Hc) as (Hid & Hidx & Htot).
  assert (Hnd : NoDup (DS_ChunkIndex <$> (c :: l))).
  { pose proof NoDup_indexes as H. rewrite <- Hp, fmap_app in H. apply NoDup_app in H as (H1 & H2 & _).
    apply NoDup_cons. split; [|done]. intros Hin. apply (H2 _ Hin). by left. }
  unfold collectSnapshot. cbn [buffer SB_totalChunks SB_received SB_snapshotID SB_complete normalizeChunk
    DS_TotalChunks DS_ChunkIndex DS_Targets].
  rewrite decide_False by (rewrite Htot; auto). rewrite decide_False by lia.
  rewrite received_None by (by apply NoDup_cons in Hnd as [? _]).
  change (<[DS_ChunkIndex c := _]> (received l)) with (received (c :: l)).
  rewrite size_received by done.
  apply Permutation_length in Hp. rewrite length_app in Hp. cbn in Hp |- *.
  destruct rest as [|d rest]; cbn in Hp.
  - by rewrite bool_decide_eq_true_2 by lia.
  - by rewrite bool_decide_eq_false_2 by lia.
Qed.

(** The chunks, put back in order, are the whole list. *)
Lemma apply_buffer m w l :
  l ≡ₚ chunks → MP_activeSnapshot m ≠ None →
  ∃ m' w', applySnapshot ts m w (buffer l true) = (m', w', Ok tt) ∧ idle m' ∧
    let all := normalizeAll (Name (Meta ts)) (concat (DS_Targets <$> chunks)) in
    MP_targetCount m' = to_int32 (Z.of_nat (length all)) ∧ reconciled ts all w w'.
Proof.
  intros Hp Hm. unfold applySnapshot. destruct (alive w) as (w1 & -> & Hw1).
  assert (Hnd : NoDup (DS_ChunkIndex <$> l)) by (rewrite Hp; apply NoDup_indexes).
  assert (Hlook : ∀ j c, chunks !! j = Some c →
    received l !! Z.of_nat j = Some (DS_Targets (normalizeChunk ts c))).
  { intros j c Hj. destruct (Hchunks j c Hj) as (_ & <- & _). apply received_spec; [done|].
    rewrite Hp. by eapply list_elem_of_lookup_2. }
  cbn [buffer SB_totalChunks].
  destruct (collectChunks_all (buffer l true) (seqZ 0 (Z.of_nat (length chunks))) [] w1) as (w2 & -> & Hw2).
  { intros i Hi%elem_of_seqZ. cbn. destruct (lookup_lt_is_Some_2 chunks (Z.to_nat i)) as [c Hc]; [lia|].
    specialize (Hlook _ _ Hc). rewrite Z2Nat.id in Hlook by lia. rewrite Hlook. eauto. }
  cbn [app buffer SB_received].
  assert (Hall : concat ((λ i, default [] (received l !! i)) <$> seqZ 0 (Z.of_nat (length chunks))) =
    normalizeAll (Name (Meta ts)) (concat (DS_Targets <$> chunks))).
  { unfold normalizeAll. rewrite fmap_concat, <- list_fmap_compose. f_equal. apply list_eq. intros j.
    rewrite !list_lookup_fmap. destruct (chunks !! j) as [c|] eqn:Ec.
    - pose proof (lookup_lt_Some _ _ _ Ec) as Hlt. rewrite lookup_seqZ_lt by lia. cbn. rewrite Z.add_0_l.
      by rewrite (Hlook j c Ec).
    - apply lookup_ge_None in Ec. rewrite lookup_seqZ_ge by lia. done. }
  rewrite Hall.
  destruct (applyTargets_converges ts m w2 (normalizeAll (Name (Meta ts)) (concat (DS_Targets <$> chunks))) Hm)
    as (m' & w' & Hr & Hi & Hn & Hrec).
  exists m', w'. split_and!; [exact Hr|done|exact Hn|].
  intros k. specialize (Hrec k). by rewrite Hw2, Hw1 in Hrec.
Qed.

(** The next chunk, on a processor that holds [l] (or nothing yet). *)
Definition holds (l : list DiscoverySnapshot) (m : MessageProcessor) : Prop :=
  match l with
  | [] => MP_activeSnapshot m = None
  | _ => MP_activeSnapshot m = Some (buffer l false)
  end.

Lemma process_chunk l m w c rest :
  l ++ c :: rest ≡ₚ chunks → holds l m →
  ∃ m1, processSnapshot ts m w (normalizeChunk ts c) =
    match rest with
    | [] => applySnapshot ts m1 w (buffer (c :: l) true)
    | _ => (m1, w, Ok tt)
    end ∧ MP_activeSnapshot m1 = Some (buffer (c :: l) (match rest with [] => true | _ => false end)).
Proof.
  intros Hp Hm. destruct (chunk_facts c) as (Hid & _ & Htot); [rewrite <- Hp; set_solver|].
  unfold processSnapshot. destruct l as [|d l]; cbn [holds] in Hm; rewrite Hm.
  - unfold startNewSnapshot. cbn [normalizeChunk DS_SnapshotID DS_TotalChunks]. rewrite Hid, Htot.
    change ({| SB_snapshotID := id; SB_totalChunks := _; SB_received := ∅; SB_complete := false |})
      with (buffer [] false). rewrite (collect_chunk _ w [] c rest Hp).
    by destruct rest; eexists.
  - cbn [buffer SB_snapshotID normalizeChunk DS_SnapshotID]. rewrite decide_False by (rewrite Hid; auto).
    change ({| SB_snapshotID := id; SB_totalChunks := _; SB_received := received (d :: l); SB_complete := false |})
      with (buffer (d :: l) false).
    change ({| DS_SnapshotID := DS_SnapshotID c; DS_ChunkIndex := _; DS_TotalChunks := _; DS_Targets := _ |})
      with (normalizeChunk ts c).
    rewrite (collect_chunk _ w (d :: l) c rest Hp). by destruct rest; eexists.
Qed.

Lemma run_one m w c inputs :
  ∃ w2, targets_of w2 = targets_of w ∧
    runLoop ts m w (Some [MsgSnapshot c] :: inputs) =
      let '(m, w, r) := processSnapshot ts m w2 (normalizeChunk ts c) in
      match r with Err _ => (m, w, Some (Stopped (Ok tt))) | Ok _ => runLoop ts m w inputs end.
Proof.
  cbn [runLoop drainQueue]. destruct (alive w) as (w1 & -> & Hw1).
  unfold processMessage. destruct (alive w1) as (w2 & -> & Hw2). exists w2.
  split; [by rewrite Hw2|]. by destruct (processSnapshot _ _ _ _) as [[? ?] []].
Qed.

(** Feeding the rest of the chunks to a processor that holds [l]. *)
Lemma feed_chunks rest l m w c0 :
  l ++ c0 :: rest ≡ₚ chunks → holds l m →
  ∃ m' w', runLoop ts m w ((λ c, Some [MsgSnapshot c]) <$> (c0 :: rest)) = (m', w', None) ∧ idle m' ∧
    let all := normalizeAll (Name (Meta ts)) (concat (DS_Targets <$> chunks)) in
    MP_targetCount m' = to_int32 (Z.of_nat (length all)) ∧ reconciled ts all w w'.
Proof.
  revert l m w c0; induction rest as [|c1 rest IH]; intros l m w c0 Hp Hm; cbn [fmap list_fmap].
  - destruct (run_one m w c0 []) as (w2 & Hw2 & Hrun).
    destruct (process_chunk l m w2 c0 [] Hp Hm) as (m1 & Hstep & Hm1). cbn [fmap list_fmap] in *. rewrite Hrun, Hstep.
    destruct (apply_buffer m1 w2 (c0 :: l)) as (m' & w' & -> & Hi & Hn & Hr).
    + rewrite <- Hp. by rewrite Permutation_app_comm.
    + by rewrite Hm1.
    + exists m', w'. split_and!; [done|done|exact Hn|]. intros k. specialize (Hr k). by rewrite Hw2 in Hr.
  - destruct (run_one m w c0 ((λ c, Some [MsgSnapshot c]) <$> (c1 :: rest))) as (w3 & Hw3 & Hrun').
    destruct (process_chunk l m w3 c0 (c1 :: rest) Hp Hm) as (m1 & Hstep & Hm1).
    cbn [fmap list_fmap] in *. rewrite Hrun', Hstep.
    destruct (IH (c0 :: l) m1 w3 c1) as (m' & w' & -> & Hi & Hn & Hr).
    + rewrite <- Hp. apply Permutation_middle.
    + done.
    + exists m', w'. split_and!; [done|done|exact Hn|]. intros k. specialize (Hr k). by rewrite Hw3 in Hr.
Qed.
End Protocol.

(** ** Isolation *)

(** The objects the source may touch: those whose name carries its prefix, and
    those that were listed for it when it started. *)
Definition owned {W} `{TargetStore W} (ts : TargetSource) (w0 : W) (k : NamespacedName) : Prop :=
  NN_Namespace k = Namespace (Meta ts) ∧
  (HasPrefix (NN_Name k) (Name (Meta ts) +:+ "-") = true ∨
   ∃ t, targets_of w0 !! k = Some t ∧ listed (Namespace (Meta ts)) (Name (Meta ts)) t).

Section Isolation.
Context {W : Type} `{L : KubeLaws W} (ts : TargetSource) (w0 : W).

Definition untouched (w : W) : Prop :=
  ∀ k, ¬ owned ts w0 k → targets_of w !! k = targets_of w0 !! k.

Definition prefixed (d : DiscoveredTarget) : Prop :=
  HasPrefix (DT_Name d) (Name (Meta ts) +:+ "-") = true.

(** Everything the processor has buffered carries the prefix. *)
Definition buffers_ok (m : MessageProcessor) : Prop :=
  (∀ e, e ∈ MP_deferredEvents m → prefixed (DE_Target e)) ∧
  ∀ s i l d, MP_activeSnapshot m = Some s → SB_received s !! i = Some l → d ∈ l → prefixed d.

Lemma prefixed_owned d : prefixed d → owned ts w0 (key_in ts (DT_Name d)).
Proof. intros H. split; [done|by left]. Qed.

Lemma untouched_view w w' : targets_of w' = targets_of w → untouched w → untouched w'.
Proof. intros Hv Hu k Hk. rewrite Hv. by apply Hu. Qed.

Lemma untouched_event e w : owned ts w0 (event_key ts e) → untouched w → untouched (applyEvent ts e w).1.
Proof. intros Ho Hu k Hk. rewrite applyEvent_frame; [by apply Hu|]. by intros ->. Qed.

(** Every event of a snapshot concerns an owned object. *)
Lemma snapshot_events_owned w l all e :
  untouched w → (∀ t, t ∈ l → listed (Namespace (Meta ts)) (Name (Meta ts)) t ∧
    ∃ t', targets_of w !! key_of t = Some t' ∧ same_object t t') →
  (∀ d, d ∈ all → prefixed d) → e ∈ generateEvents l all → ¬ ¬ owned ts w0 (event_key ts e).
Proof.
  intros Hu Hl Hall He Hno. destruct (generateEvents_split l all) as (gone & Heq & Hgone).
  rewrite Heq in He. apply elem_of_app in He as [He|He]; apply list_elem_of_fmap in He as (x & -> & Hx).
  - apply Hgone in Hx as [(t & Ht & <-) _]. destruct (Hl t Ht) as [Hle (t' & Hv & Hm & _)].
    assert (Hk : key_of t = event_key ts (delete_event (Name (Meta t)))).
    { unfold key_of, event_key, key_in. cbn. by rewrite (proj1 Hle). }
    rewrite Hk in Hv. rewrite (Hu _ Hno) in Hv. apply Hno. split; [done|]. right. exists t'. split; [done|]. unfold listed. by rewrite <- Hm.
  - apply Hno, prefixed_owned. by apply Hall.
Qed.

Lemma updateStatus_untouched m w : untouched w → untouched (updateStatus ts m w).
Proof. apply untouched_view, updateStatus_view. Qed.

Lemma replay_untouched l m w :
  (∀ e, e ∈ l → prefixed (DE_Target e)) → buffers_ok m → untouched w →
  untouched (replayDeferred ts m w l).1.2 ∧ buffers_ok (replayDeferred ts m w l).1.1.
Proof.
  revert m w; induction l as [|e l IH]; intros m w Hl Hb Hu; cbn [replayDeferred]; [done|].
  pose proof (kl_done w) as Hd. destruct (kc_done w) as [w1 []]; cbn [fst] in *;
    (assert (Hu1 : untouched w1) by by eapply untouched_view); [done|].
  assert (He : prefixed (DE_Target e)) by (apply Hl; by left).
  unfold processEvent. destruct (MP_activeSnapshot m) as [s|] eqn:E.
  - apply IH; [intros; apply Hl; by right| |done]. destruct Hb as [H1 H2]. split; [|done].
    cbn. intros e' [?|Hx]%elem_of_app; [by apply H1|]. apply list_elem_of_singleton in Hx as ->. done.
  - pose proof (untouched_event e w1 (prefixed_owned _ He) Hu1) as Hu2.
    destruct (applyEvent ts e w1) as [w2 [u|err]]; cbn [fst] in *; [|done].
    apply IH; [intros; apply Hl; by right| |by apply updateStatus_untouched].
    by destruct Hb.
Qed.

Lemma applyTargets_untouched m w all :
  (∀ d, d ∈ all → prefixed d) → buffers_ok m → untouched w →
  untouched (applyTargets ts m w all).1.2 ∧ buffers_ok (applyTargets ts m w all).1.1.
Proof.
  intros Hall Hb Hu. unfold applyTargets, fetchExistingTargets.
  pose proof (kl_list (Namespace (Meta ts)) (Name (Meta ts)) w) as Hl.
  pose proof (kl_list_view (Namespace (Meta ts)) (Name (Meta ts)) w) as Hv.
  destruct (kc_listTargets _ _ w) as [w1 ex]. cbn [fst snd] in *.
  assert (Hu1 : untouched w1) by by eapply untouched_view.
  set (l := match ex with Ok l => l | Err _ => [] end).
  assert (Hu2 : untouched (applyEvents ts (generateEvents l all) w1)).
  { intros k Hk. rewrite applyEvents_frame; [by apply Hu1|]. intros e He ->. revert Hk.
    apply (snapshot_events_owned w1 l all e Hu1); [|done|done].
    intros t Ht. rewrite Hv. unfold l in Ht. destruct ex; [by apply (proj1 (Hl _ eq_refl))|by apply elem_of_nil in Ht]. }
  destruct (replay_untouched (MP_deferredEvents m) m _ (proj1 Hb) Hb Hu2) as [H1 H2].
  destruct (replayDeferred _ _ _ _) as [[m' w3] [r|]]; cbn [fst snd] in *; [done|].
  split; [by apply updateStatus_untouched|]. split; cbn; [by intros e ?%elem_of_nil|done].
Qed.
(** The state after a call is safe: nothing foreign touched or buffered. *)
Definition safe (st : MessageProcessor * W) : Prop := untouched st.2 ∧ buffers_ok st.1.

Lemma normalize_prefixed d : prefixed (normalizeTarget d (Name (Meta ts))).
Proof. unfold prefixed, normalizeTarget. cbn. rewrite app_str_assoc. apply HasPrefix_app. Qed.

Lemma collectChunks_sound s idx acc w w' all :
  (∀ d, d ∈ acc → prefixed d) →
  (∀ i l d, SB_received s !! i = Some l → d ∈ l → prefixed d) →
  collectChunks s idx acc w = (w', Some (Ok all)) → ∀ d, d ∈ all → prefixed d.
Proof.
  revert acc w; induction idx as [|i idx IH]; intros acc w Hacc Hs; cbn [collectChunks].
  - by intros [= <- <-].
  - destruct (kc_done w) as [w1 []]; [done|]. destruct (SB_received s !! i) as [l|] eqn:E; [|done].
    apply IH; [|done]. intros d [?|?]%elem_of_app; eauto.
Qed.

Lemma reset_ok m : buffers_ok m → buffers_ok (resetSnapshot m).
Proof. intros [H1 _]. by split. Qed.

Lemma applySnapshot_safe m w s :
  (∀ i l d, SB_received s !! i = Some l → d ∈ l → prefixed d) → safe (m, w) →
  safe (applySnapshot ts m w s).1.
Proof.
  intros Hs [Hu Hb]. unfold applySnapshot. cbn [fst snd] in *.
  pose proof (kl_done w) as Hd. destruct (kc_done w) as [w1 []]; cbn [fst] in *;
    (assert (Hu1 : untouched w1) by by eapply untouched_view); [by split; [|apply reset_ok]|].
  pose proof (collectChunks_view s (seqZ 0 (SB_totalChunks s)) [] w1) as Hc.
  pose proof (collectChunks_sound s (seqZ 0 (SB_totalChunks s)) [] w1) as Hp.
  destruct (collectChunks _ _ _ w1) as [w2 [[all|e]|]]; cbn [fst] in *;
    (assert (Hu2 : untouched w2) by by eapply untouched_view).
  - destruct (applyTargets_untouched m w2 all) as [H1 H2]; [|done|done|by split].
    eapply Hp; [by intros d ?%elem_of_nil|done|done].
  - by split; [|apply reset_ok].
  - by split; [|apply reset_ok].
Qed.

Lemma collectSnapshot_safe m w s c :
  (∀ i l d, SB_received s !! i = Some l → d ∈ l → prefixed d) → (∀ d, d ∈ DS_Targets c → prefixed d) →
  safe (m, w) → safe (collectSnapshot ts m w s c).1.
Proof.
  intros Hs Hc [Hu Hb]. unfold collectSnapshot. case_decide; [done|]. case_decide; [by split; [|apply reset_ok]|].
  destruct (SB_received s !! _) eqn:E; [by split; [|apply reset_ok]|].
  set (s' := {| SB_snapshotID := _ |}).
  assert (Hs' : ∀ i l d, SB_received s' !! i = Some l → d ∈ l → prefixed d).
  { intros i l d Hi Hd. cbn in Hi. apply lookup_insert_Some in Hi as [[_ <-]|[_ Hi]]; eauto. }
  assert (Hb' : buffers_ok (with_snapshot m (Some s'))).
  { split; [apply Hb|]. cbn. intros s2 i l d [= <-]. apply Hs'. }
  destruct (bool_decide _); [by apply applySnapshot_safe|done].
Qed.

Lemma startNewSnapshot_safe m w c :
  (∀ d, d ∈ DS_Targets c → prefixed d) → safe (m, w) → safe (startNewSnapshot ts m w c).1.
Proof.
  intros Hc [Hu Hb]. unfold startNewSnapshot. apply collectSnapshot_safe; [|done|].
  - intros i l d H. cbn in H. by rewrite lookup_empty in H.
  - split; [done|]. split; cbn; [by intros e ?%elem_of_nil|].
    intros s i l d [= <-] H. cbn in H. by rewrite lookup_empty in H.
Qed.

Lemma processSnapshot_safe m w c :
  (∀ d, d ∈ DS_Targets c → prefixed d) → safe (m, w) → safe (processSnapshot ts m w c).1.
Proof.
  intros Hc Hsafe. unfold processSnapshot. destruct (MP_activeSnapshot m) as [s|] eqn:E;
    [|by apply startNewSnapshot_safe].
  assert (Hs : ∀ i l d, SB_received s !! i = Some l → d ∈ l → prefixed d).
  { intros i l d. by apply (proj2 Hsafe). }
  case_decide; [|by apply collectSnapshot_safe].
  destruct (SB_complete s); [|by apply startNewSnapshot_safe].
  pose proof (applySnapshot_safe m w s Hs Hsafe) as Ha.
  destruct (applySnapshot ts m w s) as [[m' w'] [u|e]]; [|done]. by apply startNewSnapshot_safe.
Qed.

Lemma processEvent_safe m w e : prefixed (DE_Target e) → safe (m, w) → safe (processEvent ts m w e).1.
Proof.
  intros He [Hu Hb]. unfold processEvent. destruct (MP_activeSnapshot m) as [s|] eqn:E.
  - split; [done|]. destruct Hb as [H1 H2]. split; cbn; [|done].
    intros e' [?|Hx]%elem_of_app; [by apply H1|]. apply list_elem_of_singleton in Hx as ->. done.
  - pose proof (untouched_event e w (prefixed_owned _ He) Hu) as Hu2.
    destruct (applyEvent ts e w) as [w2 [u|err]]; cbn [fst] in *; [|by split].
    split; [by apply updateStatus_untouched|]. by destruct Hb.
Qed.

Lemma processMessage_safe m w msg : safe (m, w) → safe (processMessage ts m w msg).1.
Proof.
  intros [Hu Hb]. unfold processMessage. pose proof (kl_done w) as Hd.
  destruct (kc_done w) as [w1 []]; cbn [fst] in *;
    (assert (Hu1 : untouched w1) by by eapply untouched_view); [by split|].
  destruct msg as [e|s].
  - apply processEvent_safe; [apply normalize_prefixed|by split].
  - apply processSnapshot_safe; [|by split].
    intros d (d' & -> & _)%list_elem_of_fmap. apply normalize_prefixed.
Qed.

Lemma drainQueue_safe l m w : safe (m, w) → safe (drainQueue ts m w l).1.
Proof.
  revert m w; induction l as [|msg l IH]; intros m w [Hu Hb]; cbn [drainQueue]; [by split|].
  pose proof (kl_done w) as Hd. destruct (kc_done w) as [w1 []]; cbn [fst] in *;
    (assert (Hu1 : untouched w1) by by eapply untouched_view); [by split|].
  pose proof (processMessage_safe m w1 msg (conj Hu1 Hb)) as Hp.
  destruct (processMessage ts m w1 msg) as [[m' w'] [u|e]]; [by apply IH|done].
Qed.

Lemma runLoop_safe l m w : safe (m, w) → safe (runLoop ts m w l).1.
Proof.
  revert m w; induction l as [|[batch|] l IH]; intros m w Hs; cbn [runLoop]; [done| |done].
  pose proof (drainQueue_safe batch m w Hs) as Hd.
  destruct (drainQueue ts m w batch) as [[m' w'] [e|]]; [done|by apply IH].
Qed.
End Isolation.

(** ** Theorems *)

(** The property below, for the components that build on it. *)
Lemma snapshot_protocol_Ok {W} `{L : KubeLaws W} `{Rl : !Reliable W} ts fuel targets id size m (w : W) :
  0 < size → (length targets < fuel)%nat → targets ≠ [] → MP_activeSnapshot m = None →
  ∃ batches, SendSnapshot fuel targets id size = Some (Ok batches) ∧
  ∀ delivered, delivered ≡ₚ batches →
    ∃ m' w', runLoop ts m w (Some <$> delivered) = (m', w', None) ∧ idle m' ∧
      MP_targetCount m' = to_int32 (Z.of_nat (length targets)) ∧
      reconciled ts (normalizeAll (Name (Meta ts)) targets) w w'.
Proof.
  intros Hs Hf Hne Hm.
  destruct (createDiscoverySnapshots_correct targets id size fuel Hs Hf) as (chunks & Hc & Hcat & Hall).
  exists ((λ s, [MsgSnapshot s]) <$> chunks). split.
  { unfold SendSnapshot. rewrite Hc. by destruct targets. }
  intros delivered Hp. apply Permutation_map_inv in Hp as (l & -> & Hl).
  destruct l as [|c0 rest].
  { apply Permutation_nil_r in Hl as ->. by subst targets. }
  destruct (feed_chunks ts chunks id) with (l := @nil DiscoverySnapshot) (c0 := c0) (rest := rest) (m := m) (w := w)
    as (m' & w' & Hrun & Hi & Hn & Hr).
  - intros j c Hj. destruct (Hall j c Hj) as (? & ? & ? & _). done.
  - by symmetry.
  - done.
  - exists m', w'. change (map _ (c0 :: rest)) with ((λ s, [MsgSnapshot s]) <$> (c0 :: rest)).
    rewrite <- list_fmap_compose. split_and!; [exact Hrun|done|..].
    + rewrite Hn, Hcat. unfold normalizeAll. by rewrite length_fmap.
    + by rewrite Hcat in Hr.
Qed.


(** C13: A source never touches another's objects: whatever messages arrive, in
    whatever order, whatever calls fail and whenever the context ends, [Run] leaves
    unchanged every Target outside the source's namespace, and every Target of the
    namespace that neither carries the name prefix of the source nor was listed for
    it when the processor started. *)
Theorem run_isolated {W} `{L : KubeLaws W} ts (w : W) inputs k :
  ¬ owned ts w k →
  targets_of (Run ts w inputs).1.2 !! k = targets_of w !! k.
Proof.
  intros Hk. unfold Run, fetchExistingTargets.
  pose proof (kl_list_view (Namespace (Meta ts)) (Name (Meta ts)) w) as Hv.
  destruct (kc_listTargets _ _ w) as [w1 ex]. cbn [fst] in *.
  apply (runLoop_safe ts w inputs (match ex with
    | Ok l => with_count NewMessageProcessor (to_int32 (Z.of_nat (length l)))
    | Err _ => NewMessageProcessor end) w1); [|done].
  split; [intros j _; cbn; by rewrite Hv|]. destruct ex; (split; cbn; [by intros ev ?%elem_of_nil|done]).
Qed.

(** An event that arrives while a snapshot is being collected is lost: it is put
    aside without touching anything, and the end of the snapshot, which should
    replay it, leaves the targets as if it had never come and forgets it. *)
Theorem deferred_events_lost {W} `{L : KubeLaws W} `{Rl : !Reliable W} ts m (w : W) s event :
  MP_activeSnapshot m = Some s →
  (∀ i, 0 ≤ i < SB_totalChunks s → is_Some (SB_received s !! i)) →
  let deferred := (processEvent ts m w event).1.1 in
  (processEvent ts m w event).1.2 = w ∧
  targets_of (applySnapshot ts deferred w s).1.2 = targets_of (applySnapshot ts m w s).1.2 ∧
  MP_deferredEvents (applySnapshot ts deferred w s).1.1 = [].
Proof.
  intros Hm Hs. unfold processEvent. rewrite Hm. cbn [fst snd]. split; [done|].
  unfold applySnapshot. destruct (alive w) as (w1 & -> & _).
  destruct (collectChunks_all s (seqZ 0 (SB_totalChunks s)) [] w1) as (w2 & -> & _).
  { intros i Hi%elem_of_seqZ. apply Hs. lia. }
  split.
  - rewrite !applyTargets_view; [done|by rewrite Hm|cbn; by rewrite Hm].
  - set (m1 := with_deferred _ _). set (all := [] ++ _).
    destruct (applyTargets_converges ts m1 w2 all) as (m' & w' & -> & [_ Hd] & _); [cbn; by rewrite Hm|done].
Qed.

(** ** Witnesses *)

Definition demo_source : TargetSource := mem_source {| NN_Namespace := "ns"; NN_Name := "netbox" |}.

Definition demo_world : MemWorld := {|
  mem_targets := {[ {| NN_Namespace := "ns"; NN_Name := "mine" |} :=
    MkResource {| Name := "mine"; Namespace := "ns"; Labels := ∅; Annotations := ∅; Finalizers := []; DeletionTimestamp := 0; Generation := 1 |}
      {| Target_Address := "10.0.0.9:57400"; Target_Profile := "p" |}
      {| TS_Clusters := 0; TS_State := ""; TS_ClusterStates := ∅ |} ]};
  mem_status := [] |}.


Lemma run_isolated_witness :
  targets_of (Run demo_source demo_world
    [Some [MsgEvent (delete_event "mine"); MsgEvent (apply_event (emptyDiscovered "a"))]; None]).1.2
    !! {| NN_Namespace := "ns"; NN_Name := "mine" |} =
  targets_of demo_world !! {| NN_Namespace := "ns"; NN_Name := "mine" |}.
Proof.
  apply (run_isolated demo_source demo_world).
  intros [_ [H|(t & Ht & [_ Hl])]]; [by vm_compute in H|].
  vm_compute in Ht. injection Ht as <-. by vm_compute in Hl.
Defined.

Definition full_buffer : snapshotBuffer := {|
  SB_snapshotID := "id"; SB_totalChunks := 1; SB_received := {[ 0 := [emptyDiscovered "netbox-a"] ]};
  SB_complete := true |}.

(** An event for a target the snapshot does not know: its Target is never made. *)
Lemma deferred_events_lost_witness :
  let m := with_snapshot NewMessageProcessor (Some full_buffer) in
  let e := apply_event (emptyDiscovered "netbox-b") in
  targets_of (applySnapshot demo_source (processEvent demo_source m demo_world e).1.1 demo_world full_buffer).1.2 =
  targets_of (applySnapshot demo_source m demo_world full_buffer).1.2.
Proof.
  apply (deferred_events_lost demo_source (with_snapshot NewMessageProcessor (Some full_buffer)) demo_world
    full_buffer (apply_event (emptyDiscovered "netbox-b")) eq_refl).
  intros i Hi. cbn in Hi. replace i with 0 by lia. by vm_compute; eauto.
Defined.

(** The counter of an event-driven source drifts: applying a target that exists is
    counted again. *)
Example reapplied_target_counted_twice :
  MP_targetCount (Run demo_source demo_world
    [Some [MsgEvent (apply_event (emptyDiscovered "a")); MsgEvent (apply_event (emptyDiscovered "a"))]]).1.1 = 2 ∧
  size (targets_of (Run demo_source demo_world
    [Some [MsgEvent (apply_event (emptyDiscovered "a")); MsgEvent (apply_event (emptyDiscovered "a"))]]).1.2) = 2%nat.
Proof. by vm_compute. Qed.
