(* ===== verification/Sse.v ===== *)
(** The target-state stream of a collector pod ([internal/gnmic/sse.go]): the data of
    its events and polls, and the scanner of its lines. *)

From S2P Require Import Prelude GoLib.
From Stdlib Require Import Ascii.
#[local] Open Scope Z_scope.

(** ** sse.go *)

Definition SSEEventCreate := "create".
Definition SSEEventUpdate := "update".
Definition SSEEventDelete := "delete".
Definition SSEStoreState := "state".
Definition SSEStoreConfig := "config".

Record TargetStateObject := {
  TSO_IntendedState : string;
  TSO_State : string;
  TSO_FailedReason : string;
  TSO_LastUpdated : Z;
  TSO_ConnectionState : string;
  TSO_Subscriptions : gmap string string
}.

Record SSEEventData := {
  SSE_Timestamp : Z;
  SSE_Store : string;
  SSE_Kind : string;
  SSE_Name : string;
  SSE_EventType : string;
  SSE_Object : string
}.

Record SSEEvent := { EventType : string; Data : SSEEventData }.

Record PollTargetEntry := { PTE_Name : string; PTE_State : option TargetStateObject }.

(** [encoding/json], as the stream uses it. *)
Class JSONDecoder := {
  decodeEvent : string → option SSEEventData;
  decodeState : string → option TargetStateObject;
  decodePoll : string → option (list PollTargetEntry)
}.

(** The scanner loop of [StreamTargetState]: the events sent for the lines of a
    response body. *)
Fixpoint streamLines `{J : JSONDecoder} (currentEventType : string) (lines : list string)
    : list SSEEvent :=
  match lines with
  | [] => []
  | line :: lines =>
      if HasPrefix line ":" then streamLines currentEventType lines
      else if bool_decide (line = "") then streamLines "" lines
      else match CutPrefix line "event: " with
      | (after, true) => streamLines after lines
      | _ =>
          match CutPrefix line "data: " with
          | (dataStr, true) =>
              match decodeEvent dataStr with
              | None => streamLines currentEventType lines
              | Some data =>
                  if bool_decide (SSE_Kind data ≠ "targets" ∨ SSE_Store data ≠ SSEStoreState)
                  then streamLines currentEventType lines
                  else {| EventType := currentEventType; Data := data |}
                         :: streamLines currentEventType lines
              end
          | _ => streamLines currentEventType lines
          end
      end
  end.

(** What [StreamTargetState] sends and returns for a response body that is read to its end:
    the scanner stops at a line that does not fit its buffer, and that is an error. *)
Definition streamBody `{J : JSONDecoder} (body : string) : list SSEEvent * res unit :=
  (streamLines "" (scanLines body),
   if scanErr body then Err (ErrMsg "SSE stream error: bufio.Scanner: token too long") else Ok tt).

(** ** The stream's format *)

(** How a pod writes one event, and the comments it sends to keep the connection. *)
Definition frame (e : string * string) : list string :=
  ["event: " +:+ e.1; "data: " +:+ e.2; ""].

Definition is_comment (line : string) : bool := HasPrefix line ":".

Definition forwarded `{J : JSONDecoder} (e : string * string) : option SSEEvent :=
  d ← decodeEvent e.2;
  if decide (SSE_Kind d = "targets" ∧ SSE_Store d = SSEStoreState)
  then Some {| EventType := e.1; Data := d |} else None.

Section Format.
Context `{J : JSONDecoder}.

Lemma streamLines_comments cur lines :
  streamLines cur lines = streamLines cur (filter (λ l, is_comment l = false) lines).
Proof.
  revert cur; induction lines as [|l lines IH]; intros cur; [done|].
  rewrite filter_cons. unfold is_comment at 1. cbn [streamLines].
  case_decide as E; [rewrite E|apply not_false_iff_true in E; rewrite E; apply IH].
  cbn [streamLines]. rewrite E, <- (IH ""), <- (IH cur).
  destruct (CutPrefix l "event: ") as [after []]; [by rewrite <- (IH after)|done].
Qed.

Lemma streamLines_event cur ty lines : streamLines cur (("event: " +:+ ty) :: lines) = streamLines ty lines.
Proof.
  cbn [streamLines]. change (HasPrefix _ ":") with false. change (bool_decide (_ = "")) with false. cbn iota.
  unfold CutPrefix. by rewrite HasPrefix_app, drop_bytes_app.
Qed.

Lemma streamLines_data cur d lines :
  streamLines cur (("data: " +:+ d) :: lines) = option_list (forwarded (cur, d)) ++ streamLines cur lines.
Proof.
  cbn [streamLines]. change (HasPrefix _ ":") with false. change (bool_decide (_ = "")) with false. cbn iota.
  change (CutPrefix _ "event: ") with ("data: " +:+ d, false). cbn iota.
  unfold CutPrefix. rewrite HasPrefix_app, drop_bytes_app. unfold forwarded. cbn.
  destruct (decodeEvent d) as [data|]; cbn; [|done]. case_bool_decide; case_decide; try done; tauto.
Qed.

Lemma streamLines_frame cur e lines :
  streamLines cur (frame e ++ lines) = option_list (forwarded e) ++ streamLines "" lines.
Proof. destruct e as [ty d]. unfold frame. cbn [app fst snd]. by rewrite streamLines_event, streamLines_data. Qed.

Lemma streamLines_frames events lines :
  filter (λ l, is_comment l = false) lines = concat (frame <$> events) →
  streamLines "" lines = omap forwarded events.
Proof.
  intros H. rewrite streamLines_comments, H. clear H.
  induction events as [|e events IH]; [done|]. cbn [fmap list_fmap concat].
  rewrite streamLines_frame, IH. cbn. by destruct (forwarded e).
Qed.

(** C40: The stream reads back what a pod writes as long as it fits the scanner's lines.  Of
    a body made of events, with keep-alive comments anywhere between its lines, and of
    lines that hold no line break and have fewer than 65536 bytes, it sends exactly the
    target-state events, in order, each with its own type, and ends without an error;
    events of other stores or kinds and malformed ones are skipped without affecting the
    next.  A longer line that follows ends the stream with an error: what was written
    before it has been sent, and nothing that comes after it is. *)
Theorem streamBody_roundtrip events lines :
  filter (λ l, is_comment l = false) lines = concat (frame <$> events) → Forall is_line lines →
  streamBody (unlines lines) = (omap forwarded events, Ok tt) ∧
  ∀ long rest, no_byte "010"%char long = true → 65536 ≤ Z.of_nat (String.length long) →
    (streamBody (unlines lines +:+ long +:+ String "010" rest)).1 = omap forwarded events ∧
    is_ok (streamBody (unlines lines +:+ long +:+ String "010" rest)).2 = false.
Proof.
  intros Hf Hl. unfold streamBody. split.
  - by rewrite scanLines_unlines, scanErr_unlines, (streamLines_frames events) by done.
  - intros long rest Hn Hlong. destruct (scan_overlong lines long rest Hl Hn Hlong) as [-> ->].
    by rewrite (streamLines_frames events) by done.
Qed.
End Format.

#[local] Instance demo_event_json : JSONDecoder := {
  decodeEvent s := if decide (s = "{") then None else
    Some {| SSE_Timestamp := 0; SSE_Store := "state"; SSE_Kind := s; SSE_Name := "ns/t";
            SSE_EventType := ""; SSE_Object := "" |};
  decodeState s := None;
  decodePoll s := None
}.

Definition demo_lines : list string :=
  ["event: create"; ": keep-alive"; "data: targets"; ""; "event: update"; "data: {"; "";
   "event: update"; "data: subscriptions"; ":"; ""; "event: delete"; "data: targets"; ""].

(** A line of as many bytes as the scanner does not take. *)
Definition xs (n : nat) : string := Nat.iter n (String "x") "".
Definition too_long : string := xs (Z.to_nat 65536).

Lemma xs_spec n : no_byte "010"%char (xs n) = true ∧ String.length (xs n) = n.
Proof. induction n as [|n [IH1 IH2]]; [done|]. unfold xs in *. rewrite Nat.iter_succ. cbn [no_byte String.length]. by rewrite IH1, IH2. Qed.

Lemma too_long_spec : no_byte "010"%char too_long = true ∧ 65536 ≤ Z.of_nat (String.length too_long).
Proof. unfold too_long. destruct (xs_spec (Z.to_nat 65536)) as [H ->]. split; [exact H|]. rewrite Z2Nat.id; lia. Qed.

Lemma demo_lines_fit : Forall is_line demo_lines.
Proof. apply (bool_decide_unpack _). vm_compute. exact I. Qed.

Lemma streamBody_roundtrip_witness :
  EventType <$> (streamBody (unlines demo_lines)).1 = ["create"; "delete"] ∧
  is_ok (streamBody (unlines demo_lines +:+ too_long +:+ String "010" "event: create")).2 = false.
Proof.
  destruct (streamBody_roundtrip [("create", "targets"); ("update", "{"); ("update", "subscriptions"); ("delete", "targets")] demo_lines)
    as [H1 H2]; [vm_compute; reflexivity|exact demo_lines_fit|]. split.
  - rewrite H1. vm_compute. reflexivity.
  - exact (proj2 (H2 too_long "event: create" (proj1 too_long_spec) (proj2 too_long_spec))).
Defined.
