(* ===== verification/StatusClient.v ===== *)
(** The API server as the target-state controller uses it: a parameter, with the
    optimistic concurrency it documents, in the presence of other writers; and one
    concrete server, used by the witnesses. *)

From S2P Require Import Prelude GoLib Api Sse.
#[local] Open Scope Z_scope.

Definition with_status (t : Target) (s : TargetStatus) : Target := MkResource (Meta t) (Spec t) s.

(** An object as the API server returns it: with its [resourceVersion], which is only
    compared for equality. *)
Abbreviation Copy := (Target * nat)%type.

(** The API server as this controller uses it, and a GET from a pod, which gives the
    status and the body.  An update
    carries the [resourceVersion] of the copy it was made from. *)
Class StatusClient (W : Type) : Type := {
  sc_get : NamespacedName → W → W * res Copy;
  sc_list : string → W → W * res (list Copy);
  sc_update : Target → nat → W → W * res unit;
  sc_do : HttpClient → string → W → W * res (Z * string);
  sc_getCluster : NamespacedName → W → W * res Cluster;
  sc_getStatefulSet : NamespacedName → W → W * res unit
}.

(** [PollTargetState]. *)
Definition PollTargetState {W} `{C : StatusClient W} `{J : JSONDecoder} (httpClient : HttpClient) (pollURL : string) (w : W)
    : W * res (list PollTargetEntry) :=
  let '(w, r) := sc_do httpClient pollURL w in
  (w, match r with
      | Err _ => Err (ErrMsg "poll request failed")
      | Ok (status, body) =>
          if bool_decide (status ≠ 200) then Err (ErrMsg ("poll endpoint returned status " +:+ Itoa status)) else
          match decodePoll body with
          | None => Err (ErrMsg "failed to decode poll response")
          | Some entries => Ok entries
          end
      end).

(** ** What the server holds *)

(** [view] is the content of the server, [known] the copies it has served so far, and
    [env] what the other writers (the other streams, the other controllers, users) may
    do to the content between two steps of this controller. *)
Class StatusStore (W : Type) : Type := {
  view : W → gmap NamespacedName Copy;
  known : W → Copy → Prop;
  env : gmap NamespacedName Copy → gmap NamespacedName Copy → Prop
}.

(** A call that writes nothing: only the others may have moved. *)
Definition reads `{S : StatusStore W} (w w' : W) : Prop :=
  env (view w) (view w') ∧ ∀ c, known w c → known w' c.

(** The documented behaviour: a get or a list returns current copies, and an update of
    a copy succeeds only while the object is still that copy, in which case it changes
    its status (and its version) and nothing else. *)
Class StatusLaws (W : Type) `{C : StatusClient W} `{S : StatusStore W} : Prop := {
  sl_key : ∀ w k c, view w !! k = Some c → key_of c.1 = k;
  sl_env : PreOrder env;
  sl_get : ∀ k w, let '(w', r) := sc_get k w in reads w w' ∧
    match r with
    | Ok c => view w' !! k = Some c ∧ known w' c
    | Err ErrNotFound => view w' !! k = None
    | Err _ => True end;
  sl_list : ∀ ns w, let '(w', r) := sc_list ns w in reads w w' ∧
    ∀ l, r = Ok l → NoDup l ∧ (∀ c, c ∈ l → known w' c) ∧
      ∀ c, c ∈ l ↔ view w' !! key_of c.1 = Some c ∧ Namespace (Meta c.1) = ns;
  sl_update : ∀ c t w, known w c → key_of t = key_of c.1 →
    let '(w', r) := sc_update t c.2 w in
    match r with
    | Ok _ => (∀ c, known w c → known w' c) ∧
        ∃ v n, env (view w) v ∧ v !! key_of t = Some c ∧
          env (<[key_of t := (with_status c.1 (Status t), n)]> v) (view w')
    | Err _ => reads w w' end;
  sl_do : ∀ client url w, reads w (sc_do client url w).1;
  sl_getCluster : ∀ k w, reads w (sc_getCluster k w).1 ∧
    ∀ c, (sc_getCluster k w).2 = Ok c → key_of c = k;
  sl_getStatefulSet : ∀ k w, reads w (sc_getStatefulSet k w).1
}.

(** The worlds in which this controller is the only writer and no call of it is
    refused. *)
Class Settled (W : Type) `{C : StatusClient W} `{S : StatusStore W} : Type := {
  settled : W → Prop;
  st_env : ∀ v v', env v v' → v = v';
  st_get : ∀ k w, settled w → settled (sc_get k w).1 ∧
    ∀ e, (sc_get k w).2 = Err e → e = ErrNotFound;
  st_list : ∀ ns w, settled w → settled (sc_list ns w).1 ∧ is_ok (sc_list ns w).2 = true;
  st_update : ∀ c t w, settled w → settled (sc_update t c.2 w).1 ∧
    (known w c → key_of t = key_of c.1 → view w !! key_of t = Some c →
     is_ok (sc_update t c.2 w).2 = true);
  st_do : ∀ client url w, settled w → settled (sc_do client url w).1;
  st_getCluster : ∀ k w, settled w → settled (sc_getCluster k w).1;
  st_getStatefulSet : ∀ k w, settled w → settled (sc_getStatefulSet k w).1
}.

(** ** A concrete server *)

(** The objects, the next version, the conflicts it will still answer with, and what
    the pod, the clusters and the StatefulSets are. *)
Record StatusWorld := {
  sw_targets : gmap NamespacedName Copy;
  sw_next : nat;
  sw_conflicts : nat;
  sw_poll : string;
  sw_clusters : gmap NamespacedName Cluster;
  sw_sets : list NamespacedName
}.

Definition sw_view (w : StatusWorld) : gmap NamespacedName Copy :=
  filter (λ kc, key_of kc.2.1 = kc.1 ∧ (kc.2.2 < sw_next w)%nat) (sw_targets w).

Definition sw_put (w : StatusWorld) (k : NamespacedName) (t : Target) : StatusWorld := {|
  sw_targets := <[k := (t, sw_next w)]> (sw_view w); sw_next := S (sw_next w);
  sw_conflicts := sw_conflicts w; sw_poll := sw_poll w; sw_clusters := sw_clusters w;
  sw_sets := sw_sets w |}.

Definition sw_conflict (w : StatusWorld) (n : nat) : StatusWorld := {|
  sw_targets := sw_targets w; sw_next := sw_next w; sw_conflicts := n; sw_poll := sw_poll w;
  sw_clusters := sw_clusters w; sw_sets := sw_sets w |}.

#[export] Instance sw_client : StatusClient StatusWorld := {
  sc_get k w := (w, match sw_view w !! k with Some c => Ok c | None => Err ErrNotFound end);
  sc_list ns w := (w, Ok (filter (λ c, Namespace (Meta c.1) = ns) (map_to_list (sw_view w)).*2));
  sc_update t version w :=
    match sw_conflicts w with
    | S n => (sw_conflict w n, Err ErrConflict)
    | O => match sw_view w !! key_of t with
           | None => (w, Err ErrNotFound)
           | Some (cur, v) => if decide (v = version)
                              then (sw_put w (key_of t) (with_status cur (Status t)), Ok tt)
                              else (w, Err ErrConflict)
           end
    end;
  sc_do _ _ w := (w, Ok (200, sw_poll w));
  sc_getCluster k w := (w, match sw_clusters w !! k with
    | Some c => if decide (key_of c = k) then Ok c else Err ErrNotFound
    | None => Err ErrNotFound end);
  sc_getStatefulSet k w := (w, if decide (k ∈ sw_sets w) then Ok tt else Err ErrNotFound)
}.

#[export] Instance sw_store : StatusStore StatusWorld := {
  view := sw_view;
  known w c := (c.2 < sw_next w)%nat ∧
    ∀ c', sw_view w !! key_of c.1 = Some c' → c'.2 = c.2 → c' = c;
  env := eq
}.

Lemma sw_view_spec w k c : sw_view w !! k = Some c ↔
  sw_targets w !! k = Some c ∧ key_of c.1 = k ∧ (c.2 < sw_next w)%nat.
Proof. unfold sw_view. rewrite map_lookup_filter_Some. cbn. tauto. Qed.

Lemma sw_view_put w k t : key_of t = k → sw_view (sw_put w k t) = <[k := (t, sw_next w)]> (sw_view w).
Proof.
  intros Hk. unfold sw_view at 1, sw_put. cbn. apply map_filter_id.
  intros j c [[<- <-]|[_ H]]%lookup_insert_Some; cbn; [split; [done|lia]|].
  apply sw_view_spec in H as (_ & ? & ?). split; [done|lia].
Qed.

#[export] Instance sw_laws : StatusLaws StatusWorld.
Proof.
  split; unfold reads; cbn.
  - intros w k c H. by apply sw_view_spec in H as (_ & ? & _).
  - split; [by intros ? | by intros ? ? ? -> ->].
  - intros k w. split; [by split|]. destruct (sw_view w !! k) as [c|] eqn:E; [|done].
    pose proof (proj1 (sw_view_spec _ _ _) E) as (_ & Hk & Hn). split_and!; [done|done|].
    intros c' H _. rewrite Hk, E in H. by injection H.
  - intros ns w. split; [by split|]. intros l [= <-]. split_and!; [|intros c H|intros c].
    { apply NoDup_filter, NoDup_fmap_2_strong, NoDup_map_to_list. intros [k c] [k' c'] H H' Heq.
      apply elem_of_map_to_list, sw_view_spec in H as (_ & <- & _).
      apply elem_of_map_to_list, sw_view_spec in H' as (_ & <- & _). cbn in *. by subst. }
    { apply list_elem_of_filter in H as [_ H]. apply list_elem_of_fmap in H as ([k c'] & -> & H).
      apply elem_of_map_to_list in H. pose proof (proj1 (sw_view_spec _ _ _) H) as (_ & <- & Hn).
      cbn in *. split; [done|]. intros d Hd _. rewrite H in Hd. by injection Hd. }
    rewrite list_elem_of_filter, list_elem_of_fmap. split.
    + intros (Hns & [k c'] & -> & Hin). apply elem_of_map_to_list in Hin. cbn in *.
      pose proof (proj1 (sw_view_spec _ _ _) Hin) as (_ & <- & _). done.
    + intros (H & Hns). split; [done|]. exists (key_of c.1, c). split; [done|]. by apply elem_of_map_to_list.
  - intros [c n] t w [Hn Hc] Hk. cbn in *. destruct (sw_conflicts w); cbn; [|done].
    destruct (sw_view w !! key_of t) as [[cur v]|] eqn:E; cbn; [|done].
    case_decide as Hv; cbn; [|done]. subst v. rewrite <- Hk in Hc.
    specialize (Hc _ E eq_refl). injection Hc as ->.
    assert (key_of (with_status c (Status t)) = key_of t) as Hk' by done.
    rewrite sw_view_put by done. split.
    + intros d [Hd Hd']. split; [lia|]. intros c' [[_ <-]|[_ H]]%lookup_insert_Some; [cbn; lia|auto].
    + eexists _, _. by split_and!.
  - done.
  - intros k w. split; [by split|]. intros c. destruct (sw_clusters w !! k) as [d|]; [|done].
    case_decide; [|done]. by intros [= <-].
  - done.
Qed.

#[export] Instance sw_settled : Settled StatusWorld.
Proof.
  refine {| settled w := sw_conflicts w = 0%nat |}.
  - done.
  - intros k w Hw. split; [done|]. intros e. cbn. destruct (sw_view w !! k); [done|]. by intros [= <-].
  - done.
  - intros [c n] t w Hw. cbn. rewrite Hw. destruct (sw_view w !! key_of t) as [[cur v]|] eqn:E; cbn.
    + case_decide; cbn; (split; [done|]); [done|]. intros _ _ [= -> ->]. done.
    + split; [done|]. by intros _ _ [=].
  - done.
  - done.
  - done.
Defined.
