(* ===== verification/TargetState.v ===== *)
(** The target-state controller ([internal/controller/targetstate_controller.go]): one stream per pod of a cluster, whose events and
    polls are reflected in the status of the Target resources. *)

From S2P Require Import Prelude GoLib Api Sse StatusClient.
From Stdlib Require Import Ascii.
#[local] Open Scope Z_scope.

(** ** Names, URLs and delays *)

Definition parseTargetName (name : string) : option (string * string) :=
  match SplitN2 name "/"%char with
  | [a; b] => Some (a, b)
  | _ => None
  end.

(** [fmt.Sprintf "%s/%s/%d"]. *)
Definition streamKey (namespace clusterName : string) (podIndex : Z) : string :=
  namespace +:+ "/" +:+ clusterName +:+ "/" +:+ Itoa podIndex.

Definition podName (stsName : string) (podIndex : Z) : string := stsName +:+ "-" +:+ Itoa podIndex.

Definition resourcePrefix := "gnmic-".
Definition defaultRestPort : Z := 7890.
Definition reconnectMinDelay : Z := 2 * 1000000000.
Definition reconnectMaxDelay : Z := 10 * 1000000000.
Definition maxConflictRetries : nat := 5.
Arguments maxConflictRetries : simpl never.

Definition backoff (current : Z) : Z :=
  let next := current * 2 in
  if decide (next > reconnectMaxDelay) then reconnectMaxDelay else next.

Definition podBaseURL (clusterDomain : string) (cluster : Cluster) (stsName : string) (podIndex : Z)
    : string :=
  let restPort := match CS_API (Spec cluster) with
                  | Some api => if decide (API_RestPort api = 0) then defaultRestPort else API_RestPort api
                  | None => defaultRestPort end in
  let podDNS := podName stsName podIndex +:+ "." +:+ stsName +:+ "." +:+ Namespace (Meta cluster)
                  +:+ ".svc." +:+ clusterDomain in
  let scheme := match CS_API (Spec cluster) with
                | Some api => match API_TLS api with
                              | Some tls => if bool_decide (CTLS_IssuerRef tls ≠ "") then "https" else "http"
                              | None => "http" end
                | None => "http" end in
  scheme +:+ "://" +:+ podDNS +:+ ":" +:+ Itoa restPort.

Definition buildPodSSEURL (clusterDomain : string) (cluster : Cluster) (stsName : string) (podIndex : Z) :=
  podBaseURL clusterDomain cluster stsName podIndex +:+ "/api/v1/sse/targets?store=state".

Definition buildPodPollURL (clusterDomain : string) (cluster : Cluster) (stsName : string) (podIndex : Z) :=
  podBaseURL clusterDomain cluster stsName podIndex +:+ "/api/v1/targets".

(** ** Status *)

Definition healthy (s : ClusterTargetState) : bool :=
  negb (bool_decide (CTS_State s ≠ "running" ∨ CTS_ConnectionState s ≠ "READY")).

Section Summary.
Context `{R : GoRuntime}.

(** The loop stops at the first unhealthy cluster. *)
Definition computeStatusSummary (status : TargetStatus) : TargetStatus :=
  let clusters := to_int32 (Z.of_nat (size (TS_ClusterStates status))) in
  {| TS_Clusters := clusters;
     TS_State := if decide (clusters = 0) then ""
                 else if forallb healthy (go_range (TS_ClusterStates status)).*2
                 then "READY" else "DEGRADED";
     TS_ClusterStates := TS_ClusterStates status |}.
End Summary.

Definition with_states (status : TargetStatus) (m : gmap string ClusterTargetState) : TargetStatus :=
  {| TS_Clusters := TS_Clusters status; TS_State := TS_State status; TS_ClusterStates := m |}.

(** The entry a pod reports. *)
Definition reported_state (pod : string) (o : TargetStateObject) : ClusterTargetState := {|
  CTS_Pod := pod; CTS_State := TSO_State o; CTS_FailedReason := TSO_FailedReason o;
  CTS_ConnectionState := TSO_ConnectionState o; CTS_Subscriptions := TSO_Subscriptions o;
  CTS_LastUpdated := TSO_LastUpdated o |}.

Definition has_entry (t : Target) (clusterName : string) : option ClusterTargetState :=
  TS_ClusterStates (Status t) !! clusterName.

Section Handlers.
Context `{R : GoRuntime} {W : Type} `{C : StatusClient W}.

Definition set_entry (clusterName : string) (e : option ClusterTargetState) (t : Target) : Target :=
  with_status t (computeStatusSummary (with_states (Status t)
    (match e with
     | Some e => <[clusterName := e]> (TS_ClusterStates (Status t))
     | None => delete clusterName (TS_ClusterStates (Status t))
     end))).

(** Read, change, write; again with a fresh read after a conflict. *)
Fixpoint readModifyWrite (attempts : nat) (key : NamespacedName) (f : Target → Target) (w : W) : W :=
  match attempts with
  | O => w
  | S attempts =>
      let '(w, r) := sc_get key w in
      match r with
      | Err _ => w
      | Ok (target, version) =>
          let '(w, r) := sc_update (f target) version w in
          match r with
          | Err ErrConflict => readModifyWrite attempts key f w
          | _ => w
          end
      end
  end.

(** The same on a copy already read: only the later attempts read again. *)
Definition modifyWrite (copy : Copy) (f : Target → Target) (w : W) : W :=
  let '(w, r) := sc_update (f copy.1) copy.2 w in
  match r with
  | Err ErrConflict => readModifyWrite (maxConflictRetries - 1) (key_of copy.1) f w
  | _ => w
  end.

Definition handleEvent `{J : JSONDecoder} (event : SSEEvent) (clusterName pod : string) (w : W) : W :=
  match parseTargetName (SSE_Name (Data event)) with
  | None => w
  | Some (targetNamespace, targetName) =>
      match decodeState (SSE_Object (Data event)) with
      | None => w
      | Some stateObj =>
          readModifyWrite maxConflictRetries
            {| NN_Namespace := targetNamespace; NN_Name := targetName |}
            (set_entry clusterName
               (if bool_decide (EventType event = SSEEventDelete) then None
                else Some (reported_state pod stateObj))) w
      end
  end.

(** One entry of a poll: the names reported so far and the world. *)
Definition pollEntry (clusterName pod : string) (st : gset string * W) (entry : PollTargetEntry)
    : gset string * W :=
  let '(reportedTargets, w) := st in
  match PTE_State entry with
  | None => st
  | Some state =>
      match parseTargetName (PTE_Name entry) with
      | None => st
      | Some (targetNamespace, targetName) =>
          ({[targetName]} ∪ reportedTargets,
           readModifyWrite maxConflictRetries
             {| NN_Namespace := targetNamespace; NN_Name := targetName |}
             (set_entry clusterName (Some (reported_state pod state))) w)
      end
  end.

(** The three cleanups list the namespace and drop the cluster's entry from the
    targets [stale] selects. *)
Definition dropEntry (clusterName : string) (stale : Target → ClusterTargetState → bool) (w : W)
    (copy : Copy) : W :=
  match has_entry copy.1 clusterName with
  | None => w
  | Some cs => if stale copy.1 cs then modifyWrite copy (set_entry clusterName None) w else w
  end.

Definition dropStaleEntries (namespace clusterName : string)
    (stale : Target → ClusterTargetState → bool) (w : W) : W :=
  let '(w, r) := sc_list namespace w in
  match r with
  | Err _ => w
  | Ok targets => foldl (dropEntry clusterName stale) w targets
  end.

Definition pollAndSync `{J : JSONDecoder} (httpClient : HttpClient) (pollURL clusterName namespace pod : string) (w : W) : W :=
  let '(w, r) := PollTargetState httpClient pollURL w in
  match r with
  | Err _ => w
  | Ok entries =>
      let '(reportedTargets, w) := foldl (pollEntry clusterName pod) (∅, w) entries in
      dropStaleEntries namespace clusterName
        (λ target cs, bool_decide (CTS_Pod cs = pod) &&
                      bool_decide (Name (Meta target) ∉ reportedTargets)) w
  end.

Definition removeClusterFromTargets (namespace clusterName : string) (w : W) : W :=
  dropStaleEntries namespace clusterName (λ _ _, true) w.

Definition removeStalePodsFromTargets (namespace clusterName stsName : string) (desiredPods : Z)
    (w : W) : W :=
  let validPods := podName stsName <$> seqZ 0 desiredPods in
  dropStaleEntries namespace clusterName (λ _ cs, bool_decide (CTS_Pod cs ∉ validPods)) w.

(** ** Streams *)

(** [streams] holds the cancel function of each stream, named by the number of its
    goroutine; [running] are the goroutines that were started and not cancelled. *)
Record TargetStateReconciler := {
  streams : gmap string nat;
  nextStream : nat;
  running : gset nat
}.

Definition stopStreamsForCluster (namespace clusterName : string) (r : TargetStateReconciler)
    : TargetStateReconciler :=
  let prefix := namespace +:+ "/" +:+ clusterName +:+ "/" in
  foldl (λ r e, if HasPrefix e.1 prefix
                then {| streams := delete e.1 (streams r); nextStream := nextStream r;
                        running := running r ∖ {[e.2]} |}
                else r) r (go_range (streams r)).

(** [context.WithCancel], the map entry and the goroutine. *)
Definition startStream (namespace clusterName : string) (r : TargetStateReconciler) (podIndex : Z)
    : TargetStateReconciler := {|
  streams := <[streamKey namespace clusterName podIndex := nextStream r]> (streams r);
  nextStream := S (nextStream r);
  running := {[nextStream r]} ∪ running r |}.

(** [Result.RequeueAfter] in seconds. *)
Definition Reconcile (req : NamespacedName) (r : TargetStateReconciler) (w : W)
    : TargetStateReconciler * W * res Z :=
  let '(w, c) := sc_getCluster req w in
  match c with
  | Err ErrNotFound =>
      (stopStreamsForCluster (NN_Namespace req) (NN_Name req) r,
       removeClusterFromTargets (NN_Namespace req) (NN_Name req) w, Ok 0)
  | Err e => (r, w, Err e)
  | Ok cluster =>
      let ns := Namespace (Meta cluster) in
      let name := Name (Meta cluster) in
      let replicas := default 0 (CS_Replicas (Spec cluster)) in
      if decide (replicas = 0)
      then (stopStreamsForCluster ns name r, removeClusterFromTargets ns name w, Ok 0)
      else
        let stsName := resourcePrefix +:+ name in
        let '(w, sts) := sc_getStatefulSet {| NN_Namespace := ns; NN_Name := stsName |} w in
        match sts with
        | Err ErrNotFound => (stopStreamsForCluster ns name r, w, Ok 5)
        | Err e => (r, w, Err e)
        | Ok _ =>
            let r := stopStreamsForCluster ns name r in
            let w := removeStalePodsFromTargets ns name stsName replicas w in
            (foldl (startStream ns name) r (seqZ 0 replicas), w, Ok 0)
        end
  end.
End Handlers.

(** ** What the controller may do to the server's content *)

Section Effects.
Context `{R : GoRuntime} {W : Type} `{C : StatusClient W} `{S : StatusStore W} `{L : !StatusLaws W}.

(** One update of the object stored at that moment, or none, among the moves of the
    others. *)
Definition at_most_once (k : NamespacedName) (f : Target → Target)
    (v v' : gmap NamespacedName Copy) : Prop :=
  env v v' ∨
  ∃ v1 c n, env v v1 ∧ v1 !! k = Some c ∧ env (<[k := (f c.1, n)]> v1) v'.

(** Any number of updates of the cluster's entry. *)
Definition cluster_write (clusterName : string) (v v' : gmap NamespacedName Copy) : Prop :=
  ∃ k c n e, v !! k = Some c ∧ v' = <[k := (set_entry clusterName e c.1, n)]> v.

Definition writes_only (clusterName : string) : relation (gmap NamespacedName Copy) :=
  rtc (λ v v', env v v' ∨ cluster_write clusterName v v').

(** The same for worlds: the copies served before stay served. *)
Definition advances (clusterName : string) (w w' : W) : Prop :=
  writes_only clusterName (view w) (view w') ∧ ∀ c, known w c → known w' c.

#[export] Instance advances_preorder clusterName : PreOrder (advances clusterName).
Proof.
  split; [intros w; split; [apply rtc_refl|done] | intros w1 w2 w3 [H1 K1] [H2 K2]; split; [|auto]].
  unfold writes_only in *; by etrans.
Qed.

Lemma reads_advances clusterName w w' : reads w w' → advances clusterName w w'.
Proof. intros [H K]. split; [apply rtc_once; by left|done]. Qed.

Lemma once_writes_only k clusterName e v v' :
  at_most_once k (set_entry clusterName e) v v' → writes_only clusterName v v'.
Proof.
  intros [H|(v1 & c & n & H1 & Hk & H2)]; [apply rtc_once; by left|].
  eapply rtc_l; [by left|]. eapply rtc_l; [right|apply rtc_once; by left].
  by exists k, c, n, e.
Qed.

Lemma reads_once k f v1 v2 v3 : env v1 v2 → at_most_once k f v2 v3 → at_most_once k f v1 v3.
Proof.
  pose proof sl_env as E. intros H [H2|(v & c & n & H1 & Hk & H2)]; [left; by etrans|].
  right. exists v, c, n. split_and!; [by etrans|done..].
Qed.

(** An update made from a served copy. *)
Lemma update_once (c : Copy) clusterName e w : known w c →
  let '(w', r) := sc_update (set_entry clusterName e c.1) c.2 w in
  at_most_once (key_of c.1) (set_entry clusterName e) (view w) (view w') ∧
  (r = Err ErrConflict → env (view w) (view w')) ∧ ∀ c, known w c → known w' c.
Proof.
  intros Hc. pose proof (sl_update c (set_entry clusterName e c.1) w Hc eq_refl) as H.
  destruct (sc_update _ _ w) as [w' [u|er]]; [destruct H as (K & v & n & H1 & Hv & H2)|destruct H as [H K]].
  - split_and!; [|done|done]. right. by exists v, c, n.
  - split_and!; [by left|done|done].
Qed.

Lemma readModifyWrite_once attempts k clusterName e w :
  let w' := readModifyWrite attempts k (set_entry clusterName e) w in
  at_most_once k (set_entry clusterName e) (view w) (view w') ∧ ∀ c, known w c → known w' c.
Proof.
  pose proof sl_env as E. revert w; induction attempts as [|n IH]; intros w; cbn.
  { split; [by left|done]. }
  pose proof (sl_get k w) as G. destruct (sc_get k w) as [w1 [c|er]]; destruct G as [[G1 G2] G3]; [|split; [by left|done]].
  destruct G3 as [G3 G4]. destruct c as [t version].
  pose proof (update_once (t, version) clusterName e w1 G4) as U. cbn in U.
  rewrite (sl_key _ _ _ G3 : key_of t = k) in U.
  destruct (sc_update _ _ w1) as [w2 r]. destruct U as (U1 & U2 & U3).
  destruct r as [u|[| |msg]].
  1,2,4: split; [by eapply reads_once|auto].
  destruct (IH w2) as [I1 I2]. split; [|auto]. eapply reads_once; [|exact I1]. etrans; [done|]. by apply U2.
Qed.

Lemma readModifyWrite_advances attempts k clusterName e w :
  advances clusterName w (readModifyWrite attempts k (set_entry clusterName e) w).
Proof. destruct (readModifyWrite_once attempts k clusterName e w). split; [by eapply once_writes_only|done]. Qed.

Lemma modifyWrite_advances c clusterName e w : known w c →
  advances clusterName w (modifyWrite c (set_entry clusterName e) w).
Proof.
  intros Hc. pose proof (update_once c clusterName e w Hc) as U. unfold modifyWrite.
  destruct (sc_update _ _ w) as [w2 r]. destruct U as (U1 & U2 & U3).
  assert (advances clusterName w w2) by (split; [by eapply once_writes_only|done]).
  destruct r as [u|[| |msg]]; [done|done| |done].
  etrans; [done|]. apply readModifyWrite_advances.
Qed.

Lemma dropStaleEntries_advances namespace clusterName stale w :
  advances clusterName w (dropStaleEntries namespace clusterName stale w).
Proof.
  unfold dropStaleEntries. pose proof (sl_list namespace w) as G.
  destruct (sc_list namespace w) as [w1 [l|er]]; destruct G as [G1 G2]; [|by apply reads_advances].
  destruct (G2 _ eq_refl) as (_ & Hl & _).
  apply (foldl_inv _ (λ w', advances clusterName w w' ∧ ∀ c, c ∈ l → known w' c)).
  - split; [by apply reads_advances|done].
  - intros w2 c Hc [H1 H2]. assert (advances clusterName w2 (dropEntry clusterName stale w2 c)) as H.
    { unfold dropEntry. destruct (has_entry _ _); [|done]. destruct (stale _ _); [|done].
      apply modifyWrite_advances. auto. }
    split; [by etrans|]. intros d Hd. apply H. auto.
Qed.

(** What the goroutines of a cluster and its reconciliation do, in any order and among
    any moves of the other writers. *)
Inductive cluster_step `{J : JSONDecoder} (namespace clusterName : string) : W → W → Prop :=
| step_event event pod w :
    cluster_step namespace clusterName w (handleEvent event clusterName pod w)
| step_poll httpClient pollURL pod w :
    cluster_step namespace clusterName w (pollAndSync httpClient pollURL clusterName namespace pod w)
| step_reconcile r w :
    cluster_step namespace clusterName w
      (Reconcile {| NN_Namespace := namespace; NN_Name := clusterName |} r w).1.2
| step_read w w' : reads w w' → cluster_step namespace clusterName w w'.

Lemma poll_reads `{J : JSONDecoder} httpClient pollURL w : reads w (PollTargetState httpClient pollURL w).1.
Proof. unfold PollTargetState. pose proof (sl_do httpClient pollURL w) as H. by destruct (sc_do _ _ w). Qed.

Lemma pollAndSync_advances `{J : JSONDecoder} httpClient pollURL clusterName namespace pod w :
  advances clusterName w (pollAndSync httpClient pollURL clusterName namespace pod w).
Proof.
  unfold pollAndSync. pose proof (poll_reads httpClient pollURL w) as G.
  destruct (PollTargetState _ _ w) as [w1 [l|er]]; cbn in G; apply (reads_advances clusterName) in G; [|done].
  assert (∀ st, advances clusterName w st.2 →
    advances clusterName w (foldl (pollEntry clusterName pod) st l).2) as H.
  { induction l as [|e l IH]; intros [names w2] H; cbn; [done|]. apply IH. unfold pollEntry.
    destruct (PTE_State e); [|done]. destruct (parseTargetName _) as [[? ?]|]; [|done].
    etrans; [exact H|]. apply readModifyWrite_advances. }
  specialize (H (∅, w1) G). destruct (foldl _ _ l) as [names w2].
  etrans; [exact H|]. apply dropStaleEntries_advances.
Qed.

Lemma Reconcile_advances req r w : advances (NN_Name req) w (Reconcile req r w).1.2.
Proof.
  unfold Reconcile. pose proof (sl_getCluster req w) as [G K].
  destruct (sc_getCluster req w) as [w1 c]; cbn in G, K. apply (reads_advances (NN_Name req)) in G.
  destruct c as [c|[| |msg]]; cbn; try done.
  2: { etrans; [exact G|]. apply dropStaleEntries_advances. }
  assert (Name (Meta c) = NN_Name req) as -> by (by specialize (K _ eq_refl); subst req).
  case_decide; cbn; [etrans; [exact G|]; apply dropStaleEntries_advances|].
  match goal with |- context [sc_getStatefulSet ?k w1] => pose proof (sl_getStatefulSet k w1) as G2;
    destruct (sc_getStatefulSet k w1) as [w2 sts] end.
  apply (reads_advances (NN_Name req)) in G2. cbn in G2.
  destruct sts as [u|[| |msg]]; cbn; try (by etrans).
  etrans; [exact G|]. etrans; [exact G2|]. apply dropStaleEntries_advances.
Qed.

Lemma handleEvent_advances `{J : JSONDecoder} event clusterName pod w :
  advances clusterName w (handleEvent event clusterName pod w).
Proof.
  unfold handleEvent. destruct (parseTargetName _) as [[? ?]|]; [|done].
  destruct (decodeState _); [|done]. apply readModifyWrite_advances.
Qed.

Lemma cluster_step_advances `{J : JSONDecoder} namespace clusterName w w' :
  cluster_step namespace clusterName w w' → advances clusterName w w'.
Proof.
  intros [event pod w0|client url pod w0|r w0|w0 w1 H].
  - apply handleEvent_advances.
  - apply pollAndSync_advances.
  - apply (Reconcile_advances {| NN_Namespace := namespace; NN_Name := clusterName |}).
  - by apply reads_advances.
Qed.

(** A property of the content that the others and the updates of the entries keep. *)
Lemma writes_only_inv (P : gmap NamespacedName Copy → Prop) clusterName v v' :
  (∀ v v', env v v' → P v → P v') →
  (∀ v k c n e, P v → v !! k = Some c → P (<[k := (set_entry clusterName e c.1, n)]> v)) →
  writes_only clusterName v v' → P v → P v'.
Proof.
  intros He Hw H. induction H as [|v1 v2 v3 [H1|(k & c & n & e & Hk & ->)] _ IH]; intros HP; [done|..]; eauto.
Qed.
End Effects.

(** ** What the controller does when nothing interferes *)

(** The specification: the operations on the Targets themselves. *)
Section Specification.
Context `{R : GoRuntime}.

Definition drop_if (clusterName : string) (stale : Target → ClusterTargetState → bool) (t : Target) : Target :=
  match has_entry t clusterName with
  | Some cs => if stale t cs then set_entry clusterName None t else t
  | None => t
  end.

Definition drop_spec (namespace clusterName : string) (stale : Target → ClusterTargetState → bool)
    (m : gmap NamespacedName Target) : gmap NamespacedName Target :=
  (λ t, if decide (Namespace (Meta t) = namespace) then drop_if clusterName stale t else t) <$> m.

(** The entries of a poll that name a target and carry its state. *)
Definition reported (entries : list PollTargetEntry) : list (NamespacedName * TargetStateObject) :=
  omap (λ e, match PTE_State e, parseTargetName (PTE_Name e) with
             | Some o, Some (ns, name) => Some ({| NN_Namespace := ns; NN_Name := name |}, o)
             | _, _ => None end) entries.

Definition report_spec (clusterName pod : string) (m : gmap NamespacedName Target)
    (r : NamespacedName * TargetStateObject) : gmap NamespacedName Target :=
  alter (set_entry clusterName (Some (reported_state pod r.2))) r.1 m.

Definition poll_spec (clusterName namespace pod : string) (entries : list PollTargetEntry)
    (m : gmap NamespacedName Target) : gmap NamespacedName Target :=
  drop_spec namespace clusterName
    (λ t cs, bool_decide (CTS_Pod cs = pod) &&
             bool_decide (Name (Meta t) ∉ NN_Name <$> (reported entries).*1))
    (foldl (report_spec clusterName pod) m (reported entries)).
End Specification.

Section Refinement.
Context `{R : GoRuntime} {W : Type} `{C : StatusClient W} `{S : StatusStore W} `{L : !StatusLaws W}
  `{Q : !Settled W}.

Definition objects (w : W) : gmap NamespacedName Target := fst <$> view w.

(** One object changed, the others left as they are. *)
Definition changes (k : NamespacedName) (f : Target → Target) (w w' : W) : Prop :=
  settled w' ∧ (∀ j, j ≠ k → view w' !! j = view w !! j) ∧ objects w' = alter f k (objects w).

Lemma settled_read (w w' : W) : reads w w' → view w' = view w.
Proof. intros [H _]. symmetry. by apply st_env. Qed.

Lemma update_exact (c : Copy) clusterName e w :
  settled w → known w c → view w !! key_of c.1 = Some c →
  let '(w', r) := sc_update (set_entry clusterName e c.1) c.2 w in
  r = Ok tt ∧ changes (key_of c.1) (set_entry clusterName e) w w'.
Proof.
  intros Hw Hk Hc. pose proof (sl_update c (set_entry clusterName e c.1) w Hk eq_refl) as H.
  pose proof (st_update c (set_entry clusterName e c.1) w Hw) as [Q1 Q2].
  specialize (Q2 Hk eq_refl Hc). destruct (sc_update _ _ w) as [w' [[]|er]]; [|done]. cbn in Q1, Q2.
  destruct H as (_ & v & n & H1 & _ & H2). apply st_env in H1 as <-. apply st_env in H2. unfold changes.
  split_and!; [done..| |].
  - intros j Hj. rewrite <- H2. by apply lookup_insert_ne.
  - unfold objects. rewrite <- H2, fmap_insert. apply map_eq. intros j. cbn.
    destruct (decide (j = key_of c.1)) as [->|Hj].
    + by rewrite lookup_insert_eq, lookup_alter_eq, lookup_fmap, Hc.
    + by rewrite lookup_insert_ne, lookup_alter_ne.
Qed.

Lemma changes_read k f w w1 w' : reads w w1 → changes k f w1 w' → changes k f w w'.
Proof. intros H (H1 & H2 & H3). apply settled_read in H. unfold changes, objects in *. by rewrite H in *. Qed.

Lemma readModifyWrite_exact attempts k clusterName e w :
  settled w → changes k (set_entry clusterName e) w (readModifyWrite (Datatypes.S attempts) k (set_entry clusterName e) w).
Proof.
  intros Hw. cbn [readModifyWrite]. pose proof (sl_get k w) as G. pose proof (st_get k w Hw) as [Q1 Q2].
  destruct (sc_get k w) as [w1 [c|er]]; destruct G as [G1 G2]; cbn in Q1, Q2.
  - destruct G2 as [G2 G3]. eapply changes_read; [exact G1|]. pose proof (sl_key _ _ _ G2) as Hk.
    rewrite <- Hk in G2. pose proof (update_exact c clusterName e w1 Q1 G3 G2) as U.
    destruct c as [t v]. cbn in *. destruct (sc_update _ _ w1) as [w2 r]. destruct U as [-> U]. by rewrite <- Hk.
  - rewrite (Q2 _ eq_refl) in G2. eapply changes_read; [exact G1|].
    unfold changes, objects. split_and!; [done..|]. apply map_eq. intros j. destruct (decide (j = k)) as [->|Hj].
    + by rewrite lookup_alter_eq, lookup_fmap, G2.
    + by rewrite lookup_alter_ne.
Qed.

Lemma dropEntry_exact clusterName stale w c :
  settled w → known w c → view w !! key_of c.1 = Some c →
  changes (key_of c.1) (drop_if clusterName stale) w (dropEntry clusterName stale w c).
Proof.
  intros Hw Hk Hc. unfold dropEntry.
  assert (∀ w', (drop_if clusterName stale c.1 = c.1 ∧ w' = w) ∨
    (drop_if clusterName stale c.1 = set_entry clusterName None c.1 ∧
     changes (key_of c.1) (set_entry clusterName None) w w') →
    changes (key_of c.1) (drop_if clusterName stale) w w') as H.
  { intros w' [[Hd ->]|[Hd (H1 & H2 & H3)]]; unfold changes; (split_and!; [done..|]).
    - symmetry. apply map_eq. intros j. unfold objects. destruct (decide (j = key_of c.1)) as [->|Hj].
      + rewrite lookup_alter_eq, lookup_fmap, Hc. cbn. by rewrite Hd.
      + by rewrite lookup_alter_ne.
    - rewrite H3. apply alter_ext. unfold objects. rewrite lookup_fmap, Hc. intros t [= <-]. done. }
  apply H. unfold drop_if. destruct (has_entry _ _) as [cs|]; [|by left]. destruct (stale _ _); [|by left].
  right. split; [done|]. unfold modifyWrite. pose proof (update_exact c clusterName None w Hw Hk Hc) as U.
  destruct (sc_update _ _ w) as [w2 r]. by destruct U as [-> U].
Qed.

(** A loop over distinct current copies changes each of their objects once. *)
Lemma dropEntries_exact clusterName stale l w :
  settled w → NoDup l → (∀ c, c ∈ l → known w c ∧ view w !! key_of c.1 = Some c) →
  let w' := foldl (dropEntry clusterName stale) w l in
  settled w' ∧
  ∀ k, objects w' !! k = (if decide (k ∈ (key_of ∘ fst <$> l)) then drop_if clusterName stale <$> objects w !! k
                          else objects w !! k).
Proof.
  revert w; induction l as [|c l IH]; intros w Hw Hnd Hl; cbn [foldl]; [by split|].
  apply NoDup_cons in Hnd as [Hc Hnd]. destruct (Hl c ltac:(by left)) as [Hk Hv].
  pose proof (dropEntry_exact clusterName stale w c Hw Hk Hv) as (H1 & H2 & H3).
  assert (∀ d, d ∈ l → key_of d.1 ≠ key_of c.1) as Hne.
  { intros d Hd Heq. destruct (Hl d ltac:(by right)) as [_ Hd']. rewrite Heq, Hv in Hd'. by injection Hd' as ->. }
  edestruct (IH (dropEntry clusterName stale w c)) as [I1 I2]; [done|done| |].
  { intros d Hd. destruct (Hl d ltac:(by right)) as [Hkd Hvd]. split; [|by rewrite H2 by auto].
    assert (advances clusterName w (dropEntry clusterName stale w c)) as [_ K]; [|by apply K].
    unfold dropEntry. destruct (has_entry _ _); [|done]. destruct (stale _ _); [|done]. by apply modifyWrite_advances. }
  split; [done|]. intros k. rewrite I2, H3. cbn. destruct (decide (k = key_of c.1)) as [->|Hk'].
  - rewrite lookup_alter_eq, decide_False, decide_True; [done|by left|].
    rewrite list_elem_of_fmap. intros (d & Heq & Hd). by apply (Hne d Hd).
  - rewrite lookup_alter_ne by done. repeat case_decide; set_solver.
Qed.

Lemma dropStaleEntries_exact namespace clusterName stale w : settled w →
  let w' := dropStaleEntries namespace clusterName stale w in
  settled w' ∧ objects w' = drop_spec namespace clusterName stale (objects w).
Proof.
  intros Hw. cbn. unfold dropStaleEntries. pose proof (sl_list namespace w) as G.
  pose proof (st_list namespace w Hw) as [Q1 Q2].
  destruct (sc_list namespace w) as [w1 [l|er]]; destruct G as [G1 G2]; [|done]. cbn in Q1.
  destruct (G2 _ eq_refl) as (Hnd & Hkn & Hl). apply settled_read in G1.
  destruct (dropEntries_exact clusterName stale l w1 Q1 Hnd) as [D1 D2]; [naive_solver|].
  split; [done|]. apply map_eq. intros k. rewrite D2. unfold drop_spec, objects. rewrite !lookup_fmap, G1.
  destruct (view w !! k) as [c|] eqn:E; cbn; [|by case_decide].
  pose proof (sl_key _ _ _ E) as Hk.
  assert (k ∈ (key_of ∘ fst <$> l) ↔ Namespace (Meta c.1) = namespace) as Heq.
  { rewrite list_elem_of_fmap. split.
    - intros (d & -> & Hd). apply Hl in Hd as (Hd & Hns). rewrite G1 in Hd. cbn in *.
      rewrite Hd in E. by injection E as ->.
    - intros Hns. exists c. split; [by rewrite <- Hk|]. apply Hl. by rewrite G1, Hk. }
  repeat case_decide; tauto.
Qed.

Lemma foldl_report clusterName pod entries st :
  foldl (pollEntry clusterName pod) st entries =
  foldl (λ st r, ({[NN_Name r.1]} ∪ st.1,
                  readModifyWrite maxConflictRetries r.1 (set_entry clusterName (Some (reported_state pod r.2))) st.2))
    st (reported entries).
Proof.
  revert st; induction entries as [|e l IH]; intros [names w]; cbn; [done|]. rewrite IH.
  destruct (PTE_State e); [|done]. by destruct (parseTargetName _) as [[ns name]|].
Qed.

Lemma report_exact clusterName pod rs names w : settled w →
  let '(names', w') := foldl (λ (st : gset string * W) r, ({[NN_Name r.1]} ∪ st.1,
      readModifyWrite maxConflictRetries r.1 (set_entry clusterName (Some (reported_state pod r.2))) st.2))
    (names, w) rs in
  settled w' ∧ objects w' = foldl (report_spec clusterName pod) (objects w) rs ∧
  ∀ n, n ∈ names' ↔ n ∈ names ∨ n ∈ NN_Name <$> rs.*1.
Proof.
  revert names w; induction rs as [|r rs IH]; intros names w Hw; cbn; [set_solver|].
  destruct (readModifyWrite_exact 4 r.1 clusterName (Some (reported_state pod r.2)) w Hw) as (H1 & _ & H2).
  change 5%nat with maxConflictRetries in H1, H2.
  specialize (IH ({[NN_Name r.1]} ∪ names) _ H1). destruct (foldl _ _ rs) as [names' w'].
  destruct IH as (I1 & I2 & I3). split_and!; [done| |].
  - by rewrite I2, H2.
  - intros n. rewrite I3. set_solver.
Qed.

Lemma drop_spec_ext namespace clusterName stale stale' m :
  (∀ t cs, stale t cs = stale' t cs) →
  drop_spec namespace clusterName stale m = drop_spec namespace clusterName stale' m.
Proof. intros H. apply map_fmap_ext. intros k t _. unfold drop_if. by destruct (has_entry _ _); [rewrite H|]. Qed.

Lemma poll_settled `{J : JSONDecoder} httpClient pollURL w : settled w → settled (PollTargetState httpClient pollURL w).1.
Proof. intros H. unfold PollTargetState. pose proof (st_do httpClient pollURL w H) as G. by destruct (sc_do _ _ w). Qed.

Lemma pollAndSync_exact `{J : JSONDecoder} httpClient pollURL clusterName namespace pod w entries :
  settled w → (PollTargetState httpClient pollURL w).2 = Ok entries →
  let w' := pollAndSync httpClient pollURL clusterName namespace pod w in
  settled w' ∧ objects w' = poll_spec clusterName namespace pod entries (objects w).
Proof.
  intros Hw He. cbn. unfold pollAndSync. pose proof (poll_reads httpClient pollURL w) as G. pose proof (poll_settled httpClient pollURL w Hw) as Q1.
  destruct (PollTargetState _ _ w) as [w1 r]. cbn in *. subst r. apply settled_read in G.
  rewrite foldl_report. pose proof (report_exact clusterName pod (reported entries) ∅ w1 Q1) as H.
  destruct (foldl _ (∅, w1) _) as [names w2]. destruct H as (H1 & H2 & H3).
  destruct (dropStaleEntries_exact namespace clusterName
    (λ target cs, bool_decide (CTS_Pod cs = pod) && bool_decide (Name (Meta target) ∉ names)) w2 H1) as [D1 D2].
  split; [done|]. rewrite D2, H2. unfold poll_spec, objects. rewrite G. apply drop_spec_ext.
  intros t cs. f_equal. apply bool_decide_ext. rewrite H3. set_solver.
Qed.
End Refinement.

Section SpecificationFacts.
Context `{R : GoRuntime}.

Lemma has_set_entry clusterName e t : has_entry (set_entry clusterName e t) clusterName = e.
Proof. unfold has_entry. cbn. destruct e; [apply lookup_insert_eq | apply lookup_delete_eq]. Qed.

(** The last report of a target wins. *)
Definition last_report (rs : list (NamespacedName * TargetStateObject)) (k : NamespacedName)
    : option TargetStateObject := (list_to_map (reverse rs) : gmap _ _) !! k.
#[local] Arguments last_report : simpl never.

(** What a change of the cluster's entry is observed by. *)
Definition observed (clusterName : string) (t : Target) : ObjectMeta * option ClusterTargetState :=
  (Meta t, has_entry t clusterName).

Lemma report_fold_entry clusterName pod rs m k :
  observed clusterName <$> foldl (report_spec clusterName pod) m rs !! k =
  (λ t, (Meta t, match last_report rs k with
                 | Some o => Some (reported_state pod o)
                 | None => has_entry t clusterName end)) <$> m !! k.
Proof.
  unfold last_report. induction rs as [|r rs IH] using rev_ind; [done|].
  rewrite foldl_app, reverse_app. cbn. unfold report_spec at 1. destruct r as [j o]. cbn.
  destruct (decide (k = j)) as [->|Hk].
  - rewrite lookup_alter_eq, lookup_insert_eq, <- option_fmap_compose.
    destruct (foldl _ _ _ !! j) as [t'|], (m !! j) as [t|]; cbn in *; [|done..].
    unfold observed in *. cbn. rewrite has_set_entry. by injection IH as -> _.
  - rewrite lookup_alter_ne, lookup_insert_ne by done. apply IH.
Qed.

Lemma drop_spec_entry namespace clusterName stale m k t :
  m !! k = Some t →
  ∃ t', drop_spec namespace clusterName stale m !! k = Some t' ∧ Meta t' = Meta t ∧
    has_entry t' clusterName =
      match has_entry t clusterName with
      | Some cs => if bool_decide (Namespace (Meta t) = namespace) && stale t cs then None else Some cs
      | None => None
      end.
Proof.
  intros Hm. unfold drop_spec. rewrite lookup_fmap, Hm. eexists. split; [done|].
  case_decide as Hns; [rewrite bool_decide_true by done|rewrite bool_decide_false by done]; cbn.
  - unfold drop_if. destruct (has_entry t clusterName) as [cs|] eqn:E; [|done].
    destruct (stale t cs); [|done]. by rewrite has_set_entry.
  - by destruct (has_entry t clusterName).
Qed.

Lemma poll_spec_entry clusterName namespace pod entries m k t :
  m !! k = Some t → key_of t = k →
  ∃ t', poll_spec clusterName namespace pod entries m !! k = Some t' ∧
    has_entry t' clusterName =
      match last_report (reported entries) k, has_entry t clusterName with
      | Some o, _ => Some (reported_state pod o)
      | None, Some cs =>
          if bool_decide (NN_Namespace k = namespace) &&
             (bool_decide (CTS_Pod cs = pod) && bool_decide (NN_Name k ∉ NN_Name <$> (reported entries).*1))
          then None else Some cs
      | None, None => None
      end.
Proof.
  intros Hm Hk. pose proof (report_fold_entry clusterName pod (reported entries) m k) as H.
  rewrite Hm in H. destruct (foldl _ _ _ !! k) as [t1|] eqn:E1; [|done]. cbn in H.
  injection H as Hmeta Hent. destruct (drop_spec_entry namespace clusterName
    (λ t cs, bool_decide (CTS_Pod cs = pod) && bool_decide (Name (Meta t) ∉ NN_Name <$> (reported entries).*1))
    _ _ _ E1) as (t' & Ht' & _ & He). exists t'. split; [done|]. rewrite He, Hent, Hmeta. subst k. cbn.
  destruct (last_report _ _) as [o|] eqn:El; [|done]. cbn.
  rewrite (bool_decide_false (_ ∉ _)); [by rewrite !andb_false_r|]. intros Hn. apply Hn.
  unfold last_report in El. apply elem_of_list_to_map_2 in El.
  rewrite elem_of_reverse in El.
  apply list_elem_of_fmap. exists (key_of t). split; [done|].
  apply list_elem_of_fmap. by exists (key_of t, o).
Qed.
End SpecificationFacts.

(** The summary a status must have. *)
Definition summary_ok (s : TargetStatus) : Prop :=
  TS_Clusters s = to_int32 (Z.of_nat (size (TS_ClusterStates s))) ∧
  if decide (TS_Clusters s = 0) then TS_State s = ""
  else (TS_State s = "READY" ∧
        map_Forall (λ _ e, CTS_State e = "running" ∧ CTS_ConnectionState e = "READY") (TS_ClusterStates s)) ∨
       (TS_State s = "DEGRADED" ∧
        ∃ cl e, TS_ClusterStates s !! cl = Some e ∧
                (CTS_State e ≠ "running" ∨ CTS_ConnectionState e ≠ "READY")).

Section Summaries.
Context `{R : GoRuntime}.

Lemma healthy_spec e : healthy e = true ↔ CTS_State e = "running" ∧ CTS_ConnectionState e = "READY".
Proof.
  unfold healthy. rewrite negb_true_iff, bool_decide_eq_false.
  destruct (decide (CTS_State e = "running")), (decide (CTS_ConnectionState e = "READY")); tauto.
Qed.

Lemma computeStatusSummary_ok s : summary_ok (computeStatusSummary s).
Proof.
  unfold summary_ok, computeStatusSummary. cbn. split; [done|]. case_decide; [done|].
  destruct (forallb healthy _) eqn:E; [left|right]; (split; [done|]).
  - rewrite forallb_forall in E. intros cl e He. apply healthy_spec, E, list_elem_of_In.
    apply list_elem_of_fmap. exists (cl, e). by rewrite elem_of_go_range.
  - apply forallb_false in E as (e & He & Hbad). apply list_elem_of_fmap in He as ([cl e'] & -> & He).
    apply elem_of_go_range in He. exists cl, e'. split; [done|]. cbn in Hbad.
    apply not_true_iff_false in Hbad. rewrite healthy_spec in Hbad.
    destruct (decide (CTS_State e' = "running")); tauto.
Qed.
End Summaries.

(** What a status update may not change: the object's metadata and specification, and
    the other clusters' entries. *)
Definition beside (clusterName : string) (c : Copy) : ObjectMeta * TargetSpec * option ClusterTargetState :=
  (Meta c.1, Spec c.1, has_entry c.1 clusterName).

Lemma set_entry_beside `{R : GoRuntime} clusterName other e t n n' :
  other ≠ clusterName → beside other (set_entry clusterName e t, n) = beside other (t, n').
Proof.
  intros H. unfold beside, has_entry. cbn. f_equal. destruct e; by rewrite ?lookup_insert_ne, ?lookup_delete_ne.
Qed.

Section Properties.
Context `{R : GoRuntime} {W : Type} `{C : StatusClient W} `{S : StatusStore W} `{L : !StatusLaws W}
  `{J : JSONDecoder}.

(** C33: an event is one atomic change: whatever the other writers do and however often
    the update conflicts, either nothing is written or exactly one update lands, and it
    is the event's change of the cluster's entry (with the summary recomputed) applied
    to the object as it is stored at that moment; an event whose name or object does not
    parse changes nothing. *)
Theorem handleEvent_atomic event clusterName pod w :
  let w' := handleEvent event clusterName pod w in
  match parseTargetName (SSE_Name (Data event)), decodeState (SSE_Object (Data event)) with
  | Some (ns, name), Some o =>
      at_most_once {| NN_Namespace := ns; NN_Name := name |}
        (set_entry clusterName (if bool_decide (EventType event = SSEEventDelete) then None
                                else Some (reported_state pod o)))
        (view w) (view w')
  | _, _ => w' = w
  end.
Proof.
  unfold handleEvent. destruct (parseTargetName _) as [[ns name]|]; [|done].
  destruct (decodeState _) as [o|]; [|done]. apply readModifyWrite_once.
Qed.

(** C34: in every interleaving of the streams and reconciliations of all clusters, among
    any moves of other writers that respect it, the summary of every Target is the
    summary of its entries: their number, and READY exactly when every cluster reports
    the target running and its connection ready. *)
Theorem summaries_preserved w w' :
  (∀ v v', env v v' → map_Forall (λ _ c, summary_ok (Status c.1)) v → map_Forall (λ _ c, summary_ok (Status c.1)) v') →
  rtc (λ w w', ∃ namespace clusterName, cluster_step namespace clusterName w w') w w' →
  map_Forall (λ _ c, summary_ok (Status c.1)) (view w) →
  map_Forall (λ _ c, summary_ok (Status c.1)) (view w').
Proof.
  intros He H. induction H as [|w1 w2 w3 (ns & cl & H1) _ IH]; [done|]. intros Hw. apply IH.
  destruct (cluster_step_advances _ _ _ _ H1) as [H2 _]. revert H2 Hw. apply writes_only_inv; [done|].
  intros v k c n e Hv Hk. apply map_Forall_insert_2; [|done]. apply computeStatusSummary_ok.
Qed.

(** C37: No interleaving of the streams and reconciliations of clusters of other names, in
    whatever namespaces, changes the entry kept under a cluster's name in any Target, nor
    the metadata or the specification of a Target, and none creates or deletes a Target.
    (Entries are kept under the name alone, so this says nothing of a cluster of the same
    name in another namespace: [same_name_shares_entry].) *)
Theorem other_clusters_untouched clusterName w w' :
  (∀ v v', env v v' → beside clusterName <$> v = beside clusterName <$> v') →
  rtc (λ w w', ∃ namespace other, other ≠ clusterName ∧ cluster_step namespace other w w') w w' →
  beside clusterName <$> view w = beside clusterName <$> view w'.
Proof.
  intros He H. induction H as [|w1 w2 w3 (ns & cl & Hcl & H1) _ IH]; [done|]. rewrite <- IH. clear IH.
  destruct (cluster_step_advances _ _ _ _ H1) as [H2 _].
  eapply (writes_only_inv (λ v, beside clusterName <$> view w1 = beside clusterName <$> v)); [..|exact H2|done].
  - intros v v' Hv ->. by apply He.
  - intros v k c n e -> Hk. rewrite fmap_insert, (set_entry_beside _ _ _ _ _ c.2) by done.
    symmetry. apply insert_id. destruct c. by rewrite lookup_fmap, Hk.
Qed.
End Properties.

Section SettledProperties.
Context `{R : GoRuntime} {W : Type} `{C : StatusClient W} `{S : StatusStore W} `{L : !StatusLaws W}
  `{Q : !Settled W}.

(** when nothing interferes, a poll brings the entries of the pod's cluster in step
    with the pod: a reported target has exactly the state of its last report, an entry
    of this pod in the cluster's namespace is dropped when no target of that name is
    reported, and every other entry, those of the other pods included, is kept. *)
Theorem poll_entries_exact `{J : JSONDecoder} httpClient pollURL clusterName namespace pod w entries k t :
  settled w → (PollTargetState httpClient pollURL w).2 = Ok entries → objects w !! k = Some t →
  ∃ t', objects (pollAndSync httpClient pollURL clusterName namespace pod w) !! k = Some t' ∧
    has_entry t' clusterName =
      match last_report (reported entries) k, has_entry t clusterName with
      | Some o, _ => Some (reported_state pod o)
      | None, Some cs =>
          if bool_decide (NN_Namespace k = namespace) &&
             (bool_decide (CTS_Pod cs = pod) && bool_decide (NN_Name k ∉ NN_Name <$> (reported entries).*1))
          then None else Some cs
      | None, None => None
      end.
Proof.
  intros Hw He Ht. destruct (pollAndSync_exact httpClient pollURL clusterName namespace pod w entries Hw He) as [_ ->].
  apply poll_spec_entry; [done|]. unfold objects in Ht. rewrite lookup_fmap in Ht.
  destruct (view w !! k) as [c|] eqn:E; [|done]. injection Ht as <-. by apply sl_key in E.
Qed.

(** when nothing interferes, a reconciliation that succeeds leaves no Target of the
    namespace with an entry of the cluster other than of one of the pods the cluster has
    now: none at all when the cluster is gone or scaled to zero, none of a pod beyond the
    replicas after a scale-down. *)
Theorem reconcile_drops_stale_pods req r w k t cs :
  settled w → (Reconcile req r w).2 = Ok 0 →
  objects (Reconcile req r w).1.2 !! k = Some t →
  NN_Namespace k = NN_Namespace req → has_entry t (NN_Name req) = Some cs →
  ∃ cluster i, (sc_getCluster req w).2 = Ok cluster ∧
    0 ≤ i < default 0 (CS_Replicas (Spec cluster)) ∧
    CTS_Pod cs = podName (resourcePrefix +:+ NN_Name req) i.
Proof.
  intros Hw. assert (∀ stale w1, settled w1 →
    objects (dropStaleEntries (NN_Namespace req) (NN_Name req) stale w1) !! k = Some t →
    NN_Namespace k = NN_Namespace req → has_entry t (NN_Name req) = Some cs →
    ∃ t1, stale t1 cs = false) as Hdrop.
  { intros stale w1 Hw1 Ht Hns Hcs.
    destruct (dropStaleEntries_exact (NN_Namespace req) (NN_Name req) stale w1 Hw1) as [_ Hd].
    rewrite Hd in Ht. destruct (objects w1 !! k) as [t1|] eqn:E1;
      [|by unfold drop_spec in Ht; rewrite lookup_fmap, E1 in Ht].
    destruct (drop_spec_entry (NN_Namespace req) (NN_Name req) stale _ _ _ E1) as (t' & Ht' & _ & He).
    rewrite Ht' in Ht. injection Ht as ->. rewrite Hcs in He.
    assert (Namespace (Meta t1) = NN_Namespace req) as Hns1.
    { unfold objects in E1. rewrite lookup_fmap in E1. destruct (view w1 !! k) as [c|] eqn:E; [|done].
      injection E1 as <-. apply sl_key in E. by subst k. }
    rewrite bool_decide_true in He by done. cbn in He.
    destruct (has_entry t1 _) as [cs1|]; [|done]. destruct (stale t1 cs1) eqn:Es; [done|].
    injection He as <-. by exists t1. }
  unfold Reconcile. pose proof (sl_getCluster req w) as [_ K]. pose proof (st_getCluster req w Hw) as Q1.
  destruct (sc_getCluster req w) as [w1 c]; cbn in K, Q1.
  destruct c as [c|[| |msg]]; cbn; [|intros _ Ht Hns Hcs; by destruct (Hdrop _ _ Q1 Ht Hns Hcs)|done..].
  specialize (K _ eq_refl). replace (Namespace (Meta c)) with (NN_Namespace req) by by rewrite <- K.
  replace (Name (Meta c)) with (NN_Name req) by by rewrite <- K.
  case_decide as Hrep; cbn; [intros _ Ht Hns Hcs; by destruct (Hdrop _ _ Q1 Ht Hns Hcs)|].
  match goal with |- context [sc_getStatefulSet ?k w1] => pose proof (st_getStatefulSet k w1 Q1) as Q2;
    destruct (sc_getStatefulSet k w1) as [w2 sts] end. cbn in Q2.
  destruct sts as [u|[| |msg]]; cbn; [|done..]. intros _ Ht Hns Hcs.
  destruct (Hdrop _ _ Q2 Ht Hns Hcs) as [t1 Hv]. apply bool_decide_eq_false, dec_stable in Hv.
  apply list_elem_of_fmap in Hv as (i & Hpod & Hi). apply elem_of_seqZ in Hi.
  exists c, i. split_and!; [done|lia|lia|done].
Qed.
End SettledProperties.

(** ** Streams *)

(** Every stream in the map has a goroutine of its own that is not cancelled, and every
    goroutine that is not cancelled is the one of some entry. *)
Definition streams_ok (r : TargetStateReconciler) : Prop :=
  (∀ k k' id, streams r !! k = Some id → streams r !! k' = Some id → k = k') ∧
  (∀ id, id ∈ running r ↔ ∃ k, streams r !! k = Some id) ∧
  (∀ k id, streams r !! k = Some id → (id < nextStream r)%nat).

(** The names Kubernetes accepts have no slash. *)
Definition valid_name (s : string) : bool := no_byte "/"%char s.

Lemma slash_inj a b a' b' :
  valid_name a → valid_name a' → a +:+ String "/" b = a' +:+ String "/" b' → a = a' ∧ b = b'.
Proof.
  intros Ha Ha' Heq. apply (f_equal (cut_first "/"%char)) in Heq.
  rewrite !cut_first_app in Heq by by apply Is_true_true. by injection Heq.
Qed.

Lemma streamKey_inj ns name i j : streamKey ns name i = streamKey ns name j → i = j.
Proof.
  unfold streamKey. intros H. do 4 apply app_str_inj_l in H. by apply (inj pretty) in H as ->.
Qed.

Lemma streamKey_prefix ns name ns' name' i :
  valid_name ns → valid_name name → valid_name ns' → valid_name name' →
  HasPrefix (streamKey ns' name' i) (ns +:+ "/" +:+ name +:+ "/") = bool_decide (ns' = ns ∧ name' = name).
Proof.
  intros Hn Hc Hn' Hc'. apply eq_true_iff_eq. rewrite HasPrefix_spec, bool_decide_eq_true. split.
  - unfold streamKey. intros [r H]. rewrite <- !app_str_assoc in H.
    apply slash_inj in H as [-> H]; [|done..]. by apply slash_inj in H as [-> _].
  - intros [-> ->]. exists (Itoa i). unfold streamKey. by rewrite !app_str_assoc.
Qed.

Section Streams.
Context `{R : GoRuntime}.

Lemma stopStreams_spec ns name r :
  streams_ok r →
  streams_ok (stopStreamsForCluster ns name r) ∧
  nextStream (stopStreamsForCluster ns name r) = nextStream r ∧
  ∀ k, streams (stopStreamsForCluster ns name r) !! k =
       if HasPrefix k (ns +:+ "/" +:+ name +:+ "/") then None else streams r !! k.
Proof.
  intros Hr. unfold stopStreamsForCluster. set (p := ns +:+ _). set (f := λ _ _, _).
  assert (∀ l r1, NoDup l.*1 → (∀ e, e ∈ l → streams r1 !! e.1 = Some e.2) → streams_ok r1 →
    streams_ok (foldl f r1 l) ∧ nextStream (foldl f r1 l) = nextStream r1 ∧
    ∀ k, streams (foldl f r1 l) !! k = if HasPrefix k p && bool_decide (k ∈ l.*1) then None else streams r1 !! k) as H.
  { induction l as [|[k id] l IH]; intros r1 Hnd Hl Hok.
    { split_and!; [done|done|]. intros k. cbn. by rewrite andb_false_r. }
    cbn in Hnd. apply NoDup_cons in Hnd as [Hk Hnd]. pose proof (Hl (k, id) ltac:(by left)) as Hid. cbn in Hid.
    cbn [foldl]. edestruct (IH (f r1 (k, id)) Hnd) as (I1 & I2 & I3).
    - intros e He. unfold f. cbn. destruct (HasPrefix k p); [|by apply Hl; right]. cbn.
      rewrite lookup_delete_ne; [by apply Hl; right|]. intros ->. apply Hk, list_elem_of_fmap. by exists e.
    - unfold f. cbn. destruct (HasPrefix k p); [|done]. destruct Hok as (O1 & O2 & O3). split_and!; cbn.
      + intros k1 k2 id' [_ H1]%lookup_delete_Some [_ H2]%lookup_delete_Some. by eapply O1.
      + intros id'. rewrite elem_of_difference, O2, elem_of_singleton. split.
        * intros [[k' Hk'] Hne]. exists k'. rewrite lookup_delete_ne; [done|]. congruence.
        * intros [k' [Hne Hk']%lookup_delete_Some]. split; [eauto|]. intros ->. by apply Hne, (O1 k k' id).
      + intros k' id' [_ H']%lookup_delete_Some. by eapply O3.
    - split_and!; [done| |].
      + rewrite I2. unfold f. cbn. by destruct (HasPrefix k p).
      + intros k'. rewrite I3. unfold f. cbn. destruct (decide (k' = k)) as [->|Hne].
        * rewrite (bool_decide_true (k ∈ k :: _)) by by left. rewrite andb_true_r.
          destruct (HasPrefix k p); cbn; [|done]. rewrite lookup_delete_eq. by case_match.
        * rewrite (bool_decide_ext (k' ∈ k :: l.*1) (k' ∈ l.*1)) by set_solver.
          destruct (HasPrefix k p); cbn; [|done]. by rewrite lookup_delete_ne. }
  destruct (H (go_range (streams r)) r) as (H1 & H2 & H3); [apply NoDup_fst_go_range| |done|].
  { intros [k id] He. by apply elem_of_go_range in He. }
  split_and!; [done|done|]. intros k. rewrite H3. destruct (HasPrefix k p); cbn; [|done].
  case_bool_decide as Hin; [done|]. rewrite elem_of_go_range_keys in Hin. by apply eq_None_not_Some.
Qed.

Lemma startStream_ok ns name r i :
  streams_ok r → streams r !! streamKey ns name i = None → streams_ok (startStream ns name r i).
Proof.
  intros (O1 & O2 & O3) Hnone. split_and!; cbn.
  - intros k k' id [[<- <-]|[_ H]]%lookup_insert_Some [[<- E]|[_ H']]%lookup_insert_Some; try done.
    + apply O3 in H'. lia.
    + subst id. apply O3 in H. lia.
    + by eapply O1.
  - intros id. rewrite elem_of_union, elem_of_singleton, O2. split.
    + intros [->|[k Hk]]; [exists (streamKey ns name i); apply lookup_insert_eq|].
      exists k. rewrite lookup_insert_ne; [done|]. intros <-. by rewrite Hnone in Hk.
    + intros [k [[_ <-]|[_ Hk]]%lookup_insert_Some]; eauto.
  - intros k id [[_ <-]|[_ H]]%lookup_insert_Some; [lia|]. apply O3 in H. lia.
Qed.

Lemma startStreams_spec ns name l r :
  streams_ok r → NoDup l → (∀ i, i ∈ l → streams r !! streamKey ns name i = None) →
  let r' := foldl (startStream ns name) r l in
  streams_ok r' ∧
  (∀ i, i ∈ l → ∃ id, streams r' !! streamKey ns name i = Some id ∧ (nextStream r ≤ id)%nat) ∧
  (∀ k, (∀ i, i ∈ l → k ≠ streamKey ns name i) → streams r' !! k = streams r !! k).
Proof.
  revert r; induction l as [|i l IH]; intros r Hok Hnd Hl; cbn [foldl].
  { split_and!; [done|set_solver|done]. }
  apply NoDup_cons in Hnd as [Hi Hnd].
  destruct (IH (startStream ns name r i)) as (I1 & I2 & I3); [|done| |].
  - apply startStream_ok; [done|]. apply Hl. by left.
  - intros j Hj. cbn. rewrite lookup_insert_ne; [by apply Hl; right|].
    intros H%streamKey_inj. by subst j.
  - split_and!; [done| |].
    + intros j [->|Hj]%elem_of_cons.
      * rewrite I3; [exists (nextStream r); split; [apply lookup_insert_eq|lia]|].
        intros j Hj H%streamKey_inj. by subst j.
      * destruct (I2 j Hj) as (id & Hid & Hle). exists id. split; [done|]. cbn in Hle. lia.
    + intros k Hk. rewrite I3 by (intros j Hj; apply Hk; by right). cbn. rewrite lookup_insert_ne; [done|].
      intros <-. by apply (Hk i); [left|].
Qed.

(** What a reconciliation leaves of the streams: those of the cluster [n] replicas
    long (or as they were), those of the other clusters as they were. *)
Definition streams_exactly (ns name : string) (n : Z) (r r' : TargetStateReconciler) : Prop :=
  streams_ok r' ∧
  ∀ ns' name' i, valid_name ns' → valid_name name' →
    if bool_decide (ns' = ns ∧ name' = name)
    then if decide (0 ≤ i < n)
         then ∃ id, streams r' !! streamKey ns' name' i = Some id ∧ (nextStream r ≤ id)%nat
         else streams r' !! streamKey ns' name' i = None
    else streams r' !! streamKey ns' name' i = streams r !! streamKey ns' name' i.

Lemma restart_exact ns name n r :
  valid_name ns → valid_name name → streams_ok r →
  streams_exactly ns name n r (foldl (startStream ns name) (stopStreamsForCluster ns name r) (seqZ 0 n)).
Proof.
  intros Hns Hname Hok. destruct (stopStreams_spec ns name r Hok) as (S1 & S2 & S3).
  destruct (startStreams_spec ns name (seqZ 0 n) (stopStreamsForCluster ns name r)) as (T1 & T2 & T3);
    [done|apply NoDup_seqZ| |].
  { intros i _. by rewrite S3, streamKey_prefix, bool_decide_true. }
  split; [done|]. intros ns' name' i Hns' Hname'. case_bool_decide as Heq.
  - destruct Heq as [-> ->]. case_decide as Hi.
    + rewrite <- S2. apply T2, elem_of_seqZ. lia.
    + rewrite T3; [by rewrite S3, streamKey_prefix, bool_decide_true|].
      intros j Hj H%streamKey_inj. apply elem_of_seqZ in Hj. lia.
  - rewrite T3; [by rewrite S3, streamKey_prefix, bool_decide_false|].
    intros j _ H. apply Heq, (bool_decide_eq_true _). rewrite <- (streamKey_prefix ns name ns' name' i) by done.
    by rewrite H, streamKey_prefix, bool_decide_true.
Qed.
End Streams.

Section StreamProperties.
Context `{R : GoRuntime} {W : Type} `{C : StatusClient W} `{S : StatusStore W} `{L : !StatusLaws W}.

(** C38: What a reconciliation leaves of the streams.  Of a cluster that is gone or scaled
    to zero no stream is left; of one whose StatefulSet is not there none either, and the
    reconciliation is repeated after five seconds; of one that has its StatefulSet there is
    exactly one stream for each replica, every one started by this reconciliation.  An
    error in reading the cluster or the StatefulSet is returned and leaves the streams as
    they are.  The streams of the other clusters are never touched, and the streams not
    cancelled are those of the map.  (A stream is cancelled, not awaited: its goroutine may
    move on for a while, and its reader for good, see [stopped_reader_leaks].) *)
Theorem Reconcile_streams req r w :
  valid_name (NN_Namespace req) → valid_name (NN_Name req) → streams_ok r →
  let '(r', _, res) := Reconcile req r w in
  let exactly n := streams_exactly (NN_Namespace req) (NN_Name req) n r r' in
  let '(w1, found) := sc_getCluster req w in
  (found = Err ErrNotFound → exactly 0 ∧ res = Ok 0) ∧
  (∀ e, found = Err e → e ≠ ErrNotFound → r' = r ∧ res = Err e) ∧
  ∀ cluster, found = Ok cluster →
    let n := default 0 (CS_Replicas (Spec cluster)) in
    let sts := (sc_getStatefulSet {| NN_Namespace := NN_Namespace req; NN_Name := resourcePrefix +:+ NN_Name req |} w1).2 in
    (n = 0 → exactly 0 ∧ res = Ok 0) ∧
    (n ≠ 0 → sts = Err ErrNotFound → exactly 0 ∧ res = Ok 5) ∧
    (∀ e, n ≠ 0 → sts = Err e → e ≠ ErrNotFound → r' = r ∧ res = Err e) ∧
    (n ≠ 0 → is_ok sts = true → exactly n ∧ res = Ok 0).
Proof.
  intros Hns Hname Hok. unfold Reconcile. pose proof (sl_getCluster req w) as [_ K].
  pose proof (restart_exact (NN_Namespace req) (NN_Name req) 0 r Hns Hname Hok) as H0. cbn in H0.
  destruct (sc_getCluster req w) as [w1 [c|e]]; cbn in K.
  2: { destruct e as [| |msg]; cbn; (split; [|split; [|done]]); try done; by intros ? [= <-]. }
  specialize (K _ eq_refl). replace (Namespace (Meta c)) with (NN_Namespace req) by by rewrite <- K.
  replace (Name (Meta c)) with (NN_Name req) by by rewrite <- K.
  case_decide as Hrep; cbn.
  { split; [done|]. split; [done|]. intros cluster [= <-]. by rewrite Hrep. }
  destruct (sc_getStatefulSet _ w1) as [w2 [u|e]]; cbn.
  - split; [done|]. split; [done|]. intros cluster [= <-]. split; [done|]. split; [done|]. split; [done|].
    intros _ _. split; [by apply restart_exact|done].
  - destruct e as [| |msg]; cbn; (split; [done|]); (split; [done|]); intros cluster [= <-]; (split_and!; try done);
      by intros ? _ [= <-].
Qed.
End StreamProperties.

(** ** Witnesses *)

Definition demo_object : TargetStateObject := {|
  TSO_IntendedState := "enabled"; TSO_State := "running"; TSO_FailedReason := ""; TSO_LastUpdated := 7;
  TSO_ConnectionState := "READY"; TSO_Subscriptions := ∅ |}.

#[local] Instance demo_json : JSONDecoder := {
  decodeEvent s := None;
  decodeState s := Some {| TSO_IntendedState := "enabled"; TSO_State := "running"; TSO_FailedReason := ""; TSO_LastUpdated := 7;
                           TSO_ConnectionState := s; TSO_Subscriptions := ∅ |};
  decodePoll s := Some [{| PTE_Name := "ns/t1"; PTE_State := Some demo_object |}]
}.

Definition plain : HttpClient := {| HC_Timeout := 0; HC_TLS := None |}.

Definition t1_key : NamespacedName := {| NN_Namespace := "ns"; NN_Name := "t1" |}.
Definition c1_key : NamespacedName := {| NN_Namespace := "ns"; NN_Name := "c1" |}.

(** A target that pod 2 of the cluster [c1] collects, after [conflicts] conflicts; the
    cluster has two replicas now. *)
Definition t1 : Target := set_entry "c1" (Some (reported_state "gnmic-c1-2" demo_object))
  (MkResource {| Name := "t1"; Namespace := "ns"; Labels := ∅; Annotations := ∅; Finalizers := []; DeletionTimestamp := 0; Generation := 1 |}
     {| Target_Address := "10.0.0.1:57400"; Target_Profile := "p" |}
     {| TS_Clusters := 0; TS_State := ""; TS_ClusterStates := ∅ |}).

Definition c1 : Cluster := MkResource
  {| Name := "c1"; Namespace := "ns"; Labels := ∅; Annotations := ∅; Finalizers := []; DeletionTimestamp := 0; Generation := 1 |}
  {| CS_Image := "gnmic"; CS_Replicas := Some 2; CS_API := None; CS_ClientTLS := None;
     CS_GRPCTunnel := None; CS_Resources := {| Requests := ∅; Limits := ∅ |}; CS_Env := []; CS_TargetDistribution := None |}
  {| CSt_Conditions := []; CSt_ReadyReplicas := 0; CSt_Selector := ""; CSt_PipelinesCount := 0;
     CSt_TargetsCount := 0; CSt_UnassignedTargets := 0; CSt_SubscriptionsCount := 0;
     CSt_InputsCount := 0; CSt_OutputsCount := 0 |}.

Definition status_world (conflicts : nat) : StatusWorld := {|
  sw_targets := {[ t1_key := (t1, 0%nat) ]}; sw_next := 1; sw_conflicts := conflicts;
  sw_poll := "[]";
  sw_clusters := {[ c1_key := c1 ]};
  sw_sets := [{| NN_Namespace := "ns"; NN_Name := "gnmic-c1" |}] |}.

Definition state_event (ty : string) : SSEEvent := {|
  EventType := ty;
  Data := {| SSE_Timestamp := 0; SSE_Store := "state"; SSE_Kind := "targets"; SSE_Name := "ns/t1"; SSE_EventType := ty;
              SSE_Object := "READY" |} |}.

(** No stream runs but the one pod 2 had. *)
Definition demo_streams : TargetStateReconciler :=
  startStream "ns" "c1" {| streams := ∅; nextStream := 0; running := ∅ |} 2.

(** The entry of [c1] in the target's status. *)
Definition entry_pod (w : StatusWorld) : option string :=
  t ← objects w !! t1_key; CTS_Pod <$> has_entry t "c1".

(** After two conflicts the third attempt lands. *)
Lemma handleEvent_atomic_witness :
  at_most_once t1_key (set_entry "c1" (Some (reported_state "gnmic-c1-0" demo_object)))
    (view (status_world 2)) (view (handleEvent (state_event "update") "c1" "gnmic-c1-0" (status_world 2))) ∧
  entry_pod (handleEvent (state_event "update") "c1" "gnmic-c1-0" (status_world 2)) = Some "gnmic-c1-0".
Proof.
  split; [|vm_compute; reflexivity].
  exact (handleEvent_atomic (state_event "update") "c1" "gnmic-c1-0" (status_world 2)).
Defined.

Lemma summaries_preserved_witness :
  map_Forall (λ _ c, summary_ok (Status c.1))
    (view (handleEvent (state_event "delete") "c1" "gnmic-c1-2" (status_world 0))).
Proof.
  apply (summaries_preserved (status_world 0)).
  - by intros v v' <-.
  - apply rtc_once. exists "ns", "c1". apply step_event.
  - intros k c H. apply sw_view_spec in H as [H _]. cbn in H. apply lookup_singleton_Some in H as [_ <-].
    apply computeStatusSummary_ok.
Defined.

Lemma other_clusters_untouched_witness :
  beside "c1" <$> view (status_world 1) =
  beside "c1" <$> view (handleEvent (state_event "update") "c2" "gnmic-c2-0" (status_world 1)).
Proof.
  apply (other_clusters_untouched "c1").
  - by intros v v' <-.
  - apply rtc_once. exists "ns", "c2". split; [done|]. apply step_event.
Defined.

Lemma poll_entries_exact_witness :
  ∃ t', objects (pollAndSync plain "http://pod" "c1" "ns" "gnmic-c1-0" (status_world 0)) !! t1_key = Some t' ∧
    has_entry t' "c1" = Some (reported_state "gnmic-c1-0" demo_object).
Proof.
  apply (poll_entries_exact plain "http://pod" "c1" "ns" "gnmic-c1-0" (status_world 0)
    [{| PTE_Name := "ns/t1"; PTE_State := Some demo_object |}] t1_key t1); vm_compute; reflexivity.
Defined.

(** With three replicas the entry of pod 2 would stay; with two it is gone. *)
Lemma reconcile_drops_stale_pods_witness :
  objects (Reconcile c1_key demo_streams (status_world 0)).1.2 !! t1_key ≠ Some t1.
Proof.
  intros H. destruct (reconcile_drops_stale_pods c1_key demo_streams (status_world 0) t1_key t1
    (reported_state "gnmic-c1-2" demo_object)) as (cluster & i & Hc & Hi & Hp).
  - reflexivity.
  - vm_compute; reflexivity.
  - exact H.
  - reflexivity.
  - vm_compute; reflexivity.
  - assert (cluster = c1) as -> by (vm_compute in Hc; by injection Hc as <-).
    assert (i = 0 ∨ i = 1) as [-> | ->] by (cbn in Hi; lia); vm_compute in Hp; discriminate.
Defined.

(** A cluster without a StatefulSet: the stream is cancelled, and the reconciliation is
    repeated. *)
Definition no_sets : StatusWorld := {|
  sw_targets := sw_targets (status_world 0); sw_next := 1; sw_conflicts := 0; sw_poll := "[]";
  sw_clusters := sw_clusters (status_world 0); sw_sets := [] |}.

Lemma demo_streams_ok : streams_ok demo_streams.
Proof. apply startStream_ok; [|done]. split_and!; cbn; [done|set_solver|done]. Qed.

Lemma Reconcile_streams_witness :
  (streams_exactly "ns" "c1" 2 demo_streams (Reconcile c1_key demo_streams (status_world 0)).1.1 ∧
   running (Reconcile c1_key demo_streams (status_world 0)).1.1 = {[1%nat; 2%nat]}) ∧
  streams_exactly "ns" "c1" 0 demo_streams (Reconcile c1_key demo_streams no_sets).1.1 ∧
  (Reconcile c1_key demo_streams no_sets).2 = Ok 5.
Proof.
  split.
  - pose proof (Reconcile_streams c1_key demo_streams (status_world 0) I I demo_streams_ok) as H.
    destruct (Reconcile c1_key demo_streams (status_world 0)) as [[r' w'] res] eqn:E.
    destruct H as (_ & _ & H). destruct (H c1 eq_refl) as (_ & _ & _ & H4). split.
    + exact (proj1 (H4 ltac:(discriminate) eq_refl)).
    + assert (r' = (Reconcile c1_key demo_streams (status_world 0)).1.1) as -> by (rewrite E; reflexivity). vm_compute. reflexivity.
  - pose proof (Reconcile_streams c1_key demo_streams no_sets I I demo_streams_ok) as H.
    destruct (Reconcile c1_key demo_streams no_sets) as [[r' w'] res] eqn:E.
    destruct H as (_ & _ & H). destruct (H c1 eq_refl) as (_ & H2 & _). exact (H2 ltac:(discriminate) eq_refl).
Defined.

(** Entries are kept under the cluster's name alone: an event of a cluster [c1] of any
    namespace that names the target [ns/t1] writes the entry of [ns/c1] there. *)
Example same_name_shares_entry :
  cluster_step "other" "c1" (status_world 0) (handleEvent (state_event "update") "c1" "gnmic-c1-7" (status_world 0)) ∧
  entry_pod (status_world 0) = Some "gnmic-c1-2" ∧
  entry_pod (handleEvent (state_event "update") "c1" "gnmic-c1-7" (status_world 0)) = Some "gnmic-c1-7".
Proof. split; [apply step_event|]. split; vm_compute; reflexivity. Qed.

(** A target moves from pod 0 to pod 1: the deletion reported by the old pod arrives
    after the creation reported by the new one, and takes the new pod's entry away. *)
Example late_delete_erases_new_pod :
  entry_pod (handleEvent (state_event "delete") "c1" "gnmic-c1-0"
    (handleEvent (state_event "create") "c1" "gnmic-c1-1" (status_world 0))) = None.
Proof. vm_compute. reflexivity. Qed.
