(* ===== verification/ClusterClient.v ===== *)
(** The informer cache as the cluster controller reads it: a parameter, given by the
    reads of each kind on the content the cache has during one reconciliation, with
    the documented behaviour the theorems rely on; and the cache over a finite map,
    used by the witnesses. *)

From S2P Require Import Prelude Api.
#[local] Open Scope Z_scope.

(** A compiled selector ([labels.Selector]). *)
Abbreviation Selector := (gmap string string → bool).

(** [metav1.LabelSelectorAsSelector] and [client.MatchingLabels]. *)
Class Selectors := {
  LabelSelectorAsSelector : LabelSelector → res Selector;
  MatchingLabels : gmap string string → Selector
}.

(** [Get], and [List] with [InNamespace] and a selector, for one kind. *)
Class Reader (S T : Type) := {
  rd_get : NamespacedName → res (Resource S T);
  rd_list : string → Selector → res (list (Resource S T))
}.

(** [List] with [InNamespace] alone. *)
Definition everything : Selector := λ _, true.

(** The objects of a kind. *)
Class Stored (S T : Type) := { stored : gmap NamespacedName (Resource S T) }.

(** A read that returns, returns what is stored, a list each object once; either may fail
    with another error. *)
Class ReaderLaws (S T : Type) `{R : Reader S T} `{D : Stored S T} : Prop := {
  rd_key : ∀ k o, stored !! k = Some o → key_of o = k;
  rd_get_spec : ∀ k, match rd_get k with
    | Ok o => stored !! k = Some o
    | Err ErrNotFound => stored !! k = None
    | Err _ => True end;
  rd_list_once : ∀ ns f l, rd_list ns f = Ok l → NoDup l;
  rd_list_spec : ∀ ns f l, rd_list ns f = Ok l →
    ∀ o, o ∈ l ↔ stored !! key_of o = Some o ∧ Namespace (Meta o) = ns ∧ f (Labels (Meta o)) = true
}.

(** [o] is an object of the namespace. *)
Definition object_of {S T} `{Stored S T} (ns : string) (o : Resource S T) : Prop :=
  stored !! key_of o = Some o ∧ Namespace (Meta o) = ns.

(** ** A concrete cache *)

Section MapReader.
Context {S T : Type} (l : list (Resource S T)).

(** The objects of a list; the first of a key counts. *)
Definition map_stored : Stored S T := {| stored := list_to_map ((λ o, (key_of o, o)) <$> l) |}.

Definition map_reader : Reader S T := {|
  rd_get k := match @stored _ _ map_stored !! k with Some o => Ok o | None => Err ErrNotFound end;
  rd_list ns f := Ok (filter (λ o, Namespace (Meta o) = ns ∧ f (Labels (Meta o)) = true)
                        (map_to_list (@stored _ _ map_stored)).*2)
|}.

Lemma map_stored_key k o : @stored _ _ map_stored !! k = Some o → key_of o = k.
Proof.
  intros H%elem_of_list_to_map_2. by apply list_elem_of_fmap in H as (o' & [= -> ->] & _).
Qed.

Lemma map_reader_laws : @ReaderLaws S T map_reader map_stored.
Proof.
  split.
  - apply map_stored_key.
  - intros k. unfold rd_get, map_reader. by destruct (@stored _ _ map_stored !! k).
  - intros ns f r [= <-]. apply NoDup_filter, NoDup_fmap_2_strong; [|apply NoDup_map_to_list].
    intros [k1 o1] [k2 o2] H1%elem_of_map_to_list%map_stored_key H2%elem_of_map_to_list%map_stored_key. cbn. intros ->. congruence.
  - intros ns f r [= <-] o. rewrite list_elem_of_filter, list_elem_of_fmap. split.
    + intros [[Hns Hf] ([k o'] & -> & Hin)]. apply elem_of_map_to_list in Hin. cbn in *.
      by rewrite (map_stored_key _ _ Hin).
    + intros (Hin & Hns & Hf). split; [done|]. exists (key_of o, o). split; [done|].
      by apply elem_of_map_to_list.
Qed.
End MapReader.
