(* ===== verification/Resolve.v ===== *)
(** The resources a pipeline selects ([resolve*] of
    [internal/controller/cluster_controller.go]).  The code repeats one loop for each
    kind; it is translated once, and each function is that loop on its kind's
    references and selectors. *)

From S2P Require Import Prelude GoLib Api OutputConfigs ClusterClient.
#[local] Open Scope Z_scope.

(** An empty selector selects nothing. *)
Definition empty_selector (s : LabelSelector) : bool :=
  bool_decide (size (MatchLabels s) = 0%nat) && bool_decide (length (MatchExpressions s) = 0%nat).

Section Resolve.
Context `{Sel : Selectors} {S T : Type} `{Rd : Reader S T}.

(** [result] and [seen]. *)
Abbreviation Found := (list (Resource S T) * gset string)%type.

Definition addNew (st : Found) (o : Resource S T) : Found :=
  if decide (Name (Meta o) ∈ st.2) then st else (st.1 ++ [o], {[Name (Meta o)]} ∪ st.2).

Definition resolveRef (ns : string) (st : Found) (ref : string) : res Found :=
  match rd_get {| NN_Namespace := ns; NN_Name := ref |} with
  | Ok o => Ok (addNew st o)
  | Err ErrNotFound => Ok st
  | Err e => Err e
  end.

Definition resolveSelector (ns : string) (st : Found) (s : LabelSelector) : res Found :=
  if empty_selector s then Ok st else
  selector ← LabelSelectorAsSelector s;
  items ← rd_list ns selector;
  Ok (foldl addNew st items).

Definition resolve (ns : string) (refs : list string) (selectors : list LabelSelector)
    : res (list (Resource S T)) :=
  st ← foldl_res (resolveRef ns) ([], ∅) refs;
  st ← foldl_res (resolveSelector ns) st selectors;
  Ok st.1.

(** Processors keep the order and the repetitions of the references.  A reference
    that is not found leaves the zero value, which is appended all the same. *)
Definition resolveOrderedRef (zero : Resource S T) (ns : string) (st : Found) (ref : string) : res Found :=
  match rd_get {| NN_Namespace := ns; NN_Name := ref |} with
  | Ok o => Ok (st.1 ++ [o], {[Name (Meta o)]} ∪ st.2)
  | Err ErrNotFound => Ok (st.1 ++ [zero], {[Name (Meta zero)]} ∪ st.2)
  | Err e => Err e
  end.

(** [inRefs] does not change while the selectors are read. *)
Definition addSelected (inRefs : gset string) (st : Found) (o : Resource S T) : Found :=
  if decide (Name (Meta o) ∈ inRefs) then st else addNew st o.

Definition resolveOrderedSelector (ns : string) (inRefs : gset string) (st : Found) (s : LabelSelector)
    : res Found :=
  if empty_selector s then Ok st else
  selector ← LabelSelectorAsSelector s;
  items ← rd_list ns selector;
  Ok (foldl (addSelected inRefs) st items).

Definition resolveOrdered `{R : GoRuntime} (zero : Resource S T) (ns : string) (refs : list string)
    (selectors : list LabelSelector) : res (list (Resource S T)) :=
  st ← foldl_res (resolveOrderedRef zero ns) ([], ∅) refs;
  sel ← foldl_res (resolveOrderedSelector ns st.2) ([], ∅) selectors;
  Ok (st.1 ++ go_sort_slice (λ x y, string_less (Name (Meta x)) (Name (Meta y))) sel.1).
End Resolve.

(** ** The kinds *)

Section Kinds.
Context `{Sel : Selectors}.

Definition resolveTargets `{Rd : Reader TargetSpec TargetStatus} (pipeline : Pipeline) : res (list Target) :=
  resolve (Namespace (Meta pipeline)) (PL_TargetRefs (Spec pipeline)) (PL_TargetSelectors (Spec pipeline)).

Definition resolveSubscriptions `{Rd : Reader SubscriptionSpec unit} (pipeline : Pipeline)
    : res (list Subscription) :=
  resolve (Namespace (Meta pipeline)) (PL_SubscriptionRefs (Spec pipeline))
    (PL_SubscriptionSelectors (Spec pipeline)).

Definition resolveOutputs `{Rd : Reader OutputSpec unit} (pipeline : Pipeline) : res (list Output) :=
  resolve (Namespace (Meta pipeline)) (OutSel_OutputRefs (PL_Outputs (Spec pipeline)))
    (OutSel_OutputSelectors (PL_Outputs (Spec pipeline))).

Definition resolveInputs `{Rd : Reader InputSpec unit} (pipeline : Pipeline) : res (list Input) :=
  resolve (Namespace (Meta pipeline)) (InSel_InputRefs (PL_Inputs (Spec pipeline)))
    (InSel_InputSelectors (PL_Inputs (Spec pipeline))).

Definition resolveTunnelTargetPolicies `{Rd : Reader TunnelTargetPolicySpec unit} (pipeline : Pipeline)
    : res (list TunnelTargetPolicy) :=
  resolve (Namespace (Meta pipeline)) (PL_TunnelTargetPolicyRefs (Spec pipeline))
    (PL_TunnelTargetPolicySelectors (Spec pipeline)).

Definition zeroProcessor : Processor := MkResource
  {| Name := ""; Namespace := ""; Labels := ∅; Annotations := ∅; Finalizers := []; DeletionTimestamp := 0; Generation := 0 |} {| Proc_Type := ""; Proc_Config := None |} tt.

Definition resolveOutputProcessors `{R : GoRuntime} `{Rd : Reader ProcessorSpec unit} (pipeline : Pipeline)
    : res (list Processor) :=
  resolveOrdered zeroProcessor (Namespace (Meta pipeline)) (OutSel_ProcessorRefs (PL_Outputs (Spec pipeline)))
    (OutSel_ProcessorSelectors (PL_Outputs (Spec pipeline))).

Definition resolveInputProcessors `{R : GoRuntime} `{Rd : Reader ProcessorSpec unit} (pipeline : Pipeline)
    : res (list Processor) :=
  resolveOrdered zeroProcessor (Namespace (Meta pipeline)) (InSel_ProcessorRefs (PL_Inputs (Spec pipeline)))
    (InSel_ProcessorSelectors (PL_Inputs (Spec pipeline))).
End Kinds.

(** ** Service addresses of outputs *)

(** What is read of a [corev1.Service]. *)
Record CoreServiceSpec := { Svc_Ports : list ServicePort }.
Abbreviation CoreService := (Resource CoreServiceSpec unit).

Section Addresses.
Context `{Sel : Selectors} `{Rd : Reader CoreServiceSpec unit} `{Y : YAML} (ClusterDomain : string).

Definition addURL (addr url : string) : string :=
  if bool_decide (url <> "") then TrimSuffix addr "/" +:+ "/" +:+ TrimPrefix url "/" else addr.

(** The address of one service, or the error of its port. *)
Definition serviceAddress (spec : OutputSpec) (portStr url : string) (svc : CoreService) : res string :=
  port ← ParseServicePort portStr (Svc_Ports (Spec svc));
  let host := Name (Meta svc) +:+ "." +:+ Namespace (Meta svc) +:+ ".svc." +:+ ClusterDomain in
  Ok (addURL (FormatServiceAddress spec host port) url).

Definition resolveServiceRef (output : Output) (ref : ServiceReference) : res string :=
  let namespace := if bool_decide (SR_Namespace ref = "") then Namespace (Meta output) else SR_Namespace ref in
  svc ← (rd_get {| NN_Namespace := namespace; NN_Name := SR_Name ref |} : res CoreService);
  serviceAddress (Spec output) (SR_Port ref) (SR_URL ref) svc.

(** Services that lack the port are skipped. *)
Definition resolveServiceSelector (output : Output) (sel : ServiceSelector) : res (list string) :=
  let namespace := if bool_decide (SS_Namespace sel = "") then Namespace (Meta output) else SS_Namespace sel in
  svcs ← (rd_list namespace (MatchingLabels (SS_MatchLabels sel)) : res (list CoreService));
  Ok (omap (M:=list) (λ svc, match serviceAddress (Spec output) (SS_Port sel) (SS_URL sel) svc with
                   | Ok addr => Some addr | Err _ => None end) svcs).

Definition resolveOutputServiceAddresses (output : Output) : res (list string) :=
  let spec := Spec output in
  if bool_decide (Output_Type spec ∉ OutputTypesWithServiceRef) then Ok [] else
  byRef ← match Output_ServiceRef spec with
          | None => Ok []
          | Some ref => addr ← resolveServiceRef output ref; Ok [addr] end;
  bySelector ← match Output_ServiceSelector spec with
               | None => Ok []
               | Some sel => resolveServiceSelector output sel end;
  Ok (byRef ++ bySelector).
End Addresses.

(** ** What is resolved *)

Section Exact.
Context `{Sel : Selectors} {S T : Type} `{L : ReaderLaws S T}.

(** Some selector that is not empty matches the labels. *)
Definition selected (selectors : list LabelSelector) (labels : gmap string string) : Prop :=
  ∃ s f, s ∈ selectors ∧ empty_selector s = false ∧ LabelSelectorAsSelector s = Ok f ∧ f labels = true.

Lemma selected_nil labels : ¬ selected [] labels.
Proof. by intros (s & f & Hs%elem_of_nil & _). Qed.

Lemma selected_cons s selectors labels :
  selected (s :: selectors) labels ↔
  (empty_selector s = false ∧ ∃ f, LabelSelectorAsSelector s = Ok f ∧ f labels = true) ∨ selected selectors labels.
Proof.
  unfold selected. split.
  - intros (s' & f & [->|Hs]%elem_of_cons & H); [left|right]; naive_solver.
  - intros [(He & f & Hf)|(s' & f & Hs & H)]; [exists s, f|exists s', f]; rewrite elem_of_cons; tauto.
Qed.

Definition chosen (ns : string) (refs : list string) (selectors : list LabelSelector) (o : Resource S T) : Prop :=
  object_of ns o ∧ (Name (Meta o) ∈ refs ∨ selected selectors (Labels (Meta o))).

(** The objects collected so far are [P], each once. *)
Definition holds_exactly (ns : string) (P : Resource S T → Prop) (st : list (Resource S T) * gset string) : Prop :=
  NoDup (Name ∘ Meta <$> st.1) ∧ (∀ n, n ∈ st.2 ↔ n ∈ (Name ∘ Meta <$> st.1)) ∧
  ∀ o, o ∈ st.1 ↔ object_of ns o ∧ P o.

Lemma object_of_name ns o o' :
  object_of ns o → object_of ns o' → Name (Meta o) = Name (Meta o') → o = o'.
Proof.
  intros [H <-] [H' Hns] Hn. assert (key_of o = key_of o') as E by (unfold key_of; by rewrite Hn, Hns).
  rewrite E, H' in H. by injection H.
Qed.

Lemma addNew_exact ns P st o :
  object_of ns o → holds_exactly ns P st → holds_exactly ns (λ x, P x ∨ x = o) (addNew st o).
Proof.
  intros Ho (H1 & H2 & H3). unfold addNew. case_decide as Hs; (split_and!; [..|intros x]); try done.
  - rewrite H3. apply H2 in Hs. apply list_elem_of_fmap in Hs as (o' & Hn & Ho').
    split; [tauto|]. intros [Hx [HP | ->]]; [tauto|].
    apply H3 in Ho' as [Hobj HP]. cbn in Hn. by rewrite (object_of_name ns o o').
  - cbn. rewrite fmap_app. apply NoDup_app. split_and!; [done| |apply NoDup_singleton].
    intros n Hn ->%list_elem_of_singleton. by apply Hs, H2.
  - intros n. cbn. rewrite fmap_app, elem_of_union, elem_of_app, H2. cbn. set_solver.
  - cbn. rewrite elem_of_app, H3, list_elem_of_singleton. naive_solver.
Qed.

Lemma holds_exactly_iff ns P Q st : (∀ o, object_of ns o → P o ↔ Q o) → holds_exactly ns P st → holds_exactly ns Q st.
Proof. intros H (H1 & H2 & H3). split_and!; [done..|]. intros o. rewrite H3. naive_solver. Qed.

Lemma addNews_exact ns P st l :
  (∀ o, o ∈ l → object_of ns o) → holds_exactly ns P st → holds_exactly ns (λ x, P x ∨ x ∈ l) (foldl addNew st l).
Proof.
  revert P st; induction l as [|o l IH]; intros P st Hl H; cbn [foldl].
  - eapply holds_exactly_iff; [|done]. intros o _. set_solver.
  - eapply holds_exactly_iff; [|apply (IH (λ x, P x ∨ x = o))].
    + intros x _. cbn. rewrite elem_of_cons. tauto.
    + intros x Hx. apply Hl. by right.
    + apply addNew_exact; [|done]. apply Hl. by left.
Qed.

Lemma get_object ns ref o : rd_get {| NN_Namespace := ns; NN_Name := ref |} = Ok o → object_of ns o ∧ Name (Meta o) = ref.
Proof.
  intros H. pose proof (rd_get_spec {| NN_Namespace := ns; NN_Name := ref |}) as G. rewrite H in G.
  pose proof (rd_key _ _ G) as K. unfold object_of. rewrite K. split; [split; [done|]|].
  - by apply (f_equal NN_Namespace) in K.
  - by apply (f_equal NN_Name) in K.
Qed.

Lemma refs_exact ns refs P st st' :
  foldl_res (resolveRef ns) st refs = Ok st' → holds_exactly ns P st →
  holds_exactly ns (λ o, P o ∨ Name (Meta o) ∈ refs) st'.
Proof.
  revert P st; induction refs as [|ref refs IH]; intros P st; cbn.
  { intros [= <-] H. eapply holds_exactly_iff; [|done]. intros o _. set_solver. }
  unfold resolveRef at 1. pose proof (rd_get_spec {| NN_Namespace := ns; NN_Name := ref |}) as G.
  destruct (rd_get _) as [o|[| |msg]] eqn:E; [| |done..]; intros Hf H.
  - destruct (get_object _ _ _ E) as [Ho <-].
    eapply holds_exactly_iff; [|eapply (IH (λ x, P x ∨ x = o)); [exact Hf|by apply addNew_exact]].
    intros x Hx. cbn. rewrite elem_of_cons. split; [|intros [?|[?|?]]]; [naive_solver|auto| |auto].
    left. right. by apply (object_of_name ns).
  - eapply holds_exactly_iff; [|eapply IH; [exact Hf|exact H]].
    intros x [Hx Hns]. rewrite elem_of_cons. split; [tauto|]. intros [?|[Hn|?]]; [tauto| |tauto].
    exfalso. unfold key_of in Hx. by rewrite Hns, Hn, G in Hx.
Qed.

Lemma selectors_exact ns selectors P st st' :
  foldl_res (resolveSelector ns) st selectors = Ok st' → holds_exactly ns P st →
  holds_exactly ns (λ o, P o ∨ selected selectors (Labels (Meta o))) st'.
Proof.
  revert P st; induction selectors as [|s selectors IH]; intros P st; cbn.
  { intros [= <-] H. eapply holds_exactly_iff; [|done]. intros o _. pose proof (selected_nil (Labels (Meta o))). tauto. }
  unfold resolveSelector at 1. destruct (empty_selector s) eqn:Es.
  { intros Hf H. eapply holds_exactly_iff; [|by eapply IH]. intros o _. rewrite selected_cons, Es. naive_solver. }
  destruct (LabelSelectorAsSelector s) as [f|] eqn:Ef; [|done]. cbn.
  destruct (rd_list ns f) as [l|] eqn:El; [|done]. cbn. intros Hf H.
  pose proof (rd_list_spec ns f l El) as G.
  eapply holds_exactly_iff; [|eapply (IH (λ x, P x ∨ x ∈ l)); [exact Hf|apply addNews_exact]; [|done]].
  - intros o [Ho Hns]. cbn. rewrite G, selected_cons, Es, Ef. naive_solver.
  - intros o Ho. apply G in Ho. split; tauto.
Qed.

Lemma resolve_chosen ns refs selectors l :
  resolve ns refs selectors = Ok l →
  NoDup (Name ∘ Meta <$> l) ∧ ∀ o, o ∈ l ↔ chosen ns refs selectors o.
Proof.
  intros (st1 & H1 & (st2 & H2 & [= <-])%bind_Ok)%bind_Ok.
  assert (holds_exactly ns (λ _, False) ([], ∅)) as H0.
  { split_and!; cbn; [constructor|set_solver|set_solver]. }
  eapply refs_exact in H1; [|exact H0]. eapply selectors_exact in H2; [|exact H1].
  destruct H2 as (N1 & _ & N3). split; [done|]. intros o. rewrite N3. unfold chosen. tauto.
Qed.

(** A reference cannot be read; that its object does not exist is no error. *)
Definition ref_fails (ns ref : string) (e : GoError) : Prop :=
  e ≠ ErrNotFound ∧ rd_get (S:=S) (T:=T) {| NN_Namespace := ns; NN_Name := ref |} = Err e.

(** A selector that is not empty does not compile, or its objects cannot be listed. *)
Definition selector_fails (ns : string) (s : LabelSelector) (e : GoError) : Prop :=
  empty_selector s = false ∧
  (LabelSelectorAsSelector s = Err e ∨ ∃ f, LabelSelectorAsSelector s = Ok f ∧ rd_list (S:=S) (T:=T) ns f = Err e).

Lemma resolveRef_fails ns st ref e : resolveRef ns st ref = Err e ↔ ref_fails ns ref e.
Proof. unfold resolveRef, ref_fails. destruct (rd_get _) as [o|[| |msg]]; naive_solver. Qed.

Lemma resolveSelector_fails ns st s e : resolveSelector ns st s = Err e ↔ selector_fails ns s e.
Proof.
  unfold resolveSelector, selector_fails. destruct (empty_selector s); [naive_solver|].
  destruct (LabelSelectorAsSelector s) as [f|]; cbn [mbind res_bind]; [|naive_solver].
  destruct (rd_list ns f) as [l|e'] eqn:El; cbn [mbind res_bind]; split; try done.
  - intros [_ [?|(f' & [= <-] & H)]]; [done|]. rewrite El in H. done.
  - intros [= ->]. split; [done|]. right. by exists f.
  - intros [_ [?|(f' & [= <-] & H)]]; [done|]. rewrite El in H. by injection H as ->.
Qed.

Lemma loop_fine {X B} (f : B → X → res B) (fails : X → GoError → Prop) l b b' :
  (∀ c x e, f c x = Err e ↔ fails x e) → foldl_res f b l = Ok b' → ∀ x e, x ∈ l → ¬ fails x e.
Proof. intros Hf H x e Hx He. destruct (foldl_res_each f l b b' H x Hx) as (c & c' & E). apply (Hf c) in He. by rewrite E in He. Qed.

(** The first of a list that fails, fails with [e]. *)
Definition first_failing {X} (fails : X → GoError → Prop) (l : list X) (e : GoError) : Prop :=
  ∃ before x after, l = before ++ x :: after ∧ fails x e ∧ ∀ y e', y ∈ before → ¬ fails y e'.

Lemma loop_fails {X B} (f : B → X → res B) (fails : X → GoError → Prop) l b e :
  (∀ c x e, f c x = Err e ↔ fails x e) → foldl_res f b l = Err e → first_failing fails l e.
Proof.
  intros Hf (before & x & after & c & Hl & Hb & Hx)%foldl_res_first. exists before, x, after.
  split; [done|]. split; [by apply (Hf c)|]. intros y e' Hy. by eapply loop_fine.
Qed.

Lemma resolve_fine ns refs selectors l : resolve (S:=S) (T:=T) ns refs selectors = Ok l →
  (∀ ref e, ref ∈ refs → ¬ ref_fails ns ref e) ∧ ∀ s e, s ∈ selectors → ¬ selector_fails ns s e.
Proof.
  intros (st1 & H1 & (st2 & H2 & _)%bind_Ok)%bind_Ok. split.
  - eapply loop_fine; [|exact H1]. intros; apply resolveRef_fails.
  - eapply loop_fine; [|exact H2]. intros; apply resolveSelector_fails.
Qed.

Lemma resolve_error ns refs selectors e : resolve (S:=S) (T:=T) ns refs selectors = Err e →
  first_failing (ref_fails ns) refs e ∨
  (∀ ref e', ref ∈ refs → ¬ ref_fails ns ref e') ∧ first_failing (selector_fails ns) selectors e.
Proof.
  intros [H|(st & H & [Hs|(? & _ & ?)]%bind_Err)]%bind_Err; [left|right|done].
  - eapply loop_fails; [|exact H]. intros; apply resolveRef_fails.
  - split; [eapply loop_fine; [|exact H]; intros; apply resolveRef_fails|].
    eapply loop_fails; [|exact Hs]. intros; apply resolveSelector_fails.
Qed.

(** *** Ordered resolution *)

Section Ordered.
Context `{Rt : GoRuntime} (zero : Resource S T).

Definition ref_or_zero (ns ref : string) : Resource S T :=
  default zero (stored !! {| NN_Namespace := ns; NN_Name := ref |}).

Lemma orderedRefs_exact ns refs st st' :
  foldl_res (resolveOrderedRef zero ns) st refs = Ok st' →
  st'.1 = st.1 ++ (ref_or_zero ns <$> refs) ∧
  (∀ n, n ∈ st'.2 ↔ n ∈ st.2 ∨ n ∈ Name ∘ Meta <$> (ref_or_zero ns <$> refs)).
Proof.
  revert st; induction refs as [|ref refs IH]; intros st; cbn.
  { intros [= <-]. split; [by rewrite app_nil_r|]. set_solver. }
  unfold resolveOrderedRef at 1. unfold ref_or_zero at 1 3.
  pose proof (rd_get_spec {| NN_Namespace := ns; NN_Name := ref |}) as G.
  destruct (rd_get _) as [o|[| |msg]]; [| |done..]; rewrite G; cbn; intros (H1 & H2)%IH; cbn in H1, H2.
  all: split; [rewrite H1; by rewrite <- app_assoc|]; intros n; rewrite H2; set_solver.
Qed.

Lemma addSelected_exact ns inRefs P st o :
  object_of ns o → holds_exactly ns (λ x, P x ∧ Name (Meta x) ∉ inRefs) st →
  holds_exactly ns (λ x, (P x ∨ x = o) ∧ Name (Meta x) ∉ inRefs) (addSelected inRefs st o).
Proof.
  intros Ho H. unfold addSelected. case_decide as Hin.
  - eapply holds_exactly_iff; [|exact H]. intros x _. cbn. split; [tauto|]. intros [[?| ->] ?]; tauto.
  - eapply holds_exactly_iff; [|by apply addNew_exact]. intros x _. cbn. naive_solver.
Qed.

Lemma orderedSelectors_exact ns inRefs selectors P st st' :
  foldl_res (resolveOrderedSelector ns inRefs) st selectors = Ok st' →
  holds_exactly ns (λ x, P x ∧ Name (Meta x) ∉ inRefs) st →
  holds_exactly ns (λ o, (P o ∨ selected selectors (Labels (Meta o))) ∧ Name (Meta o) ∉ inRefs) st'.
Proof.
  revert P st; induction selectors as [|s selectors IH]; intros P st; cbn.
  { intros [= <-] H. eapply holds_exactly_iff; [|done]. intros o _. pose proof (selected_nil (Labels (Meta o))). tauto. }
  unfold resolveOrderedSelector at 1. destruct (empty_selector s) eqn:Es.
  { intros Hf H. eapply holds_exactly_iff; [|by eapply IH]. intros o _. rewrite selected_cons, Es. naive_solver. }
  destruct (LabelSelectorAsSelector s) as [f|] eqn:Ef; [|done]. cbn.
  destruct (rd_list ns f) as [l|] eqn:El; [|done]. cbn. intros Hf H.
  pose proof (rd_list_spec ns f l El) as G.
  assert (holds_exactly ns (λ x, (P x ∨ x ∈ l) ∧ Name (Meta x) ∉ inRefs) (foldl (addSelected inRefs) st l)) as Hl.
  { assert (∀ o, o ∈ l → object_of ns o) as Hobj by (intros o Ho; apply G in Ho; split; tauto).
    clear G El Hf. revert P st H Hobj. induction l as [|o l IHl]; intros P st H Hobj; cbn.
    - eapply holds_exactly_iff; [|exact H]. intros x _. cbn. set_solver.
    - eapply holds_exactly_iff; [|apply (IHl (λ x, P x ∨ x = o))].
      + intros x _. cbn. rewrite elem_of_cons. tauto.
      + apply addSelected_exact; [|done]. apply Hobj. by left.
      + intros x Hx. apply Hobj. by right. }
  eapply holds_exactly_iff; [|eapply (IH (λ x, P x ∨ x ∈ l)); [exact Hf|exact Hl]].
  intros o [Ho Hns]. cbn. rewrite G, selected_cons, Es, Ef. naive_solver.
Qed.

Lemma resolveOrdered_exact ns refs selectors l :
  resolveOrdered zero ns refs selectors = Ok l →
  ∃ sel, l = (ref_or_zero ns <$> refs) ++ sel ∧
    StronglySorted String.le (Name ∘ Meta <$> sel) ∧ NoDup (Name ∘ Meta <$> sel) ∧
    ∀ o, o ∈ sel ↔ object_of ns o ∧ selected selectors (Labels (Meta o)) ∧
                   Name (Meta o) ∉ (Name ∘ Meta <$> (ref_or_zero ns <$> refs)).
Proof.
  intros (st1 & H1 & (st2 & H2 & [= <-])%bind_Ok)%bind_Ok.
  apply orderedRefs_exact in H1 as [H1 Hin]. cbn in H1, Hin. rewrite H1.
  assert (holds_exactly ns (λ x : Resource S T, False ∧ Name (Meta x) ∉ st1.2) ([], ∅)) as H0.
  { split_and!; cbn; [constructor|set_solver|set_solver]. }
  eapply (orderedSelectors_exact _ _ _ (λ _, False)) in H2; [|exact H0]. destruct H2 as (N1 & _ & N3).
  eexists. split; [done|]. pose proof (go_sort_slice_perm (λ x y, string_less (Name (Meta x)) (Name (Meta y))) st2.1) as Hp.
  split_and!.
  - apply StronglySorted_image, (sort_by_name_sorted (Name ∘ Meta)).
  - by rewrite Hp.
  - intros o. rewrite Hp, N3, Hin. set_solver.
Qed.
End Ordered.
End Exact.

(** ** Theorems *)

(** The specification of a resolution.  When every reference can be read (its object may
    be missing) and every selector that is not empty compiles and can be listed: each
    object of the namespace that a reference names or a non-empty selector matches, once.
    Otherwise, the error of the first that fails, the references before the selectors. *)
Definition resolves_exactly `{Sel : Selectors} {S T} `{L : ReaderLaws S T} (r : res (list (Resource S T)))
    (ns : string) (refs : list string) (selectors : list LabelSelector) : Prop :=
  let fails_ref := ref_fails (S:=S) (T:=T) ns in let fails_sel := selector_fails (S:=S) (T:=T) ns in
  match r with
  | Ok l =>
      (∀ ref e, ref ∈ refs → ¬ fails_ref ref e) ∧ (∀ s e, s ∈ selectors → ¬ fails_sel s e) ∧
      NoDup (Name ∘ Meta <$> l) ∧ ∀ o, o ∈ l ↔ chosen ns refs selectors o
  | Err e => first_failing fails_ref refs e ∨ (∀ ref e', ref ∈ refs → ¬ fails_ref ref e') ∧ first_failing fails_sel selectors e
  end.

Lemma resolve_exactly `{Sel : Selectors} {S T} `{L : ReaderLaws S T} ns refs selectors :
  resolves_exactly (resolve (S:=S) (T:=T) ns refs selectors) ns refs selectors.
Proof.
  unfold resolves_exactly. destruct (resolve _ _ _) eqn:E; [|by apply resolve_error].
  pose proof (resolve_fine _ _ _ _ E) as [H1 H2]. apply resolve_chosen in E. done.
Qed.

(** What processors resolve to: the references in their order, repetitions kept and the
    zero processor for those that do not exist, then the selected ones that no
    reference named, sorted by name, each once. *)
Definition resolves_in_order `{Sel : Selectors} `{L : ReaderLaws ProcessorSpec unit} (r : res (list Processor))
    (ns : string) (refs : list string) (selectors : list LabelSelector) : Prop :=
  ∀ l, r = Ok l → ∃ sel, l = (ref_or_zero zeroProcessor ns <$> refs) ++ sel ∧
    StronglySorted String.le (Name ∘ Meta <$> sel) ∧ NoDup (Name ∘ Meta <$> sel) ∧
    ∀ o, o ∈ sel ↔ object_of ns o ∧ selected selectors (Labels (Meta o)) ∧
                   Name (Meta o) ∉ (Name ∘ Meta <$> (ref_or_zero zeroProcessor ns <$> refs)).

Section Theorems.
Context `{Sel : Selectors} `{R : GoRuntime}.
Context `{Lt : ReaderLaws TargetSpec TargetStatus} `{Ls : ReaderLaws SubscriptionSpec unit}
  `{Lo : ReaderLaws OutputSpec unit} `{Li : ReaderLaws InputSpec unit}
  `{Lp : ReaderLaws TunnelTargetPolicySpec unit} `{Lr : ReaderLaws ProcessorSpec unit}.

(** C15: a pipeline's targets, subscriptions, outputs, inputs and tunnel target policies
    resolve to exactly the objects of its own namespace that it references by name or
    selects by a non-empty label selector, each once, when every reference can be read
    and every such selector compiles and can be listed; and otherwise to the error of the
    first that fails, the references before the selectors: a malformed selector is never
    skipped.  (Processors keep the order and the repetitions of their references, see
    [processors_in_order].) *)
Theorem resolutions_exact (p : Pipeline) :
  let ns := Namespace (Meta p) in
  resolves_exactly (resolveTargets p) ns (PL_TargetRefs (Spec p)) (PL_TargetSelectors (Spec p)) ∧
  resolves_exactly (resolveSubscriptions p) ns (PL_SubscriptionRefs (Spec p)) (PL_SubscriptionSelectors (Spec p)) ∧
  resolves_exactly (resolveOutputs p) ns (OutSel_OutputRefs (PL_Outputs (Spec p)))
    (OutSel_OutputSelectors (PL_Outputs (Spec p))) ∧
  resolves_exactly (resolveInputs p) ns (InSel_InputRefs (PL_Inputs (Spec p)))
    (InSel_InputSelectors (PL_Inputs (Spec p))) ∧
  resolves_exactly (resolveTunnelTargetPolicies p) ns (PL_TunnelTargetPolicyRefs (Spec p))
    (PL_TunnelTargetPolicySelectors (Spec p)).
Proof. cbn. split_and!; apply resolve_exactly. Qed.

(** processors are resolved in the documented order whatever order the runtime and
    the server return them in: the references as written, then the selected ones sorted
    by name and without those already referenced; a reference to a missing processor is
    not skipped but resolves to an empty one. *)
Theorem processors_in_order (p : Pipeline) :
  let ns := Namespace (Meta p) in
  resolves_in_order (resolveOutputProcessors p) ns (OutSel_ProcessorRefs (PL_Outputs (Spec p)))
    (OutSel_ProcessorSelectors (PL_Outputs (Spec p))) ∧
  resolves_in_order (resolveInputProcessors p) ns (InSel_ProcessorRefs (PL_Inputs (Spec p)))
    (InSel_ProcessorSelectors (PL_Inputs (Spec p))).
Proof. cbn. split; intros l H; by apply resolveOrdered_exact in H. Qed.
End Theorems.

(** ** Witnesses *)

(** Selectors by labels alone; one with an expression does not compile. *)
#[export] Instance label_selectors : Selectors := {
  LabelSelectorAsSelector s :=
    if decide (MatchExpressions s = []) then Ok (λ l, bool_decide (MatchLabels s ⊆ l))
    else Err (ErrMsg "invalid expression");
  MatchingLabels m l := bool_decide (m ⊆ l)
}.

Definition demo_meta (name : string) (labels : gmap string string) : ObjectMeta :=
  {| Name := name; Namespace := "ns"; Labels := labels; Annotations := ∅; Finalizers := []; DeletionTimestamp := 0; Generation := 1 |}.

Definition by_label (k v : string) : LabelSelector := {| MatchLabels := {[ k := v ]}; MatchExpressions := [] |}.

Definition demo_target (name : string) (labels : gmap string string) : Target := MkResource (demo_meta name labels)
  {| Target_Address := "10.0.0.1"; Target_Profile := "p" |}
  {| TS_Clusters := 0; TS_State := ""; TS_ClusterStates := ∅ |}.

Definition demo_processor (name : string) (labels : gmap string string) : Processor :=
  MkResource (demo_meta name labels) {| Proc_Type := "event-drop"; Proc_Config := None |} tt.

Definition demo_targets : list Target :=
  [demo_target "t1" {["site" := "a"]}; demo_target "t2" {["site" := "a"]}; demo_target "t3" {["site" := "b"]}].

Definition demo_processors : list Processor :=
  [demo_processor "z" {["site" := "a"]}; demo_processor "m" {["site" := "a"]}; demo_processor "b" {["site" := "a"]}].

Definition demo_pipeline_spec : PipelineSpec := {|
  PL_ClusterRef := "c1"; PL_Enabled := true;
  PL_TargetSelectors := [by_label "site" "a"; {| MatchLabels := ∅; MatchExpressions := [] |}];
  PL_TargetRefs := ["t2"; "gone"];
  PL_TunnelTargetPolicySelectors := []; PL_TunnelTargetPolicyRefs := [];
  PL_SubscriptionSelectors := []; PL_SubscriptionRefs := [];
  PL_Outputs := {| OutSel_OutputSelectors := []; OutSel_OutputRefs := [];
                   OutSel_ProcessorSelectors := [by_label "site" "a"]; OutSel_ProcessorRefs := ["m"; "gone"; "m"] |};
  PL_Inputs := {| InSel_InputSelectors := []; InSel_InputRefs := [];
                  InSel_ProcessorSelectors := []; InSel_ProcessorRefs := [] |};
  PL_Labels := ∅ |}.

Definition demo_pipeline_cr : Pipeline := MkResource (demo_meta "pl" ∅) demo_pipeline_spec
  {| PS_Status := ""; PS_TargetsCount := 0; PS_SubscriptionsCount := 0; PS_InputsCount := 0;
     PS_OutputsCount := 0; PS_TunnelTargetPoliciesCount := 0; PS_Conditions := [] |}.

(** [t2] by name, [t1] by its label, once each; the reference that does not exist and
    the empty selector add nothing. *)
Lemma resolutions_exact_witness :
  resolves_exactly (L := map_reader_laws demo_targets)
    (resolveTargets (Rd := map_reader demo_targets) demo_pipeline_cr) "ns"
    (PL_TargetRefs demo_pipeline_spec) (PL_TargetSelectors demo_pipeline_spec) ∧
  fmap (M := list) (Name ∘ Meta) <$> resolveTargets (Rd := map_reader demo_targets) demo_pipeline_cr = Ok ["t2"; "t1"].
Proof.
  split; [|vm_compute; reflexivity].
  exact (proj1 (resolutions_exact (Lt := map_reader_laws demo_targets) (Ls := map_reader_laws [])
    (Lo := map_reader_laws []) (Li := map_reader_laws []) (Lp := map_reader_laws []) demo_pipeline_cr)).
Defined.

Lemma processors_in_order_witness :
  resolves_in_order (L := map_reader_laws demo_processors)
    (resolveOutputProcessors (Rd := map_reader demo_processors) demo_pipeline_cr) "ns"
    ["m"; "gone"; "m"] [by_label "site" "a"] ∧
  fmap (M := list) (Name ∘ Meta) <$> resolveOutputProcessors (Rd := map_reader demo_processors) demo_pipeline_cr =
    Ok ["m"; ""; "m"; "b"; "z"].
Proof.
  split; [|vm_compute; reflexivity].
  exact (proj1 (processors_in_order (Lr := map_reader_laws demo_processors) demo_pipeline_cr)).
Defined.
