(* ===== verification/Watch.v ===== *)
(** The watches of the cluster controller ([find*] of
    [internal/controller/cluster_controller.go]): which clusters are reconciled when a
    resource changes, and that they are the clusters whose pipelines resolve it. *)

From S2P Require Import Prelude GoLib Api ClusterClient Resolve.
#[local] Open Scope Z_scope.

(** ** Operations *)

Section Watch.
Context `{R : GoRuntime} `{Sel : Selectors} `{Rp : Reader PipelineSpec PipelineStatus}.

(** [Update] of [generationOrLabelsChangedPredicate], on the metadata of the two objects. *)
Definition generationOrLabelsChanged (objectOld objectNew : option ObjectMeta) : bool :=
  match objectOld, objectNew with
  | Some o, Some n =>
      bool_decide (Generation o ≠ Generation n) || negb (bool_decide (Labels o = Labels n))
  | _, _ => false
  end.

(** The references and the selectors of a pipeline for a type of resource. *)
Definition referencesOf (pipeline : Pipeline) (resourceType : string)
    : option (list string * list LabelSelector) :=
  let spec := Spec pipeline in
  if bool_decide (resourceType = "target") then Some (PL_TargetRefs spec, PL_TargetSelectors spec)
  else if bool_decide (resourceType = "subscription") then
    Some (PL_SubscriptionRefs spec, PL_SubscriptionSelectors spec)
  else if bool_decide (resourceType = "output") then
    Some (OutSel_OutputRefs (PL_Outputs spec), OutSel_OutputSelectors (PL_Outputs spec))
  else if bool_decide (resourceType = "input") then
    Some (InSel_InputRefs (PL_Inputs spec), InSel_InputSelectors (PL_Inputs spec))
  else if bool_decide (resourceType = "output-processor") then
    Some (OutSel_ProcessorRefs (PL_Outputs spec), OutSel_ProcessorSelectors (PL_Outputs spec))
  else if bool_decide (resourceType = "input-processor") then
    Some (InSel_ProcessorRefs (PL_Inputs spec), InSel_ProcessorSelectors (PL_Inputs spec))
  else if bool_decide (resourceType = "tunnel-target-policy") then
    Some (PL_TunnelTargetPolicyRefs spec, PL_TunnelTargetPolicySelectors spec)
  else None.

Definition selectorMatches (labels : gmap string string) (s : LabelSelector) : bool :=
  if empty_selector s then false
  else match LabelSelectorAsSelector s with Ok f => f labels | Err _ => false end.

Definition pipelineReferencesResource (pipeline : Pipeline) (resourceName : string)
    (resourceLabels : gmap string string) (resourceType : string) : bool :=
  match referencesOf pipeline resourceType with
  | None => false
  | Some (refs, selectors) =>
      bool_decide (resourceName ∈ refs) || existsb (selectorMatches resourceLabels) selectors
  end.

Definition findClustersReferencingResource (namespace name : string) (resourceLabels : gmap string string)
    (resourceType : string) : list NamespacedName :=
  match (rd_list namespace everything : res (list Pipeline)) with
  | Err _ => []
  | Ok pipelines =>
      let clusterSet := foldl (λ (m : gmap string unit) p,
        if PL_Enabled (Spec p) && pipelineReferencesResource p name resourceLabels resourceType
        then <[PL_ClusterRef (Spec p) := ()]> m else m) ∅ pipelines in
      (λ kv, {| NN_Namespace := namespace; NN_Name := kv.1 |}) <$> go_range clusterSet
  end.

Definition findClusterForPipeline (pipeline : Pipeline) : list NamespacedName :=
  if bool_decide (PL_ClusterRef (Spec pipeline) = "") then []
  else [{| NN_Namespace := Namespace (Meta pipeline); NN_Name := PL_ClusterRef (Spec pipeline) |}].

Definition find {S T} (resourceType : string) (o : Resource S T) : list NamespacedName :=
  findClustersReferencingResource (Namespace (Meta o)) (Name (Meta o)) (Labels (Meta o)) resourceType.

Definition findClustersForTarget (target : Target) := find "target" target.
Definition findClustersForSubscription (subscription : Subscription) := find "subscription" subscription.
Definition findClustersForOutput (output : Output) := find "output" output.
Definition findClustersForInput (input : Input) := find "input" input.
Definition findClustersForTunnelTargetPolicy (policy : TunnelTargetPolicy) := find "tunnel-target-policy" policy.

(** [results] and [seen]. *)
Definition addRequests (st : list NamespacedName * gset NamespacedName) (reqs : list NamespacedName) :=
  foldl (λ (st : list NamespacedName * gset NamespacedName) req,
    if decide (req ∈ st.2) then st else (st.1 ++ [req], {[req]} ∪ st.2)) st reqs.

Definition findClustersForProcessor (processor : Processor) : list NamespacedName :=
  (addRequests (addRequests ([], ∅) (find "output-processor" processor)) (find "input-processor" processor)).1.

Definition findClustersForTargetProfile `{Rt : Reader TargetSpec TargetStatus} (profile : TargetProfile)
    : list NamespacedName :=
  match (rd_list (Namespace (Meta profile)) everything : res (list Target)) with
  | Err _ => []
  | Ok targets =>
      (foldl (λ st target,
        if decide (Target_Profile (Spec target) ≠ Name (Meta profile)) then st
        else addRequests st (find "target" target)) ([], ∅) targets).1
  end.

Definition listPipelinesForCluster (cluster : Cluster) : res (list Pipeline) :=
  pipelines ← (rd_list (Namespace (Meta cluster)) everything : res (list Pipeline));
  Ok (filter (λ p, PL_ClusterRef (Spec p) = Name (Meta cluster) ∧ PL_Enabled (Spec p) = true) pipelines).
End Watch.

(** ** Lemmas *)

Section WatchLemmas.
Context `{R : GoRuntime} `{Sel : Selectors} `{Lp : ReaderLaws PipelineSpec PipelineStatus}.

Lemma existsb_selected labels selectors :
  existsb (selectorMatches labels) selectors = true ↔ selected selectors labels.
Proof.
  induction selectors as [|s l IH]; cbn; [split; [done|by intros H%selected_nil]|].
  rewrite orb_true_iff, IH, selected_cons. unfold selectorMatches.
  destruct (empty_selector s); [naive_solver|]. destruct (LabelSelectorAsSelector s); naive_solver.
Qed.

Lemma references_spec p name labels ty refs selectors :
  referencesOf p ty = Some (refs, selectors) →
  pipelineReferencesResource p name labels ty = true ↔ name ∈ refs ∨ selected selectors labels.
Proof.
  intros H. unfold pipelineReferencesResource. by rewrite H, orb_true_iff, bool_decide_eq_true, existsb_selected.
Qed.

(** The requests for a resource: the clusters of the enabled pipelines of its namespace
    that reference it. *)
Lemma elem_of_find {S T} ty (o : Resource S T) req :
  is_ok (rd_list (S:=PipelineSpec) (T:=PipelineStatus) (Namespace (Meta o)) everything) = true →
  req ∈ find ty o ↔
  ∃ p : Pipeline, object_of (Namespace (Meta o)) p ∧ PL_Enabled (Spec p) = true ∧
    pipelineReferencesResource p (Name (Meta o)) (Labels (Meta o)) ty = true ∧
    req = {| NN_Namespace := Namespace (Meta o); NN_Name := PL_ClusterRef (Spec p) |}.
Proof.
  intros Hok. unfold find, findClustersReferencingResource.
  destruct (rd_list _ everything) as [l|] eqn:El; [|done]. clear Hok.
  pose proof (rd_list_spec _ _ _ El) as G.
  set (ref := λ p, PL_Enabled (Spec p) && pipelineReferencesResource p (Name (Meta o)) (Labels (Meta o)) ty).
  assert (∀ (m : gmap string unit) c,
    is_Some (foldl (λ m p, if ref p then <[PL_ClusterRef (Spec p) := ()]> m else m) m l !! c) ↔
    is_Some (m !! c) ∨ ∃ p, p ∈ l ∧ ref p = true ∧ PL_ClusterRef (Spec p) = c) as Hm.
  { clear G El. induction l as [|p l IH]; intros m c; cbn [foldl]; [set_solver|].
    rewrite IH. assert (is_Some ((if ref p then <[PL_ClusterRef (Spec p) := ()]> m else m) !! c) ↔
      is_Some (m !! c) ∨ (ref p = true ∧ PL_ClusterRef (Spec p) = c)) as ->.
    { destruct (ref p); [|naive_solver]. rewrite lookup_insert_is_Some.
      destruct (decide (PL_ClusterRef (Spec p) = c)); naive_solver. }
    setoid_rewrite elem_of_cons. split.
    - intros [[?|[? ?]]|(p' & ? & ?)]; [by left|right; exists p; tauto|right; exists p'; tauto].
    - intros [?|(p' & [->|?] & ?)]; [tauto|tauto|right; by exists p']. }
  rewrite list_elem_of_fmap. split.
  - intros ([c u] & -> & Hin%elem_of_go_range). destruct (Hm ∅ c) as [[H|(p & Hp & Href & <-)] _]; [eauto|by destruct H|].
    apply G in Hp as (Hp & Hns & _). unfold ref in Href. apply andb_true_iff in Href as [He Hr].
    exists p. split_and!; [split; [done|done]|done..].
  - intros (p & [Hp Hns] & He & Hr & ->).
    destruct (Hm ∅ (PL_ClusterRef (Spec p))) as [_ [u Hu]].
    + right. exists p. split_and!; [by apply G|unfold ref; by rewrite He|done].
    + exists (PL_ClusterRef (Spec p), u). by rewrite elem_of_go_range.
Qed.

Lemma elem_of_addRequests st reqs req :
  (∀ r, r ∈ st.2 ↔ r ∈ st.1) →
  let st' := addRequests st reqs in
  (∀ r, r ∈ st'.2 ↔ r ∈ st'.1) ∧ (req ∈ st'.1 ↔ req ∈ st.1 ∨ req ∈ reqs) ∧ (NoDup st.1 → NoDup st'.1).
Proof.
  unfold addRequests. revert st; induction reqs as [|r reqs IH]; intros st Hst; cbn [foldl]; [set_solver|].
  destruct (IH (if decide (r ∈ st.2) then st else (st.1 ++ [r], {[r]} ∪ st.2))) as (I1 & I2 & I3).
  { case_decide; [done|]. intros x. cbn. rewrite elem_of_app, elem_of_union, Hst. set_solver. }
  split_and!; [done| |].
  - rewrite I2. case_decide as Hr; cbn; [|set_solver]. apply Hst in Hr. set_solver.
  - intros Hnd. apply I3. case_decide as Hr; cbn; [done|]. apply NoDup_app. rewrite Hst in Hr.
    split_and!; [done|set_solver|apply NoDup_singleton].
Qed.

Lemma elem_of_findProcessor (o : Processor) req :
  NoDup (findClustersForProcessor o) ∧
  (req ∈ findClustersForProcessor o ↔ req ∈ find "output-processor" o ∨ req ∈ find "input-processor" o).
Proof.
  unfold findClustersForProcessor.
  destruct (elem_of_addRequests ([], ∅) (find "output-processor" o) req) as (A1 & A2 & A3); [set_solver|].
  destruct (elem_of_addRequests _ (find "input-processor" o) req A1) as (_ & B2 & B3).
  split; [apply B3, A3; constructor|]. rewrite B2, A2. cbn. set_solver.
Qed.
End WatchLemmas.

(** ** Theorems *)

(** What a watch promises: a change of an object reconciles the cluster of every enabled
    pipeline that resolves it, and no cluster without such a pipeline. *)
Definition watches `{Rp : Reader PipelineSpec PipelineStatus} `{Dp : Stored PipelineSpec PipelineStatus}
    {S T} `{Ds : Stored S T} (resolve : Pipeline → res (list (Resource S T)))
    (finder : Resource S T → list NamespacedName) : Prop :=
  ∀ o, let ns := Namespace (Meta o) in
  object_of ns o → is_ok (rd_list (S:=PipelineSpec) (T:=PipelineStatus) ns everything) = true →
  (∀ p l, object_of ns p → PL_Enabled (Spec p) = true → resolve p = Ok l → o ∈ l →
     {| NN_Namespace := ns; NN_Name := PL_ClusterRef (Spec p) |} ∈ finder o) ∧
  (∀ req, req ∈ finder o → ∃ p, object_of ns p ∧ PL_Enabled (Spec p) = true ∧
     req = {| NN_Namespace := ns; NN_Name := PL_ClusterRef (Spec p) |} ∧
     ∀ l, resolve p = Ok l → o ∈ l).

Section WatchTheorems.
Context `{R : GoRuntime} `{Sel : Selectors} `{Lp : ReaderLaws PipelineSpec PipelineStatus}.

Lemma watches_resolve {S T} `{L : ReaderLaws S T} ty refs selectors :
  (∀ p, referencesOf p ty = Some (refs p, selectors p)) →
  watches (S:=S) (T:=T) (λ p, resolve (Namespace (Meta p)) (refs p) (selectors p)) (find ty).
Proof.
  intros Href o ns Ho Hok. split.
  - intros p l [Hp Hns] He Hl Hin. apply elem_of_find; [done|]. exists p. split_and!; [split; done|done| |done].
    apply resolve_chosen in Hl as [_ Hl]. apply Hl in Hin as [_ Hin]. by eapply references_spec.
  - intros req (p & [Hp Hns] & He & Hr & ->)%elem_of_find; [|done]. exists p. split_and!; [split; done|done|done|].
    intros l Hl. apply resolve_chosen in Hl as [_ Hl]. apply Hl. split; [by rewrite Hns|].
    by eapply references_spec in Hr.
Qed.

Context `{Lt : ReaderLaws TargetSpec TargetStatus} `{Ls : ReaderLaws SubscriptionSpec unit}
  `{Lo : ReaderLaws OutputSpec unit} `{Li : ReaderLaws InputSpec unit}
  `{Ln : ReaderLaws TunnelTargetPolicySpec unit}.

(** the watches agree with the resolution: when a target, subscription, output,
    input or tunnel target policy changes, exactly the clusters of the enabled
    pipelines that resolve it are reconciled; none is missed, and none is reconciled
    in vain. *)
Theorem watches_exact :
  watches resolveTargets findClustersForTarget ∧
  watches resolveSubscriptions findClustersForSubscription ∧
  watches resolveOutputs findClustersForOutput ∧
  watches resolveInputs findClustersForInput ∧
  watches resolveTunnelTargetPolicies findClustersForTunnelTargetPolicy.
Proof.
  split_and!.
  - by apply (watches_resolve "target" (λ p, PL_TargetRefs (Spec p)) (λ p, PL_TargetSelectors (Spec p))).
  - by apply (watches_resolve "subscription" (λ p, PL_SubscriptionRefs (Spec p))
      (λ p, PL_SubscriptionSelectors (Spec p))).
  - by apply (watches_resolve "output" (λ p, OutSel_OutputRefs (PL_Outputs (Spec p)))
      (λ p, OutSel_OutputSelectors (PL_Outputs (Spec p)))).
  - by apply (watches_resolve "input" (λ p, InSel_InputRefs (PL_Inputs (Spec p)))
      (λ p, InSel_InputSelectors (PL_Inputs (Spec p)))).
  - by apply (watches_resolve "tunnel-target-policy" (λ p, PL_TunnelTargetPolicyRefs (Spec p))
      (λ p, PL_TunnelTargetPolicySelectors (Spec p))).
Qed.

End WatchTheorems.

Section ProcessorWatch.
Context `{R : GoRuntime} `{Sel : Selectors} `{Lp : ReaderLaws PipelineSpec PipelineStatus}
  `{Lr : ReaderLaws ProcessorSpec unit}.

Lemma ordered_references ns refs selectors l (o : Processor) :
  resolveOrdered zeroProcessor ns refs selectors = Ok l → Name (Meta o) ≠ "" → o ∈ l →
  Name (Meta o) ∈ refs ∨ selected selectors (Labels (Meta o)).
Proof.
  intros (sel & -> & _ & _ & Hsel)%resolveOrdered_exact Hne [Hr|Hs]%elem_of_app.
  - left. apply list_elem_of_fmap in Hr as (ref & -> & Hin). unfold ref_or_zero in *.
    destruct (stored !! _) as [o|] eqn:E; cbn in *; [|done]. apply rd_key in E.
    apply (f_equal NN_Name) in E. cbn in E. by rewrite E.
  - right. by apply Hsel in Hs as (_ & ? & _).
Qed.

(** when a processor changes, every cluster with an enabled pipeline that resolves
    it, among its output or among its input processors, is reconciled, each once. *)
Theorem processor_watch_complete (o : Processor) (p : Pipeline) l :
  let ns := Namespace (Meta o) in
  is_ok (rd_list (S:=PipelineSpec) (T:=PipelineStatus) ns everything) = true →
  Name (Meta o) ≠ "" → object_of ns p → PL_Enabled (Spec p) = true →
  resolveOutputProcessors p = Ok l ∨ resolveInputProcessors p = Ok l → o ∈ l →
  NoDup (findClustersForProcessor o) ∧
  {| NN_Namespace := ns; NN_Name := PL_ClusterRef (Spec p) |} ∈ findClustersForProcessor o.
Proof.
  intros ns Hok Hne Hp He Hl Ho.
  destruct (elem_of_findProcessor o {| NN_Namespace := ns; NN_Name := PL_ClusterRef (Spec p) |}) as [Hnd ->].
  split; [done|]. destruct Hl as [Hl|Hl];
    pose proof (ordered_references _ _ _ _ o Hl Hne Ho) as Href; [left|right];
    (apply elem_of_find; [done|]); exists p; (split_and!; [done|done| |done]); by eapply references_spec.
Qed.

End ProcessorWatch.

Section ProfileWatch.
Context `{R : GoRuntime} `{Sel : Selectors} `{Lp : ReaderLaws PipelineSpec PipelineStatus}
  `{Lt : ReaderLaws TargetSpec TargetStatus}.

Lemma elem_of_findProfile (profile : TargetProfile) req l :
  rd_list (S:=TargetSpec) (T:=TargetStatus) (Namespace (Meta profile)) everything = Ok l →
  NoDup (findClustersForTargetProfile profile) ∧
  (req ∈ findClustersForTargetProfile profile ↔
   ∃ t, t ∈ l ∧ Target_Profile (Spec t) = Name (Meta profile) ∧ req ∈ find "target" t).
Proof.
  intros Hl. unfold findClustersForTargetProfile. rewrite Hl. clear Hl.
  assert (∀ st, (∀ r, r ∈ st.2 ↔ r ∈ st.1) →
    let st' := foldl (λ st target, if decide (Target_Profile (Spec target) ≠ Name (Meta profile)) then st
                                   else addRequests st (find "target" target)) st l in
    (NoDup st.1 → NoDup st'.1) ∧
    (req ∈ st'.1 ↔ req ∈ st.1 ∨ ∃ t, t ∈ l ∧ Target_Profile (Spec t) = Name (Meta profile) ∧ req ∈ find "target" t)) as H.
  { induction l as [|t l IH]; intros st Hst; cbn [foldl]; [set_solver|].
    case_decide as Hp.
    - destruct (IH st Hst) as [I1 I2]. split; [done|]. rewrite I2. set_solver.
    - destruct (elem_of_addRequests st (find "target" t) req Hst) as (A1 & A2 & A3).
      destruct (IH _ A1) as [I1 I2]. split; [auto|]. rewrite I2, A2. set_solver. }
  destruct (H ([], ∅)) as [H1 H2]; [set_solver|]. split; [apply H1; constructor|]. rewrite H2. cbn. set_solver.
Qed.

(** when a target profile changes, the clusters reconciled are exactly those with an
    enabled pipeline that resolves a target using the profile, each once.  (Pipelines
    that use the profile through a tunnel target policy are not looked for.) *)
Theorem profile_watch_exact (profile : TargetProfile) req :
  let ns := Namespace (Meta profile) in
  is_ok (rd_list (S:=PipelineSpec) (T:=PipelineStatus) ns everything) = true →
  is_ok (rd_list (S:=TargetSpec) (T:=TargetStatus) ns everything) = true →
  NoDup (findClustersForTargetProfile profile) ∧
  (req ∈ findClustersForTargetProfile profile ↔
   ∃ (t : Target) (p : Pipeline), object_of ns t ∧ Target_Profile (Spec t) = Name (Meta profile) ∧
     object_of ns p ∧ PL_Enabled (Spec p) = true ∧
     chosen ns (PL_TargetRefs (Spec p)) (PL_TargetSelectors (Spec p)) t ∧
     req = {| NN_Namespace := ns; NN_Name := PL_ClusterRef (Spec p) |}).
Proof.
  intros ns Hok [l Hl]%is_ok_spec. destruct (elem_of_findProfile profile req l Hl) as [Hnd ->]. split; [done|].
  pose proof (rd_list_spec _ _ _ Hl) as G. split.
  - intros (t & Ht & Hprof & Hin). apply G in Ht as (Ht & Hns & _). fold ns in Hns.
    apply elem_of_find in Hin as (p & [Hp Hpn] & He & Hr & ->); [|by rewrite Hns].
    exists t, p. rewrite Hns in *. split_and!; [by split|done|by split|done| |done].
    split; [by split|]. by eapply references_spec in Hr.
  - intros (t & p & [Ht Hns] & Hprof & Hp & He & [_ Hch] & ->). exists t.
    split_and!; [by apply G|done|]. apply elem_of_find; rewrite Hns; [done|].
    exists p. split_and!; [done..| |done]. by eapply references_spec.
Qed.
End ProfileWatch.

(** ** Witnesses *)

Definition c1_request : NamespacedName := {| NN_Namespace := "ns"; NN_Name := "c1" |}.

Section Demo.
#[local] Instance demo_pipelines : Reader PipelineSpec PipelineStatus := map_reader [demo_pipeline_cr].
#[local] Instance demo_target_cache : Reader TargetSpec TargetStatus := map_reader demo_targets.
#[local] Instance demo_processor_cache : Reader ProcessorSpec unit := map_reader demo_processors.
#[local] Instance demo_pipelines_stored : Stored PipelineSpec PipelineStatus := map_stored [demo_pipeline_cr].
#[local] Instance demo_targets_stored : Stored TargetSpec TargetStatus := map_stored demo_targets.

(** [t1] is selected by its label, [t3] by nothing. *)
Lemma watches_exact_witness :
  watches resolveTargets findClustersForTarget ∧
  findClustersForTarget (demo_target "t1" {["site" := "a"]}) = [c1_request] ∧
  findClustersForTarget (demo_target "t3" {["site" := "b"]}) = [].
Proof.
  split; [|split; vm_compute; reflexivity].
  exact (proj1 (watches_exact (Lp := map_reader_laws [demo_pipeline_cr]) (Lt := map_reader_laws demo_targets)
    (Ls := map_reader_laws []) (Lo := map_reader_laws []) (Li := map_reader_laws []) (Ln := map_reader_laws []))).
Defined.

Lemma processor_watch_complete_witness :
  c1_request ∈ findClustersForProcessor (demo_processor "b" {["site" := "a"]}).
Proof.
  destruct (processor_watch_complete (Lp := map_reader_laws [demo_pipeline_cr])
    (Lr := map_reader_laws demo_processors) (demo_processor "b" {["site" := "a"]}) demo_pipeline_cr
    [demo_processor "m" {["site" := "a"]}; zeroProcessor; demo_processor "m" {["site" := "a"]};
     demo_processor "b" {["site" := "a"]}; demo_processor "z" {["site" := "a"]}]) as [_ H].
  - reflexivity.
  - discriminate.
  - split; vm_compute; reflexivity.
  - reflexivity.
  - left. vm_compute. reflexivity.
  - right. right. right. left.
  - exact H.
Defined.

Definition demo_profile_cr : TargetProfile := MkResource (demo_meta "p" ∅)
  {| TP_CredentialsRef := ""; TP_TLS := None; TP_Timeout := 0; TP_RetryTimer := 0; TP_Encoding := "json";
     TP_Labels := ∅; TP_Proxy := ""; TP_GzipCompression := false; TP_TCPKeepAlive := None;
     TP_GRCPKeepAlive := None |} tt.

Lemma profile_watch_exact_witness :
  c1_request ∈ findClustersForTargetProfile demo_profile_cr.
Proof.
  destruct (profile_watch_exact (Lp := map_reader_laws [demo_pipeline_cr]) (Lt := map_reader_laws demo_targets)
    demo_profile_cr c1_request) as [_ [_ H]]; [reflexivity..|]. apply H.
  exists (demo_target "t2" {["site" := "a"]}), demo_pipeline_cr.
  split_and!; [split; vm_compute; reflexivity|reflexivity|split; vm_compute; reflexivity|reflexivity| |reflexivity].
  split; [split; vm_compute; reflexivity|]. left. left.
Defined.
End Demo.

(** A pipeline that uses a profile only through a tunnel target policy is not
    reconciled when the profile changes. *)
Definition tunnel_pipeline_cr : Pipeline := MkResource (demo_meta "tun" ∅)
  {| PL_ClusterRef := "c1"; PL_Enabled := true; PL_TargetSelectors := []; PL_TargetRefs := [];
     PL_TunnelTargetPolicySelectors := []; PL_TunnelTargetPolicyRefs := ["policy"];
     PL_SubscriptionSelectors := []; PL_SubscriptionRefs := [];
     PL_Outputs := PL_Outputs demo_pipeline_spec; PL_Inputs := PL_Inputs demo_pipeline_spec; PL_Labels := ∅ |}
  (Status demo_pipeline_cr).

Definition tunnel_policy_cr : TunnelTargetPolicy :=
  MkResource (demo_meta "policy" ∅) {| TTP_Match := None; TTP_Profile := "p" |} tt.

Example tunnel_profile_change_missed :
  let Rp : Reader PipelineSpec PipelineStatus := map_reader [tunnel_pipeline_cr] in
  let Rt : Reader TargetSpec TargetStatus := map_reader [] in
  let Rn : Reader TunnelTargetPolicySpec unit := map_reader [tunnel_policy_cr] in
  resolveTunnelTargetPolicies tunnel_pipeline_cr = Ok [tunnel_policy_cr] ∧
  TTP_Profile (Spec tunnel_policy_cr) = Name (Meta demo_profile_cr) ∧
  findClustersForTargetProfile demo_profile_cr = [].
Proof. vm_compute. split_and!; reflexivity. Qed.
