(* ===== verification/ClusterPlan.v ===== *)
(** From a cluster to its plan: the part of [Reconcile] of
    [internal/controller/cluster_controller.go] that lists the cluster's pipelines,
    resolves what they select into [PipelineData] and has the plan built.  The status
    of each pipeline, written on the way, is the sequence of the calls made. *)

From S2P Require Import Prelude GoLib Api GnmicTypes Distribute TargetConfigs OutputConfigs PlanBuilder.
From S2P Require Import ClusterClient Resolve Watch.
From Stdlib Require Import Ascii.
#[local] Open Scope Z_scope.

(** ** Credentials *)

(** What is read of a [corev1.Secret]. *)
Record SecretSpec := { Secret_Data : gmap string string }.

#[export] Instance secret_fetcher `{Rs : Reader SecretSpec unit} : CredentialsFetcher := {
  FetchCredentials namespace secretRef :=
    secret ← (rd_get {| NN_Namespace := namespace; NN_Name := secretRef |} : res (Resource SecretSpec unit));
    let data := Secret_Data (Spec secret) in
    Ok {| Cred_Username := default "" (data !! "username");
          Cred_Password := default "" (data !! "password");
          Cred_Token := default "" (data !! "token") |}
}.

(** ** Pipeline data *)

(** [namespace/name], and the name below a pipeline. *)
Definition nn {S T} (o : Resource S T) : string := Namespace (Meta o) +:+ Delimiter +:+ Name (Meta o).
Definition below {S T} (pipelineNN : string) (o : Resource S T) : string :=
  pipelineNN +:+ Delimiter +:+ Name (Meta o).

(** The loop that enters resolved objects into a map. *)
Definition keyed {S T V} (key : Resource S T → string) (value : Resource S T → V)
    (l : list (Resource S T)) : gmap string V :=
  foldl (λ m o, <[key o := value o]> m) ∅ l.

Definition names_set (l : list string) : gmap string unit := foldl (λ m n, <[n := ()]> m) ∅ l.

(** The calls that write the status of a pipeline. *)
Inductive StatusCall :=
| UpdatePipelineStatus (pipeline : Pipeline) (data : PipelineData)
| UpdatePipelineStatusWithError (pipeline : Pipeline) (reason message : string).

Section Collect.
Context `{R : GoRuntime} `{Y : YAML} `{Sel : Selectors} (ClusterDomain : string).
Context `{Rpl : Reader PipelineSpec PipelineStatus} `{Rt : Reader TargetSpec TargetStatus}
  `{Rtp : Reader TargetProfileSpec unit} `{Rsub : Reader SubscriptionSpec unit}
  `{Ro : Reader OutputSpec unit} `{Ri : Reader InputSpec unit} `{Rpr : Reader ProcessorSpec unit}
  `{Rtt : Reader TunnelTargetPolicySpec unit} `{Rsvc : Reader CoreServiceSpec unit}
  `{Rsec : Reader SecretSpec unit}.

(** A target's profile that does not exist ends the reconciliation. *)
Definition fetchTargetProfile (ns : string) (m : gmap string TargetProfileSpec) (e : string * unit)
    : res (gmap string TargetProfileSpec) :=
  tp ← (rd_get {| NN_Namespace := ns; NN_Name := e.1 |} : res TargetProfile);
  Ok (<[nn tp := Spec tp]> m).

Definition fetchTargetProfiles (ns : string) (names : list string) : res (gmap string TargetProfileSpec) :=
  foldl_res (fetchTargetProfile ns) ∅ (go_range (names_set names)).

(** A policy's profile that does not exist is skipped. *)
Definition fetchTunnelProfile (ns : string) (m : gmap string TargetProfileSpec) (e : string * unit)
    : res (gmap string TargetProfileSpec) :=
  if decide (is_Some (m !! (ns +:+ Delimiter +:+ e.1))) then Ok m else
  match (rd_get {| NN_Namespace := ns; NN_Name := e.1 |} : res TargetProfile) with
  | Ok tp => Ok (<[nn tp := Spec tp]> m)
  | Err ErrNotFound => Ok m
  | Err e => Err e
  end.

Definition fetchTunnelProfiles (ns : string) (m : gmap string TargetProfileSpec) (names : list string)
    : res (gmap string TargetProfileSpec) :=
  foldl_res (fetchTunnelProfile ns) m (go_range (names_set names)).

(** Addresses that cannot be resolved are left out. *)
Definition addOutputAddresses (pipelineNN : string) (m : gmap string (list string)) (output : Output)
    : gmap string (list string) :=
  if bool_decide (Output_Type (Spec output) ∈ OutputTypesWithServiceRef) then
    match resolveOutputServiceAddresses ClusterDomain output with
    | Ok (a :: l) => <[below pipelineNN output := a :: l]> m
    | _ => m
    end
  else m.

(** The body of the loop over the pipelines, up to [AddPipeline]: [None] when the
    pipeline has tunnel target policies and the cluster no tunnel. *)
Definition resolvePipeline (cluster : Cluster) (pipeline : Pipeline) : res (option PipelineData) :=
  let ns := Namespace (Meta pipeline) in
  let pipelineNN := nn pipeline in
  targets ← resolveTargets pipeline;
  profiles ← fetchTargetProfiles ns ((λ t : Target, Target_Profile (Spec t)) <$> targets);
  subscriptions ← resolveSubscriptions pipeline;
  outputs ← resolveOutputs pipeline;
  inputs ← resolveInputs pipeline;
  outputProcessors ← resolveOutputProcessors pipeline;
  inputProcessors ← resolveInputProcessors pipeline;
  policies ← resolveTunnelTargetPolicies pipeline;
  if bool_decide (policies ≠ []) && negb (bool_decide (is_Some (CS_GRPCTunnel (Spec cluster)))) then Ok None else
  profiles ← fetchTunnelProfiles ns profiles
    (filter (λ n, n ≠ "") ((λ p : TunnelTargetPolicy, TTP_Profile (Spec p)) <$> policies));
  Ok (Some {|
    PD_Targets := keyed nn id targets;
    PD_TargetProfiles := profiles;
    PD_Subscriptions := keyed nn Spec subscriptions;
    PD_Outputs := keyed (below pipelineNN) Spec outputs;
    PD_Inputs := keyed (below pipelineNN) Spec inputs;
    PD_OutputProcessors := keyed (below pipelineNN) Spec outputProcessors;
    PD_InputProcessors := keyed (below pipelineNN) Spec inputProcessors;
    PD_TunnelTargetPolicies := keyed nn Spec policies;
    PD_OutputProcessorOrder := below pipelineNN <$> outputProcessors;
    PD_InputProcessorOrder := below pipelineNN <$> inputProcessors;
    PD_ResolvedOutputAddresses := foldl (addOutputAddresses pipelineNN) ∅ outputs |}).

(** The plan builder, [pipelineDataMap] and the calls so far. *)
Abbreviation Collected := (PlanBuilder * gmap string PipelineData * list StatusCall)%type.

Definition missingTunnel (cluster : Cluster) (pipeline : Pipeline) : StatusCall :=
  UpdatePipelineStatusWithError pipeline "ClusterMissingTunnel"
    ("Cluster " +:+ Name (Meta cluster) +:+
     " does not have gRPC tunnel configured, but pipeline references tunnel target policies").

Definition collectOne (cluster : Cluster) (st : Collected) (pipeline : Pipeline) : res Collected :=
  let '(b, dataMap, calls) := st in
  if negb (PL_Enabled (Spec pipeline)) then Ok st else
  d ← resolvePipeline cluster pipeline;
  match d with
  | None => Ok (b, dataMap, calls ++ [missingTunnel cluster pipeline])
  | Some data => Ok (AddPipeline b (nn pipeline) data, <[nn pipeline := data]> dataMap,
                     calls ++ [UpdatePipelineStatus pipeline data])
  end.

Definition newBuilder (cluster : Cluster) : PlanBuilder :=
  WithClientTLS (NewPlanBuilder (Name (Meta cluster)) (Some secret_fetcher)) (ClientTLSConfigForCluster (Spec cluster)).

(** The two ranges of [Build] may differ in order, hence its own runtimes. *)
Definition collectPipelines (cluster : Cluster) : res Collected :=
  pipelines ← listPipelinesForCluster cluster;
  foldl_res (collectOne cluster) (newBuilder cluster, ∅, []) pipelines.

Definition buildClusterPlan (R1 R2 : GoRuntime) (cluster : Cluster)
    : res (gmap string PipelineData * list StatusCall * ApplyPlan) :=
  st ← collectPipelines cluster;
  let '(b, dataMap, calls) := st in
  match (Build R1 R2 b).2 with
  | Ok plan => Ok (dataMap, calls, plan)
  | Err e => Err e
  end.
End Collect.

(** ** Lemmas *)

(** A loop that enters objects with distinct keys holds exactly them. *)
Lemma keyed_lookup {S T V} (key : Resource S T → string) (value : Resource S T → V) l k v :
  (∀ o o', o ∈ l → o' ∈ l → key o = key o' → o = o') →
  keyed key value l !! k = Some v ↔ ∃ o, o ∈ l ∧ key o = k ∧ value o = v.
Proof.
  intros Hinj. unfold keyed.
  assert (∀ m : gmap string V, (∀ o, o ∈ l → m !! key o = None ∨ m !! key o = Some (value o)) →
    foldl (λ m o, <[key o := value o]> m) m l !! k = Some v ↔
    m !! k = Some v ∨ ∃ o, o ∈ l ∧ key o = k ∧ value o = v) as H.
  { induction l as [|o l IH]; intros m Hm; cbn [foldl]; [set_solver|].
    rewrite IH; [|intros o1 o2 H1 H2; apply Hinj; by right|].
    - rewrite lookup_insert_Some. setoid_rewrite elem_of_cons. split.
      + intros [[[<- <-]|[_ ?]]|(o' & ? & ?)]; [right; exists o; tauto|by left|right; exists o'; tauto].
      + intros [Hk|(o' & [->|?] & Hk & Hv)]; [|tauto|right; by exists o'].
        destruct (decide (key o = k)) as [<-|?]; [|tauto]. left. left. split; [done|].
        destruct (Hm o ltac:(by left)) as [E|E]; rewrite E in Hk; [done|]. by injection Hk.
    - intros o' Ho'. rewrite lookup_insert. case_decide as Hk.
      + right. f_equal. f_equal. apply Hinj; [by left|by right|done].
      + apply Hm. by right. }
  rewrite H by (intros; left; apply lookup_empty). rewrite lookup_empty. naive_solver.
Qed.

Lemma elem_of_names_set l n : is_Some (names_set l !! n) ↔ n ∈ l.
Proof.
  change (names_set l) with (add_names l ∅). rewrite lookup_add_names, lookup_empty.
  split; [intros [?|[? ?]]; done|by left].
Qed.

Lemma SplitNN_nn ns name : no_byte "/"%char ns = true → SplitNN (ns +:+ Delimiter +:+ name) = (ns, name).
Proof.
  intros H. unfold SplitNN, SplitN2. change (ns +:+ Delimiter +:+ name) with (ns +:+ String "/" name).
  by rewrite cut_first_app.
Qed.

Lemma nn_inj {S T} (o o' : Resource S T) :
  no_byte "/"%char (Namespace (Meta o)) = true → no_byte "/"%char (Namespace (Meta o')) = true →
  nn o = nn o' → key_of o = key_of o'.
Proof.
  intros H H' E. apply (f_equal SplitNN) in E. unfold nn in E. rewrite !SplitNN_nn in E by done.
  unfold key_of. by injection E as -> ->.
Qed.

Section Lemmas.
Context `{R : GoRuntime} `{Rtp : Reader TargetProfileSpec unit} `{Dtp : Stored TargetProfileSpec unit}
  `{Ltp : !ReaderLaws TargetProfileSpec unit}.

(** Every profile asked for is there. *)
Lemma fetchTargetProfiles_complete ns names m :
  fetchTargetProfiles ns names = Ok m → ∀ n, n ∈ names → is_Some (m !! (ns +:+ Delimiter +:+ n)).
Proof.
  intros H n Hn. apply elem_of_names_set in Hn as [[] Hn].
  refine (foldl_res_visited _ (λ e (m : gmap string TargetProfileSpec), is_Some (m !! (ns +:+ Delimiter +:+ e.1)))
    _ _ _ _ _ H (n, tt) _); [| |by apply elem_of_go_range].
  - intros m1 [n1 u] m2 _ (tp & Htp & [= <-])%bind_Ok. cbn in Htp. apply get_object in Htp as [[_ Hns] Hname].
    unfold nn. rewrite Hns, Hname. cbn. rewrite lookup_insert_eq. eauto.
  - intros m1 [n1 u] e m2 _ (tp & Htp & [= <-])%bind_Ok Hs. apply lookup_insert_is_Some'. by right.
Qed.

Lemma fetchTunnelProfiles_mono ns names m m' k :
  fetchTunnelProfiles ns m names = Ok m' → is_Some (m !! k) → is_Some (m' !! k).
Proof.
  intros H Hk. eapply (foldl_res_inv _ (λ m, is_Some (m !! k))); [exact Hk| |exact H].
  intros m1 e m2 _ H1. unfold fetchTunnelProfile. case_decide; [by intros [= <-]|].
  destruct (rd_get _) as [tp|[| |msg]]; intros [= <-]; [|done]. apply lookup_insert_is_Some'. by right.
Qed.
End Lemmas.

(** ** What is collected *)

Section Exact.
Context `{R : GoRuntime} `{Y : YAML} `{Sel : Selectors} (ClusterDomain : string).
Context `{Lpl : ReaderLaws PipelineSpec PipelineStatus} `{Lt : ReaderLaws TargetSpec TargetStatus}
  `{Ltp : ReaderLaws TargetProfileSpec unit} `{Rsub : Reader SubscriptionSpec unit}
  `{Ro : Reader OutputSpec unit} `{Ri : Reader InputSpec unit} `{Rpr : Reader ProcessorSpec unit}
  `{Ltt : ReaderLaws TunnelTargetPolicySpec unit} `{Rsvc : Reader CoreServiceSpec unit}
  `{Rsec : Reader SecretSpec unit}.

Definition chosen_target (p : Pipeline) (t : Target) : Prop :=
  chosen (Namespace (Meta p)) (PL_TargetRefs (Spec p)) (PL_TargetSelectors (Spec p)) t.

(** The pipeline asks for tunnel targets that the cluster cannot serve. *)
Definition skipped (cluster : Cluster) (p : Pipeline) : Prop :=
  CS_GRPCTunnel (Spec cluster) = None ∧
  ∃ policy : TunnelTargetPolicy, chosen (Namespace (Meta p)) (PL_TunnelTargetPolicyRefs (Spec p))
    (PL_TunnelTargetPolicySelectors (Spec p)) policy.

Lemma skipped_spec cluster p policies :
  resolveTunnelTargetPolicies p = Ok policies →
  bool_decide (policies ≠ []) && negb (bool_decide (is_Some (CS_GRPCTunnel (Spec cluster)))) = true ↔
  skipped cluster p.
Proof.
  intros [_ H]%resolve_chosen. rewrite andb_true_iff, negb_true_iff, bool_decide_eq_true, bool_decide_eq_false.
  rewrite <- eq_None_not_Some. unfold skipped. setoid_rewrite <- H. destruct policies as [|x l]; [set_solver|].
  split; [intros [_ ?]; split; [done|exists x; by left]|by intros [? _]].
Qed.

Lemma resolvePipeline_spec cluster p d :
  no_byte "/"%char (Namespace (Meta p)) = true →
  resolvePipeline ClusterDomain cluster p = Ok d →
  match d with
  | None => skipped cluster p
  | Some data => ¬ skipped cluster p ∧
      (∀ k t, PD_Targets data !! k = Some t ↔ chosen_target p t ∧ nn t = k) ∧
      ∀ k t, PD_Targets data !! k = Some t →
        is_Some (PD_TargetProfiles data !! profile_key k (Target_Profile (Spec t)))
  end.
Proof.
  intros Hns. unfold resolvePipeline.
  intros (ts & Ht & (profiles & Hp & (subs & _ & (outs & _ & (ins & _ & (op & _ & (ip & _ & (pols & Hpol & H)
    %bind_Ok)%bind_Ok)%bind_Ok)%bind_Ok)%bind_Ok)%bind_Ok)%bind_Ok)%bind_Ok.
  pose proof (skipped_spec cluster p pols Hpol) as Hskip.
  destruct (bool_decide (pols ≠ []) && _) eqn:E; [injection H as <-; by apply Hskip|].
  apply bind_Ok in H as (profiles' & Hp' & [= <-]). cbn. apply resolve_chosen in Ht as [_ Ht].
  assert (∀ t, t ∈ ts → Namespace (Meta t) = Namespace (Meta p)) as Htns by (intros t H; by apply Ht in H as [[_ ?] _]).
  assert (∀ k t, keyed nn id ts !! k = Some t ↔ t ∈ ts ∧ nn t = k) as Hk.
  { intros k t. rewrite keyed_lookup; [unfold id; naive_solver|]. intros o o' Ho Ho' Hn.
    apply nn_inj in Hn; [|by rewrite Htns..]. apply Ht in Ho as [[Ho _] _]. apply Ht in Ho' as [[Ho' _] _].
    rewrite Hn, Ho' in Ho. by injection Ho. }
  split_and!.
  - rewrite <- Hskip. done.
  - intros k t. rewrite Hk, Ht. done.
  - intros k t [Hin <-]%Hk. eapply fetchTunnelProfiles_mono; [exact Hp'|].
    unfold profile_key, nn. rewrite Htns, SplitNN_nn by done. cbn.
    eapply fetchTargetProfiles_complete; [exact Hp|]. apply list_elem_of_fmap. by exists t.
Qed.

(** The status call each pipeline ends with. *)
Definition status_call (cluster : Cluster) (p : Pipeline) : StatusCall :=
  match resolvePipeline ClusterDomain cluster p with
  | Ok (Some data) => UpdatePipelineStatus p data
  | _ => missingTunnel cluster p
  end.

Lemma collect_exact cluster ps b dataMap calls :
  (∀ p, p ∈ ps → PL_Enabled (Spec p) = true) →
  (∀ p p', p ∈ ps → p' ∈ ps → nn p = nn p' → p = p') →
  foldl_res (collectOne ClusterDomain cluster) (newBuilder cluster, ∅, []) ps = Ok (b, dataMap, calls) →
  fresh b ∧ PB_pipelines b = dataMap ∧ calls = status_call cluster <$> ps ∧
  (∀ p, p ∈ ps → is_ok (resolvePipeline ClusterDomain cluster p) = true) ∧
  ∀ k d, dataMap !! k = Some d ↔ ∃ p, p ∈ ps ∧ nn p = k ∧ resolvePipeline ClusterDomain cluster p = Ok (Some d).
Proof.
  revert b dataMap calls. induction ps as [|p ps IH] using rev_ind; intros b dataMap calls Hen Hinj.
  { intros [= <- <- <-]. split_and!; [done..|set_solver|]. intros k d. rewrite lookup_empty. set_solver. }
  rewrite foldl_res_app. destruct (foldl_res _ _ ps) as [[[b1 m1] c1]|] eqn:E; [|done].
  destruct (IH b1 m1 c1) as (I1 & I2 & -> & I4 & I5); [set_solver|set_solver|done|]. clear IH E.
  cbn. rewrite (Hen p) by set_solver. cbn. destruct (resolvePipeline _ _ p) as [[data|]|] eqn:Ep; cbn; [..|done];
    intros [= <- <- <-]; rewrite fmap_app; cbn; unfold status_call at 3; rewrite Ep.
  - split_and!; [done|cbn; by rewrite I2|done| |].
    + intros q [Hq| ->%list_elem_of_singleton]%elem_of_app; [auto|by rewrite Ep].
    + intros k d. rewrite lookup_insert_Some, I5. split.
      * intros [[<- <-]|[_ (q & Hq & H)]]; [exists p|exists q]; set_solver.
      * intros (q & [Hq| ->%list_elem_of_singleton]%elem_of_app & <- & Hd); [|left; split; [done|congruence]].
        destruct (decide (nn p = nn q)) as [Hn|Hn]; [|right; split; [done|by exists q]].
        apply Hinj in Hn as <-; [|set_solver..]. left. split; [done|congruence].
  - split_and!; [done..| |].
    + intros q [Hq| ->%list_elem_of_singleton]%elem_of_app; [auto|by rewrite Ep].
    + intros k d. rewrite I5. split; [intros (q & Hq & H); exists q; set_solver|].
      intros (q & [Hq| ->%list_elem_of_singleton]%elem_of_app & Hk & Hd); [by exists q|congruence].
Qed.

(** The pipelines of a cluster. *)
Definition pipeline_of (cluster : Cluster) (p : Pipeline) : Prop :=
  object_of (Namespace (Meta cluster)) p ∧ PL_ClusterRef (Spec p) = Name (Meta cluster) ∧
  PL_Enabled (Spec p) = true.

Lemma listPipelines_spec cluster ps :
  listPipelinesForCluster cluster = Ok ps → ∀ p, p ∈ ps ↔ pipeline_of cluster p.
Proof.
  intros (l & Hl & [= <-])%bind_Ok p. pose proof (rd_list_spec _ _ _ Hl p) as G.
  rewrite list_elem_of_filter, G. unfold pipeline_of, object_of, everything. tauto.
Qed.

Lemma listPipelines_once cluster ps : listPipelinesForCluster cluster = Ok ps → NoDup ps.
Proof. intros (l & Hl & [= <-])%bind_Ok. by eapply NoDup_filter, rd_list_once. Qed.

Lemma plan_covers_targets_Ok (Ra Rb : GoRuntime) cluster dataMap calls plan :
  no_byte "/"%char (Namespace (Meta cluster)) = true →
  buildClusterPlan (R := R) ClusterDomain Ra Rb cluster = Ok (dataMap, calls, plan) →
  (∀ k, is_Some (AP_Targets plan !! k) ↔
    ∃ p t, pipeline_of cluster p ∧ ¬ skipped cluster p ∧ chosen_target p t ∧ nn t = k) ∧
  ∃ ps, NoDup ps ∧ (∀ p, p ∈ ps ↔ pipeline_of cluster p) ∧ calls = status_call cluster <$> ps ∧
    ∀ p, p ∈ ps → (status_call cluster p = missingTunnel cluster p ↔ skipped cluster p).
Proof.
  intros Hns ([[b m] c] & (ps & Hps & Hc)%bind_Ok & HB)%bind_Ok.
  pose proof (listPipelines_spec _ _ Hps) as Hpl.
  assert (∀ p, p ∈ ps → no_byte "/"%char (Namespace (Meta p)) = true) as Hpns.
  { intros p [[_ ->] _]%Hpl. done. }
  destruct (collect_exact cluster ps b m c) as (Hf & Hb & -> & Hok & Hm).
  { intros p H. by apply Hpl in H as (_ & _ & ?). }
  { intros p p' H H' Hn. apply nn_inj in Hn; [|by apply Hpns..].
    apply Hpl in H as [[H _] _]. apply Hpl in H' as [[H' _] _]. rewrite Hn, H' in H. by injection H. }
  { exact Hc. }
  destruct (Build Ra Rb b) as [b' [plan'|]] eqn:EB; [|done]. cbn in HB. injection HB as <- <- ->.
  apply Build_fields in EB. cbn zeta in EB. apply buildAll_fields in EB as (Ht & _). cbn in Ht.
  apply absent_loop_spec in Ht as [Hs Hcomp]. split.
  - intros k. split.
    + intros [w Hw]. destruct (Hs k w Hw) as (pd & t & Hpd & Hin%elem_of_go_range & _).
      apply elem_of_pipelines in Hpd as [q Hq]. rewrite Hb in Hq. apply Hm in Hq as (p & Hp & _ & Hd).
      apply resolvePipeline_spec in Hd as (Hsk & Htg & _); [|by apply Hpns].
      apply Htg in Hin as [Hch Hk]. exists p, t. split_and!; [by apply Hpl|done..].
    + intros (p & t & Hp & Hsk & Hch & Hk). apply Hpl in Hp. pose proof (Hok p Hp) as Hres.
      apply is_ok_spec in Hres as [d Hd]. pose proof (resolvePipeline_spec _ _ _ (Hpns p Hp) Hd) as Hspec.
      destruct d as [pd|]; [|done]. destruct Hspec as (_ & Htg & Hprof).
      assert (PD_Targets pd !! k = Some t) as Hin by by apply Htg.
      destruct (Hcomp pd k t) as [H|HF]; [|by apply elem_of_go_range|done|].
      * apply elem_of_pipelines. exists (nn p). rewrite Hb. apply Hm. by exists p.
      * unfold target_value in HF. cbn in HF. destruct (Hprof k t Hin) as [prof Eprof]. rewrite Eprof in HF.
        apply bind_Ok in HF as (? & _ & [=]).
  - exists ps. split_and!; [by eapply listPipelines_once|done|done|]. intros p Hp. unfold status_call.
    pose proof (Hok p Hp) as Hres. apply is_ok_spec in Hres as [d Hd]. rewrite Hd.
    pose proof (resolvePipeline_spec _ _ _ (Hpns p Hp) Hd) as Hspec.
    destruct d as [pd|]; [|done]. destruct Hspec as (Hsk & _). by split.
Qed.

(** C14: the plan of a cluster covers what its pipelines ask for: when a reconciliation
    gets as far as a plan, the plan configures exactly the targets that some enabled
    pipeline of the cluster references or selects, the pipelines with tunnel target
    policies on a cluster without a tunnel aside; no target is lost for want of its
    profile; and the status calls it makes are one for each enabled pipeline of the
    cluster, none for another and none twice, in the order of the list, an error exactly
    for the pipelines left aside. *)
Theorem plan_covers_targets (Ra Rb : GoRuntime) cluster dataMap calls plan :
  no_byte "/"%char (Namespace (Meta cluster)) = true →
  buildClusterPlan (R := R) ClusterDomain Ra Rb cluster = Ok (dataMap, calls, plan) →
  (∀ k, is_Some (AP_Targets plan !! k) ↔
    ∃ p t, pipeline_of cluster p ∧ ¬ skipped cluster p ∧ chosen_target p t ∧ nn t = k) ∧
  ∃ ps, NoDup ps ∧ (∀ p, p ∈ ps ↔ pipeline_of cluster p) ∧ calls = status_call cluster <$> ps ∧
    ∀ p, p ∈ ps → (status_call cluster p = missingTunnel cluster p ↔ skipped cluster p).
Proof. exact (plan_covers_targets_Ok Ra Rb cluster dataMap calls plan). Qed.

(** The assignment recorded in the plan of a cluster is consistent: its pipelines read one
    and the same status of a target, and every target has its profile. *)
Lemma plan_current_consistent (Ra Rb : GoRuntime) cluster dataMap calls plan :
  no_byte "/"%char (Namespace (Meta cluster)) = true →
  buildClusterPlan (R := R) ClusterDomain Ra Rb cluster = Ok (dataMap, calls, plan) → current_consistent plan.
Proof.
  intros Hns ([[b m] c] & (ps & Hps & Hc)%bind_Ok & HB)%bind_Ok.
  pose proof (listPipelines_spec _ _ Hps) as Hpl.
  assert (∀ p, p ∈ ps → Namespace (Meta p) = Namespace (Meta cluster)) as Hpns by (by intros p [[_ ->] _]%Hpl).
  destruct (collect_exact cluster ps b m c) as (_ & Hb & _ & _ & Hm).
  { intros p H. by apply Hpl in H as (_ & _ & ?). }
  { intros p p' H H' Hn. apply nn_inj in Hn; [|by rewrite Hpns..].
    apply Hpl in H as [[H _] _]. apply Hpl in H' as [[H' _] _]. rewrite Hn, H' in H. by injection H. }
  { exact Hc. }
  assert (∀ q pd k t, PB_pipelines b !! q = Some pd → PD_Targets pd !! k = Some t →
    nn t = k ∧ object_of (Namespace (Meta cluster)) t ∧ is_Some (PD_TargetProfiles pd !! profile_key k (Target_Profile (Spec t)))) as Hspec.
  { intros q pd k t Hq Ht. rewrite Hb in Hq. apply Hm in Hq as (p & Hp & _ & Hd).
    apply resolvePipeline_spec in Hd as (_ & Htg & Hprof); [|by rewrite Hpns].
    split_and!; [by apply Htg in Ht as [_ ?]| |by apply Hprof]. rewrite <- (Hpns p Hp). by apply Htg in Ht as [[? _] _]. }
  destruct (Build Ra Rb b) as [b' [plan'|]] eqn:EB; [|done]. cbn in HB. injection HB as <- <- ->.
  refine (build_current_consistent Ra Rb b b' plan _ EB). split.
  - intros q pd k t Hq Ht. by apply (Hspec q pd k t).
  - intros q q' pd pd' k t t' Hq Hq' Ht Ht'. destruct (Hspec _ _ _ _ Hq Ht) as (Hn & Ho & _).
    destruct (Hspec _ _ _ _ Hq' Ht') as (Hn' & Ho' & _). f_equal.
    assert (nn t = nn t') as E%nn_inj by congruence; [|by destruct Ho as [_ ->]|by destruct Ho' as [_ ->]].
    destruct Ho as [Ho _], Ho' as [Ho' _]. rewrite E, Ho' in Ho. by injection Ho.
Qed.
End Exact.

(** ** Witness *)

Definition demo_cluster : Cluster := MkResource (demo_meta "c1" ∅)
  {| CS_Image := "gnmic"; CS_Replicas := Some 2; CS_API := None; CS_ClientTLS := None;
     CS_GRPCTunnel := None; CS_Resources := {| Requests := ∅; Limits := ∅ |}; CS_Env := [];
     CS_TargetDistribution := None |}
  {| CSt_Conditions := []; CSt_ReadyReplicas := 0; CSt_Selector := ""; CSt_PipelinesCount := 0;
     CSt_TargetsCount := 0; CSt_UnassignedTargets := 0; CSt_SubscriptionsCount := 0;
     CSt_InputsCount := 0; CSt_OutputsCount := 0 |}.

Section Demo.
#[local] Instance demo_profiles : Reader TargetProfileSpec unit := map_reader [demo_profile_cr].
#[local] Instance no_subscriptions : Reader SubscriptionSpec unit := map_reader [].
#[local] Instance no_outputs : Reader OutputSpec unit := map_reader [].
#[local] Instance no_inputs : Reader InputSpec unit := map_reader [].
#[local] Instance no_policies : Reader TunnelTargetPolicySpec unit := map_reader [].
#[local] Instance no_services : Reader CoreServiceSpec unit := map_reader [].
#[local] Instance no_secrets : Reader SecretSpec unit := map_reader [].
#[local] Existing Instances demo_pipelines demo_target_cache demo_processor_cache.
#[local] Existing Instances demo_yaml.

Definition demo_cluster_plan :=
  buildClusterPlan (R := go_reference) "cluster.local" go_reference go_reversed demo_cluster.

(** [t1] is selected by its label only. *)
Lemma plan_covers_targets_witness :
  ∃ x, demo_cluster_plan = Ok x ∧ is_Some (AP_Targets x.2 !! "ns/t1").
Proof.
  assert (is_ok demo_cluster_plan = true) as Hok by (vm_compute; reflexivity).
  destruct demo_cluster_plan as [[[dataMap calls] plan]|] eqn:E; [|discriminate].
  eexists. split; [reflexivity|].
  destruct (plan_covers_targets (R := go_reference) "cluster.local"
    (Lpl := map_reader_laws [demo_pipeline_cr]) (Lt := map_reader_laws demo_targets)
    (Ltp := map_reader_laws [demo_profile_cr]) (Ltt := map_reader_laws [])
    go_reference go_reversed demo_cluster dataMap calls plan eq_refl E) as [H _].
  apply (H "ns/t1"). exists demo_pipeline_cr, (demo_target "t1" {["site" := "a"]}). split_and!.
  - split; [split; vm_compute; reflexivity|split; reflexivity].
  - intros [_ (policy & [[Hp _] _])]. discriminate.
  - split; [split; vm_compute; reflexivity|]. right. exists (by_label "site" "a").
    eexists. split; [left|]. split; [reflexivity|]. split; [reflexivity|]. vm_compute. reflexivity.
  - reflexivity.
Defined.
End Demo.
