(* ===== verification/PipelineStatus.v ===== *)
(** The status of a pipeline: what the cluster controller computes and writes
    ([updatePipelineStatus] and its helpers in
    [internal/controller/cluster_controller.go]), and what the pipeline controller
    writes ([internal/controller/pipeline_controller.go]). *)

From S2P Require Import Prelude GoLib Api GnmicTypes Resolve ClusterPlan.
#[local] Open Scope Z_scope.

(** ** The computed status *)

Definition PipelineConditionTypeReady := "Ready".
Definition PipelineConditionTypeResourcesResolved := "ResourcesResolved".

Definition some_entry {V} (m : gmap string V) : bool := bool_decide (0 < size m)%nat.
Definition len {V} (m : gmap string V) : Z := Z.of_nat (size m).

Definition pipelineReady (d : PipelineData) : bool :=
  ((some_entry (PD_Targets d) && some_entry (PD_Subscriptions d)) ||
   (some_entry (PD_TunnelTargetPolicies d) && some_entry (PD_Subscriptions d)) ||
   some_entry (PD_Inputs d)) && some_entry (PD_Outputs d).

Definition missingParts (d : PipelineData) : list string :=
  (if negb (some_entry (PD_Outputs d)) then ["outputs"] else []) ++
  (if negb (some_entry (PD_Targets d)) && negb (some_entry (PD_Inputs d)) then ["targets or inputs"] else []) ++
  (if some_entry (PD_Targets d) && negb (some_entry (PD_Subscriptions d)) then ["subscriptions"] else []).

Definition readyCondition (generation now : Z) (d : PipelineData) : Condition := {|
  Cond_Type := PipelineConditionTypeReady;
  Cond_Status := if pipelineReady d then ConditionTrue else ConditionFalse;
  Cond_ObservedGeneration := generation;
  Cond_LastTransitionTime := now;
  Cond_Reason := if pipelineReady d then "PipelineReady" else "PipelineIncomplete";
  Cond_Message :=
    if pipelineReady d then
      "Pipeline has " +:+ Itoa (len (PD_Targets d)) +:+ " targets, " +:+
      Itoa (len (PD_TunnelTargetPolicies d)) +:+ " tunnel policies, " +:+
      Itoa (len (PD_Subscriptions d)) +:+ " subscriptions, " +:+
      Itoa (len (PD_Inputs d)) +:+ " inputs, " +:+ Itoa (len (PD_Outputs d)) +:+ " outputs"
    else "Pipeline missing: " +:+ Join (missingParts d) ", " |}.

Definition resolvedCondition (generation now : Z) : Condition := {|
  Cond_Type := PipelineConditionTypeResourcesResolved;
  Cond_Status := ConditionTrue;
  Cond_ObservedGeneration := generation;
  Cond_LastTransitionTime := now;
  Cond_Reason := "ResourcesResolved";
  Cond_Message := "All referenced resources were successfully resolved" |}.

(** The first old condition of the same type and status gives its transition time. *)
Definition preserveTransition (old : list Condition) (c : Condition) : Condition :=
  match List.find (λ o, bool_decide (Cond_Type o = Cond_Type c) && bool_decide (Cond_Status o = Cond_Status c)) old with
  | Some o => {| Cond_Type := Cond_Type c; Cond_Status := Cond_Status c;
                 Cond_ObservedGeneration := Cond_ObservedGeneration c;
                 Cond_LastTransitionTime := Cond_LastTransitionTime o;
                 Cond_Reason := Cond_Reason c; Cond_Message := Cond_Message c |}
  | None => c
  end.

Definition newPipelineStatus (now : Z) (pipeline : Pipeline) (d : PipelineData) : PipelineStatus := {|
  PS_Status := if pipelineReady d then "Active" else "Incomplete";
  PS_TargetsCount := to_int32 (len (PD_Targets d));
  PS_SubscriptionsCount := to_int32 (len (PD_Subscriptions d));
  PS_InputsCount := to_int32 (len (PD_Inputs d));
  PS_OutputsCount := to_int32 (len (PD_Outputs d));
  PS_TunnelTargetPoliciesCount := to_int32 (len (PD_TunnelTargetPolicies d));
  PS_Conditions := preserveTransition (PS_Conditions (Status pipeline)) <$>
    [readyCondition (Generation (Meta pipeline)) now d; resolvedCondition (Generation (Meta pipeline)) now] |}.

Definition errorPipelineStatus (now : Z) (pipeline : Pipeline) (reason message : string) : PipelineStatus := {|
  PS_Status := "Error";
  PS_TargetsCount := 0; PS_SubscriptionsCount := 0; PS_InputsCount := 0; PS_OutputsCount := 0;
  PS_TunnelTargetPoliciesCount := 0;
  PS_Conditions := [{| Cond_Type := PipelineConditionTypeReady; Cond_Status := ConditionFalse;
                       Cond_ObservedGeneration := Generation (Meta pipeline); Cond_LastTransitionTime := now;
                       Cond_Reason := reason; Cond_Message := message |}] |}.

Definition conditionEqual (a b : Condition) : bool :=
  bool_decide (Cond_Type a = Cond_Type b ∧ Cond_Status a = Cond_Status b ∧
               Cond_Reason a = Cond_Reason b ∧ Cond_Message a = Cond_Message b).

Fixpoint conditionsEqual (a b : list Condition) : bool :=
  match a, b with
  | [], [] => true
  | x :: a, y :: b => conditionEqual x y && conditionsEqual a b
  | _, _ => false
  end.

Definition pipelineStatusEqual (a b : PipelineStatus) : bool :=
  bool_decide (PS_Status a = PS_Status b ∧ PS_TargetsCount a = PS_TargetsCount b ∧
               PS_SubscriptionsCount a = PS_SubscriptionsCount b ∧ PS_InputsCount a = PS_InputsCount b ∧
               PS_OutputsCount a = PS_OutputsCount b ∧
               PS_TunnelTargetPoliciesCount a = PS_TunnelTargetPoliciesCount b) &&
  conditionsEqual (PS_Conditions a) (PS_Conditions b).

(** ** Writing it *)

(** The clock and the API server, as these functions use them. *)
Class PipelineClient (W : Type) : Type := {
  pc_now : W → W * Z;
  pc_get : NamespacedName → W → W * res Pipeline;
  pc_getCluster : NamespacedName → W → W * res Cluster;
  pc_updateStatus : Pipeline → W → W * res unit
}.

Section Write.
Context {W : Type} `{C : PipelineClient W}.

Definition with_pipeline_status (p : Pipeline) (s : PipelineStatus) : Pipeline := MkResource (Meta p) (Spec p) s.

(** At most [attempts] times: read again, write; [exhausted] when all conflict.  The
    wrapping of the errors keeps what they are. *)
Fixpoint writeStatus (attempts : nat) (exhausted : res unit) (key : NamespacedName) (s : PipelineStatus) (w : W)
    : W * res unit :=
  match attempts with
  | O => (w, exhausted)
  | S attempts =>
      let '(w, r) := pc_get key w in
      match r with
      | Err e => (w, Err e)
      | Ok pipeline =>
          let '(w, r) := pc_updateStatus (with_pipeline_status pipeline s) w in
          match r with
          | Err ErrConflict => writeStatus attempts exhausted key s w
          | r => (w, r)
          end
      end
  end.

Definition updatePipelineStatus (pipeline : Pipeline) (d : PipelineData) (w : W) : W * res unit :=
  let '(w, now) := pc_now w in
  let newStatus := newPipelineStatus now pipeline d in
  if pipelineStatusEqual (Status pipeline) newStatus then (w, Ok tt)
  else writeStatus 5 (Ok tt) (key_of pipeline) newStatus w.

Definition updatePipelineStatusWithError (pipeline : Pipeline) (reason message : string) (w : W) : W * res unit :=
  let '(w, now) := pc_now w in
  writeStatus 5 (Err (ErrMsg "failed to update pipeline status after retries: conflict"))
    (key_of pipeline) (errorPipelineStatus now pipeline reason message) w.

(** [Reconcile] of the pipeline controller; the result is the delay in seconds. *)
Definition with_state (s : PipelineStatus) (state : string) : PipelineStatus := {|
  PS_Status := state; PS_TargetsCount := PS_TargetsCount s; PS_SubscriptionsCount := PS_SubscriptionsCount s;
  PS_InputsCount := PS_InputsCount s; PS_OutputsCount := PS_OutputsCount s;
  PS_TunnelTargetPoliciesCount := PS_TunnelTargetPoliciesCount s; PS_Conditions := PS_Conditions s |}.

Definition PipelineReconcile (req : NamespacedName) (w : W) : W * res Z :=
  let '(w, r) := pc_get req w in
  match r with
  | Err ErrNotFound => (w, Ok 0)
  | Err e => (w, Err e)
  | Ok pipeline =>
      let '(w, r) := pc_getCluster {| NN_Namespace := Namespace (Meta pipeline);
                                      NN_Name := PL_ClusterRef (Spec pipeline) |} w in
      match r with
      | Err ErrNotFound =>
          let '(w, r) := pc_updateStatus
            (with_pipeline_status pipeline (with_state (Status pipeline) "Error: Cluster not found")) w in
          match r with Err e => (w, Err e) | Ok _ => (w, Ok 30) end
      | Err e => (w, Err e)
      | Ok _ =>
          let newStatus := if PL_Enabled (Spec pipeline) then "Ready" else "Disabled" in
          if bool_decide (PS_Status (Status pipeline) ≠ newStatus) then
            let '(w, r) := pc_updateStatus
              (with_pipeline_status pipeline (with_state (Status pipeline) newStatus)) w in
            match r with Err e => (w, Err e) | Ok _ => (w, Ok 0) end
          else (w, Ok 0)
      end
  end.
End Write.

(** ** Lemmas *)

Lemma some_entry_spec {V} (m : gmap string V) : some_entry m = true ↔ m ≠ ∅.
Proof. unfold some_entry. rewrite bool_decide_eq_true, <- map_size_non_empty_iff. lia. Qed.

(** The pipeline has a source of data and an output. *)
Definition ready (d : PipelineData) : Prop :=
  ((PD_Targets d ≠ ∅ ∧ PD_Subscriptions d ≠ ∅) ∨ (PD_TunnelTargetPolicies d ≠ ∅ ∧ PD_Subscriptions d ≠ ∅) ∨
   PD_Inputs d ≠ ∅) ∧ PD_Outputs d ≠ ∅.

Lemma pipelineReady_spec d : pipelineReady d = true ↔ ready d.
Proof. unfold pipelineReady, ready. rewrite andb_true_iff, !orb_true_iff, !andb_true_iff, !some_entry_spec. tauto. Qed.

Lemma missingParts_some d : pipelineReady d = false → missingParts d ≠ [].
Proof.
  unfold pipelineReady, missingParts.
  by destruct (some_entry (PD_Targets d)), (some_entry (PD_Subscriptions d)), (some_entry (PD_TunnelTargetPolicies d)),
    (some_entry (PD_Inputs d)), (some_entry (PD_Outputs d)).
Qed.

(** What two statuses are compared by: all but the times and the generations. *)
Definition erase_condition (c : Condition) : Condition := {|
  Cond_Type := Cond_Type c; Cond_Status := Cond_Status c; Cond_ObservedGeneration := 0;
  Cond_LastTransitionTime := 0; Cond_Reason := Cond_Reason c; Cond_Message := Cond_Message c |}.

Definition erase (s : PipelineStatus) : PipelineStatus := {|
  PS_Status := PS_Status s; PS_TargetsCount := PS_TargetsCount s; PS_SubscriptionsCount := PS_SubscriptionsCount s;
  PS_InputsCount := PS_InputsCount s; PS_OutputsCount := PS_OutputsCount s;
  PS_TunnelTargetPoliciesCount := PS_TunnelTargetPoliciesCount s;
  PS_Conditions := erase_condition <$> PS_Conditions s |}.

Lemma conditionsEqual_spec a b : conditionsEqual a b = true ↔ erase_condition <$> a = erase_condition <$> b.
Proof.
  revert b; induction a as [|x a IH]; intros [|y b]; cbn; try done.
  rewrite andb_true_iff, IH. unfold conditionEqual, erase_condition. rewrite bool_decide_eq_true. split.
  - intros [(-> & -> & -> & ->) ->]. done.
  - intros [= -> -> -> -> Hab]. by split.
Qed.

Lemma pipelineStatusEqual_spec a b : pipelineStatusEqual a b = true ↔ erase a = erase b.
Proof.
  unfold pipelineStatusEqual, erase. rewrite andb_true_iff, bool_decide_eq_true, conditionsEqual_spec. split.
  - intros [(-> & -> & -> & -> & -> & ->) ->]. done.
  - intros [= -> -> -> -> -> -> Hc]. by split_and!.
Qed.

Lemma erase_preserve old c : erase_condition (preserveTransition old c) = erase_condition c.
Proof. unfold preserveTransition. by destruct (List.find _ old). Qed.

(** The erased status depends on the data alone. *)
Lemma erase_new now p now' p' d : erase (newPipelineStatus now p d) = erase (newPipelineStatus now' p' d).
Proof. unfold erase, newPipelineStatus. cbn. by rewrite !erase_preserve. Qed.

(** A condition keeps the time of an old one of its type and status. *)
Lemma transition_spec old now c :
  Cond_LastTransitionTime c = now → let c' := preserveTransition old c in
  (∃ o, o ∈ old ∧ Cond_Type o = Cond_Type c' ∧ Cond_Status o = Cond_Status c' ∧
        Cond_LastTransitionTime c' = Cond_LastTransitionTime o) ∨
  (Cond_LastTransitionTime c' = now ∧
   ∀ o, o ∈ old → Cond_Type o = Cond_Type c' → Cond_Status o ≠ Cond_Status c').
Proof.
  intros Hc. cbn. unfold preserveTransition.
  match goal with |- context [List.find ?f old] =>
    pose proof (find_first f old) as F; destruct (List.find f old) as [o|] end.
  - left. destruct F as (i & Hi & Ho & _). apply andb_true_iff in Ho as [H1%bool_decide_eq_true H2%bool_decide_eq_true].
    exists o. split_and!; [by eapply list_elem_of_lookup_2|done..].
  - right. split; [done|]. intros o Ho Ht Hs. specialize (F o Ho). cbn in F.
    by rewrite Ht, Hs, !bool_decide_true in F.
Qed.

(** ** The store *)

(** What the API server documents: reads change nothing, an update that succeeds stores
    the status. *)
Class PipelineStore (W : Type) : Type := {
  pipelines_of : W → gmap NamespacedName Pipeline;
  clusters_of : W → gmap NamespacedName Cluster
}.

Class PipelineLaws (W : Type) `{C : PipelineClient W} `{S : PipelineStore W} : Prop := {
  pl_now : ∀ w, pipelines_of (pc_now w).1 = pipelines_of w ∧ clusters_of (pc_now w).1 = clusters_of w;
  pl_get : ∀ k w, pipelines_of (pc_get k w).1 = pipelines_of w ∧ clusters_of (pc_get k w).1 = clusters_of w ∧
    ∀ p, (pc_get k w).2 = Ok p → pipelines_of w !! k = Some p;
  pl_getCluster : ∀ k w, pipelines_of (pc_getCluster k w).1 = pipelines_of w ∧
    ((pc_getCluster k w).2 = Err ErrNotFound → clusters_of w !! k = None);
  pl_update : ∀ p w u, (pc_updateStatus p w).2 = Ok u →
    pipelines_of (pc_updateStatus p w).1 = <[key_of p := p]> (pipelines_of w);
  pl_key : ∀ w k p, pipelines_of w !! k = Some p → key_of p = k
}.

(** No update conflicts. *)
Class NoConflict (W : Type) `{C : PipelineClient W} : Prop := {
  nc_update : ∀ p w, (pc_updateStatus p w).2 ≠ Err ErrConflict
}.

(** ** Theorems *)

(** the status computed for a pipeline is right: Active with a true Ready condition
    exactly when the pipeline has outputs and a source of data (targets or tunnel
    policies with subscriptions, or inputs), otherwise Incomplete with a reason that
    names something missing; the counts are the numbers of resolved resources; and the
    transition time of a condition moves only when its status does. *)
Theorem pipeline_status_exact now p d :
  (∀ n, n ∈ [len (PD_Targets d); len (PD_Subscriptions d); len (PD_Inputs d); len (PD_Outputs d);
             len (PD_TunnelTargetPolicies d)] → n < 2 ^ 31) →
  let s := newPipelineStatus now p d in
  (PS_Status s = "Active" ↔ ready d) ∧ (PS_Status s = "Incomplete" ↔ ¬ ready d) ∧
  [PS_TargetsCount s; PS_SubscriptionsCount s; PS_InputsCount s; PS_OutputsCount s; PS_TunnelTargetPoliciesCount s]
    = [len (PD_Targets d); len (PD_Subscriptions d); len (PD_Inputs d); len (PD_Outputs d);
       len (PD_TunnelTargetPolicies d)] ∧
  Cond_Type <$> PS_Conditions s = ["Ready"; "ResourcesResolved"] ∧
  (∀ c, PS_Conditions s !! 0%nat = Some c →
     (Cond_Status c = ConditionTrue ↔ ready d) ∧
     (¬ ready d → ∃ x l, missingParts d = x :: l ∧ Cond_Message c = "Pipeline missing: " +:+ Join (x :: l) ", ")) ∧
  ∀ c, c ∈ PS_Conditions s →
    (∃ o, o ∈ PS_Conditions (Status p) ∧ Cond_Type o = Cond_Type c ∧ Cond_Status o = Cond_Status c ∧
          Cond_LastTransitionTime c = Cond_LastTransitionTime o) ∨
    (Cond_LastTransitionTime c = now ∧
     ∀ o, o ∈ PS_Conditions (Status p) → Cond_Type o = Cond_Type c → Cond_Status o ≠ Cond_Status c).
Proof.
  intros Hsmall s. assert (∀ b, b = pipelineReady d → (b = true ↔ ready d)) as Hready.
  { intros b ->. apply pipelineReady_spec. }
  specialize (Hready _ eq_refl). pose proof (missingParts_some d) as Hmiss.
  set (old := PS_Conditions (Status p)).
  assert (∀ c, Cond_Type (preserveTransition old c) = Cond_Type c ∧ Cond_Status (preserveTransition old c) = Cond_Status c ∧
    Cond_Message (preserveTransition old c) = Cond_Message c) as Hpres.
  { intros c. unfold preserveTransition. by destruct (List.find _ old). }
  split_and!.
  - cbn. rewrite <- Hready. by destruct (pipelineReady d).
  - cbn. rewrite <- Hready. by destruct (pipelineReady d).
  - cbn. unfold len in *. rewrite !to_int32_small; [done|split; [lia|apply Hsmall; set_solver]..].
  - cbn. fold old. by rewrite !(proj1 (Hpres _)).
  - intros c [= <-]. fold old. destruct (Hpres (readyCondition (Generation (Meta p)) now d)) as (_ & -> & ->).
    rewrite <- Hready. cbn. destruct (pipelineReady d); [by split|]. split; [done|]. intros _.
    destruct (missingParts d) as [|x l]; [by destruct Hmiss|]. by exists x, l.
  - intros c Hc. cbn in Hc. apply elem_of_cons in Hc as [->|Hc]; [by apply transition_spec|].
    apply list_elem_of_singleton in Hc as ->. by apply transition_spec.
Qed.

Section Settling.
Context {W : Type} `{L : PipelineLaws W} `{N : !NoConflict W}.

Lemma writeStatus_once attempts exhausted k s w u w' :
  writeStatus (Datatypes.S attempts) exhausted k s w = (w', Ok u) →
  ∃ p, pipelines_of w !! k = Some p ∧ pipelines_of w' = <[k := with_pipeline_status p s]> (pipelines_of w).
Proof.
  cbn [writeStatus]. pose proof (pl_get k w) as (G1 & _ & G2). destruct (pc_get k w) as [w1 [p|e]]; [|done].
  cbn in G1, G2. specialize (G2 p eq_refl).
  pose proof (nc_update (with_pipeline_status p s) w1) as Nc.
  pose proof (pl_update (with_pipeline_status p s) w1) as U.
  destruct (pc_updateStatus _ w1) as [w2 [u'|[| |msg]]]; cbn in Nc, U; [|done..].
  intros [= <- <-]. exists p. split; [done|]. rewrite (U u' eq_refl), G1.
  assert (key_of (with_pipeline_status p s) = k) as -> by (by eapply pl_key in G2). done.
Qed.

Lemma settled_no_write p d w :
  erase (Status p) = erase (newPipelineStatus (pc_now w).2 p d) → updatePipelineStatus p d w = ((pc_now w).1, Ok tt).
Proof.
  intros H. unfold updatePipelineStatus. destruct (pc_now w) as [w1 now]. cbn in H.
  by rewrite (proj2 (pipelineStatusEqual_spec _ _) H).
Qed.

(** when no update conflicts, writing a pipeline's status converges at once: after an
    update that returns no error the stored status says what the pipeline's data says, its metadata and
    specification are untouched, and computing it again from the same data, at any
    later time, writes nothing. *)
Theorem pipeline_status_settles p d w w' :
  pipelines_of w !! key_of p = Some p → updatePipelineStatus p d w = (w', Ok tt) →
  ∃ p', pipelines_of w' !! key_of p = Some p' ∧ Meta p' = Meta p ∧ Spec p' = Spec p ∧
    erase (Status p') = erase (newPipelineStatus 0 p' d) ∧
    ∀ w2, updatePipelineStatus p' d w2 = ((pc_now w2).1, Ok tt).
Proof.
  intros Hp H. assert (∃ p', pipelines_of w' !! key_of p = Some p' ∧ Meta p' = Meta p ∧ Spec p' = Spec p ∧
    erase (Status p') = erase (newPipelineStatus 0 p' d)) as (p' & H1 & H2 & H3 & H4).
  { unfold updatePipelineStatus in H. pose proof (pl_now w) as [V _]. destruct (pc_now w) as [w1 now]. cbn in V.
    destruct (pipelineStatusEqual _ _) eqn:E.
    - injection H as <-. exists p. rewrite V. split_and!; [done..|].
      apply pipelineStatusEqual_spec in E. rewrite E. apply erase_new.
    - apply writeStatus_once in H as (q & Hq & ->). rewrite V, Hp in Hq. injection Hq as <-.
      eexists. split; [apply lookup_insert_eq|]. split_and!; [done..|]. cbn. apply erase_new. }
  exists p'. split_and!; [done..|]. intros w2. apply settled_no_write. rewrite H4. apply erase_new.
Qed.

(** the two controllers that write a pipeline's status never agree on it: once the
    cluster controller has settled the status of an enabled pipeline, the pipeline
    controller replaces its state by "Ready", and the cluster controller no longer
    recognises it as what it wrote and will write it again. *)
Theorem pipeline_status_contended p d w w' delay :
  pipelines_of w !! key_of p = Some p → PL_Enabled (Spec p) = true →
  is_Some (clusters_of w !! {| NN_Namespace := Namespace (Meta p); NN_Name := PL_ClusterRef (Spec p) |}) →
  erase (Status p) = erase (newPipelineStatus 0 p d) →
  PipelineReconcile (key_of p) w = (w', Ok delay) → (pc_get (key_of p) w).2 ≠ Err ErrNotFound →
  ∃ p', pipelines_of w' !! key_of p = Some p' ∧ PS_Status (Status p') = "Ready" ∧
    ∀ now, pipelineStatusEqual (Status p') (newPipelineStatus now p' d) = false.
Proof.
  intros Hp Hen [c Hc] Hset H Hfound. unfold PipelineReconcile in H.
  pose proof (pl_get (key_of p) w) as (V1 & V2 & G). destruct (pc_get (key_of p) w) as [w1 [q|[| |msg]]]; try done.
  cbn in V1, V2, G. specialize (G q eq_refl). rewrite Hp in G. injection G as <-.
  pose proof (pl_getCluster {| NN_Namespace := Namespace (Meta p); NN_Name := PL_ClusterRef (Spec p) |} w1) as [V3 G3].
  destruct (pc_getCluster _ w1) as [w2 [cl|[| |msg]]]; cbn in V3, G3; try done.
  2: { specialize (G3 eq_refl). by rewrite V2, Hc in G3. }
  rewrite Hen in H.
  assert (PS_Status (Status p) ≠ "Ready") as Hne.
  { apply (f_equal PS_Status) in Hset. cbn in Hset. rewrite Hset. by destruct (pipelineReady d). }
  rewrite bool_decide_true in H by done.
  pose proof (pl_update (with_pipeline_status p (with_state (Status p) "Ready")) w2) as U.
  destruct (pc_updateStatus _ w2) as [w3 [u|e]]; [|done]. injection H as <- <-. specialize (U u eq_refl). cbn in U.
  eexists. split; [rewrite U; apply lookup_insert_eq|]. split; [done|]. intros now.
  apply not_true_iff_false. rewrite pipelineStatusEqual_spec. intros E. apply (f_equal PS_Status) in E. cbn in E.
  by destruct (pipelineReady d).
Qed.
End Settling.

(** ** A concrete store *)

Module Demo.
Record World : Type := {
  dw_pipelines : gmap NamespacedName Pipeline;
  dw_clusters : gmap NamespacedName Cluster;
  dw_time : Z
}.

Definition keyed (m : gmap NamespacedName Pipeline) : gmap NamespacedName Pipeline :=
  filter (λ kv, key_of kv.2 = kv.1) m.

Definition found {A} (o : option A) : res A := match o with Some a => Ok a | None => Err ErrNotFound end.

#[local] Instance store : PipelineStore World := {|
  pipelines_of w := keyed (dw_pipelines w); clusters_of := dw_clusters |}.

#[local] Instance client : PipelineClient World := {|
  pc_now w := ({| dw_pipelines := dw_pipelines w; dw_clusters := dw_clusters w; dw_time := dw_time w + 1 |}, dw_time w);
  pc_get k w := (w, found (keyed (dw_pipelines w) !! k));
  pc_getCluster k w := (w, found (dw_clusters w !! k));
  pc_updateStatus p w :=
    ({| dw_pipelines := <[key_of p := p]> (dw_pipelines w); dw_clusters := dw_clusters w; dw_time := dw_time w |}, Ok tt) |}.

#[local] Instance laws : PipelineLaws World.
Proof.
  split; cbn; try done.
  - intros k w. split_and!; [done..|]. intros p. by destruct (keyed _ !! k); cbn; intros [= ->].
  - intros k w. split; [done|]. by destruct (dw_clusters w !! k).
  - intros p w _ _. unfold keyed. by rewrite map_filter_insert_True.
  - intros w k p. unfold keyed. intros H. by apply map_lookup_filter_Some in H as [_ H].
Qed.

#[local] Instance no_conflict : NoConflict World.
Proof. done. Qed.

(** An input and an output: the pipeline is ready. *)
Definition data : PipelineData :=
  let d := NewPipelineData in {|
  PD_Targets := PD_Targets d; PD_TargetProfiles := PD_TargetProfiles d; PD_Subscriptions := PD_Subscriptions d;
  PD_Outputs := {[ "ns/pl/o" := {| Output_Type := "file"; Output_Config := None; Output_Service := None;
                                Output_ServiceRef := None; Output_ServiceSelector := None |} ]};
  PD_Inputs := {[ "ns/pl/i" := {| Input_Type := "nats"; Input_Config := None |} ]};
  PD_OutputProcessors := PD_OutputProcessors d; PD_InputProcessors := PD_InputProcessors d;
  PD_TunnelTargetPolicies := PD_TunnelTargetPolicies d; PD_OutputProcessorOrder := [];
  PD_InputProcessorOrder := []; PD_ResolvedOutputAddresses := ∅ |}.

Definition world_of (p : Pipeline) : World := {|
  dw_pipelines := {[ key_of p := p ]}; dw_clusters := {[ key_of demo_cluster := demo_cluster ]}; dw_time := 7 |}.

Definition settled_pipeline : Pipeline := with_pipeline_status demo_pipeline_cr (newPipelineStatus 3 demo_pipeline_cr data).
End Demo.

Lemma pipeline_status_exact_witness :
  let s := newPipelineStatus 7 Demo.settled_pipeline Demo.data in
  PS_Status s = "Active" ∧ PS_OutputsCount s = 1 ∧ Cond_LastTransitionTime <$> PS_Conditions s = [3; 3] ∧
  (PS_Status s = "Active" ↔ ready Demo.data).
Proof.
  split_and!; [vm_compute; reflexivity..|].
  apply (pipeline_status_exact 7 Demo.settled_pipeline Demo.data).
  intros n Hn. apply list_elem_of_In in Hn. cbn in Hn. vm_compute in Hn.
  repeat destruct Hn as [<-|Hn]; [lia..|destruct Hn].
Defined.

Lemma pipeline_status_settles_witness :
  ∃ w', updatePipelineStatus (C := Demo.client) demo_pipeline_cr Demo.data (Demo.world_of demo_pipeline_cr) = (w', Ok tt) ∧
  ∃ p', pipelines_of (PipelineStore := Demo.store) w' !! key_of demo_pipeline_cr = Some p'.
Proof.
  eexists. split; [vm_compute; reflexivity|].
  edestruct (pipeline_status_settles (L := Demo.laws) (N := Demo.no_conflict) demo_pipeline_cr Demo.data
    (Demo.world_of demo_pipeline_cr)) as (p' & Hp' & _); [vm_compute; reflexivity..|].
  exists p'. exact Hp'.
Defined.

(** The pipeline controller turns Active into Ready. *)
Lemma pipeline_status_contended_witness :
  ∃ w' delay, PipelineReconcile (C := Demo.client) (key_of Demo.settled_pipeline) (Demo.world_of Demo.settled_pipeline)
    = (w', Ok delay) ∧ PS_Status (Status Demo.settled_pipeline) = "Active" ∧
  ∃ p', pipelines_of (PipelineStore := Demo.store) w' !! key_of Demo.settled_pipeline = Some p' ∧
        PS_Status (Status p') = "Ready".
Proof.
  do 2 eexists. split; [vm_compute; reflexivity|]. split; [vm_compute; reflexivity|].
  edestruct (pipeline_status_contended (L := Demo.laws) Demo.settled_pipeline Demo.data
    (Demo.world_of Demo.settled_pipeline)) as (p' & Hp' & Hs & _);
    [vm_compute; reflexivity|reflexivity|exists demo_cluster; vm_compute; reflexivity|vm_compute; reflexivity
    |vm_compute; reflexivity|vm_compute; discriminate|].
  exists p'. split; [exact Hp'|exact Hs].
Defined.
