(* ===== verification/Kube.v ===== *)
(** The Kubernetes objects the cluster controller owns, the monad its code runs in, and
    the API server: a parameter, given by its operations on an abstract world [W] and
    the documented behaviour the theorems rely on; and one concrete server, used by
    the witnesses. *)

From S2P Require Import Prelude GoLib Api.
#[local] Open Scope Z_scope.

(** ** Objects *)

(** [corev1], [appsv1] and cert-manager's types, cut to the fields the controller sets
    or reads. *)
Inductive IntOrString := FromInt (n : Z) | FromString (s : string).

(** [IntOrString.String]. *)
Definition IntOrString_String (x : IntOrString) : string :=
  match x with FromInt n => Itoa n | FromString s => s end.

Record ServicePort := {
  SP_Name : string;
  SP_Port : Z;
  SP_Protocol : string;
  SP_TargetPort : IntOrString
}.

Record ServiceSpec := {
  Svc_Type : string;
  Svc_ClusterIP : string;
  Svc_Selector : gmap string string;
  Svc_Ports : list ServicePort
}.

Record CertificateSpec := {
  Cert_SecretName : string;
  Cert_SecretLabels : gmap string string;
  Cert_IssuerName : string;
  Cert_IssuerKind : string;
  Cert_CommonName : string;
  Cert_DNSNames : list string;
  Cert_Usages : list string
}.

(** The type and the status of a condition of a certificate. *)
Record CertificateCondition := { CC_Type : string; CC_Status : string }.

Record KeyToPath := { KP_Key : string; KP_Path : string }.
Record SecretProjection := { Proj_Secret : string; Proj_Items : list KeyToPath; Proj_Optional : bool }.

Inductive VolumeSource :=
| VConfigMap (name : string) (optional : bool)
| VSecret (name : string) (optional : bool)
| VCSI (driver : string) (readOnly : bool) (attributes : gmap string string)
| VProjected (sources : list SecretProjection).

Record Volume := { Vol_Name : string; Vol_Source : VolumeSource }.

Record VolumeMount := {
  VM_Name : string;
  VM_MountPath : string;
  VM_SubPath : string;
  VM_SubPathExpr : string;
  VM_ReadOnly : bool
}.

Record ContainerPort := { CP_Name : string; CP_ContainerPort : Z }.

Record Container := {
  Ctr_Name : string;
  Ctr_Image : string;
  Ctr_Ports : list ContainerPort;
  Ctr_Command : list string;
  Ctr_VolumeMounts : list VolumeMount;
  Ctr_Resources : ResourceRequirements;
  Ctr_Env : list EnvVar
}.

Record PodTemplate := {
  Pod_Labels : gmap string string;
  Pod_InitContainers : list Container;
  Pod_Containers : list Container;
  Pod_Volumes : list Volume
}.

(** [Sts_Selector] is the [MatchLabels] of the selector, [None] the nil pointer. *)
Record StatefulSetSpec := {
  Sts_Replicas : option Z;
  Sts_ServiceName : string;
  Sts_Selector : option (gmap string string);
  Sts_Template : PodTemplate
}.

Record StatefulSetStatus := { Sts_ReadyReplicas : Z }.

Inductive Kind := KStatefulSet | KService | KConfigMap | KCertificate | KIssuer | KSecret | KCluster | KTargetSource.

#[export] Instance Kind_eq_dec : EqDecision Kind.
Proof. solve_decision. Defined.

(** The data of a ConfigMap or a Secret is its spec here; an issuer is the name of its
    CA secret, if it is a CA issuer. *)
Definition spec_of (k : Kind) : Type :=
  match k with
  | KStatefulSet => StatefulSetSpec | KService => ServiceSpec | KConfigMap => gmap string string
  | KCertificate => CertificateSpec | KIssuer => option string | KSecret => gmap string string
  | KCluster => ClusterSpec | KTargetSource => TargetSourceSpec
  end.

Definition status_of (k : Kind) : Type :=
  match k with
  | KStatefulSet => StatefulSetStatus | KCertificate => list CertificateCondition
  | KCluster => ClusterStatus | KTargetSource => TargetSourceStatus | _ => unit
  end.

Abbreviation obj k := (Resource (spec_of k) (status_of k)).
Abbreviation StatefulSet := (obj KStatefulSet).
Abbreviation Service := (obj KService).
Abbreviation ConfigMap := (obj KConfigMap).
Abbreviation Certificate := (obj KCertificate).

(** ** The monad of the controllers *)

(** A Go function that acts on the world and returns [(value, error)]. *)
Definition io (W A : Type) : Type := W → W * res A.

#[export] Instance io_ret {W} : MRet (io W) := λ A a w, (w, Ok a).
#[export] Instance io_bind {W} : MBind (io W) := λ A B f m w,
  match m w with (w', Ok a) => f a w' | (w', Err e) => (w', Err e) end.

Section Monad.
Context {W : Type}.

Definition io_fail {A} (e : GoError) : io W A := λ w, (w, Err e).
Definition io_lift {A} (r : res A) : io W A := λ w, (w, r).

(** The caller looks at the error itself. *)
Definition io_try {A} (m : io W A) : io W (res A) := λ w, ((m w).1, Ok (m w).2).

(** [client.IgnoreNotFound]. *)
Definition ignore_not_found (r : res unit) : res unit :=
  match r with Err ErrNotFound => Ok tt | r => r end.

(** A loop whose body may return. *)
Fixpoint for_each {A} (f : A → io W unit) (l : list A) : io W unit :=
  match l with [] => mret tt | a :: l => f a ≫= λ _, for_each f l end.

Fixpoint foldM {A B} (f : B → A → io W B) (b : B) (l : list A) : io W B :=
  match l with [] => mret b | a :: l => f b a ≫= λ b, foldM f b l end.

Lemma io_bind_Ok {A B} (m : io W A) (f : A → io W B) w w' b :
  (m ≫= f) w = (w', Ok b) ↔ ∃ w1 a, m w = (w1, Ok a) ∧ f a w1 = (w', Ok b).
Proof. unfold mbind, io_bind. destruct (m w) as [w1 [a|e]]; naive_solver. Qed.

Lemma io_try_Ok {A} (m : io W A) w w' r : io_try m w = (w', Ok r) → m w = (w', r).
Proof. unfold io_try. destruct (m w) as [w1 r1]. by intros [= <- <-]. Qed.

Lemma io_ret_Ok {A} (a b : A) (w w' : W) : (mret a : io W A) w = (w', Ok b) → w' = w ∧ b = a.
Proof. by intros [= <- <-]. Qed.

Lemma io_lift_Ok {A} (r : res A) (b : A) (w w' : W) : io_lift r w = (w', Ok b) → w' = w ∧ r = Ok b.
Proof. unfold io_lift. by intros [= <- <-]. Qed.

(** A run whose result is known, with the world it ends in. *)
Lemma run_Ok {A} (x : W * res A) a : x.2 = Ok a → x = (x.1, Ok a).
Proof. destruct x as [w r]. by intros [= ->]. Qed.

(** A loop that ends has run every iteration, in order. *)
Lemma for_each_Ok {A} (f : A → io W unit) (I : list A → W → Prop) l w w' :
  I [] w →
  (∀ done a rest w1 w2, l = done ++ a :: rest → I done w1 → f a w1 = (w2, Ok tt) → I (done ++ [a]) w2) →
  for_each f l w = (w', Ok tt) → I l w'.
Proof.
  intros Hw Hstep. cut (∀ l2 done w1, l = done ++ l2 → I done w1 →
    for_each f l2 w1 = (w', Ok tt) → I l w'); [intros H; by apply (H l [])|].
  induction l2 as [|a l2 IH]; intros done w1 -> Hi H.
  - injection H as <-. by rewrite app_nil_r.
  - apply io_bind_Ok in H as (w2 & [] & H1 & H2). apply (IH (done ++ [a]) w2); [by rewrite <- app_assoc| |done].
    by eapply Hstep.
Qed.

Lemma foldM_Ok {A B} (f : B → A → io W B) (I : list A → B → W → Prop) l b w b' w' :
  I [] b w →
  (∀ done a rest b1 w1 b2 w2, l = done ++ a :: rest → I done b1 w1 → f b1 a w1 = (w2, Ok b2) →
    I (done ++ [a]) b2 w2) →
  foldM f b l w = (w', Ok b') → I l b' w'.
Proof.
  intros Hw Hstep. cut (∀ l2 done b1 w1, l = done ++ l2 → I done b1 w1 →
    foldM f b1 l2 w1 = (w', Ok b') → I l b' w'); [intros H; by apply (H l [])|].
  induction l2 as [|a l2 IH]; intros done b1 w1 -> Hi H.
  - injection H as <- <-. by rewrite app_nil_r.
  - apply io_bind_Ok in H as (w2 & b2 & H1 & H2). apply (IH (done ++ [a]) b2 w2); [by rewrite <- app_assoc| |done].
    by eapply Hstep.
Qed.
End Monad.

(** ** The API server *)

(** [Update] and [Create] return the object as the server stored it, which is what the
    pointer they were given then holds. *)
Class KubeApi (W : Type) : Type := {
  api_get : ∀ k, NamespacedName → io W (obj k);
  api_list : ∀ k, string → gmap string string → io W (list (obj k));
  api_create : ∀ k, obj k → io W (obj k);
  api_update : ∀ k, obj k → io W (obj k);
  api_updateStatus : ∀ k, obj k → io W (obj k);
  api_delete : ∀ _ : Kind, NamespacedName → io W unit;
  (** [controllerutil.SetControllerReference], which fails when another controller
      owns the object. *)
  api_setOwner : ∀ k, Cluster → obj k → res (obj k)
}.

(** What the server holds. *)
Class ApiStore (W : Type) : Type := { view : W → ∀ k, gmap NamespacedName (obj k) }.

(** The server fills in what a Service leaves open: its type, the protocol of a port and
    the target port, which defaults to the port itself. *)
Definition default_port (p : ServicePort) : ServicePort := {|
  SP_Name := SP_Name p; SP_Port := SP_Port p;
  SP_Protocol := if decide (SP_Protocol p = "") then "TCP" else SP_Protocol p;
  SP_TargetPort := match SP_TargetPort p with FromInt 0 | FromString "" => FromInt (SP_Port p) | t => t end |}.

(** What is kept of a spec the server is given; of a Service the address is the
    server's. *)
Definition spec_kept (k : Kind) : spec_of k → spec_of k → Prop :=
  match k with
  | KService => λ s s', Svc_Type s' = (if decide (Svc_Type s = "") then "ClusterIP" else Svc_Type s) ∧
                        Svc_Selector s' = Svc_Selector s ∧ Svc_Ports s' = default_port <$> Svc_Ports s
  | _ => λ s s', s' = s
  end.

(** Names the types of a known kind. *)
Ltac kinds := cbn [spec_of status_of spec_kept] in *.

(** An object that is being deleted lives as long as it has a finalizer. *)
Definition alive (m : ObjectMeta) : Prop := DeletionTimestamp m = 0 ∨ Finalizers m ≠ [].

Definition stored_as (k : Kind) (o o' : obj k) : Prop :=
  key_of o' = key_of o ∧ Labels (Meta o') = Labels (Meta o) ∧ Annotations (Meta o') = Annotations (Meta o) ∧
  Finalizers (Meta o') = Finalizers (Meta o) ∧ spec_kept k (Spec o) (Spec o').

Definition matches (k : Kind) (ns : string) (labels : gmap string string) (o : obj k) : Prop :=
  Namespace (Meta o) = ns ∧ labels ⊆ Labels (Meta o).

(** The objects outside [S] are as before. *)
Definition objects := Kind → NamespacedName → Prop.

Definition only_at (k : Kind) (nn : NamespacedName) : objects := λ k' nn', k' = k ∧ nn' = nn.
Definition nothing : objects := λ _ _, False.

Definition agree_off {W} `{ApiStore W} (S : objects) (w w' : W) : Prop :=
  ∀ k nn, ¬ S k nn → view w' k !! nn = view w k !! nn.

(** A delete that is accepted leaves nothing, or the object with a deletion timestamp for
    as long as finalizers hold it: those of the cloud provider on the service of a load
    balancer, say. *)
Definition terminating {k} (old o : obj k) : Prop :=
  DeletionTimestamp (Meta o) ≠ 0 ∧ Finalizers (Meta o) = Finalizers (Meta old) ∧ Finalizers (Meta old) ≠ [] ∧
  Labels (Meta o) = Labels (Meta old) ∧ Annotations (Meta o) = Annotations (Meta old) ∧
  Spec o = Spec old ∧ Status o = Status old.

(** Nothing is there, or something that is being deleted. *)
Definition cleared {W} `{ApiStore W} (w : W) (k : Kind) (nn : NamespacedName) : Prop :=
  ∀ o, view w k !! nn = Some o → DeletionTimestamp (Meta o) ≠ 0.

(** Any call may fail, with any error.  Reads change nothing; a write changes its object
    only, whatever it returns, and has happened when it returns no error.  Nobody else
    writes between two calls.  A kind the server does not know has no objects. *)
Class ApiLaws (W : Type) `{A : KubeApi W} `{V : ApiStore W} : Prop := {
  al_key : ∀ w k nn o, view w k !! nn = Some o → key_of o = nn;
  al_alive : ∀ w k nn o, view w k !! nn = Some o → alive (Meta o);
  al_get : ∀ k nn w, agree_off nothing w (api_get k nn w).1 ∧
    match (api_get k nn w).2 with
    | Ok o => view w k !! nn = Some o
    | Err ErrNotFound => view w k !! nn = None
    | _ => True end;
  al_list : ∀ k ns ls w, agree_off nothing w (api_list k ns ls w).1 ∧
    match (api_list k ns ls w).2 with
    | Ok l => NoDup (key_of <$> l) ∧ ∀ o, o ∈ l ↔ view w k !! key_of o = Some o ∧ matches k ns ls o
    | Err ErrNotFound => view w k = ∅
    | _ => True end;
  al_create : ∀ k o w, agree_off (only_at k (key_of o)) w (api_create k o w).1 ∧
    ∀ o', (api_create k o w).2 = Ok o' → stored_as k o o' ∧
      view (api_create k o w).1 k !! key_of o = Some o';
  al_update : ∀ k o w, agree_off (only_at k (key_of o)) w (api_update k o w).1 ∧
    ∀ o', (api_update k o w).2 = Ok o' → stored_as k o o' ∧
      ∃ old, view w k !! key_of o = Some old ∧ Status o' = Status old ∧
        DeletionTimestamp (Meta o') = DeletionTimestamp (Meta old) ∧
        (alive (Meta o') → view (api_update k o w).1 k !! key_of o = Some o') ∧
        (¬ alive (Meta o') → view (api_update k o w).1 k !! key_of o = None);
  al_updateStatus : ∀ k o w, agree_off (only_at k (key_of o)) w (api_updateStatus k o w).1 ∧
    ∀ o', (api_updateStatus k o w).2 = Ok o' → Status o' = Status o ∧
      view (api_updateStatus k o w).1 k !! key_of o = Some o' ∧
      ∃ old, view w k !! key_of o = Some old ∧ Meta o' = Meta old ∧ Spec o' = Spec old;
  al_delete : ∀ k nn w, agree_off (only_at k nn) w (api_delete k nn w).1 ∧
    match (api_delete k nn w).2 with
    | Ok _ => ∀ o, view (api_delete k nn w).1 k !! nn = Some o → ∃ old, view w k !! nn = Some old ∧ terminating old o
    | Err ErrNotFound => view (api_delete k nn w).1 k !! nn = None
    | _ => True end;
  al_setOwner : ∀ k c o o', api_setOwner k c o = Ok o' → key_of o' = key_of o ∧
    Labels (Meta o') = Labels (Meta o) ∧ Annotations (Meta o') = Annotations (Meta o) ∧
    Finalizers (Meta o') = Finalizers (Meta o) ∧ Spec o' = Spec o ∧ Status o' = Status o
}.

(** ** What a computation preserves *)

(** Whatever it returns, the world it leaves is related to the one it found. *)
Definition preserves {W B} (P : W → W → Prop) (m : io W B) : Prop := ∀ w, P w (m w).1.

Section Preserves.
Context {W : Type} (P : W → W → Prop) `{HP : !PreOrder P}.

Lemma preserves_ret {B} (b : B) : preserves P (mret b : io W B).
Proof. intros w. cbn. reflexivity. Qed.

Lemma preserves_fail {B} e : preserves P (io_fail e : io W B).
Proof. intros w. cbn. reflexivity. Qed.

Lemma preserves_lift {B} (r : res B) : preserves P (io_lift r : io W B).
Proof. intros w. cbn. reflexivity. Qed.

Lemma preserves_bind {B C} (m : io W B) (f : B → io W C) :
  preserves P m → (∀ b, preserves P (f b)) → preserves P (m ≫= f).
Proof.
  intros Hm Hf w. unfold mbind, io_bind. specialize (Hm w). destruct (m w) as [w1 [b|e]]; cbn in *; [|done].
  etrans; [exact Hm|apply Hf].
Qed.

Lemma preserves_try {B} (m : io W B) : preserves P m → preserves P (io_try m).
Proof. done. Qed.

Lemma preserves_for_each {B} (f : B → io W unit) l : (∀ b, b ∈ l → preserves P (f b)) → preserves P (for_each f l).
Proof.
  induction l as [|b l IH]; cbn; intros H; [apply preserves_ret|].
  apply preserves_bind; [apply H; by left|]. intros _. apply IH. intros b' Hb'. apply H. by right.
Qed.

Lemma preserves_foldM {B C} (f : C → B → io W C) c l :
  (∀ c b, b ∈ l → preserves P (f c b)) → preserves P (foldM f c l).
Proof.
  revert c; induction l as [|b l IH]; cbn; intros c H; [apply preserves_ret|].
  apply preserves_bind; [apply H; by left|]. intros c'. apply IH. intros c2 b' Hb'. apply H. by right.
Qed.
End Preserves.

(** ** What a computation may change *)

(** [m] changes nothing outside [S], whatever it returns. *)
Abbreviation touches S m := (preserves (agree_off S) m).

Section Frame.
Context {W : Type} `{L : ApiLaws W}.
Implicit Types S : objects.

Lemma agree_off_refl S w : agree_off S w w.
Proof. done. Qed.

Lemma agree_off_trans S w1 w2 w3 : agree_off S w1 w2 → agree_off S w2 w3 → agree_off S w1 w3.
Proof. intros H1 H2 k nn Hn. by rewrite H2, H1. Qed.

Lemma agree_off_mono S1 S2 w1 w2 : (∀ k nn, S1 k nn → S2 k nn) → agree_off S1 w1 w2 → agree_off S2 w1 w2.
Proof. intros H H1 k nn Hn. apply H1. naive_solver. Qed.

#[export] Instance agree_off_po S : PreOrder (agree_off S).
Proof. split; [by intros w k nn|]. intros w1 w2 w3. apply agree_off_trans. Qed.

(** The calls, one by one, when they return. *)
Lemma get_Ok k nn w w' o : api_get k nn w = (w', Ok o) → agree_off nothing w w' ∧ view w k !! nn = Some o.
Proof. intros H. pose proof (al_get k nn w) as [H1 H2]. by rewrite H in H1, H2. Qed.

Lemma get_NotFound k nn w w' : api_get k nn w = (w', Err ErrNotFound) → agree_off nothing w w' ∧ view w k !! nn = None.
Proof. intros H. pose proof (al_get k nn w) as [H1 H2]. by rewrite H in H1, H2. Qed.

Lemma list_Ok k ns ls w w' l : api_list k ns ls w = (w', Ok l) → agree_off nothing w w' ∧
  NoDup (key_of <$> l) ∧ ∀ o, o ∈ l ↔ view w k !! key_of o = Some o ∧ matches k ns ls o.
Proof. intros H. pose proof (al_list k ns ls w) as [H1 H2]. rewrite H in H1, H2. by split. Qed.

Lemma list_NotFound k ns ls w w' : api_list k ns ls w = (w', Err ErrNotFound) → agree_off nothing w w' ∧ view w k = ∅.
Proof. intros H. pose proof (al_list k ns ls w) as [H1 H2]. by rewrite H in H1, H2. Qed.

Lemma create_Ok k o w w' o' : api_create k o w = (w', Ok o') → agree_off (only_at k (key_of o)) w w' ∧
  stored_as k o o' ∧ view w' k !! key_of o = Some o'.
Proof. intros H. pose proof (al_create k o w) as [H1 H2]. rewrite H in H1, H2. split; [done|]. by apply H2. Qed.

(** An update that keeps the finalizers. *)
Lemma update_Ok k o w w' o' old : view w k !! key_of o = Some old → Finalizers (Meta o) = Finalizers (Meta old) →
  api_update k o w = (w', Ok o') →
  agree_off (only_at k (key_of o)) w w' ∧ stored_as k o o' ∧ view w' k !! key_of o = Some o' ∧ Status o' = Status old.
Proof.
  intros Hold Hf H. pose proof (al_update k o w) as [H1 H2]. rewrite H in H1, H2. cbn [fst snd] in H1, H2. split; [exact H1|].
  destruct (H2 _ eq_refl) as (Hst & old' & Hv & Hs & Hd & Hal & _).
  assert (old' = old) as -> by (apply (inj Some); exact (eq_trans (eq_sym Hv) Hold)).
  split; [exact Hst|]. split; [|exact Hs]. apply Hal. destruct Hst as (_ & _ & _ & Hf' & _).
  unfold alive. rewrite Hd, Hf', Hf. exact (al_alive _ _ _ _ Hold).
Qed.

Lemma agree_nothing w w' k : agree_off nothing w w' → view w' k = view w k.
Proof. intros H. apply map_eq. intros nn. apply H. intros []. Qed.

Lemma view_nothing w w' k nn : agree_off nothing w w' → view w' k !! nn = view w k !! nn.
Proof. intros H. by rewrite (agree_nothing _ _ _ H). Qed.

Lemma keep w w' k nn (x : option (obj k)) : agree_off nothing w w' → view w k !! nn = x → view w' k !! nn = x.
Proof. intros H. by rewrite (view_nothing _ _ _ _ H). Qed.

Lemma keep_off S w w' k nn (x : option (obj k)) :
  agree_off S w w' → ¬ S k nn → view w k !! nn = x → view w' k !! nn = x.
Proof. intros H Hn. by rewrite H. Qed.

Lemma agree_nothing_off S w1 w2 w3 : agree_off nothing w1 w2 → agree_off S w2 w3 → agree_off S w1 w3.
Proof. intros H1 H2. eapply agree_off_trans; [|exact H2]. eapply agree_off_mono; [|exact H1]. done. Qed.

(** The object that was found, rewritten. *)
Lemma update_found k nn (cur o : obj k) w w1 w2 o' :
  agree_off nothing w w1 → view w k !! nn = Some cur → api_update k o w1 = (w2, Ok o') →
  key_of o = key_of cur → Finalizers (Meta o) = Finalizers (Meta cur) →
  agree_off (only_at k nn) w w2 ∧ stored_as k o o' ∧ view w2 k !! nn = Some o' ∧ Status o' = Status cur.
Proof.
  intros Hag Hv Hu Hk Hf. pose proof (al_key _ _ _ _ Hv) as Hkey. rewrite Hkey in Hk.
  destruct (update_Ok k o w1 w2 o' cur) as (H1 & H2 & H3 & H4); [rewrite Hk; by eapply keep|done|done|].
  rewrite Hk in H1, H3. split; [by eapply agree_nothing_off|done].
Qed.

Lemma touches_get S k nn : touches S (api_get k nn).
Proof. intros w. eapply agree_off_mono; [|apply al_get]. done. Qed.

Lemma touches_list S k ns ls : touches S (api_list k ns ls).
Proof. intros w. eapply agree_off_mono; [|apply al_list]. done. Qed.

Lemma touches_create S k o : S k (key_of o) → touches S (api_create k o).
Proof. intros H w. eapply agree_off_mono; [|apply al_create]. by intros ? ? [-> ->]. Qed.

Lemma touches_update S k o : S k (key_of o) → touches S (api_update k o).
Proof. intros H w. eapply agree_off_mono; [|apply al_update]. by intros ? ? [-> ->]. Qed.

Lemma touches_updateStatus S k o : S k (key_of o) → touches S (api_updateStatus k o).
Proof. intros H w. eapply agree_off_mono; [|apply al_updateStatus]. by intros ? ? [-> ->]. Qed.

Lemma touches_delete S k nn : S k nn → touches S (api_delete k nn).
Proof. intros H w. eapply agree_off_mono; [|apply al_delete]. by intros ? ? [-> ->]. Qed.
End Frame.

Lemma touches_mono {W B} `{ApiStore W} (S1 S2 : objects) (m : io W B) :
  (∀ k nn, S1 k nn → S2 k nn) → touches S1 m → touches S2 m.
Proof. intros Hs Hm w k nn Hn. apply Hm. naive_solver. Qed.

Create HintDb touches.
#[export] Hint Resolve agree_off_refl preserves_ret preserves_fail preserves_lift preserves_try touches_get touches_list
  touches_create touches_update touches_updateStatus touches_delete : touches.
#[export] Hint Extern 1 (PreOrder _) => typeclasses eauto : touches.

(** Walks over a computation; [call] proves what is left of the calls. *)
Ltac walk call :=
  repeat first
    [ apply preserves_bind; [exact _| |intros ?]
    | apply preserves_for_each; [exact _|intros ? ?]
    | apply preserves_foldM; [exact _|intros ? ? ?]
    | apply preserves_ret; exact _
    | apply preserves_fail; exact _
    | apply preserves_lift; exact _
    | match goal with
      | |- preserves _ (io_try _) => apply preserves_try
      | |- preserves _ (match ?x with _ => _ end) => destruct x eqn:?
      end
    | solve [call] ].

Ltac touch := walk ltac:(eauto 3 with touches).

(** ** A program's own state beside the world *)

Section Beside.
Context {X W : Type}.

Definition beside {B} (m : io W B) : io (X * W) B := λ xw, ((xw.1, (m xw.2).1), (m xw.2).2).
Definition read_state : io (X * W) X := λ xw, (xw, Ok xw.1).
Definition modify_state (f : X → X) : io (X * W) unit := λ xw, ((f xw.1, xw.2), Ok tt).

#[export] Instance beside_store `{V : ApiStore W} : ApiStore (X * W) := {| view xw := view xw.2 |}.

Lemma beside_Ok {B} (m : io W B) x w x' w' b :
  beside m (x, w) = ((x', w'), Ok b) → x' = x ∧ m w = (w', Ok b).
Proof. unfold beside. cbn. destruct (m w) as [w1 r]. by intros [= <- <- <-]. Qed.

Lemma touches_beside `{ApiStore W} {B} S (m : io W B) : touches S m → touches S (beside m).
Proof. intros Hm xw. apply (Hm xw.2). Qed.

Lemma touches_read `{ApiStore W} S : touches S read_state.
Proof. done. Qed.

Lemma touches_modify `{ApiStore W} S f : touches S (modify_state f).
Proof. done. Qed.
End Beside.

#[export] Hint Resolve touches_read touches_modify touches_beside : touches.

(** ** A concrete server *)

(** One map per kind, the calls that wrote, latest first, and what else a witness wants
    to keep. *)
Inductive Write := WCreate (k : Kind) (nn : NamespacedName) | WUpdate (k : Kind) (nn : NamespacedName)
| WUpdateStatus (k : Kind) (nn : NamespacedName) | WDelete (k : Kind) (nn : NamespacedName).

Record Server (X : Type) : Type := {
  srv_statefulsets : gmap NamespacedName StatefulSet;
  srv_services : gmap NamespacedName Service;
  srv_configmaps : gmap NamespacedName ConfigMap;
  srv_certificates : gmap NamespacedName Certificate;
  srv_issuers : gmap NamespacedName (obj KIssuer);
  srv_secrets : gmap NamespacedName (obj KSecret);
  srv_clusters : gmap NamespacedName (obj KCluster);
  srv_sources : gmap NamespacedName (obj KTargetSource);
  srv_writes : list Write;
  srv_extra : X
}.
Arguments srv_statefulsets {X}. Arguments srv_services {X}. Arguments srv_configmaps {X}.
Arguments srv_certificates {X}. Arguments srv_issuers {X}. Arguments srv_secrets {X}.
Arguments srv_clusters {X}. Arguments srv_sources {X}. Arguments srv_writes {X}. Arguments srv_extra {X}.

Definition empty_server {X} (x : X) : Server X := {|
  srv_statefulsets := ∅; srv_services := ∅; srv_configmaps := ∅; srv_certificates := ∅; srv_issuers := ∅;
  srv_secrets := ∅; srv_clusters := ∅; srv_sources := ∅; srv_writes := []; srv_extra := x |}.

Section Server.
Context {X : Type}.

Definition srv_raw (w : Server X) (k : Kind) : gmap NamespacedName (obj k) :=
  match k with
  | KStatefulSet => srv_statefulsets w | KService => srv_services w | KConfigMap => srv_configmaps w
  | KCertificate => srv_certificates w | KIssuer => srv_issuers w | KSecret => srv_secrets w
  | KCluster => srv_clusters w | KTargetSource => srv_sources w
  end.

(** The objects stored under their own key; one that is not alive is gone. *)
Definition srv_view (w : Server X) (k : Kind) : gmap NamespacedName (obj k) :=
  filter (λ kv, key_of kv.2 = kv.1 ∧ alive (Meta kv.2)) (srv_raw w k).

Definition srv_put (w : Server X) (k : Kind) : gmap NamespacedName (obj k) → Write → Server X :=
  let put sts svc cm cert iss sec cl ts wr := {|
    srv_statefulsets := sts; srv_services := svc; srv_configmaps := cm; srv_certificates := cert;
    srv_issuers := iss; srv_secrets := sec; srv_clusters := cl; srv_sources := ts;
    srv_writes := wr :: srv_writes w; srv_extra := srv_extra w |} in
  let sts := srv_statefulsets w in let svc := srv_services w in let cm := srv_configmaps w in
  let cert := srv_certificates w in let iss := srv_issuers w in let sec := srv_secrets w in
  let cl := srv_clusters w in let ts := srv_sources w in
  match k with
  | KStatefulSet => λ m, put m svc cm cert iss sec cl ts
  | KService => λ m, put sts m cm cert iss sec cl ts
  | KConfigMap => λ m, put sts svc m cert iss sec cl ts
  | KCertificate => λ m, put sts svc cm m iss sec cl ts
  | KIssuer => λ m, put sts svc cm cert m sec cl ts
  | KSecret => λ m, put sts svc cm cert iss m cl ts
  | KCluster => λ m, put sts svc cm cert iss sec m ts
  | KTargetSource => λ m, put sts svc cm cert iss sec cl m
  end.

Definition zero_status (k : Kind) : status_of k :=
  match k with
  | KStatefulSet => {| Sts_ReadyReplicas := 0 |}
  | KCertificate => []
  | KCluster => {| CSt_Conditions := []; CSt_ReadyReplicas := 0; CSt_Selector := ""; CSt_PipelinesCount := 0;
                   CSt_TargetsCount := 0; CSt_UnassignedTargets := 0; CSt_SubscriptionsCount := 0;
                   CSt_InputsCount := 0; CSt_OutputsCount := 0 |}
  | KTargetSource => {| TSrcSt_Status := ""; TSrcSt_ObservedGeneration := 0; TSrcSt_TargetsCount := 0;
                        TSrcSt_LastSync := 0 |}
  | _ => tt
  end.

Definition default_spec (k : Kind) : spec_of k → spec_of k :=
  match k with
  | KService => λ s, {| Svc_Type := if decide (Svc_Type s = "") then "ClusterIP" else Svc_Type s;
                        Svc_ClusterIP := Svc_ClusterIP s; Svc_Selector := Svc_Selector s;
                        Svc_Ports := default_port <$> Svc_Ports s |}
  | _ => λ s, s
  end.

Definition with_deletion (t : Z) (m : ObjectMeta) : ObjectMeta := {|
  Name := Name m; Namespace := Namespace m; Labels := Labels m; Annotations := Annotations m;
  Finalizers := Finalizers m; DeletionTimestamp := t; Generation := Generation m |}.

#[export] Instance srv_api : KubeApi (Server X) := {|
  api_get k nn w := (w, match srv_view w k !! nn with Some o => Ok o | None => Err ErrNotFound end);
  api_list k ns ls w := (w, Ok (filter (matches k ns ls) (map_to_list (srv_view w k)).*2));
  api_create k o w :=
    if decide (is_Some (srv_view w k !! key_of o)) then (w, Err (ErrMsg "already exists")) else
    let o' := MkResource (with_deletion 0 (Meta o)) (default_spec k (Spec o)) (zero_status k) in
    (srv_put w k (<[key_of o := o']> (srv_raw w k)) (WCreate k (key_of o)), Ok o');
  api_update k o w :=
    match srv_view w k !! key_of o with
    | None => (w, Err ErrNotFound)
    | Some old =>
        let o' := MkResource (with_deletion (DeletionTimestamp (Meta old)) (Meta o)) (default_spec k (Spec o)) (Status old) in
        (srv_put w k (<[key_of o := o']> (srv_raw w k)) (WUpdate k (key_of o)), Ok o')
    end;
  api_updateStatus k o w :=
    match srv_view w k !! key_of o with
    | None => (w, Err ErrNotFound)
    | Some old =>
        let o' := MkResource (Meta old) (Spec old) (Status o) in
        (srv_put w k (<[key_of o := o']> (srv_raw w k)) (WUpdateStatus k (key_of o)), Ok o')
    end;
  api_delete k nn w :=
    match srv_view w k !! nn with
    | None => (w, Err ErrNotFound)
    | Some old =>
        let raw := if decide (Finalizers (Meta old) = []) then delete nn (srv_raw w k)
                   else <[nn := MkResource (with_deletion 1 (Meta old)) (Spec old) (Status old)]> (srv_raw w k) in
        (srv_put w k raw (WDelete k nn), Ok tt)
    end;
  api_setOwner k c o := Ok o
|}.

#[export] Instance srv_store : ApiStore (Server X) := {| view := srv_view |}.

Lemma srv_raw_put w k m wr : srv_raw (srv_put w k m wr) k = m.
Proof. by destruct k. Qed.

Lemma srv_raw_put_ne w k k' m wr : k' ≠ k → srv_raw (srv_put w k m wr) k' = srv_raw w k'.
Proof. by destruct k, k'. Qed.

Lemma srv_view_Some w k nn o : srv_view w k !! nn = Some o → key_of o = nn ∧ alive (Meta o).
Proof. by intros [_ H]%map_lookup_filter_Some. Qed.

Lemma srv_view_key w k nn o : srv_view w k !! nn = Some o → key_of o = nn.
Proof. by intros [? _]%srv_view_Some. Qed.

Lemma srv_view_insert w k nn o wr : key_of o = nn → alive (Meta o) →
  srv_view (srv_put w k (<[nn := o]> (srv_raw w k)) wr) k = <[nn := o]> (srv_view w k).
Proof. intros H Ha. unfold srv_view. by rewrite srv_raw_put, map_filter_insert_True. Qed.

Lemma srv_view_insert_dead w k nn o wr : ¬ alive (Meta o) →
  srv_view (srv_put w k (<[nn := o]> (srv_raw w k)) wr) k = delete nn (srv_view w k).
Proof.
  intros Ha. unfold srv_view. rewrite srv_raw_put, map_filter_insert_False by (by intros []). by rewrite map_filter_delete.
Qed.

Lemma srv_view_delete w k nn wr : srv_view (srv_put w k (delete nn (srv_raw w k)) wr) k = delete nn (srv_view w k).
Proof. unfold srv_view. by rewrite srv_raw_put, map_filter_delete. Qed.

Lemma srv_agree_put w k nn m wr :
  (∀ nn', nn' ≠ nn → srv_view (srv_put w k m wr) k !! nn' = srv_view w k !! nn') →
  agree_off (only_at k nn) w (srv_put w k m wr).
Proof.
  intros H k' nn' Hn. cbn. destruct (decide (k' = k)) as [->|Hk].
  - apply H. intros ->. by apply Hn.
  - unfold srv_view. by rewrite srv_raw_put_ne.
Qed.

Lemma srv_agree_insert w k nn o wr : key_of o = nn →
  agree_off (only_at k nn) w (srv_put w k (<[nn := o]> (srv_raw w k)) wr).
Proof.
  intros H. apply srv_agree_put. intros nn' Hn. destruct (decide (alive (Meta o))).
  - by rewrite srv_view_insert, lookup_insert_ne.
  - by rewrite srv_view_insert_dead, lookup_delete_ne.
Qed.

Lemma default_spec_kept k s : spec_kept k s (default_spec k s).
Proof. by destruct k. Qed.

Lemma elem_of_view_values w k (P : obj k → Prop) `{∀ o, Decision (P o)} o :
  o ∈ filter P (map_to_list (srv_view w k)).*2 ↔ srv_view w k !! key_of o = Some o ∧ P o.
Proof.
  rewrite list_elem_of_filter, list_elem_of_fmap. split.
  - intros [HP ([nn o'] & -> & Hin)]. apply elem_of_map_to_list in Hin. cbn in *.
    by rewrite (srv_view_key _ _ _ _ Hin).
  - intros [Hin HP]. split; [done|]. exists (key_of o, o). split; [done|]. by apply elem_of_map_to_list.
Qed.

Lemma NoDup_view_keys w k (P : obj k → Prop) `{∀ o, Decision (P o)} :
  NoDup (key_of <$> filter P (map_to_list (srv_view w k)).*2).
Proof.
  assert (NoDup (key_of <$> (map_to_list (srv_view w k)).*2)) as Hall.
  { rewrite <- list_fmap_compose.
    rewrite (list_fmap_ext _ fst); [apply NoDup_fst_map_to_list|]. intros i [nn o] Hi. cbn.
    apply list_elem_of_lookup_2, elem_of_map_to_list in Hi. by eapply srv_view_key. }
  revert Hall. generalize ((map_to_list (srv_view w k)).*2) as l.
  induction l as [|o l IH]; cbn; [done|]. rewrite NoDup_cons. intros [Ho Hl]. case_decide; [|by apply IH].
  cbn. apply NoDup_cons. split; [|by apply IH]. intros (o' & He & Hin)%list_elem_of_fmap.
  apply Ho. rewrite He. apply list_elem_of_fmap. exists o'. split; [done|]. by apply list_elem_of_filter in Hin as [_ ?].
Qed.

Lemma srv_create_law k o w : agree_off (only_at k (key_of o)) w (api_create k o w).1 ∧
  ∀ o', (api_create k o w).2 = Ok o' → stored_as k o o' ∧ view (api_create k o w).1 k !! key_of o = Some o'.
Proof.
  cbn. case_decide; cbn; [by split|]. split; [by apply srv_agree_insert|].
  intros o' [= <-]. split; [split_and!; try done; apply default_spec_kept|].
  rewrite srv_view_insert, lookup_insert_eq; [done|done|by left].
Qed.

Lemma srv_update_law k o w : agree_off (only_at k (key_of o)) w (api_update k o w).1 ∧
  ∀ o', (api_update k o w).2 = Ok o' → stored_as k o o' ∧
    ∃ old, view w k !! key_of o = Some old ∧ Status o' = Status old ∧
      DeletionTimestamp (Meta o') = DeletionTimestamp (Meta old) ∧
      (alive (Meta o') → view (api_update k o w).1 k !! key_of o = Some o') ∧
      (¬ alive (Meta o') → view (api_update k o w).1 k !! key_of o = None).
Proof.
  cbn. destruct (srv_view w k !! key_of o) as [old|] eqn:E; cbn; [|by split].
  split; [by apply srv_agree_insert|]. intros o' [= <-].
  split; [split_and!; try done; apply default_spec_kept|]. exists old. split; [done|]. split; [done|]. split; [done|].
  split; intros Ha; [by rewrite srv_view_insert, lookup_insert_eq|by rewrite srv_view_insert_dead, lookup_delete_eq].
Qed.

#[export] Instance srv_laws : ApiLaws (Server X).
Proof.
  split.
  - apply srv_view_key.
  - by intros w k nn o [_ H]%srv_view_Some.
  - intros k nn w. cbn. split; [done|]. by destruct (srv_view w k !! nn).
  - intros k ns ls w. cbn. split; [done|]. split; [apply NoDup_view_keys|].
    intros o. apply elem_of_view_values.
  - apply srv_create_law.
  - apply srv_update_law.
  - intros k o w. cbn. destruct (srv_view w k !! key_of o) as [old|] eqn:E; cbn; [|by split].
    apply srv_view_Some in E as [Hk Ha].
    split; [by apply srv_agree_insert|]. intros o' [= <-]. split; [done|].
    split; [by rewrite srv_view_insert, lookup_insert_eq|]. by exists old.
  - intros k nn w. cbn. destruct (srv_view w k !! nn) as [old|] eqn:E; cbn; [|done].
    apply srv_view_Some in E as Hk. destruct Hk as [Hk _]. case_decide as Hf.
    + split; [|by rewrite srv_view_delete, lookup_delete_eq].
      apply srv_agree_put. intros nn' Hn. by rewrite srv_view_delete, lookup_delete_ne.
    + split; [by apply srv_agree_insert|]. rewrite srv_view_insert by (done || by right).
      rewrite lookup_insert_eq. intros o [= <-]. exists old. by split_and!.
  - intros k c o o' [= <-]. done.
Qed.
End Server.
