(* ===== verification/Names.v ===== *)
(** The names and labels of the objects the cluster controller owns
    ([internal/controller/const.go] and the constants of [cluster_controller.go]). *)

From S2P Require Import Prelude GoLib Api.
#[local] Open Scope Z_scope.

Definition resourcePrefix := "gnmic-".
Definition clusterFinalizer := "operator.gnmic.dev/cluster-finalizer".
Definition defaultRestPort : Z := 7890.
Definition controllerCACMSfx := "-controller-ca".

Definition LabelClusterName := "operator.gnmic.dev/cluster".
Definition LabelOutputName := "operator.gnmic.dev/output".
Definition LabelPipelineName := "operator.gnmic.dev/pipeline".
Definition LabelPodName := "operator.gnmic.dev/pod-name".
Definition LabelValueName := "gnmic".
Definition LabelValueManagedBy := "gnmic-operator".
Definition LabelServiceType := "operator.gnmic.dev/service-type".
Definition LabelValueServiceTypeTunnel := "tunnel".
Definition LabelValueServiceTypePrometheusOutput := "prometheus-output".
Definition LabelValueServiceTypeHeadless := "rest-api".
Definition LabelValueOutputTypePrometheus := "prometheus-output".
Definition LabelCertType := "operator.gnmic.dev/cert-type".
Definition LabelValueCertTypeClient := "client".
Definition LabelValueCertTypeTunnel := "tunnel".
Definition LabelTargetSourceFinalizer := "operator.gnmic.dev/targetsource-finalizer".
Definition gNMIcConfigPath := "/etc/gnmic/config.yaml".
Definition gNMIcConfigFile := "config.yaml".

(** The labels every owned object starts from. *)
Definition base_labels (cluster : Cluster) : gmap string string :=
  {[ "app.kubernetes.io/name" := LabelValueName;
     "app.kubernetes.io/managed-by" := LabelValueManagedBy;
     LabelClusterName := Name (Meta cluster) ]}.

(** An object of the cluster's namespace. *)
Definition in_ns (cluster : Cluster) (name : string) : NamespacedName :=
  {| NN_Namespace := Namespace (Meta cluster); NN_Name := name |}.

Definition stsName (cluster : Cluster) : string := resourcePrefix +:+ Name (Meta cluster).
Definition tunnelServiceName (cluster : Cluster) : string := stsName cluster +:+ "-grpc-tunnel".
Definition podName (cluster : Cluster) (i : Z) : string := stsName cluster +:+ "-" +:+ Itoa i.

(** [maps.Copy dst src]. *)
Definition copy_into (dst src : gmap string string) : gmap string string := src ∪ dst.

Definition restPort (spec : ClusterSpec) : Z :=
  match CS_API spec with
  | Some api => if decide (API_RestPort api ≠ 0) then API_RestPort api else defaultRestPort
  | None => defaultRestPort
  end.

Definition gnmiPort (spec : ClusterSpec) : option Z :=
  api ← CS_API spec; if decide (API_GNMIPort api ≠ 0) then Some (API_GNMIPort api) else None.

(** The API's TLS configuration when it names an issuer; likewise for the tunnel and for
    the clients. *)
Definition with_issuer (tls : option ClusterTLSConfig) : option ClusterTLSConfig :=
  t ← tls; if decide (CTLS_IssuerRef t ≠ "") then Some t else None.

Definition apiTLS (spec : ClusterSpec) : option ClusterTLSConfig := with_issuer (CS_API spec ≫= API_TLS).
Definition tunnelTLS (spec : ClusterSpec) : option ClusterTLSConfig := with_issuer (CS_GRPCTunnel spec ≫= GT_TLS).
Definition clientTLS (spec : ClusterSpec) : option ClusterTLSConfig := with_issuer (CS_ClientTLS spec).

Lemma podName_inj cluster i j : podName cluster i = podName cluster j → i = j.
Proof. unfold podName. intros H%app_str_inj_l%app_str_inj_l. by apply (inj pretty) in H. Qed.
