(* ===== verification/Services.v ===== *)
(** The services of a cluster ([internal/controller/cluster_controller.go]): the
    headless service of its pods, the service of the gRPC tunnel, and one service per
    Prometheus output. *)

From S2P Require Import Prelude GoLib Api GnmicTypes Ports OutputConfigs PlanBuilder ClusterClient Resolve ClusterPlan.
From S2P Require Import Kube Names.
From Stdlib Require Import Ascii.
#[local] Open Scope Z_scope.

Abbreviation KubePort := Kube.ServicePort.
#[local] Abbreviation KP := Kube.Build_ServicePort.

Definition port_equal (a b : KubePort) : bool :=
  bool_decide (Kube.SP_Name a = Kube.SP_Name b ∧ Kube.SP_Port a = Kube.SP_Port b ∧
               SP_Protocol a = SP_Protocol b ∧
               IntOrString_String (SP_TargetPort a) = IntOrString_String (SP_TargetPort b)).

Fixpoint servicePortsEqual (a b : list KubePort) : bool :=
  match a, b with
  | [], [] => true
  | x :: a, y :: b => port_equal x y && servicePortsEqual a b
  | _, _ => false
  end.

(** ** The headless service *)

Definition buildHeadlessService (cluster : Cluster) : Service :=
  MkResource
    (new_meta (stsName cluster) (Namespace (Meta cluster))
       (<[LabelServiceType := LabelValueServiceTypeHeadless]> (base_labels cluster)) ∅)
    {| Svc_Type := "";
       Svc_ClusterIP := "None";
       Svc_Selector := {[ LabelClusterName := Name (Meta cluster) ]};
       Svc_Ports := KP "rest" (restPort (Spec cluster)) "TCP" (FromInt 0) ::
         match gnmiPort (Spec cluster) with Some p => [KP "gnmi" p "TCP" (FromInt 0)] | None => [] end |}
    tt.

Definition with_ports (svc : Service) (ports : list KubePort) : Service := MkResource (Meta svc)
  {| Svc_Type := Svc_Type (Spec svc); Svc_ClusterIP := Svc_ClusterIP (Spec svc);
     Svc_Selector := Svc_Selector (Spec svc); Svc_Ports := ports |} (Status svc).

Section Services.
Context {W : Type} `{A : KubeApi W}.

(** The start of every such function: own the desired object, then look it up and
    either create it or go on with what is there. *)
Definition create_or {B} (k : Kind) (cluster : Cluster) (desired : obj k)
    (created : obj k → io W B) (found : obj k → obj k → io W B) : io W B :=
  desired ← io_lift (api_setOwner k cluster desired);
  r ← io_try (api_get k (key_of desired));
  match r with
  | Err ErrNotFound => o ← api_create k desired; created o
  | Err e => io_fail e
  | Ok current => found desired current
  end.

Definition reconcileHeadlessService (cluster : Cluster) : io W unit :=
  create_or KService cluster (buildHeadlessService cluster) (λ _, mret tt) (λ desired current,
    if servicePortsEqual (Svc_Ports (Spec current)) (Svc_Ports (Spec desired)) then mret tt
    else _ ← api_update KService (with_ports current (Svc_Ports (Spec desired))); mret tt).

(** ** The tunnel service *)

Definition buildTunnelService (cluster : Cluster) (tunnel : GRPCTunnelConfig) : Service :=
  let labels := <[LabelServiceType := LabelValueServiceTypeTunnel]> (base_labels cluster) in
  let '(ty, labels, annotations) :=
    match GT_Service tunnel with
    | Some svc => (if decide (SC_Type svc ≠ "") then SC_Type svc else "LoadBalancer",
                   copy_into labels (SC_Labels svc), copy_into ∅ (SC_Annotations svc))
    | None => ("LoadBalancer", labels, ∅)
    end in
  MkResource (new_meta (tunnelServiceName cluster) (Namespace (Meta cluster)) labels annotations)
    {| Svc_Type := ty; Svc_ClusterIP := "";
       Svc_Selector := {[ LabelClusterName := Name (Meta cluster) ]};
       Svc_Ports := [KP "tunnel" (GT_Port tunnel) "TCP" (FromInt (GT_Port tunnel))] |}
    tt.

Definition tunnelServiceChanged (current desired : ServiceSpec) : bool :=
  bool_decide (Svc_Type current ≠ Svc_Type desired ∨
               length (Svc_Ports current) ≠ length (Svc_Ports desired) ∨
               Kube.SP_Port <$> head (Svc_Ports current) ≠ Kube.SP_Port <$> head (Svc_Ports desired) ∨
               Svc_Selector current ≠ Svc_Selector desired).

Definition reconcileTunnelService (cluster : Cluster) : io W unit :=
  match CS_GRPCTunnel (Spec cluster) with
  | None => mret tt
  | Some tunnel =>
      create_or KService cluster (buildTunnelService cluster tunnel) (λ _, mret tt) (λ desired current,
        if tunnelServiceChanged (Spec current) (Spec desired)
        then _ ← api_update KService (MkResource (Meta current) (Spec desired) (Status current)); mret tt
        else mret tt)
  end.

Definition delete_if_present (k : Kind) (nn : NamespacedName) : io W unit :=
  r ← io_try (api_delete k nn); io_lift (ignore_not_found r).

Definition cleanupTunnelService (cluster : Cluster) : io W unit :=
  delete_if_present KService (in_ns cluster (tunnelServiceName cluster)).

(** [ensureStatefulSetAbsent] and [ensureServiceAbsent]. *)
Definition ensureAbsent (k : Kind) (nn : NamespacedName) : io W unit :=
  r ← io_try (api_get k nn);
  match r with
  | Err ErrNotFound => mret tt
  | Err e => io_fail e
  | Ok o => api_delete k (key_of o)
  end.
End Services.

(** ** Prometheus services *)

(** Decoding [raw] into the [listen] and [path] of [listenPortAndPath]: the YAML library. *)
Class YAMLListen := { UnmarshalListen : string → res (string * string) }.

Definition PrometheusDefaultListen := ":" +:+ Itoa PrometheusDefaultPort.

Definition parseListenPortAndPath `{YL : YAMLListen} (configRaw : option string) : res (Z * string) :=
  match configRaw with
  | None => Ok (0, "")
  | Some raw =>
      '(listen, path) ← UnmarshalListen raw;
      let listen := TrimSpace listen in
      let listen := if decide (listen = "") then PrometheusDefaultListen else listen in
      let path := TrimSpace path in
      let path := if decide (path = "") then PrometheusDefaultPath else path in
      match cut_last ":" listen with
      | None => Err (ErrMsg ("invalid listen format: " +:+ listen))
      | Some (_, portStr) =>
          match ParseInt portStr 32 with
          | None => Err (ErrMsg ("failed to parse port from listen: " +:+ listen))
          | Some port => Ok (port, path)
          end
      end
  end.

Definition promServiceName (cluster : Cluster) (outputNN : string) : string :=
  let '(pipelineName, outputName) := SplitNN (SplitNN outputNN).2 in
  stsName cluster +:+ "-prom-" +:+ pipelineName +:+ "-" +:+ outputName.

Definition promLabels (cluster : Cluster) (outputName pipelineName : string) : gmap string string :=
  <[LabelServiceType := LabelValueOutputTypePrometheus]>
    (<[LabelOutputName := outputName]> (<[LabelPipelineName := pipelineName]> (base_labels cluster))).

Definition buildPrometheusService (cluster : Cluster) (serviceName outputName pipelineName : string) (port : Z)
    (urlPath : string) (outputSpec : OutputSpec) : Service :=
  let labels := promLabels cluster outputName pipelineName in
  let annotations : gmap string string :=
    {[ "prometheus.io/scrape" := "true"; "prometheus.io/port" := Itoa port; "prometheus.io/path" := urlPath ]} in
  let '(ty, labels, annotations) :=
    match Output_Service outputSpec with
    | Some svc => (if decide (OS_Type svc ≠ "") then OS_Type svc else "ClusterIP",
                   copy_into labels (OS_Labels svc), copy_into annotations (OS_Annotations svc))
    | None => ("ClusterIP", labels, annotations)
    end in
  MkResource (new_meta serviceName (Namespace (Meta cluster)) labels annotations)
    {| Svc_Type := ty; Svc_ClusterIP := "";
       Svc_Selector := {[ LabelClusterName := Name (Meta cluster) ]};
       Svc_Ports := [KP "metrics" port "TCP" (FromInt port)] |}
    tt.

(** [current] with the fields of [desired] the controller keeps in step, and whether one
    of them differed. *)
Definition promServiceUpdate (current desired : Service) : bool * Service :=
  let sameType := bool_decide (Svc_Type (Spec current) = Svc_Type (Spec desired)) in
  let samePorts := servicePortsEqual (Svc_Ports (Spec current)) (Svc_Ports (Spec desired)) in
  let sameLabels := bool_decide (Labels (Meta current) = Labels (Meta desired)) in
  let sameAnnotations := bool_decide (Annotations (Meta current) = Annotations (Meta desired)) in
  (negb (sameType && samePorts && sameLabels && sameAnnotations),
   MkResource
     {| Name := Name (Meta current); Namespace := Namespace (Meta current);
        Labels := Labels (Meta desired); Annotations := Annotations (Meta desired);
        Finalizers := Finalizers (Meta current); DeletionTimestamp := DeletionTimestamp (Meta current);
        Generation := Generation (Meta current) |}
     {| Svc_Type := Svc_Type (Spec desired); Svc_ClusterIP := Svc_ClusterIP (Spec current);
        Svc_Selector := Svc_Selector (Spec current);
        Svc_Ports := if samePorts then Svc_Ports (Spec current) else Svc_Ports (Spec desired) |}
     (Status current)).

Section Prometheus.
Context {W : Type} `{A : KubeApi W} `{R : GoRuntime} `{YL : YAMLListen}.

(** The body of [reconcilePrometheusService], for a built service. *)
Definition keepInStep (cluster : Cluster) (desired : Service) : io W unit :=
  create_or KService cluster desired (λ _, mret tt) (λ desired current,
    let '(needsUpdate, current) := promServiceUpdate current desired in
    if needsUpdate then _ ← api_update KService current; mret tt else mret tt).

Definition reconcilePrometheusService (cluster : Cluster) (serviceName outputName pipelineName : string) (port : Z)
    (urlPath : string) (outputSpec : OutputSpec) : io W unit :=
  keepInStep cluster (buildPrometheusService cluster serviceName outputName pipelineName port urlPath outputSpec).

Definition promSelector (clusterName : string) : gmap string string :=
  {[ LabelClusterName := clusterName; LabelServiceType := LabelValueServiceTypePrometheusOutput ]}.

Definition listPrometheusServicesForCluster (namespace clusterName : string) : io W (list Service) :=
  api_list KService namespace (promSelector clusterName).

Definition cleanupPrometheusServices (namespace clusterName : string) : io W unit :=
  services ← listPrometheusServicesForCluster namespace clusterName;
  for_each (λ svc : Service, delete_if_present KService (key_of svc)) services.

(** Output, then pipeline, to the spec: the Prometheus outputs of all pipelines. *)
Definition addOutput (p : string) (acc : gmap string (gmap string OutputSpec)) (e : string * OutputSpec) :=
  if decide (Output_Type e.2 = PrometheusOutputType)
  then <[e.1 := <[p := e.2]> (default ∅ (acc !! e.1))]> acc else acc.

Definition addPipeline (acc : gmap string (gmap string OutputSpec)) (e : string * PipelineData) :=
  foldl (addOutput e.1) acc (go_range (PD_Outputs e.2)).

Definition collectPrometheusOutputs (plan : gmap string PipelineData) : gmap string (gmap string OutputSpec) :=
  foldl addPipeline ∅ (go_range plan).
End Prometheus.

(** The ports of the plan, which the loop updates, and the names of the services that
    are wanted. *)
Record PromState := { Prom_Ports : gmap string Z; Prom_Desired : gmap string unit }.

Definition set_port (outputNN : string) (port : Z) (s : PromState) : PromState :=
  {| Prom_Ports := <[outputNN := port]> (Prom_Ports s); Prom_Desired := Prom_Desired s |}.
Definition set_desired (name : string) (s : PromState) : PromState :=
  {| Prom_Ports := Prom_Ports s; Prom_Desired := <[name := ()]> (Prom_Desired s) |}.

Section PrometheusLoop.
Context {W : Type} `{A : KubeApi W} `{R : GoRuntime} `{YL : YAMLListen}.

(** The body for one output of one pipeline; outputs that cannot be served are skipped. *)
Definition reconcilePrometheusOutput (cluster : Cluster) (outputNN : string) (count : nat) (outputSpec : OutputSpec)
    : io (PromState * W) unit :=
  match parseListenPortAndPath (Output_Config outputSpec) with
  | Err _ => mret tt
  | Ok (port, urlPath) =>
      if bool_decide (0 < port ∧ (1 < count)%nat) then mret tt else
      _ ← (if decide (port = 0) then mret tt else modify_state (set_port outputNN port));
      s ← read_state;
      let port := if decide (port = 0) then default 0 (Prom_Ports s !! outputNN) else port in
      let urlPath := if decide (urlPath = "") then PrometheusDefaultPath else urlPath in
      let '(pipelineName, outputName) := SplitNN (SplitNN outputNN).2 in
      _ ← modify_state (set_desired (promServiceName cluster outputNN));
      beside (reconcilePrometheusService cluster (promServiceName cluster outputNN) outputName pipelineName port urlPath outputSpec)
  end.

Definition reconcilePrometheusOutputs (cluster : Cluster) (outputs : gmap string (gmap string OutputSpec))
    : io (PromState * W) unit :=
  for_each (λ '(outputNN, specs),
    for_each (λ pipelineName, match specs !! pipelineName with
                | Some outputSpec => reconcilePrometheusOutput cluster outputNN (size specs) outputSpec
                | None => mret tt end)
      (sort_strings (go_range specs).*1)) (go_range outputs).

Definition deleteUnusedServices (existing : list Service) : io (PromState * W) unit :=
  s ← read_state;
  for_each (λ svc : Service,
    if decide (is_Some (Prom_Desired s !! Name (Meta svc))) then mret tt
    else beside (delete_if_present KService (key_of svc))) existing.

(** The ports are the plan's own map: what the loop stores there stays, even when it
    returns an error. *)
Definition reconcilePrometheusServices (cluster : Cluster) (plan : gmap string PipelineData)
    : io (PromState * W) unit :=
  let prometheusOutputs := collectPrometheusOutputs plan in
  existing ← beside (listPrometheusServicesForCluster (Namespace (Meta cluster)) (Name (Meta cluster)));
  _ ← reconcilePrometheusOutputs cluster prometheusOutputs;
  deleteUnusedServices existing.
End PrometheusLoop.

(** ** Lemmas *)

Section CreateOr.
Context {W : Type} `{L : ApiLaws W}.

Lemma create_or_Ok {B} k cluster (desired : obj k) (created : obj k → io W B) found w w' b :
  create_or k cluster desired created found w = (w', Ok b) →
  ∃ d, api_setOwner k cluster desired = Ok d ∧
    ((∃ w1 w2 o, agree_off nothing w w1 ∧ view w k !! key_of d = None ∧
        api_create k d w1 = (w2, Ok o) ∧ created o w2 = (w', Ok b)) ∨
     (∃ w1 current, agree_off nothing w w1 ∧ view w k !! key_of d = Some current ∧
        found d current w1 = (w', Ok b))).
Proof.
  intros (w0 & d & [-> Hd]%io_lift_Ok & H)%io_bind_Ok. exists d. split; [done|].
  apply io_bind_Ok in H as (w1 & r & Hg%io_try_Ok & H).
  destruct r as [cur|[| |msg]]; [|left|done..].
  - right. apply get_Ok in Hg as [Hag Hv]. by exists w1, cur.
  - apply get_NotFound in Hg as [Hag Hv]. apply io_bind_Ok in H as (w2 & o & Hc & H). by exists w1, w2, o.
Qed.

Lemma touches_create_or {B} (S : objects) k cluster (desired : obj k) (created : obj k → io W B) found :
  S k (key_of desired) → (∀ o, touches S (created o)) →
  (∀ d current, key_of d = key_of desired → key_of current = key_of desired → touches S (found d current)) →
  touches S (create_or k cluster desired created found).
Proof.
  intros HS Hc Hf w. unfold create_or, mbind, io_bind, io_lift.
  destruct (api_setOwner k cluster desired) as [d|e] eqn:Ho; [|done].
  apply al_setOwner in Ho as (Hk & _). unfold io_try. pose proof (al_get k (key_of d) w) as [Hg Hv].
  destruct (api_get k (key_of d) w) as [w1 [cur|[| |msg]]]; cbn in *;
    [|pose proof (al_create k d w1) as [Hcr _]; destruct (api_create k d w1) as [w2 [o|e]]; cbn in *
     |by eapply agree_off_mono; [|exact Hg]..].
  - eapply agree_nothing_off; [exact Hg|]. apply Hf; [done|]. apply al_key in Hv. congruence.
  - eapply agree_nothing_off; [exact Hg|]. eapply agree_off_trans; [|apply Hc].
    eapply agree_off_mono; [|exact Hcr]. intros ? ? [-> ->]. by rewrite Hk.
  - eapply agree_nothing_off; [exact Hg|]. eapply agree_off_mono; [|exact Hcr]. intros ? ? [-> ->]. by rewrite Hk.
Qed.

Lemma cleared_off (S : objects) w w' k nn : agree_off S w w' → ¬ S k nn → cleared w k nn → cleared w' k nn.
Proof. intros Hag Hn Hc o. rewrite Hag by done. apply Hc. Qed.

Lemma delete_cleared k nn w : agree_off (only_at k nn) w (api_delete k nn w).1 ∧
  ((api_delete k nn w).2 = Ok tt ∨ (api_delete k nn w).2 = Err ErrNotFound → cleared (api_delete k nn w).1 k nn).
Proof.
  pose proof (al_delete k nn w) as [H1 H2]. split; [done|]. intros Hr o Ho.
  destruct (api_delete k nn w) as [w1 r]. cbn in *. destruct Hr as [-> | ->].
  - destruct (H2 o Ho) as (old & _ & Ht & _). exact Ht.
  - by rewrite H2 in Ho.
Qed.

Lemma delete_if_present_Ok k nn w w' :
  delete_if_present k nn w = (w', Ok tt) → agree_off (only_at k nn) w w' ∧ cleared w' k nn.
Proof.
  intros (w1 & r & Hd%io_try_Ok & [-> Hr]%io_lift_Ok)%io_bind_Ok.
  pose proof (delete_cleared k nn w) as [H1 H2]. rewrite Hd in H1, H2. cbn in *. split; [done|].
  apply H2. destruct r as [[]|[| |msg]]; [by left|by right|done..].
Qed.

(** Deleting those of a list that satisfy a test. *)
Definition deleted (k : Kind) (l : list (obj k)) (P : obj k → Prop) : objects :=
  λ k' nn, k' = k ∧ ∃ o : obj k, o ∈ l ∧ P o ∧ nn = key_of o.

Lemma delete_those_Ok k (P : obj k → Prop) `{∀ o, Decision (P o)} l w w' :
  for_each (λ o, if decide (P o) then delete_if_present k (key_of o) else mret tt) l w = (w', Ok tt) →
  agree_off (deleted k l P) w w' ∧ ∀ nn, deleted k l P k nn → cleared w' k nn.
Proof.
  intros Hl. cut ((λ done w1, agree_off (deleted k l P) w w1 ∧ ∀ nn, deleted k done P k nn → cleared w1 k nn) l w'); [done|].
  eapply for_each_Ok; [| |exact Hl]; clear Hl w'.
  - split; [done|]. intros nn (_ & o & Ho & _). by apply not_elem_of_nil in Ho.
  - intros done o rest w1 w2 Hl [I1 I2] Ho. case_decide as HP.
    + apply delete_if_present_Ok in Ho as [J1 J2]. split.
      * eapply agree_off_trans; [exact I1|]. eapply agree_off_mono; [|exact J1]. intros ? ? [-> ->]. split; [done|].
        exists o. split; [rewrite Hl; set_solver|done].
      * intros nn (_ & o' & Ho' & HP' & Hk). destruct (decide (nn = key_of o)) as [->|Hne]; [done|].
        eapply cleared_off; [exact J1|by intros [_ ?]|]. apply I2. split; [done|]. exists o'.
        apply elem_of_app in Ho' as [?| ->%list_elem_of_singleton]; done.
    + injection Ho as <-. split; [done|]. intros nn (_ & o' & Ho' & HP' & ->). apply I2. split; [done|]. exists o'.
      apply elem_of_app in Ho' as [?| ->%list_elem_of_singleton]; done.
Qed.

Lemma touches_delete_if_present (S : objects) k nn : S k nn → touches S (delete_if_present k nn).
Proof. intros H. unfold delete_if_present. touch. Qed.

Lemma ensureAbsent_Ok k nn w w' :
  ensureAbsent k nn w = (w', Ok tt) → agree_off (only_at k nn) w w' ∧ cleared w' k nn.
Proof.
  intros (w1 & r & Hg%io_try_Ok & H)%io_bind_Ok. destruct r as [o|[| |msg]]; [| |done..].
  - apply get_Ok in Hg as [Hag Hv]. apply al_key in Hv as Hk. rewrite Hk in H.
    pose proof (delete_cleared k nn w1) as [H1 H2]. rewrite H in H1, H2. split; [|by apply H2; left].
    by eapply agree_nothing_off.
  - injection H as <-. apply get_NotFound in Hg as [Hag Hv]. split; [|intros o; by rewrite (view_nothing _ _ _ _ Hag), Hv].
    by eapply agree_off_mono; [|exact Hag].
Qed.
End CreateOr.

#[export] Hint Resolve touches_delete_if_present : touches.

Lemma servicePortsEqual_refl l : servicePortsEqual l l = true.
Proof. induction l as [|x l IH]; [done|]. cbn. rewrite IH. unfold port_equal. by rewrite bool_decide_true. Qed.

Lemma servicePortsEqual_spec a b :
  servicePortsEqual a b = true ↔ Forall2 (λ x y, port_equal x y = true) a b.
Proof.
  revert b; induction a as [|x a IH]; intros [|y b]; cbn; [done|split; [done|by intros H%Forall2_nil_cons_inv]
    |split; [done|by intros H%Forall2_cons_nil_inv]|].
  rewrite andb_true_iff, IH. split; [by intros []; constructor|by intros []%Forall2_cons].
Qed.

(** What the server fills in agrees with a port that says everything. *)
Lemma default_port_equal p q :
  SP_TargetPort q = FromInt (Kube.SP_Port q) → SP_Protocol q ≠ "" → port_equal p q = true →
  port_equal (default_port p) q = true.
Proof.
  unfold port_equal. rewrite !bool_decide_eq_true. intros Hq Hpr (H1 & H2 & H3 & H4). cbn.
  rewrite decide_False by congruence. split_and!; [done..|]. rewrite Hq in H4 |- *.
  destruct (SP_TargetPort p) as [[| |]|[|]]; cbn in *; congruence.
Qed.

Lemma default_port_id q :
  SP_TargetPort q = FromInt (Kube.SP_Port q) → SP_Protocol q ≠ "" → default_port q = q.
Proof. destruct q as [n p pr t]. cbn. intros -> Hpr. unfold default_port. cbn. rewrite decide_False by done. by destruct p. Qed.

(** *** The headless service *)

Section Headless.
Context {W : Type} `{L : ApiLaws W}.

Lemma reconcileHeadlessService_Ok cluster w w' :
  reconcileHeadlessService cluster w = (w', Ok tt) →
  ∃ svc, view w' KService !! in_ns cluster (stsName cluster) = Some svc ∧
    agree_off (only_at KService (in_ns cluster (stsName cluster))) w w' ∧
    (Svc_Ports (Spec svc) = default_port <$> Svc_Ports (Spec (buildHeadlessService cluster)) ∨
     view w KService !! in_ns cluster (stsName cluster) = Some svc ∧
     servicePortsEqual (Svc_Ports (Spec svc)) (Svc_Ports (Spec (buildHeadlessService cluster))) = true).
Proof.
  intros (d & Hd & [(w1 & w2 & o & Hag & Hv & Hc & [= <-])|(w1 & cur & Hag & Hv & H)])%create_or_Ok;
    apply al_setOwner in Hd as (Hk & _ & _ & _ & Hs & _); rewrite Hk in *.
  - apply create_Ok in Hc as (Hag2 & (_ & _ & _ & _ & _ & _ & Hp) & Hv2). rewrite Hk in Hv2, Hag2.
    kinds. exists o. split; [exact Hv2|]. split; [by eapply agree_nothing_off|]. left. by rewrite Hp, Hs.
  - destruct (servicePortsEqual _ _) eqn:E.
    + injection H as <-. exists cur. split; [exact (keep _ _ _ _ _ Hag Hv)|].
      split; [by eapply agree_off_mono; [|exact Hag]|]. right. split; [exact Hv|]. by rewrite <- Hs.
    + apply io_bind_Ok in H as (w2 & o & Hu & [= <-]).
      destruct (update_found KService _ _ _ _ _ _ _ Hag Hv Hu eq_refl eq_refl)
        as (Hag2 & (_ & _ & _ & _ & _ & _ & Hp) & Hv2 & _).
      kinds. exists o. split; [exact Hv2|]. split; [exact Hag2|]. left. cbn in Hp. by rewrite Hp, Hs.
Qed.
End Headless.

(** *** One Prometheus service *)

(** A stored service is what the controller keeps it to be. *)
Definition in_step (svc desired : Service) : Prop :=
  Svc_Type (Spec svc) = Svc_Type (Spec desired) ∧
  servicePortsEqual (Svc_Ports (Spec svc)) (Svc_Ports (Spec desired)) = true ∧
  Labels (Meta svc) = Labels (Meta desired) ∧ Annotations (Meta svc) = Annotations (Meta desired).

(** The service an output of a pipeline asks for. *)
Definition promService (cluster : Cluster) (outputNN : string) (port : Z) (urlPath : string) (spec : OutputSpec) : Service :=
  let '(pipelineName, outputName) := SplitNN (SplitNN outputNN).2 in
  buildPrometheusService cluster (promServiceName cluster outputNN) outputName pipelineName port urlPath spec.

Definition promKey (cluster : Cluster) (outputNN : string) : NamespacedName :=
  in_ns cluster (promServiceName cluster outputNN).

Lemma promService_shape cluster o port path spec :
  key_of (promService cluster o port path spec) = promKey cluster o ∧
  Svc_Type (Spec (promService cluster o port path spec)) ≠ "" ∧
  Svc_Ports (Spec (promService cluster o port path spec)) = [KP "metrics" port "TCP" (FromInt port)].
Proof.
  unfold promService. destruct (SplitNN (SplitNN o).2) as [p n]. unfold buildPrometheusService.
  destruct (Output_Service spec) as [svc|]; [|done]. by split_and!; cbn; [|case_decide|].
Qed.

Lemma metrics_equal_default ports port :
  servicePortsEqual ports [KP "metrics" port "TCP" (FromInt port)] = true →
  servicePortsEqual (default_port <$> ports) [KP "metrics" port "TCP" (FromInt port)] = true.
Proof.
  rewrite !servicePortsEqual_spec. intros (x & l & Hx & ->%Forall2_nil_inv_r & ->)%Forall2_cons_inv_r.
  repeat constructor. by apply default_port_equal.
Qed.

Section PromService.
Context {W : Type} `{L : ApiLaws W}.

Lemma promUpdate_in_step cluster o port path spec (d cur svc : Service) :
  Spec d = Spec (promService cluster o port path spec) →
  stored_as KService (promServiceUpdate cur d).2 svc → in_step svc d.
Proof.
  intros Hs (_ & Hl & Ha & _ & Ht & _ & Hp). pose proof (promService_shape cluster o port path spec) as (_ & Hty & Hports).
  unfold in_step. rewrite Hs in *. cbn in Hl, Ha, Ht, Hp. kinds. rewrite Ht, Hp, Hports.
  rewrite decide_False by (rewrite Hs; exact Hty). split_and!; [by rewrite Hs| |done|done].
  destruct (servicePortsEqual (Svc_Ports (Spec cur)) (Svc_Ports (Spec d))) eqn:E.
  - apply metrics_equal_default. rewrite <- Hports, <- E. by rewrite Hs.
  - apply metrics_equal_default. rewrite Hs, Hports. apply servicePortsEqual_refl.
Qed.

Lemma in_step_owned (svc d d' : Service) :
  Spec d' = Spec d → Labels (Meta d') = Labels (Meta d) → Annotations (Meta d') = Annotations (Meta d) →
  in_step svc d' → in_step svc d.
Proof. unfold in_step. intros -> -> ->. done. Qed.

Lemma keepInStep_Ok cluster o port path spec w w' :
  keepInStep cluster (promService cluster o port path spec) w = (w', Ok tt) →
  (∃ svc, view w' KService !! promKey cluster o = Some svc ∧ in_step svc (promService cluster o port path spec)) ∧
  agree_off (only_at KService (promKey cluster o)) w w'.
Proof.
  pose proof (promService_shape cluster o port path spec) as (Hkey & Hty & Hports).
  intros (d & (Hk & Hl & Ha & _ & Hs & _)%al_setOwner & [(w1 & w2 & svc & Hag & Hv & Hc & [= <-])|(w1 & cur & Hag & Hv & H)])%create_or_Ok;
    rewrite Hkey in Hk.
  - apply create_Ok in Hc as (Hag2 & (_ & Hl2 & Ha2 & _ & Ht & _ & Hp) & Hv2). rewrite Hk in Hv2, Hag2.
    split; [|by eapply agree_nothing_off]. exists svc. split; [exact Hv2|].
    apply (in_step_owned _ _ d Hs Hl Ha). unfold in_step. kinds. rewrite Ht, Hp, Hs, decide_False by done.
    split_and!; [done| |done|done]. rewrite Hports. apply metrics_equal_default, servicePortsEqual_refl.
  - destruct (promServiceUpdate cur d) as [[|] cur'] eqn:E.
    + apply io_bind_Ok in H as (w2 & svc & Hu & [= <-]). rewrite Hk in Hv.
      destruct (update_found KService _ _ _ _ _ _ _ Hag Hv Hu) as (Hag2 & Hst & Hv2 & _); [by injection E as _ <-..|].
      split; [|exact Hag2]. exists svc. split; [exact Hv2|].
      apply (in_step_owned _ _ d Hs Hl Ha). eapply (promUpdate_in_step cluster o port path spec d cur); [exact Hs|].
      by rewrite E.
    + injection H as <-. rewrite Hk in Hv. split; [|by eapply agree_off_mono; [|exact Hag]].
      exists cur. split; [exact (keep _ _ _ _ _ Hag Hv)|]. apply (in_step_owned _ _ d Hs Hl Ha).
      unfold promServiceUpdate in E. injection E as E _. apply negb_false_iff in E.
      rewrite !andb_true_iff, !bool_decide_eq_true in E. unfold in_step. naive_solver.
Qed.
End PromService.

(** *** All of them *)

(** The output is a Prometheus output of the pipeline. *)
Definition prom_of (plan : gmap string PipelineData) (o p : string) (spec : OutputSpec) : Prop :=
  ∃ data, plan !! p = Some data ∧ PD_Outputs data !! o = Some spec ∧ Output_Type spec = PrometheusOutputType.

Definition entry (outputs : gmap string (gmap string OutputSpec)) (o p : string) : option OutputSpec :=
  specs ← outputs !! o; specs !! p.

Section Collect.
Context `{R : GoRuntime}.

Lemma entry_insert acc o p spec o' p' :
  entry (<[o := <[p := spec]> (default ∅ (acc !! o))]> acc) o' p' =
  if decide (o' = o ∧ p' = p) then Some spec else entry acc o' p'.
Proof.
  unfold entry. destruct (decide (o' = o)) as [->|Ho].
  - rewrite lookup_insert_eq. cbn. destruct (decide (p' = p)) as [->|Hp].
    + rewrite lookup_insert_eq, decide_True by done. done.
    + rewrite lookup_insert_ne, decide_False by naive_solver.
      destruct (acc !! o); cbn; [done|by rewrite lookup_empty].
  - rewrite lookup_insert_ne, decide_False by naive_solver. done.
Qed.

Lemma addPipeline_entry acc p data o p' :
  entry (addPipeline acc (p, data)) o p' =
  if decide (p' = p) then
    match PD_Outputs data !! o with
    | Some spec => if decide (Output_Type spec = PrometheusOutputType) then Some spec else entry acc o p'
    | None => entry acc o p'
    end
  else entry acc o p'.
Proof.
  unfold addPipeline. cbn.
  assert (∀ l, NoDup l.*1 → (∀ k v, (k, v) ∈ l → PD_Outputs data !! k = Some v) →
    entry (foldl (addOutput p) acc l) o p' =
    if decide (p' = p ∧ o ∈ l.*1) then
      match PD_Outputs data !! o with
      | Some spec => if decide (Output_Type spec = PrometheusOutputType) then Some spec else entry acc o p'
      | None => entry acc o p' end
    else entry acc o p') as Hl.
  { intros l. induction l as [|[k v] l IH] using rev_ind; intros Hnd Hin; [by rewrite decide_False by set_solver|].
    rewrite fmap_app, NoDup_app in Hnd. destruct Hnd as (Hnd & Hk & _).
    rewrite foldl_app. cbn. unfold addOutput at 1. cbn.
    assert (PD_Outputs data !! k = Some v) as Hkv by (apply Hin; set_solver).
    specialize (IH Hnd ltac:(intros; apply Hin; set_solver)).
    rewrite fmap_app. cbn. destruct (decide (Output_Type v = PrometheusOutputType)) as [Hty|Hty].
    - rewrite entry_insert, IH. destruct (decide (o = k ∧ p' = p)) as [[-> ->]|Hne].
      + rewrite decide_True by set_solver. by rewrite Hkv, decide_True.
      + apply decide_ext. set_solver.
    - rewrite IH. destruct (decide (o = k)) as [->|Hne]; [|apply decide_ext; set_solver].
      rewrite Hkv, !(decide_False (P := Output_Type v = _)) by done. by repeat case_decide. }
  rewrite Hl; [|apply NoDup_fst_go_range|apply elem_of_go_range].
  destruct (decide (p' = p)) as [->|Hp]; [|by rewrite decide_False by naive_solver].
  destruct (PD_Outputs data !! o) as [spec|] eqn:E; [|by destruct (decide (p = p ∧ _))].
  rewrite decide_True; [done|]. split; [done|]. apply elem_of_go_range_keys. eauto.
Qed.

Lemma collect_spec plan o p spec : entry (collectPrometheusOutputs plan) o p = Some spec ↔ prom_of plan o p spec.
Proof.
  unfold collectPrometheusOutputs, prom_of.
  assert (∀ l, NoDup l.*1 → (∀ q d, (q, d) ∈ l → plan !! q = Some d) →
    entry (foldl addPipeline ∅ l) o p = Some spec ↔
    ∃ data, (p, data) ∈ l ∧ PD_Outputs data !! o = Some spec ∧ Output_Type spec = PrometheusOutputType) as Hl.
  { intros l. induction l as [|[q d] l IH] using rev_ind; intros Hnd Hin.
    - unfold entry. cbn. rewrite lookup_empty. set_solver.
    - rewrite fmap_app, NoDup_app in Hnd. destruct Hnd as (Hnd & Hk & _).
      specialize (IH Hnd ltac:(intros; apply Hin; set_solver)).
      rewrite foldl_app. cbn [foldl]. rewrite addPipeline_entry.
      setoid_rewrite elem_of_app. setoid_rewrite list_elem_of_singleton.
      destruct (decide (p = q)) as [->|Hp].
      + assert (¬ ∃ data, (q, data) ∈ l ∧ PD_Outputs data !! o = Some spec ∧ Output_Type spec = PrometheusOutputType) as Hno.
        { intros (data & Hd & _). apply (Hk q); [apply list_elem_of_fmap; by exists (q, data)|cbn; set_solver]. }
        rewrite <- IH in Hno. destruct (PD_Outputs d !! o) as [s|] eqn:E; [|naive_solver congruence].
        destruct (decide (Output_Type s = PrometheusOutputType)); naive_solver congruence.
      + rewrite IH. naive_solver. }
  rewrite Hl; [|apply NoDup_fst_go_range|apply elem_of_go_range]. by setoid_rewrite elem_of_go_range.
Qed.
End Collect.

Lemma collect_nonempty `{R : GoRuntime} plan o specs : collectPrometheusOutputs plan !! o = Some specs → specs ≠ ∅.
Proof.
  unfold collectPrometheusOutputs. revert o specs.
  apply (foldl_inv _ (λ acc : gmap string (gmap string OutputSpec), ∀ o specs, acc !! o = Some specs → specs ≠ ∅)).
  - intros o specs. by rewrite lookup_empty.
  - intros acc [p data] _ Hacc. unfold addPipeline. cbn.
    apply (foldl_inv _ (λ acc : gmap string (gmap string OutputSpec), ∀ o specs, acc !! o = Some specs → specs ≠ ∅)); [done|].
    intros acc' [k v] _ Hacc' o specs. unfold addOutput. cbn. case_decide; [|apply Hacc'].
    intros [[<- <-]|[_ Ho]]%lookup_insert_Some; [apply insert_non_empty|by eapply Hacc'].
Qed.

(** Every output belongs to one pipeline, and no two outputs share a service name. *)
Definition single_owner (plan : gmap string PipelineData) : Prop :=
  ∀ o p1 p2 s1 s2, prom_of plan o p1 s1 → prom_of plan o p2 s2 → p1 = p2.

Definition distinct_services (cluster : Cluster) (plan : gmap string PipelineData) : Prop :=
  ∀ o1 o2 p1 p2 s1 s2, prom_of plan o1 p1 s1 → prom_of plan o2 p2 s2 →
    promServiceName cluster o1 = promServiceName cluster o2 → o1 = o2.

(** The port and the path an output is served at, [None] when its [listen] cannot be
    read. *)
Definition prom_port `{YL : YAMLListen} (ports : gmap string Z) (o : string) (spec : OutputSpec) : option (Z * string) :=
  match parseListenPortAndPath (Output_Config spec) with
  | Err _ => None
  | Ok (port, path) => Some (if decide (port = 0) then default 0 (ports !! o) else port,
                             if decide (path = "") then PrometheusDefaultPath else path)
  end.

Lemma single_specs `{R : GoRuntime} plan o specs :
  single_owner plan → collectPrometheusOutputs plan !! o = Some specs →
  ∃ p spec, specs = {[p := spec]} ∧ prom_of plan o p spec.
Proof.
  intros Hs Ho. pose proof (collect_nonempty _ _ _ Ho) as Hne.
  apply map_choose in Hne as (p & spec & Hp). exists p, spec.
  assert (∀ q s, specs !! q = Some s → prom_of plan o q s) as Hspec.
  { intros q s Hq. apply collect_spec. unfold entry. by rewrite Ho. }
  split; [|by apply Hspec]. apply map_eq. intros q. destruct (decide (q = p)) as [->|Hq].
  - by rewrite Hp, lookup_singleton_eq.
  - rewrite lookup_singleton_ne by done. destruct (specs !! q) as [s|] eqn:E; [|done].
    destruct Hq. by eapply Hs; apply Hspec.
Qed.

Section PromLoop.
Context {W : Type} `{L : ApiLaws W} `{R : GoRuntime} `{YL : YAMLListen}.
Context (cluster : Cluster) (plan : gmap string PipelineData).

(** The output is served, at this port and path. *)
Definition served (ports : gmap string Z) (o : string) (spec : OutputSpec) (port : Z) (path : string) : Prop :=
  (∃ p, prom_of plan o p spec) ∧ prom_port ports o spec = Some (port, path).

Definition prom_in_step (w : W) (o : string) (spec : OutputSpec) (port : Z) (path : string) : Prop :=
  ∃ svc, view w KService !! promKey cluster o = Some svc ∧ in_step svc (promService cluster o port path spec).

Lemma reconcilePrometheusOutput_Ok o spec s w s' w' :
  reconcilePrometheusOutput cluster o 1 spec (s, w) = ((s', w'), Ok tt) →
  match prom_port (Prom_Ports s) o spec with
  | None => s' = s ∧ w' = w
  | Some (port, path) =>
      (∀ o', o' ≠ o → Prom_Ports s' !! o' = Prom_Ports s !! o') ∧
      Prom_Desired s' = <[promServiceName cluster o := ()]> (Prom_Desired s) ∧
      prom_in_step w' o spec port path ∧ agree_off (only_at KService (promKey cluster o)) w w'
  end.
Proof.
  unfold reconcilePrometheusOutput, prom_port. destruct (parseListenPortAndPath _) as [[port path]|e]; [|by intros [= <- <-]].
  rewrite bool_decide_false by lia. intros H.
  apply io_bind_Ok in H as ([s1 w1] & [] & H1 & H).
  assert (w1 = w ∧ Prom_Desired s1 = Prom_Desired s ∧ (∀ o', o' ≠ o → Prom_Ports s1 !! o' = Prom_Ports s !! o') ∧
    (port = 0 → s1 = s)) as (-> & Hd & Hp & H0).
  { case_decide; injection H1 as <- <-; split_and!; try done. intros o' Ho. cbn. by rewrite lookup_insert_ne. }
  apply io_bind_Ok in H as ([s2 w2] & s3 & [= <- <- <-] & H).
  replace (if decide (port = 0) then default 0 (Prom_Ports s1 !! o) else port)
    with (if decide (port = 0) then default 0 (Prom_Ports s !! o) else port) in H by (case_decide; [by rewrite H0|done]).
  set (port' := if decide (port = 0) then _ else port) in *. set (path' := if decide (path = "") then _ else path) in *.
  pose proof (keepInStep_Ok (W := W) cluster o port' path' spec w w') as K.
  unfold promService in K. unfold prom_in_step, promService, reconcilePrometheusService in *.
  destruct (SplitNN (SplitNN o).2) as [pn on].
  apply io_bind_Ok in H as ([s2 w2] & [] & [= <- <-] & [-> H]%beside_Ok).
  apply K in H as [Hsvc Hag]. cbn. rewrite Hd. by split_and!.
Qed.

Definition prom_objects (ports : gmap string Z) (os : list string) : objects := λ k nn, k = KService ∧
  ∃ o spec port path, o ∈ os ∧ served ports o spec port path ∧ nn = promKey cluster o.

(** What the loop has done after the outputs [done]. *)
Definition prom_done (s0 : PromState) (w0 : W) (done : list (string * gmap string OutputSpec)) (sw : PromState * W) : Prop :=
  (∀ o, o ∉ done.*1 → Prom_Ports sw.1 !! o = Prom_Ports s0 !! o) ∧
  (∀ o spec port path, o ∈ done.*1 → served (Prom_Ports s0) o spec port path →
     is_Some (Prom_Desired sw.1 !! promServiceName cluster o) ∧ prom_in_step sw.2 o spec port path) ∧
  (∀ n, is_Some (Prom_Desired sw.1 !! n) → is_Some (Prom_Desired s0 !! n) ∨
     ∃ o spec port path, o ∈ done.*1 ∧ served (Prom_Ports s0) o spec port path ∧ n = promServiceName cluster o) ∧
  agree_off (prom_objects (Prom_Ports s0) done.*1) w0 sw.2.

Lemma promKey_inj o1 o2 p1 p2 s1 s2 : distinct_services cluster plan →
  prom_of plan o1 p1 s1 → prom_of plan o2 p2 s2 → promKey cluster o1 = promKey cluster o2 → o1 = o2.
Proof. intros Hd H1 H2 [= Hn]. by eapply Hd. Qed.

(** One more output, served or skipped. *)
Lemma prom_done_served s w done o specs spec s1 w1 s2 w2 port path :
  (∀ o', o' ∈ done.*1 → promKey cluster o' ≠ promKey cluster o) →
  (∀ spec', (∃ p', prom_of plan o p' spec') → spec' = spec) → (∃ p, prom_of plan o p spec) →
  prom_done s w done (s1, w1) → prom_port (Prom_Ports s) o spec = Some (port, path) →
  (∀ o', o' ≠ o → Prom_Ports s2 !! o' = Prom_Ports s1 !! o') →
  Prom_Desired s2 = <[promServiceName cluster o := ()]> (Prom_Desired s1) →
  prom_in_step w2 o spec port path → agree_off (only_at KService (promKey cluster o)) w1 w2 →
  prom_done s w (done ++ [(o, specs)]) (s2, w2).
Proof.
  intros Hother Huniq Hof (I1 & I2 & I3 & I4) Hport J1 J2 J3 J4. cbn [fst snd] in *.
  unfold prom_done. rewrite fmap_app. cbn [fmap list_fmap fst snd]. split_and!.
  - intros o' Ho'. rewrite J1 by set_solver. apply I1. set_solver.
  - intros o' spec' port' path' Ho' Hs'. rewrite J2. apply elem_of_app in Ho' as [Ho'|Ho'%list_elem_of_singleton].
    + destruct (I2 _ _ _ _ Ho' Hs') as [Hd (svc & Hv & Hi)]. split.
      { apply lookup_insert_is_Some'. by right. }
      exists svc. split; [|done]. eapply keep_off; [exact J4| |exact Hv]. intros [_ E]. by apply (Hother o').
    + subst o'. destruct Hs' as [Hs' Hport']. rewrite (Huniq _ Hs'), Hport in Hport'. injection Hport' as <- <-.
      rewrite (Huniq _ Hs'). split; [rewrite lookup_insert_eq; eauto|done].
  - intros n. rewrite J2. intros [<-|[_ Hn]]%lookup_insert_is_Some.
    + right. exists o, spec, port, path. split; [set_solver|]. by split.
    + destruct (I3 _ Hn) as [?|(o' & spec' & port' & path' & Ho' & Hs' & ->)]; [by left|].
      right. exists o', spec', port', path'. split; [set_solver|done].
  - eapply agree_off_trans; (eapply agree_off_mono; [|eassumption]).
    + intros k nn (-> & o' & spec' & port' & path' & Ho' & Hs' & ->). split; [done|].
      exists o', spec', port', path'. split; [set_solver|done].
    + intros k nn [-> ->]. split; [done|]. exists o, spec, port, path. split; [set_solver|]. by split.
Qed.

Lemma prom_done_skipped s w done o specs spec s1 w1 :
  (∀ spec', (∃ p', prom_of plan o p' spec') → spec' = spec) → prom_port (Prom_Ports s) o spec = None →
  prom_done s w done (s1, w1) → prom_done s w (done ++ [(o, specs)]) (s1, w1).
Proof.
  intros Huniq Hport (I1 & I2 & I3 & I4). cbn [fst snd] in *.
  unfold prom_done. rewrite fmap_app. cbn [fmap list_fmap fst snd]. split_and!.
  - intros o' Ho'. apply I1. set_solver.
  - intros o' spec' port' path' [Ho'|Ho'%list_elem_of_singleton]%elem_of_app Hs'; [by apply I2|].
    subst o'. destruct Hs' as [Hs' Hport']. by rewrite (Huniq _ Hs'), Hport in Hport'.
  - intros n Hn. destruct (I3 _ Hn) as [?|(o' & spec' & port' & path' & Ho' & Hs' & ->)]; [by left|].
    right. exists o', spec', port', path'. split; [set_solver|done].
  - eapply agree_off_mono; [|exact I4]. intros k nn (-> & o' & spec' & port' & path' & Ho' & Hs' & ->). split; [done|].
    exists o', spec', port', path'. split; [set_solver|done].
Qed.

(** With one pipeline, the inner loop is one call. *)
Lemma single_pipeline_call o p spec s1 w1 sw2 :
  for_each (λ pipelineName, match ({[p := spec]} : gmap string OutputSpec) !! pipelineName with
      | Some outputSpec => reconcilePrometheusOutput cluster o (size ({[p := spec]} : gmap string OutputSpec)) outputSpec
      | None => mret tt end) (sort_strings (go_range ({[p := spec]} : gmap string OutputSpec)).*1) (s1, w1) = (sw2, Ok tt) →
  reconcilePrometheusOutput cluster o 1 spec (s1, w1) = (sw2, Ok tt).
Proof.
  intros H. assert ((go_range ({[p := spec]} : gmap string OutputSpec)).*1 = [p]) as Hr.
  { apply Permutation_singleton_r. by rewrite go_range_perm, map_to_list_singleton. }
  rewrite Hr in H. change (sort_strings [p]) with [p] in H. cbn [for_each] in H.
  rewrite lookup_singleton_eq, map_size_singleton in H. by apply io_bind_Ok in H as (sw3 & [] & H & [= <-]).
Qed.

Lemma reconcilePrometheusOutputs_Ok s w s' w' :
  single_owner plan → distinct_services cluster plan →
  reconcilePrometheusOutputs cluster (collectPrometheusOutputs plan) (s, w) = ((s', w'), Ok tt) →
  prom_done s w (go_range (collectPrometheusOutputs plan)) (s', w').
Proof.
  intros Hso Hds H. unfold reconcilePrometheusOutputs in H. eapply (for_each_Ok _ (prom_done s w)); [| |exact H].
  { split_and!; cbn; [done| |by left|done]. set_solver. }
  clear H s' w'. intros done [o specs] rest [s1 w1] [s2 w2] Hl HI H.
  assert (∀ o' sp, (o', sp) ∈ done ++ (o, specs) :: rest → ∃ p spec, sp = {[p := spec]} ∧ prom_of plan o' p spec) as Hof.
  { intros o' sp Hin. rewrite <- Hl in Hin. apply elem_of_go_range in Hin. by apply (single_specs _ _ _ Hso). }
  assert (o ∉ done.*1) as Hnew.
  { pose proof (NoDup_fst_go_range (collectPrometheusOutputs plan)) as Hnd. rewrite Hl, fmap_app in Hnd.
    apply NoDup_app in Hnd as (_ & Hx & _). intros Hin. apply (Hx _ Hin). cbn. by left. }
  destruct (Hof o specs ltac:(set_solver)) as (p & spec & -> & Hp). apply single_pipeline_call in H.
  assert (∀ spec', (∃ p', prom_of plan o p' spec') → spec' = spec) as Huniq.
  { intros spec' [p' Hp']. assert (p' = p) as -> by (by eapply Hso). destruct Hp as (d & ? & ? & _).
    destruct Hp' as (d' & ? & ? & _). congruence. }
  apply reconcilePrometheusOutput_Ok in H.
  assert (prom_port (Prom_Ports s1) o spec = prom_port (Prom_Ports s) o spec) as Hport.
  { unfold prom_port. destruct HI as [I1 _]. by rewrite <- (I1 o Hnew). }
  rewrite Hport in H. destruct (prom_port (Prom_Ports s) o spec) as [[port path]|] eqn:E.
  - destruct H as (J1 & J2 & J3 & J4). eapply prom_done_served; [|exact Huniq|by exists p|exact HI|exact E|done..].
    intros o' ([o2 sp] & -> & Hin)%list_elem_of_fmap Hk. cbn in Hk.
    destruct (Hof o2 sp ltac:(set_solver)) as (p2 & spec2 & _ & Hp2). apply Hnew, list_elem_of_fmap.
    exists (o2, sp). split; [|done]. cbn. symmetry. by eapply promKey_inj.
  - destruct H as [-> ->]. by eapply prom_done_skipped.
Qed.

Definition unused (s : PromState) (existing : list Service) : objects :=
  λ k nn, k = KService ∧ ∃ svc : Service, svc ∈ existing ∧ nn = key_of svc ∧ ¬ is_Some (Prom_Desired s !! Name (Meta svc)).

Lemma deleteUnusedServices_Ok existing s w s' w' :
  deleteUnusedServices existing (s, w) = ((s', w'), Ok tt) →
  s' = s ∧ agree_off (unused s existing) w w' ∧ ∀ nn, unused s existing KService nn → cleared w' KService nn.
Proof.
  intros ([s1 w1] & s2 & [= <- <- <-] & H)%io_bind_Ok.
  cut ((λ done (sw : PromState * W), sw.1 = s ∧ agree_off (unused s existing) w sw.2 ∧
    ∀ nn, unused s done KService nn → cleared sw.2 KService nn) existing (s', w')); [done|].
  eapply for_each_Ok; [| |exact H]; clear H s' w'.
  - split_and!; [done..|]. intros nn [_ (svc & Hin & _)]. by apply not_elem_of_nil in Hin.
  - intros done svc rest [s1 w1] [s2 w2] Hl (E & I1 & I2) H. cbn [fst snd] in E, I1, I2 |- *. subst s1. case_decide as Hd.
    + injection H as <- <-. split_and!; [done..|]. intros nn [_ (svc' & Hin & Hk & Hn)]. apply I2. split; [done|].
      exists svc'. split; [|done]. apply elem_of_app in Hin as [?| ->%list_elem_of_singleton]; done.
    + apply beside_Ok in H as [-> [J1 J2]%delete_if_present_Ok]. split_and!; [done| |].
      * eapply agree_off_trans; [exact I1|]. eapply agree_off_mono; [|exact J1]. intros k nn [-> ->]. split; [done|].
        exists svc. split; [rewrite Hl; set_solver|done].
      * intros nn [_ (svc' & Hin & Hk & Hn)]. apply elem_of_app in Hin as [Hin| ->%list_elem_of_singleton]; [|by rewrite Hk].
        destruct (decide (nn = key_of svc)) as [->|Hne]; [done|]. eapply cleared_off; [exact J1|by intros [_ ?]|].
        apply I2. split; [done|]. by exists svc'.
Qed.
End PromLoop.

(** ** Theorems *)

Section PromTheorems.
Context {W : Type} `{L : ApiLaws W} `{R : GoRuntime} `{YL : YAMLListen}.

End PromTheorems.

(** the pod and the Service of a Prometheus output agree on the port only when the
    output has no configuration of its own or names the assigned port there.  The pods
    of a built plan listen on the assigned port, whatever the output's [listen] says;
    an output without a configuration is served there; but one with a configuration is
    served at the port of its [listen], and at 9804 when it names none. *)
Theorem prometheus_port_agrees (R1 R2 : GoRuntime) `{Y : YAML} `{YL : YAMLListen} b b' plan o p spec :
  Build R1 R2 b = (b', Ok plan) → prom_of (PB_pipelines b) o p spec →
  ∃ assigned config,
    AP_Outputs plan !! o = Some config ∧ config !! "listen" = Some (VStr (":" +:+ Itoa assigned)) ∧
    (Output_Config spec = None → prom_port (AP_PrometheusPorts plan) o spec = Some (assigned, PrometheusDefaultPath)) ∧
    (∀ raw port path, Output_Config spec = Some raw → parseListenPortAndPath (Some raw) = Ok (port, path) → port ≠ 0 →
       prom_port (AP_PrometheusPorts plan) o spec = Some (port, path)) ∧
    (∀ raw path, Output_Config spec = Some raw → UnmarshalListen raw = Ok ("", path) →
       ∃ path', prom_port (AP_PrometheusPorts plan) o spec = Some (9804, path')).
Proof.
  intros HB (data & Hd & Ho & Hty). apply Build_ports in HB as [Hdom Hrange].
  assert (is_Some (AP_PrometheusPorts plan !! o)) as [assigned Hp] by (apply Hdom; exists p, data; eauto).
  destruct (Hrange _ _ Hp) as (_ & config & Hc & Hl). exists assigned, config. split_and!; [done|done|..].
  - intros Hn. unfold prom_port. rewrite Hn. cbn. by rewrite Hp.
  - intros raw port path Hraw Hparse Hne. unfold prom_port. rewrite Hraw, Hparse, decide_False by done.
    rewrite decide_False; [done|]. unfold parseListenPortAndPath in Hparse. apply bind_Ok in Hparse as ([l pa] & _ & Hparse).
    destruct (cut_last _ _) as [[? ?]|]; [|done]. destruct (ParseInt _ _); [|done].
    injection Hparse as _ <-. by case_decide.
  - intros raw path Hraw Hu. unfold prom_port, parseListenPortAndPath. rewrite Hraw, Hu. cbn [mbind res_bind].
    change (TrimSpace "") with "". rewrite decide_True by done.
    assert (cut_last ":" PrometheusDefaultListen = Some ("", "9804")) as -> by (vm_compute; reflexivity).
    assert (ParseInt "9804" 32 = Some 9804) as -> by (vm_compute; reflexivity). by eexists.
Qed.

(** A port as the server stores it: it has a target. *)
Definition has_target (p : KubePort) : Prop := IntOrString_String (SP_TargetPort p) ≠ "0".

Lemma restPort_nonzero spec : restPort spec ≠ 0.
Proof. unfold restPort. destruct (CS_API spec) as [api|]; [by case_decide|done]. Qed.

Lemma Itoa_nonzero n : n ≠ 0 → Itoa n ≠ "0".
Proof. intros Hn H. apply Hn. change "0" with (pretty 0) in H. by apply (inj pretty) in H. Qed.

Lemma headless_has_target cluster : Forall has_target (default_port <$> Svc_Ports (Spec (buildHeadlessService cluster))).
Proof.
  cbn. constructor; [apply Itoa_nonzero, restPort_nonzero|]. unfold gnmiPort.
  destruct (CS_API (Spec cluster)) as [api|]; cbn; [|constructor]. case_decide; cbn; repeat constructor. by apply Itoa_nonzero.
Qed.

Lemma target_not_equal cluster ports :
  Forall has_target ports → servicePortsEqual ports (Svc_Ports (Spec (buildHeadlessService cluster))) = false.
Proof.
  intros H. destruct ports as [|p ports]; [done|]. cbn. apply Forall_cons in H as [Hp _].
  unfold port_equal. by rewrite bool_decide_false by naive_solver.
Qed.

(** the headless service never settles.  A reconciliation that returns no error
    leaves it with the ports the cluster asks for, but the server has filled in their
    targets, which the controller leaves open and compares: from then on every
    reconciliation writes the service again. *)
Theorem headless_service_rewritten {W} `{L : ApiLaws W} cluster w w' :
  (∀ svc, view w KService !! in_ns cluster (stsName cluster) = Some svc → Forall has_target (Svc_Ports (Spec svc))) →
  reconcileHeadlessService cluster w = (w', Ok tt) →
  ∃ svc, view w' KService !! in_ns cluster (stsName cluster) = Some svc ∧
    Svc_Ports (Spec svc) = default_port <$> Svc_Ports (Spec (buildHeadlessService cluster)) ∧
    ∀ w1 w2 d, api_setOwner KService cluster (buildHeadlessService cluster) = Ok d →
      api_get KService (key_of d) w1 = (w2, Ok svc) →
      reconcileHeadlessService cluster w1 = (_ ← api_update KService (with_ports svc (Svc_Ports (Spec d))); mret tt) w2.
Proof.
  intros Hold (svc & Hv & _ & Hp)%reconcileHeadlessService_Ok. exists svc. split; [done|].
  assert (Svc_Ports (Spec svc) = default_port <$> Svc_Ports (Spec (buildHeadlessService cluster))) as Hports.
  { destruct Hp as [Hp|[Hv0 He]]; [done|]. by rewrite (target_not_equal _ _ (Hold _ Hv0)) in He. }
  split; [done|]. intros w1 w2 d Hd Hg. unfold reconcileHeadlessService, create_or.
  unfold mbind at 1, io_bind at 1, io_lift. rewrite Hd. unfold mbind at 1, io_bind at 1, io_try. rewrite Hg. cbn [fst snd].
  apply al_setOwner in Hd as (_ & _ & _ & _ & Hs & _).
  pose proof (target_not_equal cluster _ (headless_has_target cluster)) as He. rewrite <- Hports, <- Hs in He.
  kinds. by rewrite He.
Qed.

(** ** Witnesses *)

Module PromDemo.
(** Two documents: one without a [listen], one with the default one. *)
#[local] Instance yaml : YAMLListen := {|
  UnmarshalListen raw := if bool_decide (raw = "path: /m") then Ok ("", "/m") else Ok (" :9804 ", "") |}.

Definition output (config : option string) : OutputSpec := {|
  Output_Type := "prometheus"; Output_Config := config; Output_Service := None; Output_ServiceRef := None;
  Output_ServiceSelector := None |}.

Definition data (outputs : gmap string OutputSpec) : PipelineData :=
  let d := NewPipelineData in {|
  PD_Targets := PD_Targets d; PD_TargetProfiles := PD_TargetProfiles d; PD_Subscriptions := PD_Subscriptions d;
  PD_Outputs := outputs; PD_Inputs := PD_Inputs d;
  PD_OutputProcessors := PD_OutputProcessors d; PD_InputProcessors := PD_InputProcessors d;
  PD_TunnelTargetPolicies := PD_TunnelTargetPolicies d; PD_OutputProcessorOrder := [];
  PD_InputProcessorOrder := []; PD_ResolvedOutputAddresses := ∅ |}.

Definition plan : gmap string PipelineData :=
  {[ "ns/pl" := data {[ "ns/pl/o" := output None; "ns/pl/x" := output (Some "listen: :9804") ]} ]}.

(** A service of an output that is gone. *)
Definition stale : Service := promService demo_cluster "ns/pl/old" 9804 "/metrics" (output None).

Definition world : Server unit := srv_put (empty_server ()) KService {[ key_of stale := stale ]} (WCreate KService (key_of stale)).

Definition ports : gmap string Z := {[ "ns/pl/o" := 10001; "ns/pl/x" := 10002 ]}.

Definition run : PromState * Server unit * res unit :=
  reconcilePrometheusServices (R := go_reference) demo_cluster plan ({| Prom_Ports := ports; Prom_Desired := ∅ |}, world).

Lemma prom_of_plan o p spec : prom_of plan o p spec →
  p = "ns/pl" ∧ (o = "ns/pl/o" ∧ spec = output None ∨ o = "ns/pl/x" ∧ spec = output (Some "listen: :9804")).
Proof.
  intros (d & Hd & Ho & _). unfold plan in Hd. apply lookup_singleton_Some in Hd as [<- <-]. split; [done|].
  cbn in Ho. apply lookup_insert_Some in Ho as [[<- <-]|[_ [<- <-]%lookup_singleton_Some]]; eauto.
Qed.

Lemma single : single_owner plan.
Proof. by intros o p1 p2 s1 s2 [-> _]%prom_of_plan [-> _]%prom_of_plan. Qed.

Lemma distinct : distinct_services demo_cluster plan.
Proof.
  intros o1 o2 p1 p2 s1 s2 [_ [[-> _]|[-> _]]]%prom_of_plan [_ [[-> _]|[-> _]]]%prom_of_plan H; vm_compute in H; done.
Qed.

Lemma prom_run_eq : reconcilePrometheusServices (W := Server unit) (R := go_reference) demo_cluster plan
  ({| Prom_Ports := ports; Prom_Desired := ∅ |}, world) = ((run.1.1, run.1.2), Ok tt).
Proof. vm_compute. reflexivity. Qed.
End PromDemo.


Lemma prometheus_port_agrees_witness :
  ∃ assigned config, AP_Outputs demo_built_plan !! "ns/o1" = Some config ∧
    config !! "listen" = Some (VStr (":" +:+ Itoa assigned)) ∧
    prom_port (YL := PromDemo.yaml) (AP_PrometheusPorts demo_built_plan) "ns/o1" (demo_output "prometheus") = Some (assigned, "/metrics").
Proof.
  edestruct (prometheus_port_agrees go_reference go_reversed (Y := demo_yaml) (YL := PromDemo.yaml) demo_builder _ _
    "ns/o1" "a" (demo_output "prometheus") demo_built_eq) as (assigned & config & Hc & Hl & Hp & _).
  { exists (demo_pipeline "ns/s1" "ns/o1"). vm_compute. split; [|split]; reflexivity. }
  exists assigned, config. split; [exact Hc|]. split; [exact Hl|]. exact (Hp eq_refl).
Defined.

Module HeadlessDemo.
Definition once : Server unit := (reconcileHeadlessService demo_cluster (empty_server ())).1.

Lemma once_eq : reconcileHeadlessService demo_cluster (empty_server ()) = (once, Ok tt).
Proof. vm_compute. reflexivity. Qed.

Lemma none svc : view (empty_server () : Server unit) KService !! in_ns demo_cluster (stsName demo_cluster) = Some svc →
  Forall has_target (Svc_Ports (Spec svc)).
Proof. intros H. vm_compute in H. discriminate. Qed.
End HeadlessDemo.

Lemma headless_service_rewritten_witness :
  ∃ svc, view HeadlessDemo.once KService !! in_ns demo_cluster (stsName demo_cluster) = Some svc ∧
    Svc_Ports (Spec svc) = default_port <$> Svc_Ports (Spec (buildHeadlessService demo_cluster)).
Proof.
  destruct (headless_service_rewritten demo_cluster (empty_server ()) HeadlessDemo.once HeadlessDemo.none HeadlessDemo.once_eq)
    as (svc & Hv & Hp & _).
  exists svc. split; [exact Hv|exact Hp].
Defined.

(** Created once, written again by every later reconciliation. *)
Example headless_written_every_time :
  let again w := (reconcileHeadlessService demo_cluster w).1 in
  let key := in_ns demo_cluster (stsName demo_cluster) in
  srv_writes (again (again HeadlessDemo.once)) = [WUpdate KService key; WUpdate KService key; WCreate KService key].
Proof. vm_compute. reflexivity. Qed.

(** Pipeline [a] with output [b-c] and pipeline [a-b] with output [c] share a service
    name. *)
Example prometheus_names_collide :
  promServiceName demo_cluster "ns/a/b-c" = promServiceName demo_cluster "ns/a-b/c".
Proof. vm_compute. reflexivity. Qed.

(** An output that sets only its path is served at 9804, whatever port its pods use. *)
Example listen_less_output_served_at_9804 :
  prom_port (YL := PromDemo.yaml) {[ "ns/pl/o" := 10001 ]} "ns/pl/o" (PromDemo.output (Some "path: /m")) = Some (9804, "/m").
Proof. vm_compute. reflexivity. Qed.
