(* ===== verification/Certificates.v ===== *)
(** The certificates of a cluster ([internal/controller/cluster_controller.go]): one per
    pod for the API and one per pod for the gRPC tunnel, one shared client certificate,
    and the ConfigMap with the controller's CA. *)

From S2P Require Import Prelude GoLib Api Kube Names Services.
#[local] Open Scope Z_scope.

(** ** Definitions *)

(** The cluster's DNS domain, [gnmic.ClusterDomain()]. *)
Section Build.
Context (ClusterDomain : string).

Definition apiCertName (cluster : Cluster) (i : Z) : string := podName cluster i +:+ "-tls".
Definition tunnelCertName (cluster : Cluster) (i : Z) : string := podName cluster i +:+ "-tunnel-tls".
Definition clientCertName (cluster : Cluster) : string := stsName cluster +:+ "-client-tls".

(** The names a pod is reached by behind the headless service. *)
Definition podDNSNames (cluster : Cluster) (pod : string) : list string :=
  let ns := Namespace (Meta cluster) in
  [pod; pod +:+ "." +:+ stsName cluster; pod +:+ "." +:+ stsName cluster +:+ "." +:+ ns;
   pod +:+ "." +:+ stsName cluster +:+ "." +:+ ns +:+ ".svc";
   pod +:+ "." +:+ stsName cluster +:+ "." +:+ ns +:+ ".svc." +:+ ClusterDomain].

Definition tunnelDNSNames (cluster : Cluster) (tunnel : GRPCTunnelConfig) : list string :=
  let ns := Namespace (Meta cluster) in
  match GT_Service tunnel with
  | Some _ => [tunnelServiceName cluster; tunnelServiceName cluster +:+ "." +:+ ns;
               tunnelServiceName cluster +:+ "." +:+ ns +:+ ".svc";
               tunnelServiceName cluster +:+ "." +:+ ns +:+ ".svc." +:+ ClusterDomain]
  | None => []
  end.

Definition server_usages : list string := ["server auth"; "client auth"; "digital signature"; "key encipherment"].
Definition client_usages : list string := ["client auth"; "digital signature"; "key encipherment"].

Definition buildCertificate (cluster : Cluster) (issuer certName pod : string) : Certificate :=
  MkResource (new_meta certName (Namespace (Meta cluster)) (base_labels cluster) ∅)
    {| Cert_SecretName := certName;
       Cert_SecretLabels := {[ LabelClusterName := Name (Meta cluster); LabelPodName := pod ]};
       Cert_IssuerName := issuer; Cert_IssuerKind := "Issuer"; Cert_CommonName := pod;
       Cert_DNSNames := podDNSNames cluster pod; Cert_Usages := server_usages |} [].

Definition buildTunnelCertificate (cluster : Cluster) (tunnel : GRPCTunnelConfig) (issuer certName pod : string) : Certificate :=
  MkResource (new_meta certName (Namespace (Meta cluster))
      (<[LabelCertType := LabelValueCertTypeTunnel]> (base_labels cluster)) ∅)
    {| Cert_SecretName := certName;
       Cert_SecretLabels := {[ LabelClusterName := Name (Meta cluster); LabelPodName := pod;
                               LabelCertType := LabelValueCertTypeTunnel ]};
       Cert_IssuerName := issuer; Cert_IssuerKind := "Issuer"; Cert_CommonName := pod;
       Cert_DNSNames := podDNSNames cluster pod ++ tunnelDNSNames cluster tunnel; Cert_Usages := server_usages |} [].

Definition buildClientTLSCertificate (cluster : Cluster) (issuer certName : string) : Certificate :=
  let commonName := Name (Meta cluster) +:+ "." +:+ Namespace (Meta cluster) in
  MkResource (new_meta certName (Namespace (Meta cluster))
      (<[LabelCertType := LabelValueCertTypeClient]> (base_labels cluster)) ∅)
    {| Cert_SecretName := certName;
       Cert_SecretLabels := {[ LabelClusterName := Name (Meta cluster); LabelCertType := LabelValueCertTypeClient ]};
       Cert_IssuerName := issuer; Cert_IssuerKind := "Issuer"; Cert_CommonName := commonName;
       Cert_DNSNames := [commonName]; Cert_Usages := client_usages |} [].
End Build.

Definition certificateNeedsUpdate (current desired : Certificate) : bool :=
  bool_decide (Cert_SecretName (Spec current) ≠ Cert_SecretName (Spec desired) ∨
               Cert_IssuerName (Spec current) ≠ Cert_IssuerName (Spec desired) ∨
               Cert_CommonName (Spec current) ≠ Cert_CommonName (Spec desired) ∨
               Cert_DNSNames (Spec current) ≠ Cert_DNSNames (Spec desired)).

(** The first condition of type Ready decides. *)
Definition isCertificateReady (cert : Certificate) : bool :=
  match List.find (λ c, bool_decide (CC_Type c = "Ready")) (Status cert) with
  | Some c => bool_decide (CC_Status c = "True")
  | None => false
  end.

Definition extractOrdinal (suffix certName sts : string) : Z :=
  default (-1) (Atoi (TrimSuffix (TrimPrefix certName (sts +:+ "-")) suffix)).
Definition extractOrdinalFromCertName := extractOrdinal "-tls".
Definition extractOrdinalFromTunnelCertName := extractOrdinal "-tunnel-tls".

Section Certificates.
Context {W : Type} `{A : KubeApi W} (ClusterDomain : string).

(** One certificate: created, and then not ready yet, or kept in step. *)
Definition reconcileCertificate (cluster : Cluster) (desired : Certificate) : io W bool :=
  create_or KCertificate cluster desired (λ _, mret false) (λ desired current,
    current ← (if certificateNeedsUpdate current desired
               then api_update KCertificate (MkResource (Meta current) (Spec desired) (Status current))
               else mret current);
    mret (isCertificateReady current)).

(** The certificates of the pods, in order; ready when all are. *)
Definition reconcilePodCertificates (cluster : Cluster) (replicas : Z) (desired : Z → Certificate) : io W bool :=
  foldM (λ allReady i,
    ready ← reconcileCertificate cluster (desired i);
    mret (allReady && ready)) true (seqZ 0 replicas).

(** After a scale-down: the certificates of ordinals that no longer exist. *)
Definition deleteScaledDown (cluster : Cluster) (labels : gmap string string) (ordinal : string → string → Z)
    (replicas : Z) : io W unit :=
  certs ← api_list KCertificate (Namespace (Meta cluster)) labels;
  for_each (λ cert : Certificate,
    if decide (replicas ≤ ordinal (Name (Meta cert)) (stsName cluster))
    then delete_if_present KCertificate (key_of cert) else mret tt) certs.

(** The pointer to the replicas is dereferenced unchecked; the panic ends the
    reconciliation as an error does. *)
Definition replicasOf (cluster : Cluster) : io W Z :=
  match CS_Replicas (Spec cluster) with Some n => mret n | None => io_fail (ErrMsg "nil pointer dereference") end.

Definition api_cert_labels (cluster : Cluster) : gmap string string := {[ LabelClusterName := Name (Meta cluster) ]}.
Definition tunnel_cert_labels (cluster : Cluster) : gmap string string :=
  {[ LabelClusterName := Name (Meta cluster); LabelCertType := LabelValueCertTypeTunnel ]}.

Definition reconcileCertificates (cluster : Cluster) : io W bool :=
  match apiTLS (Spec cluster) with
  | None => mret true
  | Some tls =>
      replicas ← replicasOf cluster;
      allReady ← reconcilePodCertificates cluster replicas
        (λ i, buildCertificate ClusterDomain cluster (CTLS_IssuerRef tls) (apiCertName cluster i) (podName cluster i));
      _ ← deleteScaledDown cluster (api_cert_labels cluster) extractOrdinalFromCertName replicas;
      mret allReady
  end.

Definition reconcileTunnelCertificates (cluster : Cluster) : io W bool :=
  match CS_GRPCTunnel (Spec cluster), tunnelTLS (Spec cluster) with
  | Some tunnel, Some tls =>
      replicas ← replicasOf cluster;
      allReady ← reconcilePodCertificates cluster replicas
        (λ i, buildTunnelCertificate ClusterDomain cluster tunnel (CTLS_IssuerRef tls) (tunnelCertName cluster i) (podName cluster i));
      _ ← deleteScaledDown cluster (tunnel_cert_labels cluster) extractOrdinalFromTunnelCertName replicas;
      mret allReady
  | _, _ => mret true
  end.

Definition reconcileClientTLSCertificates (cluster : Cluster) : io W bool :=
  match clientTLS (Spec cluster) with
  | None => mret true
  | Some tls => reconcileCertificate cluster (buildClientTLSCertificate cluster (CTLS_IssuerRef tls) (clientCertName cluster))
  end.

(** Deletes what a list returns; a list that finds no such kind is no error. *)
Definition deleteListed (cluster : Cluster) (labels : gmap string string) : io W unit :=
  r ← io_try (api_list KCertificate (Namespace (Meta cluster)) labels);
  match r with
  | Err ErrNotFound => mret tt
  | Err e => io_fail e
  | Ok certs => for_each (λ cert : Certificate, delete_if_present KCertificate (key_of cert)) certs
  end.

Definition cleanupCertificates (cluster : Cluster) : io W unit := deleteListed cluster (api_cert_labels cluster).
Definition cleanupTunnelCertificates (cluster : Cluster) : io W unit := deleteListed cluster (tunnel_cert_labels cluster).
Definition cleanupClientTLSCertificatesLegacy (cluster : Cluster) : io W unit :=
  deleteListed cluster {[ LabelClusterName := Name (Meta cluster); LabelCertType := LabelValueCertTypeClient ]}.
Definition cleanupClientTLSCertificates (cluster : Cluster) : io W unit :=
  delete_if_present KCertificate (in_ns cluster (clientCertName cluster)).

(** ** The controller's CA *)

Definition controllerCAName (cluster : Cluster) : string := stsName cluster +:+ controllerCACMSfx.

(** [readCA] is [os.ReadFile] of the controller's CA; a file that does not exist reads
    as [ErrNotFound]. *)
Definition reconcileControllerCA (readCA : io W string) (cluster : Cluster) : io W unit :=
  r ← io_try readCA;
  match r with
  | Err ErrNotFound => mret tt
  | Err e => io_fail e
  | Ok caData =>
      create_or KConfigMap cluster
        (MkResource (new_meta (controllerCAName cluster) (Namespace (Meta cluster)) (base_labels cluster) ∅)
           {[ "ca.crt" := caData ]} tt)
        (λ _, mret tt) (λ desired current,
          if decide (default "" (Spec current !! "ca.crt") ≠ caData)
          then _ ← api_update KConfigMap (MkResource (Meta current) (Spec desired) (Status current)); mret tt
          else mret tt)
  end.

Definition cleanupControllerCA (cluster : Cluster) : io W unit :=
  delete_if_present KConfigMap (in_ns cluster (controllerCAName cluster)).
End Certificates.

(** ** Lemmas *)

(** A certificate is for what is wanted: it goes into the same secret, is asked of the
    same issuer and names the same host under the same names. *)
Definition cert_in_step (cert desired : Certificate) : Prop :=
  Cert_SecretName (Spec cert) = Cert_SecretName (Spec desired) ∧
  Cert_IssuerName (Spec cert) = Cert_IssuerName (Spec desired) ∧
  Cert_CommonName (Spec cert) = Cert_CommonName (Spec desired) ∧
  Cert_DNSNames (Spec cert) = Cert_DNSNames (Spec desired).

(** The first of its conditions of type Ready has the status True. *)
Definition says_ready (cert : Certificate) : Prop :=
  ∃ before c after, Status cert = before ++ c :: after ∧ CC_Type c = "Ready" ∧ CC_Status c = "True" ∧
    ∀ c', c' ∈ before → CC_Type c' ≠ "Ready".

Lemma needs_update_spec (cert desired : Certificate) : certificateNeedsUpdate cert desired = false ↔ cert_in_step cert desired.
Proof.
  unfold certificateNeedsUpdate, cert_in_step. rewrite bool_decide_eq_false. split; [|naive_solver].
  intros H. split_and!; apply dec_stable; naive_solver.
Qed.

Lemma find_split {A} (P : A → bool) (l : list A) x : List.find P l = Some x ↔
  ∃ before after, l = before ++ x :: after ∧ P x = true ∧ ∀ y, y ∈ before → P y = false.
Proof.
  induction l as [|a l IH]; cbn [List.find].
  { split; [done|]. by intros ([] & ? & ? & _). }
  destruct (P a) eqn:Ea.
  - split.
    + intros [= <-]. exists [], l. split_and!; [done|done|]. by intros y ?%not_elem_of_nil.
    + intros ([|b before] & after & [= -> ->] & Hx & Hb); [done|]. rewrite (Hb b) in Ea by left. done.
  - rewrite IH. split.
    + intros (before & after & -> & Hx & Hb). exists (a :: before), after. split_and!; [done|done|].
      intros y [->|Hy]%elem_of_cons; [done|by apply Hb].
    + intros ([|b before] & after & [= -> ->] & Hx & Hb); [congruence|]. exists before, after. split_and!; [done|done|].
      intros y Hy. apply Hb. by right.
Qed.

Lemma isCertificateReady_spec (cert : Certificate) : isCertificateReady cert = true ↔ says_ready cert.
Proof.
  unfold isCertificateReady, says_ready. split.
  - destruct (List.find _ _) as [c|] eqn:E; [|done]. intros Hs%bool_decide_eq_true.
    apply find_split in E as (before & after & Hl & Ht%bool_decide_eq_true & Hb). exists before, c, after. split_and!; [done..|].
    intros c' Hc' He. specialize (Hb c' Hc'). by rewrite bool_decide_true in Hb.
  - intros (before & c & after & Hl & Ht & Hs & Hb).
    assert (List.find (λ c, bool_decide (CC_Type c = "Ready")) (Status cert) = Some c) as ->; [|by apply bool_decide_true].
    apply find_split. exists before, after. split_and!; [done|by apply bool_decide_true|].
    intros y Hy. by apply bool_decide_false, Hb.
Qed.

Lemma same_spec_in_step (cert desired : Certificate) : Spec cert = Spec desired → cert_in_step cert desired.
Proof. unfold cert_in_step. by intros ->. Qed.

Lemma in_step_same_spec (cert d d' : Certificate) : Spec d = Spec d' → cert_in_step cert d → cert_in_step cert d'.
Proof. unfold cert_in_step. by intros ->. Qed.

Section CertLemmas.
Context {W : Type} `{L : ApiLaws W} (ClusterDomain : string).

Lemma reconcileCertificate_Ok cluster desired w w' ready :
  reconcileCertificate cluster desired w = (w', Ok ready) →
  agree_off (only_at KCertificate (key_of desired)) w w' ∧
  ∃ cert, view w' KCertificate !! key_of desired = Some cert ∧ cert_in_step cert desired ∧
    (view w KCertificate !! key_of desired = None → Spec cert = Spec desired) ∧
    (ready = true ↔ is_Some (view w KCertificate !! key_of desired) ∧ says_ready cert).
Proof.
  setoid_rewrite <- isCertificateReady_spec.
  intros (d & (Hk & _ & _ & _ & Hs & _)%al_setOwner & [(w1 & w2 & cert & Hag & Hv & Hc & [= <- <-])|(w1 & cur & Hag & Hv & H)])%create_or_Ok;
    rewrite Hk in Hv.
  - apply create_Ok in Hc as (Hag2 & (_ & _ & _ & _ & Hsp) & Hv2). rewrite Hk in Hv2, Hag2.
    split; [by eapply agree_nothing_off|]. exists cert. split; [exact Hv2|].
    split; [apply same_spec_in_step; by etrans|]. split; [intros _; by etrans|]. rewrite Hv. split; [done|by intros [[? ?] _]].
  - apply io_bind_Ok in H as (w2 & cert & Hu & [= <- <-]). destruct (certificateNeedsUpdate cur d) eqn:E.
    + destruct (update_found KCertificate _ _ _ _ _ _ _ Hag Hv Hu eq_refl eq_refl)
        as (Hag2 & (_ & _ & _ & _ & Hsp) & Hv2 & _).
      split; [exact Hag2|]. exists cert. split; [exact Hv2|].
      split; [apply same_spec_in_step; by etrans|]. split; [intros _; by etrans|]. rewrite Hv. naive_solver.
    + injection Hu as <- <-. split; [by eapply agree_off_mono; [|exact Hag]|]. exists cur.
      split; [exact (keep _ _ _ _ _ Hag Hv)|]. split; [by eapply in_step_same_spec, needs_update_spec|]. rewrite Hv. naive_solver.
Qed.

(** The certificate of an ordinal is there, as wanted, in full when it is new; [ready]
    tells whether it was there and says so. *)
Definition cert_done (w w' : W) (desired : Certificate) (ready : bool) : Prop :=
  ∃ cert, view w' KCertificate !! key_of desired = Some cert ∧ cert_in_step cert desired ∧
    (view w KCertificate !! key_of desired = None → Spec cert = Spec desired) ∧
    (ready = true ↔ is_Some (view w KCertificate !! key_of desired) ∧ says_ready cert).

Lemma reconcilePodCertificates_Ok cluster replicas (desired : Z → Certificate) w w' allReady :
  (∀ i j, key_of (desired i) = key_of (desired j) → i = j) →
  reconcilePodCertificates cluster replicas desired w = (w', Ok allReady) →
  agree_off (λ k nn, k = KCertificate ∧ ∃ i, i ∈ seqZ 0 replicas ∧ nn = key_of (desired i)) w w' ∧
  ∃ ready : Z → bool, (∀ i, i ∈ seqZ 0 replicas → cert_done w w' (desired i) (ready i)) ∧
    (allReady = true ↔ ∀ i, i ∈ seqZ 0 replicas → ready i = true).
Proof.
  intros Hinj H.
  eapply (foldM_Ok _ (λ done b w1,
    agree_off (λ k nn, k = KCertificate ∧ ∃ i, i ∈ done ∧ nn = key_of (desired i)) w w1 ∧
    ∃ ready : Z → bool, (∀ i, i ∈ done → cert_done w w1 (desired i) (ready i)) ∧
      (b = true ↔ ∀ i, i ∈ done → ready i = true))); [| |exact H]; clear H w' allReady.
  - split; [done|]. exists (λ _, true). split; [by intros i ?%not_elem_of_nil|]. split; [by intros _ i ?%not_elem_of_nil|done].
  - intros done i rest b1 w1 b2 w2 Hl [I1 (ready & I2 & I3)] H.
    apply io_bind_Ok in H as (w3 & r & (J1 & cert & J2 & J3 & J5 & J4)%reconcileCertificate_Ok & [= <- <-]).
    assert (i ∉ done) as Hnew.
    { pose proof (NoDup_seqZ 0 replicas) as Hnd. rewrite Hl in Hnd. apply NoDup_app in Hnd as (_ & Hx & _).
      intros Hin. apply (Hx _ Hin). by left. }
    split.
    + eapply agree_off_trans; (eapply agree_off_mono; [|eassumption]).
      * intros k nn (-> & j & Hj & ->). split; [done|]. exists j. set_solver.
      * intros k nn [-> ->]. split; [done|]. exists i. set_solver.
    + exists (λ j, if decide (j = i) then r else ready j). split.
      * intros j Hj. destruct (decide (j = i)) as [->|Hne].
        -- exists cert. rewrite (I1 KCertificate) in J4, J5; [done|..];
             intros (_ & j & Hj' & Hk); by apply Hinj in Hk as ->.
        -- destruct (I2 j ltac:(set_solver)) as (c & Hc & Hst). exists c. split; [|done].
           eapply keep_off; [exact J1| |exact Hc]. intros [_ Hk]. by apply Hinj in Hk.
      * rewrite andb_true_iff, I3. setoid_rewrite elem_of_app. setoid_rewrite list_elem_of_singleton. split.
        -- intros [Ha ->] j [Hj| ->]; [rewrite decide_False by (by intros ->); by apply Ha|by rewrite decide_True].
        -- intros Ha. split; [|specialize (Ha i ltac:(by right)); by rewrite decide_True in Ha].
           intros j Hj. specialize (Ha j ltac:(by left)). by rewrite decide_False in Ha by (by intros ->).
Qed.

(** The certificates a scale-down deletes. *)
Definition scaled_down (cluster : Cluster) (labels : gmap string string) (ordinal : string → string → Z)
    (replicas : Z) (w : W) : objects := λ k nn, k = KCertificate ∧
  replicas ≤ ordinal (NN_Name nn) (stsName cluster) ∧
  ∃ cert, view w KCertificate !! nn = Some cert ∧ matches KCertificate (Namespace (Meta cluster)) labels cert.

Lemma deleteScaledDown_Ok cluster labels ordinal replicas w w' :
  deleteScaledDown cluster labels ordinal replicas w = (w', Ok tt) →
  agree_off (scaled_down cluster labels ordinal replicas w) w w' ∧
  ∀ nn, scaled_down cluster labels ordinal replicas w KCertificate nn → cleared w' KCertificate nn.
Proof.
  intros (w1 & certs & (H1 & _ & Hin)%list_Ok & [J1 J2]%delete_those_Ok)%io_bind_Ok.
  assert (∀ k nn, scaled_down cluster labels ordinal replicas w k nn ↔
    deleted KCertificate certs (λ cert, replicas ≤ ordinal (Name (Meta cert)) (stsName cluster)) k nn) as Hsd.
  { intros k nn. split.
    - intros (-> & Ho & cert & Hv & Hm). split; [done|]. pose proof (al_key _ _ _ _ Hv) as <-.
      exists cert. split; [by apply Hin|]. done.
    - intros (-> & cert & [Hv Hm]%Hin & Ho & ->). split; [done|]. split; [done|]. by exists cert. }
  split; [|intros nn Hn; by apply J2, Hsd].
  eapply agree_nothing_off; [exact H1|]. eapply agree_off_mono; [|exact J1]. intros k nn. apply Hsd.
Qed.
End CertLemmas.

(** ** The ordinal of a certificate *)

Lemma apiCert_ordinal cluster i : 0 ≤ i < 2 ^ 63 →
  extractOrdinalFromCertName (apiCertName cluster i) (stsName cluster) = i.
Proof.
  intros Hi. unfold extractOrdinalFromCertName, extractOrdinal, apiCertName, podName.
  rewrite !app_str_assoc, <- (app_str_assoc (_ +:+ "-")), TrimPrefix_app, TrimSuffix_app. by rewrite Atoi_Itoa.
Qed.

Lemma tunnelCert_ordinal cluster i : 0 ≤ i < 2 ^ 63 →
  extractOrdinalFromTunnelCertName (tunnelCertName cluster i) (stsName cluster) = i.
Proof.
  intros Hi. unfold extractOrdinalFromTunnelCertName, extractOrdinal, tunnelCertName, podName.
  rewrite !app_str_assoc, <- (app_str_assoc (_ +:+ "-")), TrimPrefix_app, TrimSuffix_app. by rewrite Atoi_Itoa.
Qed.

(** A tunnel certificate has no ordinal for the API's sweep, nor has the clients'. *)
Lemma tunnelCert_no_api_ordinal cluster i : 0 ≤ i →
  extractOrdinalFromCertName (tunnelCertName cluster i) (stsName cluster) = -1.
Proof.
  intros Hi. unfold extractOrdinalFromCertName, extractOrdinal, tunnelCertName, podName.
  rewrite !app_str_assoc, <- (app_str_assoc (_ +:+ "-")), TrimPrefix_app.
  change "-tunnel-tls" with ("-tunnel" +:+ "-tls"). rewrite app_str_assoc, TrimSuffix_app.
  by rewrite Atoi_Itoa_app.
Qed.

Lemma clientCert_no_api_ordinal cluster : extractOrdinalFromCertName (clientCertName cluster) (stsName cluster) = -1.
Proof.
  unfold extractOrdinalFromCertName, extractOrdinal, clientCertName. change "-client-tls" with ("-" +:+ ("client" +:+ "-tls")).
  by rewrite !app_str_assoc, <- (app_str_assoc (_ +:+ "-")), TrimPrefix_app, TrimSuffix_app.
Qed.

Section Exact.
Context {W : Type} `{L : ApiLaws W} (ClusterDomain : string).

(** The pods' certificates are as wanted, those past the last pod gone, and the rest of
    the world is as it was. *)
Lemma pod_certificates_Ok cluster labels ordinal replicas (desired : Z → Certificate) w w' ready :
  (∀ i j, key_of (desired i) = key_of (desired j) → i = j) →
  (∀ i, i ∈ seqZ 0 replicas → ordinal (Name (Meta (desired i))) (stsName cluster) < replicas) →
  (allReady ← reconcilePodCertificates cluster replicas desired;
   _ ← deleteScaledDown cluster labels ordinal replicas;
   mret allReady) w = (w', Ok ready) →
  (∃ rdy : Z → bool, (∀ i, i ∈ seqZ 0 replicas → cert_done w w' (desired i) (rdy i)) ∧
    (ready = true ↔ ∀ i, i ∈ seqZ 0 replicas → rdy i = true)) ∧
  (∀ nn cert, view w' KCertificate !! nn = Some cert → matches KCertificate (Namespace (Meta cluster)) labels cert →
    DeletionTimestamp (Meta cert) ≠ 0 ∨ ordinal (NN_Name nn) (stsName cluster) < replicas) ∧
  agree_off (λ k nn, k = KCertificate ∧ ((∃ i, i ∈ seqZ 0 replicas ∧ nn = key_of (desired i)) ∨
    replicas ≤ ordinal (NN_Name nn) (stsName cluster))) w w'.
Proof.
  intros Hinj Hord (w1 & b & [H1 (rdy & H2 & H3)]%reconcilePodCertificates_Ok & (w2 & [] & [J1 J2]%deleteScaledDown_Ok & [= <- <-])%io_bind_Ok)%io_bind_Ok; [|done].
  split; [|split].
  - exists rdy. split; [|done]. intros i Hi. destruct (H2 i Hi) as (cert & Hv & Hst). exists cert. split; [|exact Hst].
    eapply keep_off; [exact J1| |exact Hv]. intros (_ & Ho & _). exact (proj1 (Z.le_ngt _ _) Ho (Hord i Hi)).
  - intros nn cert Hv Hm. destruct (decide (replicas ≤ ordinal (NN_Name nn) (stsName cluster))) as [Ho|]; [left|right; lia].
    destruct (view w1 KCertificate !! nn) as [cert1|] eqn:E.
    + destruct (decide (matches KCertificate (Namespace (Meta cluster)) labels cert1)) as [Hm1|Hm1].
      * apply (J2 nn); [|done]. split; [done|]. split; [done|]. by exists cert1.
      * rewrite (J1 KCertificate), E in Hv; [by simplify_eq|]. intros (_ & _ & c & Hc & ?). kinds. by simplify_eq.
    + rewrite (J1 KCertificate), E in Hv; [done|]. intros (_ & _ & c & Hc & ?). kinds. by simplify_eq.
  - eapply agree_off_trans; (eapply agree_off_mono; [|eassumption]).
    + intros k nn (-> & i & Hi & ->). split; [done|]. left. eauto.
    + intros k nn (-> & Ho & _). split; [done|]. by right.
Qed.
End Exact.

(** ** Properties *)

Section Theorems.
Context {W : Type} `{L : ApiLaws W} (ClusterDomain : string).

(** The certificate of a pod's API. *)
Definition apiCert (cluster : Cluster) (tls : ClusterTLSConfig) (i : Z) : Certificate :=
  buildCertificate ClusterDomain cluster (CTLS_IssuerRef tls) (apiCertName cluster i) (podName cluster i).

Lemma apiCert_inj cluster tls i j : key_of (apiCert cluster tls i) = key_of (apiCert cluster tls j) → i = j.
Proof. intros H%(f_equal NN_Name). apply (app_str_inj_r _ _ "-tls") in H. by eapply podName_inj. Qed.

(** C22: When the certificates of the API are reconciled without an error, every pod of the
    cluster has its certificate, for the secret, the issuer, the common name and the host
    names wanted, and with everything else as wanted too when it is new; the
    reconciliation reports that all are ready exactly when each was there before and has
    a Ready condition that is True; a certificate that carries the cluster's label and is
    for a pod past the last one is gone or being deleted; and the tunnel's and the
    clients' certificates, which the sweep lists too, are left alone, as is everything
    else. *)
Theorem certificates_exact cluster tls replicas w w' ready :
  apiTLS (Spec cluster) = Some tls → CS_Replicas (Spec cluster) = Some replicas → 0 ≤ replicas < 2 ^ 31 →
  reconcileCertificates ClusterDomain cluster w = (w', Ok ready) →
  (∀ i, 0 ≤ i < replicas → ∃ cert,
    view w' KCertificate !! in_ns cluster (apiCertName cluster i) = Some cert ∧
    cert_in_step cert (apiCert cluster tls i) ∧
    (view w KCertificate !! in_ns cluster (apiCertName cluster i) = None → Spec cert = Spec (apiCert cluster tls i))) ∧
  (ready = true ↔ ∀ i, 0 ≤ i < replicas →
    is_Some (view w KCertificate !! in_ns cluster (apiCertName cluster i)) ∧
    ∃ cert, view w' KCertificate !! in_ns cluster (apiCertName cluster i) = Some cert ∧ says_ready cert) ∧
  (∀ i cert, replicas ≤ i < 2 ^ 63 →
    view w' KCertificate !! in_ns cluster (apiCertName cluster i) = Some cert →
    matches KCertificate (Namespace (Meta cluster)) (api_cert_labels cluster) cert → DeletionTimestamp (Meta cert) ≠ 0) ∧
  (∀ i, 0 ≤ i → view w' KCertificate !! in_ns cluster (tunnelCertName cluster i) =
    view w KCertificate !! in_ns cluster (tunnelCertName cluster i)) ∧
  view w' KCertificate !! in_ns cluster (clientCertName cluster) =
    view w KCertificate !! in_ns cluster (clientCertName cluster) ∧
  ∀ k, k ≠ KCertificate → ∀ nn, view w' k !! nn = view w k !! nn.
Proof.
  intros Htls Hrep Hmax H. unfold reconcileCertificates, replicasOf in H. rewrite Htls, Hrep in H.
  change ((allReady ← reconcilePodCertificates cluster replicas (apiCert cluster tls);
     _ ← deleteScaledDown cluster (api_cert_labels cluster) extractOrdinalFromCertName replicas;
     mret allReady) w = (w', Ok ready)) in H.
  apply pod_certificates_Ok in H as ((rdy & H1 & H2) & H3 & H4);
    [|apply apiCert_inj|intros i Hi%elem_of_seqZ; cbn; rewrite apiCert_ordinal by lia; lia].
  setoid_rewrite elem_of_seqZ in H1. setoid_rewrite elem_of_seqZ in H2.
  rewrite Z.add_0_l in H1, H2.
  split; [|split; [|split; [|split; [|split]]]].
  - intros i Hi. destruct (H1 i Hi) as (cert & Hv & Hst & Hnew & _). by exists cert.
  - rewrite H2. split; intros Hr i Hi; destruct (H1 i Hi) as (cert & Hv & Hst & _ & Hrd).
    + specialize (Hr i Hi). apply Hrd in Hr as [Hs Hc]. split; [exact Hs|]. by exists cert.
    + apply Hrd. destruct (Hr i Hi) as [Hs (c & Hc & Hready)]. split; [exact Hs|].
      assert (cert = c) as -> by (apply (inj Some); etrans; [symmetry; exact Hv|exact Hc]). done.
  - intros i cert Hi Hv Hm. destruct (H3 _ _ Hv Hm) as [Hd|Hlt]; [done|]. cbn in Hlt. rewrite apiCert_ordinal in Hlt; lia.
  - intros i Hi. apply H4. intros (_ & [(j & Hj%elem_of_seqZ & Hn%(f_equal NN_Name))|Ho]).
    + apply (f_equal (λ s, extractOrdinalFromCertName s (stsName cluster))) in Hn.
      change (extractOrdinalFromCertName (tunnelCertName cluster i) (stsName cluster) =
              extractOrdinalFromCertName (apiCertName cluster j) (stsName cluster)) in Hn.
      rewrite tunnelCert_no_api_ordinal, apiCert_ordinal in Hn; lia.
    + cbn [NN_Name in_ns] in Ho. rewrite tunnelCert_no_api_ordinal in Ho; lia.
  - apply H4. intros (_ & [(j & Hj%elem_of_seqZ & Hn%(f_equal NN_Name))|Ho]).
    + apply (f_equal (λ s, extractOrdinalFromCertName s (stsName cluster))) in Hn.
      change (extractOrdinalFromCertName (clientCertName cluster) (stsName cluster) =
              extractOrdinalFromCertName (apiCertName cluster j) (stsName cluster)) in Hn.
      rewrite clientCert_no_api_ordinal, apiCert_ordinal in Hn; lia.
    + cbn [NN_Name in_ns] in Ho. rewrite clientCert_no_api_ordinal in Ho; lia.
  - intros k Hk nn. apply H4. by intros [-> _].
Qed.
End Theorems.

Module CertDemo.
Definition tls : ClusterTLSConfig := {| CTLS_IssuerRef := "ca"; CTLS_BundleRef := ""; CTLS_UseCSIDriver := false |}.

Definition cluster : Cluster := MkResource (new_meta "c1" "ns" ∅ ∅)
  {| CS_Image := "gnmic"; CS_Replicas := Some 2;
     CS_API := Some {| API_RestPort := 0; API_GNMIPort := 0; API_TLS := Some tls |}; CS_ClientTLS := None;
     CS_GRPCTunnel := None; CS_Resources := {| Requests := ∅; Limits := ∅ |}; CS_Env := [];
     CS_TargetDistribution := None |}
  {| CSt_Conditions := []; CSt_ReadyReplicas := 0; CSt_Selector := ""; CSt_PipelinesCount := 0;
     CSt_TargetsCount := 0; CSt_UnassignedTargets := 0; CSt_SubscriptionsCount := 0;
     CSt_InputsCount := 0; CSt_OutputsCount := 0 |}.

Definition domain := "cluster.local".
Definition ready (cert : Certificate) : Certificate :=
  MkResource (Meta cert) (Spec cert) [{| CC_Type := "Ready"; CC_Status := "True" |}].

(** Pod 0 has its certificate, pod 1 has none, and one is left of a pod 2. *)
Definition before : gmap NamespacedName Certificate :=
  {[ in_ns cluster "gnmic-c1-0-tls" := ready (apiCert domain cluster tls 0);
     in_ns cluster "gnmic-c1-2-tls" := ready (apiCert domain cluster tls 2);
     in_ns cluster "gnmic-c1-7-tunnel-tls" :=
       ready (buildTunnelCertificate domain cluster {| GT_Port := 57400; GT_TLS := Some tls; GT_Service := None |} "ca"
                "gnmic-c1-7-tunnel-tls" "gnmic-c1-7") ]}.

Definition world : Server unit := srv_put (empty_server ()) KCertificate before (WCreate KCertificate (in_ns cluster "")).
Definition run : Server unit * res bool := reconcileCertificates domain cluster world.

Lemma certs_run_eq : reconcileCertificates (W := Server unit) domain cluster world = (run.1, Ok false).
Proof. vm_compute. reflexivity. Qed.
End CertDemo.

(** Pod 1's certificate is created, so not all are ready; pod 2's is deleted and the
    tunnel's is kept. *)
Lemma certificates_exact_witness :
  (∃ cert, view CertDemo.run.1 KCertificate !! in_ns CertDemo.cluster "gnmic-c1-1-tls" = Some cert) ∧
  view CertDemo.run.1 KCertificate !! in_ns CertDemo.cluster "gnmic-c1-2-tls" = None ∧
  view CertDemo.run.1 KCertificate !! in_ns CertDemo.cluster "gnmic-c1-7-tunnel-tls" =
    view CertDemo.world KCertificate !! in_ns CertDemo.cluster "gnmic-c1-7-tunnel-tls".
Proof.
  destruct (certificates_exact (W := Server unit) CertDemo.domain CertDemo.cluster CertDemo.tls 2
    CertDemo.world CertDemo.run.1 false eq_refl eq_refl ltac:(done) CertDemo.certs_run_eq) as (H1 & _ & _ & H4 & _).
  split; [|split].
  - destruct (H1 1 ltac:(done)) as (cert & Hv & _). exists cert. exact Hv.
  - vm_compute. reflexivity.
  - exact (H4 7 ltac:(done)).
Defined.
