(* ===== verification/Workload.v ===== *)
(** The pods of a cluster ([internal/controller/cluster_controller.go]): the collectors'
    base configuration in its ConfigMap, and the StatefulSet with its volumes, mounts and
    environment. *)

From S2P Require Import Prelude GoLib Api GnmicTypes TargetConfigs Kube Names Services Certificates.
#[local] Open Scope Z_scope.

(** ** The base configuration *)

(** The [map[string]any] handed to the YAML encoder; the keys are fixed. *)
Record APIServerConfig := { ASC_Address : string; ASC_EnableMetrics : bool; ASC_TLS : option TLSConfig }.

(** [tls] and [targets] are keys only when set. *)
Record TunnelServerConfig := {
  TSC_Address : string;
  TSC_EnableMetrics : bool;
  TSC_TLS : option TLSConfig;
  TSC_Targets : option (list (option TunnelTargetMatch))
}.

Record BaseConfig := {
  BC_APIServer : APIServerConfig;
  BC_Log : bool;
  BC_TunnelServer : option TunnelServerConfig
}.

(** [yaml.Marshal]. *)
Class YAMLMarshal := { MarshalConfig : BaseConfig → res string }.

Section Config.
Context `{R : GoRuntime} {Y : YAMLMarshal}.

(** The matches in the order of their keys; a key without a match reads as nil. *)
Definition sortedMatches (matches : gmap string TunnelTargetMatch) : list (option TunnelTargetMatch) :=
  (λ k, matches !! k) <$> sort_strings (go_range matches).*1.

(** The tunnel's server, when there is one. *)
Definition tunnelPort (spec : ClusterSpec) : option Z :=
  tunnel ← CS_GRPCTunnel spec; if decide (GT_Port tunnel ≠ 0) then Some (GT_Port tunnel) else None.

Definition baseConfig (cluster : Cluster) (matches : gmap string TunnelTargetMatch) : BaseConfig := {|
  BC_APIServer := {| ASC_Address := ":" +:+ Itoa (restPort (Spec cluster)); ASC_EnableMetrics := true;
                     ASC_TLS := TLSConfigForClusterPod (Spec cluster) |};
  BC_Log := true;
  BC_TunnelServer :=
    (λ port, {| TSC_Address := ":" +:+ Itoa port; TSC_EnableMetrics := true;
                TSC_TLS := TunnelServerTLSConfig (Spec cluster);
                TSC_Targets := if decide (0 < size matches)%nat then Some (sortedMatches matches) else None |})
      <$> tunnelPort (Spec cluster) |}.

Definition buildConfigContent (cluster : Cluster) (matches : gmap string TunnelTargetMatch) : res string :=
  MarshalConfig (baseConfig cluster matches).

Definition configMapName (cluster : Cluster) : string := stsName cluster +:+ "-config".

Definition buildConfigMap (cluster : Cluster) (matches : gmap string TunnelTargetMatch) : res ConfigMap :=
  match buildConfigContent cluster matches with
  | Err _ => Err (ErrMsg "failed to build config content")
  | Ok content => Ok (MkResource (new_meta (configMapName cluster) (Namespace (Meta cluster)) ∅ ∅)
                        {[ gNMIcConfigFile := content ]} tt)
  end.
End Config.

(** ** The StatefulSet *)

Definition CertFilesBasePath := "/etc/gnmic/tls".
Definition TunnelCertFilesBasePath := "/etc/gnmic/tunnel-tls".
Definition ClientTLSCertFilesBasePath := "/etc/gnmic/client-tls".
Definition ClientCABundleMountPath := "/etc/gnmic/client-ca".
Definition TunnelCABundleMountPath := "/etc/gnmic/tunnel-ca".
Definition ControllerCAMountPath := "/etc/gnmic/controller-ca".

(** What the blocks of [buildStatefulSet] append to. *)
Record PodParts := { PP_Volumes : list Volume; PP_Mounts : list VolumeMount; PP_Env : list EnvVar }.

Definition mount (name path subPath subPathExpr : string) (readOnly : bool) : VolumeMount :=
  {| VM_Name := name; VM_MountPath := path; VM_SubPath := subPath; VM_SubPathExpr := subPathExpr; VM_ReadOnly := readOnly |}.

(** One volume and where it is mounted, read-only. *)
Definition add_mounted (name : string) (source : VolumeSource) (path subPathExpr : string) (p : PodParts) : PodParts := {|
  PP_Volumes := PP_Volumes p ++ [{| Vol_Name := name; Vol_Source := source |}];
  PP_Mounts := PP_Mounts p ++ [mount name path "" subPathExpr true];
  PP_Env := PP_Env p |}.

Definition add_env (e : EnvVar) (p : PodParts) : PodParts :=
  {| PP_Volumes := PP_Volumes p; PP_Mounts := PP_Mounts p; PP_Env := PP_Env p ++ [e] |}.

Definition podNameEnv : EnvVar := {| Env_Name := "POD_NAME"; Env_Value := ""; Env_FieldPath := Some "metadata.name" |}.

(** The secret of one pod, laid out under the pod's name. *)
Definition podProjection (cluster : Cluster) (secret : Z → string) (i : Z) : SecretProjection :=
  {| Proj_Secret := secret i;
     Proj_Items := [{| KP_Key := "tls.crt"; KP_Path := podName cluster i +:+ "/tls.crt" |};
                    {| KP_Key := "tls.key"; KP_Path := podName cluster i +:+ "/tls.key" |};
                    {| KP_Key := "ca.crt"; KP_Path := podName cluster i +:+ "/ca.crt" |}];
     Proj_Optional := true |}.

(** A nil number of replicas is dereferenced. *)
Definition podSources (cluster : Cluster) (secret : Z → string) : res VolumeSource :=
  match CS_Replicas (Spec cluster) with
  | Some n => Ok (VProjected (podProjection cluster secret <$> seqZ 0 n))
  | None => Err (ErrMsg "nil pointer dereference")
  end.

Section StatefulSet.
Context (ClusterDomain : string).

(** The CSI driver's attributes for a certificate per pod. *)
Definition podCSI (cluster : Cluster) (tls : ClusterTLSConfig) : VolumeSource :=
  VCSI "csi.cert-manager.io" true
    {[ "csi.cert-manager.io/issuer-name" := CTLS_IssuerRef tls; "csi.cert-manager.io/issuer-kind" := "Issuer";
       "csi.cert-manager.io/dns-names" :=
         "${POD_NAME}." +:+ stsName cluster +:+ "." +:+ Namespace (Meta cluster) +:+ ".svc." +:+ ClusterDomain ]}.

Definition podCerts (cluster : Cluster) (tls : ClusterTLSConfig) (secret : Z → string) : res VolumeSource :=
  if CTLS_UseCSIDriver tls then Ok (podCSI cluster tls) else podSources cluster secret.

Definition addAPICerts (cluster : Cluster) (p : PodParts) : res PodParts :=
  match apiTLS (Spec cluster) with
  | None => Ok p
  | Some tls =>
      source ← podCerts cluster tls (apiCertName cluster);
      Ok (add_env podNameEnv (add_mounted "tls-certs" source CertFilesBasePath "$(POD_NAME)" p))
  end.

Definition addBundle (tls : option ClusterTLSConfig) (name path : string) (p : PodParts) : PodParts :=
  match tls with
  | Some t => if decide (CTLS_BundleRef t ≠ "") then add_mounted name (VConfigMap (CTLS_BundleRef t) false) path "" p else p
  | None => p
  end.

Definition addControllerCA (cluster : Cluster) (p : PodParts) : PodParts :=
  match apiTLS (Spec cluster) with
  | None => p
  | Some _ => add_mounted "controller-ca" (VConfigMap (controllerCAName cluster) true) ControllerCAMountPath "" p
  end.

Definition hasPodNameEnv (p : PodParts) : bool := existsb (λ e, bool_decide (Env_Name e = "POD_NAME")) (PP_Env p).

Definition addTunnelCerts (cluster : Cluster) (p : PodParts) : res PodParts :=
  match tunnelTLS (Spec cluster) with
  | None => Ok p
  | Some tls =>
      source ← podCerts cluster tls (tunnelCertName cluster);
      let p := add_mounted "tunnel-tls-certs" source TunnelCertFilesBasePath "$(POD_NAME)" p in
      Ok (if hasPodNameEnv p then p else add_env podNameEnv p)
  end.

Definition addClientCerts (cluster : Cluster) (p : PodParts) : PodParts :=
  match clientTLS (Spec cluster) with
  | None => p
  | Some tls =>
      let commonName := Name (Meta cluster) +:+ "." +:+ Namespace (Meta cluster) in
      let source :=
        if CTLS_UseCSIDriver tls
        then VCSI "csi.cert-manager.io" true
               {[ "csi.cert-manager.io/issuer-name" := CTLS_IssuerRef tls; "csi.cert-manager.io/issuer-kind" := "Issuer";
                  "csi.cert-manager.io/common-name" := commonName; "csi.cert-manager.io/dns-names" := commonName ]}
        else VSecret (clientCertName cluster) true in
      add_mounted "client-tls-certs" source ClientTLSCertFilesBasePath "" p
  end.

Definition addAPIBundle (cluster : Cluster) : PodParts → PodParts :=
  addBundle (CS_API (Spec cluster) ≫= API_TLS) "ca-bundle" "/etc/certs/ca".
Definition addTunnelBundle (cluster : Cluster) : PodParts → PodParts :=
  addBundle (CS_GRPCTunnel (Spec cluster) ≫= GT_TLS) "tunnel-ca-bundle" TunnelCABundleMountPath.
Definition addClientBundle (cluster : Cluster) : PodParts → PodParts :=
  addBundle (CS_ClientTLS (Spec cluster)) "client-ca-bundle" ClientCABundleMountPath.

(** Where the blocks start: the configuration's volume and the user's environment. *)
Definition baseParts (cluster : Cluster) : PodParts := {|
  PP_Volumes := [{| Vol_Name := "config"; Vol_Source := VConfigMap (configMapName cluster) false |}];
  PP_Mounts := [mount "config" gNMIcConfigPath gNMIcConfigFile "" false];
  PP_Env := CS_Env (Spec cluster) |}.

Definition podParts (cluster : Cluster) : res PodParts :=
  p ← addAPICerts cluster (baseParts cluster);
  p ← addTunnelCerts cluster (addControllerCA cluster (addAPIBundle cluster p));
  Ok (addClientBundle cluster (addClientCerts cluster (addTunnelBundle cluster p))).

Definition buildContainerPorts (cluster : Cluster) : list ContainerPort :=
  {| CP_Name := "rest"; CP_ContainerPort := restPort (Spec cluster) |} ::
  match gnmiPort (Spec cluster) with Some n => [{| CP_Name := "gnmi"; CP_ContainerPort := n |}] | None => [] end ++
  match tunnelPort (Spec cluster) with Some n => [{| CP_Name := "tunnel"; CP_ContainerPort := n |}] | None => [] end.

Section Build.
Context `{R : GoRuntime} {Y : YAMLMarshal}.

Definition gnmicContainer (cluster : Cluster) (p : PodParts) : Container := {|
  Ctr_Name := "gnmic"; Ctr_Image := CS_Image (Spec cluster); Ctr_Ports := buildContainerPorts cluster;
  Ctr_Command := ["/app/gnmic"; "collector"; "--config"; "/etc/gnmic/config.yaml"];
  Ctr_VolumeMounts := PP_Mounts p; Ctr_Resources := CS_Resources (Spec cluster); Ctr_Env := PP_Env p |}.

Definition statefulSetOf (cluster : Cluster) (p : PodParts) : StatefulSet :=
  MkResource (new_meta (stsName cluster) (Namespace (Meta cluster)) (base_labels cluster) ∅)
    {| Sts_Replicas := CS_Replicas (Spec cluster); Sts_ServiceName := stsName cluster;
       Sts_Selector := Some {[ LabelClusterName := Name (Meta cluster) ]};
       Sts_Template := {| Pod_Labels := base_labels cluster; Pod_InitContainers := [];
                          Pod_Containers := [gnmicContainer cluster p]; Pod_Volumes := PP_Volumes p |} |}
    {| Sts_ReadyReplicas := 0 |}.

Definition buildStatefulSet (cluster : Cluster) (matches : gmap string TunnelTargetMatch) : res (StatefulSet * ConfigMap) :=
  match buildConfigMap cluster matches with
  | Err _ => Err (ErrMsg "failed to build config map")
  | Ok configMap => p ← podParts cluster; Ok (statefulSetOf cluster p, configMap)
  end.
End Build.
End StatefulSet.

(** ** Comparisons *)

Definition resourceListEqual (a b : gmap string Z) : bool :=
  bool_decide (size a = size b) && bool_decide (map_Forall (λ k v, b !! k = Some v) a).

Definition resourcesEqual (a b : ResourceRequirements) : bool :=
  resourceListEqual (Requests a) (Requests b) && resourceListEqual (Limits a) (Limits b).

Definition projected (v : Volume) : option (list SecretProjection) :=
  match Vol_Source v with VProjected sources => Some sources | _ => None end.

(** Later volumes of [a] shadow earlier ones of the same name. *)
Definition volumesEqual (a b : list Volume) : bool :=
  bool_decide (length a = length b) &&
  (let aMap := foldl (λ m v, <[Vol_Name v := v]> m) (∅ : gmap string Volume) a in
   forallb (λ vb,
     match aMap !! Vol_Name vb with
     | None => false
     | Some va =>
         match projected va, projected vb with
         | Some sa, Some sb => bool_decide (length sa = length sb)
         | None, None => true
         | _, _ => false
         end
     end) b).

(** ** Reconciliation *)

Section Reconcile.
Context {W : Type} `{A : KubeApi W} `{R : GoRuntime} {Y : YAMLMarshal} (ClusterDomain : string).

Definition reconcileConfigMap (cluster : Cluster) (desired : ConfigMap) : io W unit :=
  create_or KConfigMap cluster desired (λ _, mret tt) (λ desired current,
    if decide (Spec current ≠ Spec desired)
    then _ ← api_update KConfigMap (MkResource (Meta current) (Spec desired) (Status current)); mret tt
    else mret tt).

(** The fields of the StatefulSet that are brought in line, and whether any differed;
    assigning a field that does not differ changes nothing. *)
Definition with_image_resources (cluster : Cluster) (c : Container) : Container := {|
  Ctr_Name := Ctr_Name c; Ctr_Image := CS_Image (Spec cluster); Ctr_Ports := Ctr_Ports c;
  Ctr_Command := Ctr_Command c; Ctr_VolumeMounts := Ctr_VolumeMounts c;
  Ctr_Resources := CS_Resources (Spec cluster); Ctr_Env := Ctr_Env c |}.

Definition syncContainers (cluster : Cluster) (desired current : list Container) : list Container * bool :=
  match current with
  | [] => (desired, true)
  | c :: rest => (with_image_resources cluster c :: rest,
      bool_decide (Ctr_Image c ≠ CS_Image (Spec cluster)) ||
      negb (resourcesEqual (Ctr_Resources c) (CS_Resources (Spec cluster))))
  end.

Definition syncStatefulSet (cluster : Cluster) (desired current : StatefulSetSpec) : res (StatefulSetSpec * bool) :=
  let dt := Sts_Template desired in
  let ct := Sts_Template current in
  staleReplicas ← match Sts_Replicas current, CS_Replicas (Spec cluster) with
                  | None, _ => Ok true
                  | Some n, Some m => Ok (bool_decide (n ≠ m))
                  | Some _, None => Err (ErrMsg "nil pointer dereference")
                  end;
  let '(containers, staleContainers) := syncContainers cluster (Pod_Containers dt) (Pod_Containers ct) in
  let staleLabels := bool_decide (¬ map_Forall (λ k v, default "" (Pod_Labels ct !! k) = v) (Pod_Labels dt)) in
  let staleSelector := bool_decide (Sts_Selector current = None) in
  let staleVolumes := negb (volumesEqual (Pod_Volumes ct) (Pod_Volumes dt)) in
  Ok ({| Sts_Replicas := if staleReplicas : bool then CS_Replicas (Spec cluster) else Sts_Replicas current;
         Sts_ServiceName := Sts_ServiceName current;
         Sts_Selector := if staleSelector then Sts_Selector desired else Sts_Selector current;
         Sts_Template := {|
           Pod_Labels := copy_into (Pod_Labels ct) (filter (λ kv, default "" (Pod_Labels ct !! kv.1) ≠ kv.2) (Pod_Labels dt));
           Pod_InitContainers := Pod_InitContainers ct; Pod_Containers := containers;
           Pod_Volumes := if staleVolumes then Pod_Volumes dt else Pod_Volumes ct |} |},
      staleReplicas || staleContainers || staleLabels || staleSelector || staleVolumes).

(** The StatefulSet: created, or the one that is there brought in line. *)
Definition applyStatefulSet (cluster : Cluster) (desired : StatefulSet) : io W StatefulSet :=
  r ← io_try (api_get KStatefulSet (key_of desired));
  match r with
  | Err ErrNotFound =>
      desired ← io_lift (api_setOwner KStatefulSet cluster desired);
      api_create KStatefulSet desired
  | Err e => io_fail e
  | Ok current =>
      '(spec, needsUpdate) ← io_lift (syncStatefulSet cluster (Spec desired) (Spec current));
      let current : StatefulSet := MkResource (Meta current) spec (Status current) in
      if needsUpdate : bool then
        current ← io_lift (api_setOwner KStatefulSet cluster current);
        api_update KStatefulSet current
      else mret current
  end.

Definition reconcileStatefulSet (cluster : Cluster) (matches : gmap string TunnelTargetMatch) : io W StatefulSet :=
  '(desired, desiredConfigMap) ← io_lift (buildStatefulSet ClusterDomain cluster matches);
  _ ← reconcileConfigMap cluster desiredConfigMap;
  applyStatefulSet cluster desired.
End Reconcile.

(** ** Lemmas *)

Lemma resourceListEqual_spec a b : resourceListEqual a b = true ↔ a = b.
Proof.
  unfold resourceListEqual. rewrite andb_true_iff, !bool_decide_eq_true. split.
  - intros [Hs Hm]. apply map_subseteq_size_eq; [|lia]. apply map_subseteq_spec. intros k v Hk. by apply (Hm k v).
  - intros ->. split; [done|]. by intros k v.
Qed.

Lemma resourcesEqual_spec a b : resourcesEqual a b = true ↔ a = b.
Proof.
  unfold resourcesEqual. rewrite andb_true_iff, !resourceListEqual_spec. destruct a, b; cbn. split; [by intros [-> ->]|by intros [= -> ->]].
Qed.

Lemma sortedMatches_run (R1 R2 : GoRuntime) matches : sortedMatches (R := R1) matches = sortedMatches (R := R2) matches.
Proof. unfold sortedMatches. f_equal. apply sort_strings_proper. by rewrite !go_range_perm. Qed.

Lemma sortedMatches_all `{R : GoRuntime} matches : sortedMatches matches ≡ₚ Some <$> (map_to_list matches).*2.
Proof.
  unfold sortedMatches. rewrite sort_strings_perm, go_range_perm, <- !list_fmap_compose.
  apply reflexive_eq, list_fmap_ext. intros i [k m] Hi%list_elem_of_lookup_2%elem_of_map_to_list. done.
Qed.

(** ** Properties of the configuration *)

Section ConfigTheorems.
Context {Y : YAMLMarshal}.

(** The ConfigMap carries every tunnel match exactly once and does not depend on the
    order in which Go iterates over them: two reconciliations of the same cluster write
    the same content, whatever the encoder makes of it. *)
Theorem config_deterministic (R1 R2 : GoRuntime) cluster matches :
  buildConfigMap (R := R1) cluster matches = buildConfigMap (R := R2) cluster matches ∧
  sortedMatches (R := R1) matches ≡ₚ Some <$> (map_to_list matches).*2.
Proof.
  split; [|apply sortedMatches_all]. unfold buildConfigMap, buildConfigContent, baseConfig.
  by rewrite (sortedMatches_run R1 R2).
Qed.
End ConfigTheorems.

(** ** The parts of a pod *)

(** Every volume is mounted, under its own name; volumes and paths are among those
    expected, in order; and only per-pod certificates are mounted by the pod's name. *)
Definition parts_ok (cluster : Cluster) (names paths : list string) (p : PodParts) : Prop :=
  VM_Name <$> PP_Mounts p = Vol_Name <$> PP_Volumes p ∧
  (Vol_Name <$> PP_Volumes p) `sublist_of` names ∧
  (VM_MountPath <$> PP_Mounts p) `sublist_of` paths ∧
  (∀ m, m ∈ PP_Mounts p → VM_SubPathExpr m ≠ "" → apiTLS (Spec cluster) ≠ None ∨ tunnelTLS (Spec cluster) ≠ None).

Definition grows (p q : PodParts) : Prop := PP_Volumes p `prefix_of` PP_Volumes q ∧ PP_Mounts p `prefix_of` PP_Mounts q.

#[export] Instance grows_po : PreOrder grows.
Proof. split; [by split|]. intros p q r [H1 H2] [J1 J2]. by split; etrans. Qed.

Section Parts.
Context (ClusterDomain : string) (cluster : Cluster).
Implicit Types p q : PodParts.

#[local] Abbreviation well_formed := (parts_ok cluster).

Lemma grows_mounted name source path expr p : grows p (add_mounted name source path expr p).
Proof. split; cbn; by apply prefix_app_r. Qed.

Lemma parts_ok_skip names paths n d p : well_formed names paths p → well_formed (names ++ [n]) (paths ++ [d]) p.
Proof. intros (H1 & H2 & H3 & H4). split_and!; try done; by apply sublist_inserts_r. Qed.

Lemma parts_ok_mounted names paths n source d p :
  well_formed names paths p → well_formed (names ++ [n]) (paths ++ [d]) (add_mounted n source d "" p).
Proof.
  intros (H1 & H2 & H3 & H4). unfold parts_ok, add_mounted; cbn. rewrite !fmap_app, H1. cbn.
  split_and!; [done|by apply sublist_app|by apply sublist_app|].
  intros m [Hm| ->%list_elem_of_singleton]%elem_of_app Hs; [|done]. by apply (H4 m).
Qed.

(** The same with a mount below the pod's name. *)
Lemma parts_ok_expr names paths n source d e p :
  apiTLS (Spec cluster) ≠ None ∨ tunnelTLS (Spec cluster) ≠ None → well_formed names paths p →
  let q := add_mounted n source d e p in
  well_formed (names ++ [n]) (paths ++ [d]) (if hasPodNameEnv q then q else add_env podNameEnv q) ∧
  well_formed (names ++ [n]) (paths ++ [d]) (add_env podNameEnv q).
Proof.
  intros Ht (H1 & H2 & H3 & H4) q.
  assert (∀ q', PP_Mounts q' = PP_Mounts q → PP_Volumes q' = PP_Volumes q → well_formed (names ++ [n]) (paths ++ [d]) q') as Hq.
  { intros q' Hm Hv. unfold parts_ok. rewrite Hm, Hv. subst q. cbn. rewrite !fmap_app, H1. cbn.
    split_and!; [done|by apply sublist_app|by apply sublist_app|done]. }
  split; [destruct (hasPodNameEnv q)|]; by apply Hq.
Qed.

Lemma parts_ok_bundle names paths tls n d p :
  well_formed names paths p → well_formed (names ++ [n]) (paths ++ [d]) (addBundle tls n d p).
Proof. intros H. destruct tls as [t|]; cbn; [case_decide|]; by (apply parts_ok_mounted || apply parts_ok_skip). Qed.

Lemma parts_ok_api names paths p q : addAPICerts ClusterDomain cluster p = Ok q →
  well_formed names paths p → well_formed (names ++ ["tls-certs"]) (paths ++ [CertFilesBasePath]) q.
Proof.
  unfold addAPICerts. intros Hq Hp. destruct (apiTLS _) as [tls|] eqn:Et.
  - destruct (podCerts _ _ _ _) as [source|]; [|done]. injection Hq as <-. apply parts_ok_expr; [left; congruence|done].
  - injection Hq as <-. by apply parts_ok_skip.
Qed.

Lemma parts_ok_tunnel names paths p q : addTunnelCerts ClusterDomain cluster p = Ok q →
  well_formed names paths p → well_formed (names ++ ["tunnel-tls-certs"]) (paths ++ [TunnelCertFilesBasePath]) q.
Proof.
  unfold addTunnelCerts. intros Hq Hp. destruct (tunnelTLS _) as [tls|] eqn:Et.
  - destruct (podCerts _ _ _ _) as [source|]; [|done]. injection Hq as <-. apply parts_ok_expr; [right; congruence|done].
  - injection Hq as <-. by apply parts_ok_skip.
Qed.

Lemma parts_ok_controller names paths p :
  well_formed names paths p → well_formed (names ++ ["controller-ca"]) (paths ++ [ControllerCAMountPath]) (addControllerCA cluster p).
Proof. unfold addControllerCA. destruct (apiTLS _); [apply parts_ok_mounted|apply parts_ok_skip]. Qed.

Lemma parts_ok_client names paths p : well_formed names paths p →
  well_formed (names ++ ["client-tls-certs"]) (paths ++ [ClientTLSCertFilesBasePath]) (addClientCerts cluster p).
Proof. unfold addClientCerts. destruct (clientTLS _); [apply parts_ok_mounted|apply parts_ok_skip]. Qed.

Definition volume_names : list string :=
  ["config"; "tls-certs"; "ca-bundle"; "controller-ca"; "tunnel-tls-certs"; "tunnel-ca-bundle"; "client-tls-certs";
   "client-ca-bundle"].
Definition mount_paths : list string :=
  [gNMIcConfigPath; CertFilesBasePath; "/etc/certs/ca"; ControllerCAMountPath; TunnelCertFilesBasePath;
   TunnelCABundleMountPath; ClientTLSCertFilesBasePath; ClientCABundleMountPath].

Lemma podParts_ok p : podParts ClusterDomain cluster = Ok p → well_formed volume_names mount_paths p.
Proof.
  intros (p1 & E1 & (p2 & E2 & [= <-])%bind_Ok)%bind_Ok.
  assert (well_formed ["config"] [gNMIcConfigPath] (baseParts cluster)) as H0.
  { split_and!; [done|done|done|]. by intros m ->%list_elem_of_singleton. }
  apply (parts_ok_api _ _ _ _ E1) in H0.
  apply (parts_ok_bundle _ _ (CS_API (Spec cluster) ≫= API_TLS) "ca-bundle" "/etc/certs/ca"), parts_ok_controller in H0.
  apply (parts_ok_tunnel _ _ _ _ E2) in H0.
  exact (parts_ok_bundle _ _ _ _ _ _ (parts_ok_client _ _ _ (parts_ok_bundle _ _ _ _ _ _ H0))).
Qed.

Lemma bundle_env tls n d p : PP_Env (addBundle tls n d p) = PP_Env p.
Proof. destruct tls as [t|]; cbn; [case_decide|]; done. Qed.

Lemma client_env p : PP_Env (addClientCerts cluster p) = PP_Env p.
Proof. unfold addClientCerts. by destruct (clientTLS _). Qed.

Lemma controller_env p : PP_Env (addControllerCA cluster p) = PP_Env p.
Proof. unfold addControllerCA. by destruct (apiTLS _). Qed.

Lemma hasPodNameEnv_spec p : hasPodNameEnv p = true ↔ ∃ e, e ∈ PP_Env p ∧ Env_Name e = "POD_NAME".
Proof.
  unfold hasPodNameEnv. rewrite existsb_exists. split; intros (e & Hin & He); exists e; (split; [by apply list_elem_of_In|]).
  - by apply bool_decide_eq_true in He.
  - by apply bool_decide_eq_true.
Qed.

(** The pod's name is the last variable, or the user's own environment has one of that
    name and only the tunnel needs it. *)
Lemma podParts_env p : podParts ClusterDomain cluster = Ok p →
  apiTLS (Spec cluster) ≠ None ∨ tunnelTLS (Spec cluster) ≠ None →
  last (PP_Env p) = Some podNameEnv ∨
  apiTLS (Spec cluster) = None ∧ ∃ e, e ∈ CS_Env (Spec cluster) ∧ Env_Name e = "POD_NAME".
Proof.
  intros (p1 & E1 & (p2 & E2 & [= <-])%bind_Ok)%bind_Ok Ht.
  unfold addClientBundle, addTunnelBundle. rewrite bundle_env, client_env, bundle_env.
  unfold addTunnelCerts in E2. unfold addAPICerts in E1. destruct (apiTLS (Spec cluster)) as [tls|] eqn:Ea.
  - apply bind_Ok in E1 as (source & _ & [= <-]). left.
    set (p1 := add_env _ _) in E2. set (q := addControllerCA cluster _) in E2.
    assert (PP_Env q = PP_Env p1) as Hq by (subst q; unfold addAPIBundle; by rewrite controller_env, bundle_env).
    assert (last (PP_Env p1) = Some podNameEnv) as Hl by apply last_snoc.
    destruct (tunnelTLS _) as [t|]; [|injection E2 as <-; by rewrite Hq].
    apply bind_Ok in E2 as (source' & _ & [= <-]).
    case_match; cbn; [by rewrite Hq|]. rewrite last_snoc. done.
  - injection E1 as <-. destruct (tunnelTLS _) as [t|]; [|by destruct Ht].
    apply bind_Ok in E2 as (source & _ & [= <-]). case_match eqn:E; [|left; cbn; by rewrite last_snoc].
    right. split; [done|]. apply hasPodNameEnv_spec in E as (e & He & Hn). exists e. split; [|done].
    cbn [add_mounted PP_Env] in He. rewrite controller_env in He. unfold addAPIBundle in He. by rewrite bundle_env in He.
Qed.
End Parts.

(** The files the configurations name. *)
Definition tlsFiles (t : option TLSConfig) : list string :=
  match t with Some t => [TLSC_CAFile t; TLSC_CertFile t; TLSC_KeyFile t] | None => [] end.
Definition clientFiles (t : option ClientTLSPaths) : list string :=
  match t with Some t => [CTP_CertFile t; CTP_KeyFile t; CTP_CAFile t] | None => [] end.
Definition configFiles (spec : ClusterSpec) : list string :=
  tlsFiles (TLSConfigForClusterPod spec) ++ tlsFiles (TunnelServerTLSConfig spec) ++ clientFiles (ClientTLSConfigForCluster spec).

(** Where the files of a directory have to come from: a secret per pod, a secret the pods
    share, or a ConfigMap. *)
Inductive Origin := OfPodSecret (secret : Z → string) | OfSecret (name : string) | OfConfigMap (name : string).

Definition bundleRef (tls : option ClusterTLSConfig) : string := default "" (CTLS_BundleRef <$> tls).

(** The certificates reconciled for the pods, the client's certificate, the controller's
    CA and the bundles the user names. *)
Definition origins (cluster : Cluster) : list (string * Origin) :=
  [(CertFilesBasePath, OfPodSecret (apiCertName cluster));
   (TunnelCertFilesBasePath, OfPodSecret (tunnelCertName cluster));
   (ClientTLSCertFilesBasePath, OfSecret (clientCertName cluster));
   (ControllerCAMountPath, OfConfigMap (controllerCAName cluster));
   (TunnelCABundleMountPath, OfConfigMap (bundleRef (CS_GRPCTunnel (Spec cluster) ≫= GT_TLS)));
   (ClientCABundleMountPath, OfConfigMap (bundleRef (CS_ClientTLS (Spec cluster))))].

(** Volume [v], mounted as [m], has the file of that name, out of its origin: a file of a
    pod's secret lies below the pod's name, which the mount expands. *)
Definition serves (cluster : Cluster) (o : Origin) (v : Volume) (m : VolumeMount) (file : string) : Prop :=
  match o with
  | OfPodSecret secret => VM_SubPathExpr m = "$(POD_NAME)" ∧
      ∃ sources, Vol_Source v = VProjected sources ∧
      ∀ n i, CS_Replicas (Spec cluster) = Some n → 0 ≤ i < n →
        ∃ s item, s ∈ sources ∧ Proj_Secret s = secret i ∧
          item ∈ Proj_Items s ∧ KP_Key item = file ∧ KP_Path item = podName cluster i +:+ "/" +:+ file
  | OfSecret name => VM_SubPathExpr m = "" ∧ VM_SubPath m = "" ∧ ∃ optional, Vol_Source v = VSecret name optional
  | OfConfigMap name => VM_SubPathExpr m = "" ∧ VM_SubPath m = "" ∧ ∃ optional, Vol_Source v = VConfigMap name optional
  end.

Definition file_mounted (cluster : Cluster) (p : PodParts) (path : string) : Prop :=
  ∃ v m file o, v ∈ PP_Volumes p ∧ m ∈ PP_Mounts p ∧ VM_Name m = Vol_Name v ∧
    path = VM_MountPath m +:+ "/" +:+ file ∧ (VM_MountPath m, o) ∈ origins cluster ∧ serves cluster o v m file.

(** No certificate comes from cert-manager's CSI driver. *)
Definition without_csi (spec : ClusterSpec) : Prop :=
  ∀ tls, apiTLS spec = Some tls ∨ tunnelTLS spec = Some tls ∨ clientTLS spec = Some tls → CTLS_UseCSIDriver tls = false.

Section Files.
Context (ClusterDomain : string) (cluster : Cluster).

Lemma file_mounted_grows p q path : grows p q → file_mounted cluster p path → file_mounted cluster q path.
Proof.
  intros [H1 H2] (v & m & file & o & Hv & Hm & H). exists v, m, file, o.
  split; [by eapply elem_of_prefix|]. split; [by eapply elem_of_prefix|done].
Qed.

Lemma grows_env e p : grows p (add_env e p).
Proof. by split. Qed.

Lemma grows_bundle tls n d p : grows p (addBundle tls n d p).
Proof. destruct tls as [t|]; cbn; [case_decide|]; first [apply grows_mounted|done]. Qed.

Lemma grows_controller p : grows p (addControllerCA cluster p).
Proof. unfold addControllerCA. destruct (apiTLS _); [apply grows_mounted|done]. Qed.

Lemma grows_client p : grows p (addClientCerts cluster p).
Proof. unfold addClientCerts. destruct (clientTLS _); [apply grows_mounted|done]. Qed.

Lemma mounted_at name source path expr file p o : (path, o) ∈ origins cluster →
  serves cluster o {| Vol_Name := name; Vol_Source := source |} (mount name path "" expr true) file →
  file_mounted cluster (add_mounted name source path expr p) (path +:+ "/" +:+ file).
Proof.
  intros Ho H. exists {| Vol_Name := name; Vol_Source := source |}, (mount name path "" expr true), file, o.
  cbn [add_mounted PP_Volumes PP_Mounts]. split_and!; [set_solver|set_solver|done|done|done|done].
Qed.

#[local] Ltac origin := repeat first [by left | right].

(** The pods' own certificates. *)
Lemma podCerts_serve tls secret source name path file :
  CTLS_UseCSIDriver tls = false → file ∈ ["tls.crt"; "tls.key"; "ca.crt"] →
  podCerts ClusterDomain cluster tls secret = Ok source →
  serves cluster (OfPodSecret secret) {| Vol_Name := name; Vol_Source := source |} (mount name path "" "$(POD_NAME)" true) file.
Proof.
  intros Hc Hf. unfold podCerts, podSources. rewrite Hc.
  destruct (CS_Replicas _) as [n|] eqn:En; [|done]. intros [= <-]. split; [done|]. eexists. split; [done|].
  intros n' i ? Hi. simplify_eq. exists (podProjection cluster secret i), {| KP_Key := file; KP_Path := podName cluster i +:+ "/" +:+ file |}.
  split; [apply list_elem_of_fmap_2, elem_of_seqZ; lia|]. split; [done|]. split; [|done]. cbn. set_solver.
Qed.

Context (Hcsi : without_csi (Spec cluster)).

Lemma api_certs_mounted p q tls file : apiTLS (Spec cluster) = Some tls → file ∈ ["tls.crt"; "tls.key"; "ca.crt"] →
  addAPICerts ClusterDomain cluster p = Ok q → file_mounted cluster q (CertFilesBasePath +:+ "/" +:+ file).
Proof.
  unfold addAPICerts. intros Ht Hf. rewrite Ht. intros (source & Hs & [= <-])%bind_Ok.
  eapply file_mounted_grows; [apply grows_env|]. eapply mounted_at; [origin|].
  eapply podCerts_serve; [apply Hcsi; by left|done|done].
Qed.

Lemma tunnel_certs_mounted p q tls file : tunnelTLS (Spec cluster) = Some tls → file ∈ ["tls.crt"; "tls.key"; "ca.crt"] →
  addTunnelCerts ClusterDomain cluster p = Ok q → file_mounted cluster q (TunnelCertFilesBasePath +:+ "/" +:+ file).
Proof.
  unfold addTunnelCerts. intros Ht Hf. rewrite Ht. intros (source & Hs & [= <-])%bind_Ok.
  assert (file_mounted cluster (add_mounted "tunnel-tls-certs" source TunnelCertFilesBasePath "$(POD_NAME)" p)
    (TunnelCertFilesBasePath +:+ "/" +:+ file)) as Hm.
  { eapply mounted_at; [origin|]. eapply podCerts_serve; [apply Hcsi; by right; left|done|done]. }
  destruct (hasPodNameEnv _); [done|]. by eapply file_mounted_grows; [apply grows_env|].
Qed.

Lemma bundle_mounted tls t n d p : (d, OfConfigMap (bundleRef tls)) ∈ origins cluster → tls = Some t → CTLS_BundleRef t ≠ "" →
  file_mounted cluster (addBundle tls n d p) (d +:+ "/" +:+ "ca.crt").
Proof.
  intros Ho -> H. cbn. rewrite decide_True by done. eapply mounted_at; [exact Ho|]. split; [done|]. split; [done|]. by eexists.
Qed.

Lemma client_certs_mounted p tls file : clientTLS (Spec cluster) = Some tls →
  file_mounted cluster (addClientCerts cluster p) (ClientTLSCertFilesBasePath +:+ "/" +:+ file).
Proof.
  unfold addClientCerts. intros Ht. rewrite Ht, (Hcsi tls) by by right; right.
  eapply mounted_at; [origin|]. split; [done|]. split; [done|]. by eexists.
Qed.

Lemma controller_ca_mounted p tls : apiTLS (Spec cluster) = Some tls →
  file_mounted cluster (addControllerCA cluster p) ControllerCAFilePath.
Proof.
  unfold addControllerCA. intros ->. apply (mounted_at "controller-ca" _ ControllerCAMountPath "" "ca.crt" _ (OfConfigMap (controllerCAName cluster))); [origin|].
  split; [done|]. split; [done|]. by eexists.
Qed.

Lemma grows_api p q : addAPICerts ClusterDomain cluster p = Ok q → grows p q.
Proof.
  unfold addAPICerts. destruct (apiTLS _); [|by intros [= <-]]. intros (source & _ & [= <-])%bind_Ok.
  etrans; [apply grows_mounted|apply grows_env].
Qed.

Lemma grows_tunnel p q : addTunnelCerts ClusterDomain cluster p = Ok q → grows p q.
Proof.
  unfold addTunnelCerts. destruct (tunnelTLS _); [|by intros [= <-]]. intros (source & _ & [= <-])%bind_Ok.
  destruct (hasPodNameEnv _); [apply grows_mounted|]. etrans; [apply grows_mounted|apply grows_env].
Qed.
End Files.

(** Who names a file. *)
Lemma configFiles_cases spec path : path ∈ configFiles spec → path ≠ "" →
  (∃ tls, apiTLS spec = Some tls ∧
     (path = ControllerCAFilePath ∨ ∃ f, f ∈ ["tls.crt"; "tls.key"; "ca.crt"] ∧ path = CertFilesBasePath +:+ "/" +:+ f)) ∨
  (∃ tls, tunnelTLS spec = Some tls ∧
     ∃ f, f ∈ ["tls.crt"; "tls.key"; "ca.crt"] ∧ path = TunnelCertFilesBasePath +:+ "/" +:+ f) ∨
  (∃ tls, CS_GRPCTunnel spec ≫= GT_TLS = Some tls ∧ CTLS_BundleRef tls ≠ "" ∧
     path = TunnelCABundleMountPath +:+ "/" +:+ "ca.crt") ∨
  (∃ tls, clientTLS spec = Some tls ∧ ∃ f, f ∈ ["tls.crt"; "tls.key"] ∧ path = ClientTLSCertFilesBasePath +:+ "/" +:+ f) ∨
  (∃ tls, CS_ClientTLS spec = Some tls ∧ CTLS_BundleRef tls ≠ "" ∧ path = ClientCABundleMountPath +:+ "/" +:+ "ca.crt").
Proof.
  unfold configFiles, apiTLS, tunnelTLS, clientTLS, TLSConfigForClusterPod, TunnelServerTLSConfig, ClientTLSConfigForCluster.
  intros [H|[H|H]%elem_of_app]%elem_of_app Hne.
  - left. destruct (CS_API spec) as [api|]; [|by apply not_elem_of_nil in H]. cbn in *.
    destruct (API_TLS api) as [tls|]; [|by apply not_elem_of_nil in H]. exists tls. cbn in *.
    case_bool_decide; cbn in H; [rewrite decide_True by done|set_solver].
    split; [done|]. apply elem_of_cons in H as [->|[->|[->|?%not_elem_of_nil]%elem_of_cons]%elem_of_cons]; [by left|..|done]; right.
    + exists "tls.crt". split; [set_solver|done].
    + exists "tls.key". split; [set_solver|done].
  - right. destruct (CS_GRPCTunnel spec) as [t|]; [|by apply not_elem_of_nil in H]. cbn in *.
    destruct (GT_TLS t) as [tls|]; [|by apply not_elem_of_nil in H]. cbn in *.
    apply elem_of_cons in H as [->|[->|[->|?%not_elem_of_nil]%elem_of_cons]%elem_of_cons]; [right; left|left..|done];
      exists tls; case_bool_decide; try done; rewrite ?decide_True by done; (split; [done|]).
    + exists "tls.crt". split; [set_solver|done].
    + exists "tls.key". split; [set_solver|done].
  - do 3 right. destruct (CS_ClientTLS spec) as [tls|]; [|by apply not_elem_of_nil in H]. cbn in *.
    apply elem_of_cons in H as [->|[->|[->|?%not_elem_of_nil]%elem_of_cons]%elem_of_cons]; [left..|right|done];
      exists tls; case_bool_decide; try done; rewrite ?decide_True by done; (split; [done|]).
    + exists "tls.crt". split; [set_solver|done].
    + exists "tls.key". split; [set_solver|done].
Qed.

Lemma podParts_grows ClusterDomain cluster p : podParts ClusterDomain cluster = Ok p → grows (baseParts cluster) p.
Proof.
  intros (p1 & E1%grows_api & (p2 & E2%grows_tunnel & [= <-])%bind_Ok)%bind_Ok.
  etrans; [exact E1|]. etrans; [|etrans; [exact E2|]].
  - etrans; [apply grows_bundle|apply grows_controller].
  - etrans; [apply grows_bundle|]. etrans; [apply grows_client|apply grows_bundle].
Qed.

Section PodTheorems.
Context `{R : GoRuntime} {Y : YAMLMarshal} (ClusterDomain : string) (cluster : Cluster).

Lemma buildStatefulSet_Ok matches sts cm : buildStatefulSet ClusterDomain cluster matches = Ok (sts, cm) →
  ∃ p, podParts ClusterDomain cluster = Ok p ∧ buildConfigMap cluster matches = Ok cm ∧
    key_of sts = in_ns cluster (stsName cluster) ∧ key_of cm = in_ns cluster (configMapName cluster) ∧
    Sts_Template (Spec sts) = {| Pod_Labels := base_labels cluster; Pod_InitContainers := [];
      Pod_Containers := [gnmicContainer cluster p]; Pod_Volumes := PP_Volumes p |} ∧
    Sts_Selector (Spec sts) = Some {[ LabelClusterName := Name (Meta cluster) ]} ∧
    Sts_Replicas (Spec sts) = CS_Replicas (Spec cluster) ∧ Sts_ServiceName (Spec sts) = stsName cluster ∧
    is_Some (Spec cm !! gNMIcConfigFile).
Proof.
  unfold buildStatefulSet. destruct (buildConfigMap cluster matches) as [cm'|] eqn:Ecm; [|done].
  intros (p & Hp & [= <- <-])%bind_Ok. exists p.
  unfold buildConfigMap in Ecm. destruct (buildConfigContent _ _); [|done]. injection Ecm as <-.
  split_and!; done.
Qed.

Lemma container_ports_nodup : NoDup (CP_Name <$> buildContainerPorts cluster).
Proof. unfold buildContainerPorts. destruct (gnmiPort _), (tunnelPort _); cbn; apply (bool_decide_unpack _); vm_compute; exact I. Qed.

(** C24: The StatefulSet built for a cluster is one the API server takes: its selector
    matches its pods' labels and its headless service is the one the controller
    creates; its one container mounts every volume of the pod, once, under distinct
    paths; its ports have distinct names; the configuration file it mounts is a key of
    the ConfigMap built with it; and whenever a mount expands the pod's name, the last
    variable of its environment, which overrides any other of the name, is POD_NAME read
    from the pod's metadata.  The one exception is a cluster with TLS for the tunnel only
    whose user sets a POD_NAME of his own: it is taken as it is. *)
Theorem statefulset_well_formed matches sts cm :
  buildStatefulSet ClusterDomain cluster matches = Ok (sts, cm) →
  let pod := Sts_Template (Spec sts) in
  (∃ sel, Sts_Selector (Spec sts) = Some sel ∧ sel ⊆ Pod_Labels pod) ∧
  in_ns cluster (Sts_ServiceName (Spec sts)) = key_of (buildHeadlessService cluster) ∧
  ∃ c, Pod_Containers pod = [c] ∧
    NoDup (Vol_Name <$> Pod_Volumes pod) ∧ VM_Name <$> Ctr_VolumeMounts c = Vol_Name <$> Pod_Volumes pod ∧
    NoDup (VM_MountPath <$> Ctr_VolumeMounts c) ∧ NoDup (CP_Name <$> Ctr_Ports c) ∧
    (∃ v m, head (Pod_Volumes pod) = Some v ∧ head (Ctr_VolumeMounts c) = Some m ∧
       Vol_Source v = VConfigMap (Name (Meta cm)) false ∧ VM_MountPath m = gNMIcConfigPath ∧
       is_Some (Spec cm !! VM_SubPath m)) ∧
    (∀ m, m ∈ Ctr_VolumeMounts c → VM_SubPathExpr m ≠ "" →
       (∃ e, last (Ctr_Env c) = Some e ∧ Env_Name e = "POD_NAME" ∧ Env_FieldPath e = Some "metadata.name") ∨
       apiTLS (Spec cluster) = None ∧ ∃ e, e ∈ CS_Env (Spec cluster) ∧ Env_Name e = "POD_NAME").
Proof.
  intros (p & Hp & Hcm & Hk & Hkc & Ht & Hsel & _ & Hsvc & Hf)%buildStatefulSet_Ok. cbv zeta. rewrite Ht, Hsel, Hsvc. cbn [Pod_Labels Pod_Containers Pod_Volumes].
  pose proof (podParts_ok _ _ _ Hp) as (H1 & H2 & H3 & H4).
  split; [|split; [done|]].
  { eexists. split; [done|]. apply map_singleton_subseteq_l. vm_compute. done. }
  eexists. split; [done|]. cbn [gnmicContainer Ctr_VolumeMounts Ctr_Ports Ctr_Env].
  split_and!; try done.
  - eapply sublist_NoDup; [|exact H2]. apply (bool_decide_unpack _). vm_compute. exact I.
  - eapply sublist_NoDup; [|exact H3]. apply (bool_decide_unpack _). vm_compute. exact I.
  - apply container_ports_nodup.
  - destruct (podParts_grows _ _ _ Hp) as [[vs ->] [ms ->]]. apply (f_equal NN_Name) in Hkc.
    eexists _, _. cbn. split_and!; [done|done| |done|done].
    by apply (f_equal (λ n, VConfigMap n false)).
  - intros m Hm He. destruct (podParts_env _ _ _ Hp (H4 m Hm He)) as [Hl|H]; [left|by right].
    by exists podNameEnv.
Qed.

End PodTheorems.

(** ** Reconciliation *)

Lemma volume_map_lookup l (m : gmap string Volume) v : NoDup (Vol_Name <$> l) → v ∈ l →
  foldl (λ m v, <[Vol_Name v := v]> m) m l !! Vol_Name v = Some v.
Proof.
  revert m; induction l as [|u l IH]; cbn; intros m Hnd Hv; [by apply not_elem_of_nil in Hv|].
  apply NoDup_cons in Hnd as [Hu Hnd]. apply elem_of_cons in Hv as [->|Hv]; [|by apply IH].
  assert (∀ l (m : gmap string Volume), Vol_Name u ∉ Vol_Name <$> l → foldl (λ m v, <[Vol_Name v := v]> m) m l !! Vol_Name u = m !! Vol_Name u) as H.
  { clear. induction l as [|v l IH]; cbn; intros m Hn; [done|]. rewrite IH by set_solver. rewrite lookup_insert_ne; [done|set_solver]. }
  by rewrite H, lookup_insert_eq.
Qed.

Lemma volumesEqual_refl l : NoDup (Vol_Name <$> l) → volumesEqual l l = true.
Proof.
  intros Hnd. unfold volumesEqual. rewrite bool_decide_true by done. cbn. apply forallb_forall. intros v Hv%list_elem_of_In.
  rewrite volume_map_lookup by done. destruct (projected v); [by apply bool_decide_true|done].
Qed.

(** The volume of a name, the last of them. *)
Definition volume_named (n : string) (l : list Volume) (v : Volume) : Prop :=
  ∃ before after, l = before ++ v :: after ∧ Vol_Name v = n ∧ n ∉ Vol_Name <$> after.

(** Two lists of volumes that cannot be told apart by how many they are, by their names
    and by how many sources they project; what a volume of the same name is made of is
    not looked at otherwise. *)
Definition same_shape (old new : list Volume) : Prop :=
  length old = length new ∧
  ∀ v, v ∈ new → ∃ u, volume_named (Vol_Name v) old u ∧ length <$> projected u = length <$> projected v.

Lemma volume_map_Some l (m : gmap string Volume) n v :
  foldl (λ m v, <[Vol_Name v := v]> m) m l !! n = Some v ↔
  volume_named n l v ∨ (n ∉ Vol_Name <$> l) ∧ m !! n = Some v.
Proof.
  unfold volume_named. revert m. induction l as [|u l IH] using rev_ind; intros m.
  { split; [intros H; right; split; [set_solver|done]|]. by intros [([] & ? & ? & _)|[_ ?]]. }
  rewrite foldl_app. cbn [foldl]. destruct (decide (n = Vol_Name u)) as [->|Hn].
  - rewrite lookup_insert_eq. split.
    + intros [= <-]. left. exists l, []. split; [done|]. split; [done|]. set_solver.
    + intros [(bef & aft & Hl & Hv & Hna)|[H _]]; [|exfalso; apply H; rewrite fmap_app; set_solver]. f_equal.
      destruct aft as [|u' aft] using rev_ind; [apply app_inj_tail in Hl as [_ ?]; done|].
      rewrite app_comm_cons, app_assoc in Hl. apply app_inj_tail in Hl as [_ ->]. rewrite fmap_app in Hna. set_solver.
  - rewrite lookup_insert_ne by done. rewrite IH. split.
    + intros [(bef & aft & -> & Hv & Hna)|[H1 H2]]; [left|right; rewrite fmap_app; set_solver].
      exists bef, (aft ++ [u]). split; [by rewrite <- app_assoc|]. split; [done|]. rewrite fmap_app. set_solver.
    + intros [(bef & aft & Hl & Hv & Hna)|[H1 H2]]; [left|right; rewrite fmap_app in H1; set_solver].
      destruct aft as [|u' aft _] using rev_ind; [apply app_inj_tail in Hl as [_ ->]; by rewrite Hv in Hn|].
      rewrite app_comm_cons, app_assoc in Hl. apply app_inj_tail in Hl as [-> ->].
      exists bef, aft. split; [done|]. split; [done|]. rewrite fmap_app in Hna. set_solver.
Qed.

Lemma volumesEqual_spec old new : volumesEqual old new = true ↔ same_shape old new.
Proof.
  unfold volumesEqual, same_shape. rewrite andb_true_iff, bool_decide_eq_true, forallb_forall.
  apply and_iff_compat_l, forall_proper. intros v. rewrite <- list_elem_of_In. apply imp_iff_compat_l.
  destruct (_ !! Vol_Name v) as [u|] eqn:E.
  - transitivity (length <$> projected u = length <$> projected v).
    { destruct (projected u), (projected v); cbn; rewrite ?bool_decide_eq_true; naive_solver. }
    apply volume_map_Some in E as [E|[_ ?]]; [|done]. split; [by exists u|].
    intros (u' & E' & H). assert (foldl (λ m v, <[Vol_Name v := v]> m) ∅ old !! Vol_Name v = Some u') as F' by (apply volume_map_Some; by left).
    assert (foldl (λ m v, <[Vol_Name v := v]> m) ∅ old !! Vol_Name v = Some u) as F by (apply volume_map_Some; by left). by simplify_eq.
  - split; [done|]. intros (u & Hu & _). assert (foldl (λ m v, <[Vol_Name v := v]> m) ∅ old !! Vol_Name v = Some u) as F by (apply volume_map_Some; by left). by simplify_eq.
Qed.

(** The volumes of an existing StatefulSet after a reconciliation. *)
Definition volumes_follow (old desired now : list Volume) : Prop :=
  (same_shape old desired ∧ now = old) ∨ (¬ same_shape old desired ∧ now = desired).

(** *** What the shape tells of volumes the controller built itself *)

(** Two versions of a cluster that differ in their size, image, resources and environment
    at most. *)
Definition scaled (old new : Cluster) : Prop :=
  Name (Meta old) = Name (Meta new) ∧ Namespace (Meta old) = Namespace (Meta new) ∧
  CS_API (Spec old) = CS_API (Spec new) ∧ CS_GRPCTunnel (Spec old) = CS_GRPCTunnel (Spec new) ∧
  CS_ClientTLS (Spec old) = CS_ClientTLS (Spec new).

(** A volume of the same name is the same, or its shape gives it away. *)
Definition alike (u v : Volume) : Prop :=
  Vol_Name u = Vol_Name v ∧ (Vol_Source u = Vol_Source v ∨ length <$> projected u ≠ length <$> projected v).

Lemma alike_same old new : NoDup (Vol_Name <$> new) → Forall2 alike old new → same_shape old new → old = new.
Proof.
  intros Hnd HF [_ Hs].
  assert (Vol_Name <$> old = Vol_Name <$> new) as En.
  { clear Hs Hnd. induction HF as [|u v ? ? [Hn _] _ IH]; [done|]. cbn. by rewrite Hn, IH. }
  apply list_eq_Forall2, Forall2_same_length_lookup_2; [by eapply Forall2_length|]. intros i u v Hi Hj.
  pose proof (Forall2_lookup_lr _ _ _ _ _ _ HF Hi Hj) as [Hn [He|He]]; [by destruct u, v; cbn in *; subst|].
  apply list_elem_of_lookup_2 in Hi as Hu, Hj as Hv.
  destruct He. destruct (Hs v Hv) as (u' & (bef & aft & Eo & Hn' & _) & <-). do 2 f_equal.
  rewrite <- En in Hnd. eapply (NoDup_fmap_key Vol_Name); [exact Hnd|exact Hu| |congruence]. rewrite Eo. set_solver.
Qed.

Section Scaled.
Context (ClusterDomain : string) (old new : Cluster) (Hsc : scaled old new).

Lemma scaled_podCerts tls secret secret' s s' : (∀ i, secret i = secret' i) →
  podCerts ClusterDomain old tls secret = Ok s → podCerts ClusterDomain new tls secret' = Ok s' →
  ∀ n, alike {| Vol_Name := n; Vol_Source := s |} {| Vol_Name := n; Vol_Source := s' |}.
Proof using Hsc.
  destruct Hsc as (Hn & Hns & _). intros Hse. unfold podCerts, podSources. destruct (CTLS_UseCSIDriver tls).
  - intros [= <-] [= <-] n. split; [done|]. left. cbn. unfold podCSI, stsName. by rewrite Hn, Hns.
  - destruct (CS_Replicas (Spec old)) as [a|]; [|done]. destruct (CS_Replicas (Spec new)) as [b|]; [|done].
    intros [= <-] [= <-] n. split; [done|]. unfold projected; cbn. rewrite !length_fmap, !length_seqZ.
    destruct (decide (Z.to_nat a = Z.to_nat b)) as [E|E]; [left|right; congruence].
    unfold seqZ. rewrite E. f_equal. apply list_fmap_ext. intros k i _. unfold podProjection, podName, stsName. by rewrite Hn, Hse.
Qed.

Lemma alike_mounted p q n s s' d d' e e' : Forall2 alike (PP_Volumes p) (PP_Volumes q) →
  alike {| Vol_Name := n; Vol_Source := s |} {| Vol_Name := n; Vol_Source := s' |} →
  Forall2 alike (PP_Volumes (add_mounted n s d e p)) (PP_Volumes (add_mounted n s' d' e' q)).
Proof. intros Hpq Ha. cbn. apply Forall2_app; [done|]. by constructor. Qed.

Lemma alike_refl v : alike v v.
Proof. split; [done|by left]. Qed.

Lemma alike_bundle tls n d p q : Forall2 alike (PP_Volumes p) (PP_Volumes q) →
  Forall2 alike (PP_Volumes (addBundle tls n d p)) (PP_Volumes (addBundle tls n d q)).
Proof. intros Hpq. destruct tls as [t|]; cbn; [case_decide|]; [by apply alike_mounted, alike_refl|done..]. Qed.

Lemma alike_api p q p' q' : Forall2 alike (PP_Volumes p) (PP_Volumes q) →
  addAPICerts ClusterDomain old p = Ok p' → addAPICerts ClusterDomain new q = Ok q' → Forall2 alike (PP_Volumes p') (PP_Volumes q').
Proof using Hsc.
  intros Hpq. unfold addAPICerts. assert (apiTLS (Spec old) = apiTLS (Spec new)) as ->.
  { unfold apiTLS. by destruct Hsc as (_ & _ & -> & _). }
  destruct (apiTLS _) as [tls|]; [|by intros [= <-] [= <-]]. intros (s & Hs & [= <-])%bind_Ok (s' & Hs' & [= <-])%bind_Ok.
  apply alike_mounted; [done|]. eapply scaled_podCerts; [|done..]. intros i. unfold apiCertName, podName, stsName.
  by destruct Hsc as (-> & _).
Qed.

Lemma alike_tunnel p q p' q' : Forall2 alike (PP_Volumes p) (PP_Volumes q) →
  addTunnelCerts ClusterDomain old p = Ok p' → addTunnelCerts ClusterDomain new q = Ok q' → Forall2 alike (PP_Volumes p') (PP_Volumes q').
Proof using Hsc.
  intros Hpq. unfold addTunnelCerts. assert (tunnelTLS (Spec old) = tunnelTLS (Spec new)) as ->.
  { unfold tunnelTLS. by destruct Hsc as (_ & _ & _ & -> & _). }
  destruct (tunnelTLS _) as [tls|]; [|by intros [= <-] [= <-]]. intros (s & Hs & [= <-])%bind_Ok (s' & Hs' & [= <-])%bind_Ok.
  assert (∀ p e, PP_Volumes (if hasPodNameEnv p then p else add_env e p) = PP_Volumes p) as Hv by (intros ? ?; by case_match).
  rewrite !Hv. apply alike_mounted; [done|]. eapply scaled_podCerts; [|done..]. intros i. unfold tunnelCertName, podName, stsName.
  by destruct Hsc as (-> & _).
Qed.

Lemma alike_parts p q : podParts ClusterDomain old = Ok p → podParts ClusterDomain new = Ok q →
  Forall2 alike (PP_Volumes p) (PP_Volumes q).
Proof using Hsc.
  intros (p1 & E1 & (p2 & E2 & [= <-])%bind_Ok)%bind_Ok (q1 & F1 & (q2 & F2 & [= <-])%bind_Ok)%bind_Ok.
  pose proof Hsc as (Hn & Hns & Ha & Ht & Hc).
  assert (Forall2 alike (PP_Volumes p1) (PP_Volumes q1)) as H1.
  { eapply alike_api; [|exact E1|exact F1]. unfold baseParts, configMapName, stsName. rewrite Hn. constructor; [apply alike_refl|done]. }
  assert (Forall2 alike (PP_Volumes p2) (PP_Volumes q2)) as H2.
  { eapply alike_tunnel; [|exact E2|exact F2]. unfold addControllerCA, addAPIBundle, apiTLS, controllerCAName, stsName. rewrite Ha, Hn.
    match goal with |- context [match ?x with _ => _ end] => destruct x end; [apply alike_mounted; [|apply alike_refl]|]; by apply alike_bundle. }
  unfold addClientBundle, addClientCerts, addTunnelBundle, clientTLS, clientCertName, stsName. rewrite Ht, Hc, Hn, Hns.
  apply alike_bundle. match goal with |- context [match ?x with _ => _ end] => destruct x end; [apply alike_mounted; [|apply alike_refl]|]; by apply alike_bundle.
Qed.
End Scaled.

(** What the reconciliation keeps in line with the cluster: replicas, the pods' labels,
    the first container's image and resources, and the volumes as far as their names
    and the number of projected secrets go. *)
Definition sts_in_step (cluster : Cluster) (desired s : StatefulSetSpec) : Prop :=
  Sts_Replicas s = CS_Replicas (Spec cluster) ∧
  (∀ k v, Pod_Labels (Sts_Template desired) !! k = Some v → default "" (Pod_Labels (Sts_Template s) !! k) = v) ∧
  (∃ c rest, Pod_Containers (Sts_Template s) = c :: rest ∧ Ctr_Image c = CS_Image (Spec cluster) ∧
     Ctr_Resources c = CS_Resources (Spec cluster)) ∧
  same_shape (Pod_Volumes (Sts_Template s)) (Pod_Volumes (Sts_Template desired)) ∧
  Sts_Selector s ≠ None.

(** What it never touches once there is a container. *)
Definition frozen (old s : StatefulSetSpec) : Prop :=
  Sts_ServiceName s = Sts_ServiceName old ∧
  Pod_InitContainers (Sts_Template s) = Pod_InitContainers (Sts_Template old) ∧
  ∃ c c' rest, Pod_Containers (Sts_Template old) = c :: rest ∧ Pod_Containers (Sts_Template s) = c' :: rest ∧
    Ctr_Ports c' = Ctr_Ports c ∧ Ctr_VolumeMounts c' = Ctr_VolumeMounts c ∧ Ctr_Env c' = Ctr_Env c ∧
    Ctr_Command c' = Ctr_Command c.

(** What becomes of an existing StatefulSet besides what is kept in line. *)
Definition kept (old desired s : StatefulSetSpec) : Prop :=
  (Pod_Containers (Sts_Template old) ≠ [] → frozen old s) ∧
  volumes_follow (Pod_Volumes (Sts_Template old)) (Pod_Volumes (Sts_Template desired)) (Pod_Volumes (Sts_Template s)).

Lemma sync_labels (old new : gmap string string) k v : new !! k = Some v →
  default "" (copy_into old (filter (λ kv, default "" (old !! kv.1) ≠ kv.2) new) !! k) = v.
Proof.
  intros Hk. unfold copy_into. rewrite lookup_union. destruct (decide (default "" (old !! k) = v)) as [He|He].
  - rewrite map_lookup_filter_None_2; [by rewrite (left_id_L None _)|]. right. intros v' Hv' Hn. cbn in Hn. congruence.
  - rewrite (map_lookup_filter_Some_2 _ _ _ v) by done. by destruct (old !! k).
Qed.

Lemma syncStatefulSet_Ok cluster desired current s b :
  NoDup (Vol_Name <$> Pod_Volumes (Sts_Template desired)) → Sts_Selector desired ≠ None →
  (∃ c rest, Pod_Containers (Sts_Template desired) = c :: rest ∧ Ctr_Image c = CS_Image (Spec cluster) ∧
     Ctr_Resources c = CS_Resources (Spec cluster)) →
  syncStatefulSet cluster desired current = Ok (s, b) →
  sts_in_step cluster desired s ∧ (Pod_Containers (Sts_Template current) ≠ [] → frozen current s) ∧
  volumes_follow (Pod_Volumes (Sts_Template current)) (Pod_Volumes (Sts_Template desired)) (Pod_Volumes (Sts_Template s)).
Proof.
  intros Hnd Hsel Hc (stale & Hr & H)%bind_Ok.
  destruct (syncContainers _ _ _) as [cs bc] eqn:Ec. injection H as <- <-. split; [|split].
  - unfold sts_in_step; cbn. split; [|split; [|split; [|split]]].
    + destruct (Sts_Replicas current) as [n|], (CS_Replicas (Spec cluster)) as [m|]; try discriminate;
        injection Hr as <-; [|done..]. case_bool_decide as E; [done|]. by rewrite E.
    + intros k v. apply sync_labels.
    + unfold syncContainers in Ec. destruct (Pod_Containers (Sts_Template current)) as [|c rest]; injection Ec as <- <-; [done|].
      by exists (with_image_resources cluster c), rest.
    + destruct (volumesEqual (Pod_Volumes (Sts_Template current)) _) eqn:E; apply volumesEqual_spec; [exact E|].
      by apply volumesEqual_refl.
    + case_bool_decide; done.
  - unfold syncContainers in Ec. destruct (Pod_Containers (Sts_Template current)) as [|c rest] eqn:E; [done|].
    injection Ec as <- <-. intros _. split; [done|]. split; [done|]. rewrite E.
    by exists c, (with_image_resources cluster c), rest.
  - unfold volumes_follow. cbn. rewrite <- volumesEqual_spec. destruct (volumesEqual _ _); [by left|by right].
Qed.

Lemma syncStatefulSet_same cluster desired current s : syncStatefulSet cluster desired current = Ok (s, false) → s = current.
Proof.
  intros (stale & Hr & H)%bind_Ok. destruct (syncContainers _ _ _) as [cs bc] eqn:Ec.
  injection H as <- [[[[-> ->]%orb_false_iff Hl]%orb_false_iff Hsel]%orb_false_iff Hv]%orb_false_iff.
  apply bool_decide_eq_false, dec_stable in Hl. rewrite Hsel, Hv.
  assert (filter (λ kv, default "" (Pod_Labels (Sts_Template current) !! kv.1) ≠ kv.2) (Pod_Labels (Sts_Template desired)) = ∅) as ->.
  { apply map_empty. intros k. apply map_lookup_filter_None. right. intros v Hk Hn. apply Hn. exact (Hl k v Hk). }
  assert (cs = Pod_Containers (Sts_Template current)) as ->.
  { unfold syncContainers in Ec. destruct (Pod_Containers (Sts_Template current)) as [|c rest]; [done|].
    injection Ec as <- [Hi Hres]%orb_false_iff. apply bool_decide_eq_false, dec_stable in Hi.
    apply negb_false_iff, resourcesEqual_spec in Hres. unfold with_image_resources. rewrite <- Hi, <- Hres. by destruct c. }
  unfold copy_into. rewrite (left_id_L ∅ _). by destruct current as [? ? ? []].
Qed.

Section Reconciled.
Context {W : Type} `{L : ApiLaws W} `{R : GoRuntime} {Y : YAMLMarshal} (ClusterDomain : string) (cluster : Cluster).

Lemma reconcileConfigMap_Ok (cm : ConfigMap) w w' : reconcileConfigMap cluster cm w = (w', Ok tt) →
  agree_off (only_at KConfigMap (key_of cm)) w w' ∧
  ∃ stored, view w' KConfigMap !! key_of cm = Some stored ∧ Spec stored = Spec cm.
Proof.
  intros (d & (Hk & _ & _ & _ & Hs & _)%al_setOwner & [(w1 & w2 & o & Hag & Hv & Hc & [= <-])|(w1 & cur & Hag & Hv & H)])%create_or_Ok;
    rewrite Hk in Hv.
  - apply create_Ok in Hc as (Hag2 & (_ & _ & _ & _ & Hsp) & Hv2). rewrite Hk in Hv2, Hag2.
    split; [by eapply agree_nothing_off|]. exists o. split; [exact Hv2|]. by etrans.
  - case_decide as E.
    + apply io_bind_Ok in H as (w2 & o & Hu & [= <-]).
      destruct (update_found KConfigMap _ _ _ _ _ _ _ Hag Hv Hu eq_refl eq_refl)
        as (Hag2 & (_ & _ & _ & _ & Hsp) & Hv2 & _).
      split; [exact Hag2|]. exists o. split; [exact Hv2|]. by etrans.
    + injection H as <-. split; [by eapply agree_off_mono; [|exact Hag]|]. exists cur.
      split; [exact (keep _ _ _ _ _ Hag Hv)|]. by rewrite E.
Qed.

(** A StatefulSet that needs no update is in line already; [sync_same] says that nothing
    was assigned then. *)
Lemma applyStatefulSet_Ok (desired : StatefulSet) w w' sts :
  NoDup (Vol_Name <$> Pod_Volumes (Sts_Template (Spec desired))) → Sts_Selector (Spec desired) ≠ None →
  Sts_Replicas (Spec desired) = CS_Replicas (Spec cluster) →
  (∃ c rest, Pod_Containers (Sts_Template (Spec desired)) = c :: rest ∧ Ctr_Image c = CS_Image (Spec cluster) ∧
     Ctr_Resources c = CS_Resources (Spec cluster)) →
  applyStatefulSet cluster desired w = (w', Ok sts) →
  view w' KStatefulSet !! key_of desired = Some sts ∧ sts_in_step cluster (Spec desired) (Spec sts) ∧
  (view w KStatefulSet !! key_of desired = None → Spec sts = Spec desired) ∧
  (∀ old, view w KStatefulSet !! key_of desired = Some old → kept (Spec old) (Spec desired) (Spec sts)) ∧
  agree_off (only_at KStatefulSet (key_of desired)) w w'.
Proof.
  intros Hnd Hsel Hrep Hc (w1 & r & Hg%io_try_Ok & H)%io_bind_Ok. destruct r as [cur|[| |msg]]; [| |done..].
  - pose proof (get_Ok KStatefulSet _ _ _ _ Hg) as [Hag Hv]. pose proof (al_key _ _ _ _ Hv) as Hkcur.
    apply io_bind_Ok in H as (w2 & [s b] & [-> Hs]%io_lift_Ok & H).
    pose proof (syncStatefulSet_Ok _ _ _ _ _ Hnd Hsel Hc Hs) as [Hstep Hkept].
    assert (∀ x, view w KStatefulSet !! key_of desired = None → x = Spec desired) as Hnew.
    { intros ? Ho. discriminate (eq_trans (eq_sym Ho) Hv). }
    assert (∀ old : StatefulSet, view w KStatefulSet !! key_of desired = Some old → old = cur) as Hcur.
    { intros old Ho. apply (inj Some). exact (eq_trans (eq_sym Ho) Hv). }
    destruct b.
    + apply io_bind_Ok in H as (w3 & d & [-> Hd%al_setOwner]%io_lift_Ok & Hu).
      destruct Hd as (Hk & _ & _ & Hfin & Hsp & _).
      destruct (update_found KStatefulSet _ _ _ _ _ _ _ Hag Hv Hu Hk Hfin) as (Hag2 & (_ & _ & _ & _ & Hsp2) & Hv2 & _).
      assert (Spec sts = s) as -> by exact (eq_trans Hsp2 Hsp).
      split; [exact Hv2|]. split; [exact Hstep|]. split; [apply Hnew|]. split; [|exact Hag2].
      by intros old ->%Hcur.
    + injection H as <- <-. pose proof (syncStatefulSet_same _ _ _ _ Hs) as ->. 
      pose proof (keep _ _ KStatefulSet _ _ Hag Hv) as K. split; [clear -K; by destruct cur|]. split; [exact Hstep|]. split; [apply Hnew|]. split; [|by eapply agree_off_mono; [|exact Hag]].
      by intros old ->%Hcur.
  - pose proof (get_NotFound KStatefulSet _ _ _ Hg) as [Hag Hv].
    apply io_bind_Ok in H as (w2 & d & [-> Hd%al_setOwner]%io_lift_Ok & Hcr%create_Ok).
    destruct Hd as (Hk & _ & _ & _ & Hsp & _), Hcr as (Hag2 & (_ & _ & _ & _ & Hsp2) & Hv2).
    kinds. rewrite Hk in Hv2, Hag2. split; [exact Hv2|]. rewrite Hsp2, Hsp.
    split; [|split; [done|split; [intros old Ho; exfalso; discriminate (eq_trans (eq_sym Ho) Hv)|by eapply agree_nothing_off]]].
    split_and!; [done|by intros k v ->|done|by apply volumesEqual_spec, volumesEqual_refl|done].
Qed.

Lemma reconcileStatefulSet_Ok matches w w' sts :
  reconcileStatefulSet ClusterDomain cluster matches w = (w', Ok sts) →
  ∃ desired cm, buildStatefulSet ClusterDomain cluster matches = Ok (desired, cm) ∧
    (∃ stored, view w' KConfigMap !! in_ns cluster (configMapName cluster) = Some stored ∧ Spec stored = Spec cm) ∧
    view w' KStatefulSet !! in_ns cluster (stsName cluster) = Some sts ∧
    sts_in_step cluster (Spec desired) (Spec sts) ∧
    (view w KStatefulSet !! in_ns cluster (stsName cluster) = None → Spec sts = Spec desired) ∧
    (∀ old, view w KStatefulSet !! in_ns cluster (stsName cluster) = Some old → kept (Spec old) (Spec desired) (Spec sts)) ∧
    ∀ k nn, ¬ only_at KConfigMap (in_ns cluster (configMapName cluster)) k nn →
      ¬ only_at KStatefulSet (in_ns cluster (stsName cluster)) k nn → view w' k !! nn = view w k !! nn.
Proof.
  intros (w0 & [desired cm] & [-> Hb]%io_lift_Ok & (w1 & [] & [Hag1 (stored & Hst & Hcm)]%reconcileConfigMap_Ok & H)%io_bind_Ok)%io_bind_Ok.
  pose proof (buildStatefulSet_Ok _ _ _ _ _ Hb) as (p & Hp & _ & Hk & Hkc & Ht & Hsel & Hrep & _ & _).
  pose proof (podParts_ok _ _ _ Hp) as (_ & Hvol & _).
  rewrite Hkc in Hag1, Hst.
  exists desired, cm. split; [done|].
  pose proof (applyStatefulSet_Ok desired w1 w' sts) as HA. rewrite Hk, Ht in HA.
  destruct HA as (J1 & J2 & J0 & J3 & J4); [|by rewrite Hsel|done|by eexists _, _|done|].
  { eapply sublist_NoDup; [|exact Hvol]. apply (bool_decide_unpack _). vm_compute. exact I. }
  split; [|split; [exact J1|split; [exact J2|split; [|split]]]].
  - exists stored. split; [|done]. by eapply keep_off; [exact J4|by intros []|].
  - intros Hnone. apply J0. rewrite (Hag1 KStatefulSet); [exact Hnone|]. by intros [].
  - intros old Hold. apply J3. refine (keep_off _ _ _ KStatefulSet _ _ Hag1 _ Hold). by intros [].
  - intros k nn Hn1 Hn2. by rewrite J4, Hag1.
Qed.

(** C23: A reconciliation of the workload that succeeds leaves the ConfigMap with exactly
    the content built for the cluster; nothing but it and the StatefulSet changes.  A
    StatefulSet that was not there is the one built.  One that was there has the
    cluster's replicas, image and resources and the wanted labels, and keeps everything
    else of its container (ports, mounts, environment, command), whatever the cluster now
    asks for.  Its volumes become the wanted ones unless their number, their names and
    the numbers of sources they project say nothing has changed, in which case they stay
    as they are ([bundle_change_unnoticed] is what that misses).  If the old volumes are
    those built for the cluster when it had another size, image, resources or
    environment, what is there in the end are exactly the wanted volumes. *)
Theorem statefulset_in_step matches w w' sts :
  reconcileStatefulSet ClusterDomain cluster matches w = (w', Ok sts) →
  ∃ desired cm, buildStatefulSet ClusterDomain cluster matches = Ok (desired, cm) ∧
    (∃ stored, view w' KConfigMap !! in_ns cluster (configMapName cluster) = Some stored ∧ Spec stored = Spec cm) ∧
    view w' KStatefulSet !! in_ns cluster (stsName cluster) = Some sts ∧
    sts_in_step cluster (Spec desired) (Spec sts) ∧
    (view w KStatefulSet !! in_ns cluster (stsName cluster) = None → Spec sts = Spec desired) ∧
    (∀ old, view w KStatefulSet !! in_ns cluster (stsName cluster) = Some old →
       kept (Spec old) (Spec desired) (Spec sts) ∧
       ∀ earlier parts, scaled earlier cluster → podParts ClusterDomain earlier = Ok parts →
         Pod_Volumes (Sts_Template (Spec old)) = PP_Volumes parts →
         Pod_Volumes (Sts_Template (Spec sts)) = Pod_Volumes (Sts_Template (Spec desired))) ∧
    ∀ k nn, ¬ only_at KConfigMap (in_ns cluster (configMapName cluster)) k nn →
      ¬ only_at KStatefulSet (in_ns cluster (stsName cluster)) k nn → view w' k !! nn = view w k !! nn.
Proof.
  intros (desired & cm & Hb & Hcm & Hv & Hstep & Hnew & Hold & Hoff)%reconcileStatefulSet_Ok.
  exists desired, cm. split_and!; try done. intros old Ho. pose proof (Hold old Ho) as [Hf Hvol]. split; [done|].
  intros earlier parts Hsc Hp Eold. destruct Hvol as [[Hsame ->]|[_ ->]]; [|done].
  apply buildStatefulSet_Ok in Hb as (p & Hp' & _ & _ & _ & Ht & _). rewrite Ht in Hsame |- *. rewrite Eold in Hsame |- *.
  pose proof (podParts_ok _ _ _ Hp') as (_ & Hnames & _).
  apply alike_same; [|by eapply alike_parts|exact Hsame].
  eapply sublist_NoDup; [|exact Hnames]. apply (bool_decide_unpack _). vm_compute. exact I.
Qed.
End Reconciled.

Module WorkloadDemo.
#[local] Instance yaml : YAMLMarshal := {| MarshalConfig c := Ok (ASC_Address (BC_APIServer c)) |}.

(** The same cluster without TLS. *)
Definition plain : Cluster := MkResource (Meta CertDemo.cluster)
  {| CS_Image := "gnmic"; CS_Replicas := Some 1; CS_API := None; CS_ClientTLS := None; CS_GRPCTunnel := None;
     CS_Resources := {| Requests := {[ "cpu" := 500 ]}; Limits := ∅ |}; CS_Env := [];
     CS_TargetDistribution := None |} (Status CertDemo.cluster).

Definition build (cluster : Cluster) := buildStatefulSet (R := go_reference) (Y := yaml) CertDemo.domain cluster ∅.
Definition built (cluster : Cluster) (H : is_ok (build cluster) = true) : StatefulSet * ConfigMap :=
  match build cluster as r return is_ok r = true → StatefulSet * ConfigMap with
  | Ok b => λ _, b | Err _ => λ H, False_rect _ (diff_false_true H) end H.

Definition tls := built CertDemo.cluster eq_refl.

Lemma tls_eq : build CertDemo.cluster = Ok (tls.1, tls.2).
Proof. vm_compute. reflexivity. Qed.

Lemma csi_off : without_csi (Spec CertDemo.cluster).
Proof. by intros tls [[= <-]|[[=]|[=]]]. Qed.

Definition first : Server unit * res StatefulSet :=
  reconcileStatefulSet (R := go_reference) (Y := yaml) CertDemo.domain plain ∅ (empty_server ()).
(** TLS is turned on, a pod is added and the resources are dropped. *)
Definition second : Server unit * res StatefulSet :=
  reconcileStatefulSet (R := go_reference) (Y := yaml) CertDemo.domain CertDemo.cluster ∅ first.1.

Definition result : StatefulSet := match second.2 with Ok sts => sts | Err _ => tls.1 end.

Lemma workload_second_eq : reconcileStatefulSet (R := go_reference) (Y := yaml) CertDemo.domain CertDemo.cluster ∅ first.1 =
  (second.1, Ok result).
Proof. vm_compute. reflexivity. Qed.
End WorkloadDemo.

Lemma statefulset_well_formed_witness : ∃ c, Pod_Containers (Sts_Template (Spec WorkloadDemo.tls.1)) = [c] ∧
  VM_Name <$> Ctr_VolumeMounts c = ["config"; "tls-certs"; "controller-ca"].
Proof.
  destruct (statefulset_well_formed (R := go_reference) (Y := WorkloadDemo.yaml) CertDemo.domain CertDemo.cluster ∅ _ _
    WorkloadDemo.tls_eq) as (_ & _ & c & Hc & _ & Hn & _).
  exists c. split; [exact Hc|]. etrans; [exact Hn|]. vm_compute. reflexivity.
Defined.


(** The second reconciliation follows the replicas and the volumes, and keeps the mounts. *)
Lemma statefulset_in_step_witness :
  Sts_Replicas (Spec WorkloadDemo.result) = Some 2 ∧
  view WorkloadDemo.second.1 KStatefulSet !! in_ns CertDemo.cluster "gnmic-c1" = Some WorkloadDemo.result.
Proof.
  destruct (statefulset_in_step (W := Server unit) (R := go_reference) (Y := WorkloadDemo.yaml) CertDemo.domain
    CertDemo.cluster ∅ _ _ _ WorkloadDemo.workload_second_eq) as (desired & cm & _ & _ & Hv & (Hr & _) & _).
  split; [exact Hr|exact Hv].
Defined.

(** Turning TLS on for a running cluster: the configuration names the certificate, the
    volume is added, and nothing mounts it. *)
Example tls_turned_on_later :
  CertFilePath ∈ configFiles (Spec CertDemo.cluster) ∧
  Vol_Name <$> Pod_Volumes (Sts_Template (Spec WorkloadDemo.result)) = ["config"; "tls-certs"; "controller-ca"] ∧
  (λ c, VM_MountPath <$> Ctr_VolumeMounts c) <$> Pod_Containers (Sts_Template (Spec WorkloadDemo.result)) = [[gNMIcConfigPath]].
Proof. split; [apply (bool_decide_unpack _); vm_compute; exact I|]. split; vm_compute; reflexivity. Qed.

(** Another bundle under the same volume is not noticed. *)
Example bundle_change_unnoticed :
  volumesEqual [{| Vol_Name := "ca-bundle"; Vol_Source := VConfigMap "old" false |}]
               [{| Vol_Name := "ca-bundle"; Vol_Source := VConfigMap "new" false |}] = true.
Proof. vm_compute. reflexivity. Qed.
