(* ===== verification/PodApi.v ===== *)
(** What the cluster controller tells the pods over HTTP
    ([internal/controller/cluster_controller.go]): the client and whom it trusts, the
    plan of each pod, and the tunnel target matches, one by one. *)

From S2P Require Import Prelude GoLib Api GnmicTypes Distribute Kube Names Certificates.
From Stdlib Require Import Ascii.
#[local] Open Scope Z_scope.

(** ** The world of the pods *)

(** The URL of a request is its base, the address of a pod, and a path below it. *)
Record PodRequest := { PR_Method : string; PR_Base : string; PR_Path : string; PR_Body : string }.

Record PodResponse := { PR_Status : Z; PR_Content : string }.

(** The HTTP client ([NewRequestWithContext], [Do] and the reading of the body), the
    encoders, the files and the environment of the operator. *)
Class PodHTTP (W : Type) := { http_do : HttpClient → PodRequest → io W PodResponse }.

Class PodJSON := {
  MarshalPlan : ApplyPlan → res string;
  MarshalMatch : TunnelTargetMatch → res string;
  (** The keys of a JSON object. *)
  DecodeIDs : string → res (gmap string unit)
}.

Class Files (W : Type) := { ReadFile : string → io W string; Getenv : string → string; X509KeyPair : string → string → res (string * string) }.

(** The text of an error, and the [%q] verb. *)
Class ErrorText := { Error : GoError → string; Quote : string → string }.

(** ** The client *)

Definition DefaultControllerCertPath := "/etc/gnmic-operator/certs/tls.crt".
Definition DefaultControllerKeyPath := "/etc/gnmic-operator/certs/tls.key".
Definition DefaultControllerCAPath := "/etc/gnmic-operator/ca/ca.crt".

(** [fmt.Errorf] with [%w]: the error of a call, under a message of one's own. *)
Definition wrap {W B} `{ErrorText} (msg : string) (m : io W B) : io W B :=
  r ← io_try m; match r with Ok b => mret b | Err e => io_fail (ErrMsg (msg +:+ ": " +:+ Error e)) end.

Section Client.
Context {W : Type} `{A : KubeApi W} `{F : !Files W} `{E : ErrorText}.

(** A path from the environment, or the default. *)
Definition env_path (name path : string) : string := if decide (Getenv name ≠ "") then Getenv name else path.
Definition GetControllerCertPath : string := env_path "GNMIC_TLS_CERT" DefaultControllerCertPath.
Definition GetControllerKeyPath : string := env_path "GNMIC_TLS_KEY" DefaultControllerKeyPath.
Definition GetControllerCAPath : string := env_path "GNMIC_TLS_CA" DefaultControllerCAPath.

Definition getIssuerCA (namespace issuerName : string) : io W string :=
  issuer ← wrap ("failed to get issuer " +:+ issuerName) (api_get KIssuer {| NN_Namespace := namespace; NN_Name := issuerName |});
  match (Spec issuer : option string) with
  | None | Some "" => io_fail (ErrMsg ("issuer " +:+ issuerName +:+ " is not a CA issuer or has no secret configured"))
  | Some secretName =>
      secret ← wrap ("failed to get CA secret " +:+ secretName) (api_get KSecret {| NN_Namespace := namespace; NN_Name := secretName |});
      match (Spec secret : gmap string string) !! "tls.crt" with
      | Some ca => mret ca
      | None => io_fail (ErrMsg ("CA secret " +:+ secretName +:+ " does not contain tls.crt"))
      end
  end.

(** The client certificate and the issuer's CA. *)
Definition issuerClient (namespace issuerRef : string) : io W ClientTLS :=
  if decide (issuerRef ≠ "") then
    cert ← wrap "failed to read controller cert file" (ReadFile GetControllerCertPath);
    key ← wrap "failed to read controller key file" (ReadFile GetControllerKeyPath);
    pair ← io_lift (X509KeyPair cert key);
    ca ← wrap "failed to get issuer CA" (getIssuerCA namespace issuerRef);
    mret {| CT_Certificates := [pair]; CT_RootCAs := Some [ca] |}
  else mret {| CT_Certificates := []; CT_RootCAs := None |}.

Definition bundleClient (bundleRef : string) (c : ClientTLS) : io W ClientTLS :=
  if decide (bundleRef ≠ "") then
    ca ← wrap "failed to read controller ca file" (ReadFile GetControllerCAPath);
    mret {| CT_Certificates := CT_Certificates c; CT_RootCAs := Some (default [] (CT_RootCAs c) ++ [ca]) |}
  else mret c.

Definition createHTTPClientForCluster (cluster : Cluster) : io W HttpClient :=
  match CS_API (Spec cluster) ≫= API_TLS with
  | None => mret {| HC_Timeout := 30; HC_TLS := None |}
  | Some tls =>
      c ← issuerClient (Namespace (Meta cluster)) (CTLS_IssuerRef tls);
      c ← bundleClient (CTLS_BundleRef tls) c;
      mret {| HC_Timeout := 30; HC_TLS := Some c |}
  end.
End Client.

(** ** The requests *)

Definition apply_path := "/api/v1/config/apply".
Definition matches_path := "/api/v1/config/tunnel-target-matches".

Definition success (resp : PodResponse) : bool := bool_decide (200 ≤ PR_Status resp < 300).

Section Requests.
Context {W : Type} `{H : !PodHTTP W} {J : PodJSON} `{E : ErrorText} `{R : GoRuntime}.

Definition non_success (resp : PodResponse) : string := "gNMIc pod returned non-success status " +:+ Itoa (PR_Status resp).

Definition sendApplyRequest (base : string) (plan : ApplyPlan) (client : HttpClient) : io W unit :=
  body ← wrap "failed to marshal apply plan" (io_lift (MarshalPlan plan));
  resp ← wrap "failed to send request"
           (http_do client {| PR_Method := "POST"; PR_Base := base; PR_Path := apply_path; PR_Body := body |});
  if success resp then mret tt
  else io_fail (ErrMsg ("gNMIc pod returned non-success status: " +:+ Itoa (PR_Status resp))).

Definition getTunnelTargetMatchIDs (base : string) (client : HttpClient) : io W (list string) :=
  resp ← http_do client {| PR_Method := "GET"; PR_Base := base; PR_Path := matches_path; PR_Body := "" |};
  if success resp then
    ids ← wrap "failed to decode tunnel-target-matches list" (io_lift (DecodeIDs (PR_Content resp)));
    mret (go_range ids).*1
  else io_fail (ErrMsg (non_success resp +:+ ": " +:+ PR_Content resp)).

(** The identifier goes into the path as it is. *)
Definition deleteTunnelTargetMatch (base id : string) (client : HttpClient) : io W unit :=
  resp ← http_do client {| PR_Method := "DELETE"; PR_Base := base; PR_Path := matches_path +:+ "/" +:+ id; PR_Body := "" |};
  if decide (PR_Status resp = 404) then mret tt
  else if success resp then mret tt else io_fail (ErrMsg (non_success resp +:+ ": " +:+ PR_Content resp)).

Definition postTunnelTargetMatch (base : string) (client : HttpClient) (tm : TunnelTargetMatch) : io W unit :=
  body ← wrap ("failed to marshal tunnel target match " +:+ Quote (TTM_ID tm)) (io_lift (MarshalMatch tm));
  resp ← wrap "failed to send tunnel-target-match request"
           (http_do client {| PR_Method := "POST"; PR_Base := base; PR_Path := matches_path; PR_Body := body |});
  if success resp then mret tt
  else io_fail (ErrMsg (non_success resp +:+ " for tunnel-target-match " +:+ Quote (TTM_ID tm) +:+ ": " +:+ PR_Content resp)).

(** Matches that are no longer wanted are deleted, a failure being logged only; then all
    wanted ones are sent. *)
Definition applyTunnelTargetMatches (base : string) (matches : gmap string TunnelTargetMatch) (client : HttpClient) : io W unit :=
  existingIDs ← wrap "failed to list existing tunnel-target-matches" (getTunnelTargetMatchIDs base client);
  let desiredIDs := foldl (λ m tm, <[TTM_ID tm := tt]> m) (∅ : gmap string unit) (go_range matches).*2 in
  _ ← for_each (λ id,
    if decide (desiredIDs !! id = None)
    then _ ← io_try (deleteTunnelTargetMatch base id client); mret tt
    else mret tt) existingIDs;
  for_each (postTunnelTargetMatch base client) (go_range matches).*2.
End Requests.

Section Apply.
Context {W : Type} `{A : KubeApi W} `{F : !Files W} `{H : !PodHTTP W} {J : PodJSON} `{E : ErrorText} (R1 R2 : GoRuntime) (ClusterDomain : string).

(** A pod is reached by its name behind the headless service. *)
Definition podBaseURL (cluster : Cluster) (i : Z) : string :=
  let scheme := match apiTLS (Spec cluster) with Some _ => "https" | None => "http" end in
  scheme +:+ "://" +:+ podName cluster i +:+ "." +:+ stsName cluster +:+ "." +:+ Namespace (Meta cluster) +:+
  ".svc." +:+ ClusterDomain +:+ ":" +:+ Itoa (restPort (Spec cluster)).

Definition configurePod (cluster : Cluster) (plan : ApplyPlan) (plans : gmap Z ApplyPlan) (client : HttpClient) (podIndex : Z) : io W unit :=
  match plans !! podIndex with
  | None => mret tt
  | Some podPlan =>
      _ ← wrap ("failed to apply config to pod " +:+ Itoa podIndex) (sendApplyRequest (podBaseURL cluster podIndex) podPlan client);
      wrap ("failed to apply tunnel-target-matches to pod " +:+ Itoa podIndex)
        (applyTunnelTargetMatches (R := R2) (podBaseURL cluster podIndex) (AP_TunnelTargetMatches plan) client)
  end.

Definition applyConfigToPods (cluster : Cluster) (plan : ApplyPlan) (numPods : Z) : io W Z :=
  client ← wrap "failed to create HTTP client" (createHTTPClientForCluster cluster);
  let distResult := DistributeTargets (R := R1) plan numPods (CS_TargetDistribution (Spec cluster)) in
  _ ← for_each (configurePod cluster plan (PerPodPlans distResult) client) (seqZ 0 numPods);
  mret (to_int32 (Z.of_nat (length (UnassignedTargets distResult)))).
End Apply.

(** ** What the pods do *)

(** The last body a pod took on [/config/apply], and its tunnel target matches. *)
Record PodState := { Pod_Applied : option string; Pod_Matches : gmap string string }.

Class PodStore (W : Type) := { pod : W → string → PodState }.

(** A request reaches the pod it names and changes nothing else; an accepted plan is the
    pod's plan, until the next one; an accepted match is kept under its identifier. *)
Class PodLaws (W : Type) `{V : ApiStore W} `{H : PodHTTP W} {J : PodJSON} `{P : PodStore W} : Prop := {
  pl_kube : ∀ cl req, touches nothing (http_do cl req);
  pl_others : ∀ cl req w base, base ≠ PR_Base req → pod (http_do cl req w).1 base = pod w base;
  pl_apply : ∀ cl base body w w' resp,
    http_do cl {| PR_Method := "POST"; PR_Base := base; PR_Path := apply_path; PR_Body := body |} w = (w', Ok resp) →
    success resp = true → Pod_Applied (pod w' base) = Some body;
  pl_keep : ∀ cl req w, PR_Path req ≠ apply_path →
    Pod_Applied (pod (http_do cl req w).1 (PR_Base req)) = Pod_Applied (pod w (PR_Base req));
  pl_post : ∀ cl base tm body w w' resp, MarshalMatch tm = Ok body →
    http_do cl {| PR_Method := "POST"; PR_Base := base; PR_Path := matches_path; PR_Body := body |} w = (w', Ok resp) →
    success resp = true → Pod_Matches (pod w' base) = <[TTM_ID tm := body]> (Pod_Matches (pod w base))
}.

(** Only the pod at [base] changes, and of it only the matches. *)
Definition only_matches_of {W} `{PodStore W} (base : string) (w w' : W) : Prop :=
  (∀ b, b ≠ base → pod w' b = pod w b) ∧ Pod_Applied (pod w' base) = Pod_Applied (pod w base).

(** Only the pods in [S] change. *)
Definition only_pods {W} `{PodStore W} (S : string → Prop) (w w' : W) : Prop := ∀ b, ¬ S b → pod w' b = pod w b.

#[export] Instance only_matches_of_po {W} `{PodStore W} base : PreOrder (only_matches_of (W := W) base).
Proof.
  split; [by split|]. intros w1 w2 w3 [H1 H2] [J1 J2]. split; [|by rewrite J2]. intros b Hb. by rewrite J1, H1.
Qed.

#[export] Instance only_pods_po {W} `{PodStore W} S : PreOrder (only_pods (W := W) S).
Proof. split; [done|]. intros w1 w2 w3 H1 H2 b Hb. by rewrite H2, H1. Qed.

Section Lemmas.
Context {W : Type} `{L : ApiLaws W} `{F : !Files W} `{H : !PodHTTP W} {J : PodJSON} `{E : ErrorText} `{P : !PodStore W}
  `{PL : !PodLaws W}.

Lemma wrap_Ok {B} msg (m : io W B) w w' b : wrap msg m w = (w', Ok b) → m w = (w', Ok b).
Proof.
  unfold wrap. intros (w1 & r & Hm%io_try_Ok & Hr)%io_bind_Ok. destruct r; [|done]. by injection Hr as <- <-.
Qed.

Lemma preserves_wrap {B} (Q : W → W → Prop) `{!PreOrder Q} msg (m : io W B) : preserves Q m → preserves Q (wrap msg m).
Proof.
  intros Hm. unfold wrap. apply preserves_bind; [exact _|by apply preserves_try|].
  intros []; [by apply preserves_ret|by apply preserves_fail].
Qed.

Lemma http_only_matches cl req base :
  PR_Base req = base → PR_Path req ≠ apply_path → preserves (only_matches_of base) (http_do cl req).
Proof. intros <- Hp w. split; [intros b Hb; by apply pl_others|by apply pl_keep]. Qed.

Lemma post_Ok base cl tm w w' : postTunnelTargetMatch base cl tm w = (w', Ok tt) →
  ∃ body, MarshalMatch tm = Ok body ∧ Pod_Matches (pod w' base) = <[TTM_ID tm := body]> (Pod_Matches (pod w base)).
Proof.
  intros (w1 & body & [-> Hb]%wrap_Ok%io_lift_Ok & (w2 & resp & Hd%wrap_Ok & Hs)%io_bind_Ok)%io_bind_Ok.
  destruct (success resp) eqn:Es; [|done]. injection Hs as <-. exists body. split; [done|]. by eapply pl_post.
Qed.

Lemma matches_only_matches `{R : GoRuntime} base matches cl :
  preserves (only_matches_of base) (applyTunnelTargetMatches base matches cl).
Proof.
  unfold applyTunnelTargetMatches. walk ltac:(apply http_only_matches; done).
Qed.

(** Every match of the list is kept, when no two share an identifier. *)
Definition has_match (w : W) (base : string) (tm : TunnelTargetMatch) : Prop :=
  ∃ body, MarshalMatch tm = Ok body ∧ Pod_Matches (pod w base) !! TTM_ID tm = Some body.

Lemma posts_Ok base cl l w w' : NoDup (TTM_ID <$> l) →
  for_each (postTunnelTargetMatch base cl) l w = (w', Ok tt) → ∀ tm, tm ∈ l → has_match w' base tm.
Proof.
  intros Hnd Hl. eapply (for_each_Ok _ (λ done w1, ∀ tm, tm ∈ done → has_match w1 base tm)); [| |exact Hl].
  - by intros tm ?%not_elem_of_nil.
  - intros done tm rest w1 w2 -> Hdone (body & Hb & Hm)%post_Ok tm' [Hin| ->%list_elem_of_singleton]%elem_of_app.
    + destruct (Hdone tm' Hin) as (body' & Hb' & Hm'). exists body'. split; [done|]. rewrite Hm, lookup_insert_ne; [done|].
      intros He. rewrite fmap_app, NoDup_app in Hnd. destruct Hnd as (_ & Hnd & _).
      apply (Hnd (TTM_ID tm')); [by apply list_elem_of_fmap_2|]. rewrite <- He. by left.
    + exists body. split; [done|]. by rewrite Hm, lookup_insert_eq.
Qed.

Lemma matches_Ok `{R : GoRuntime} base matches cl w w' :
  NoDup (TTM_ID <$> (map_to_list matches).*2) →
  applyTunnelTargetMatches base matches cl w = (w', Ok tt) → ∀ k tm, matches !! k = Some tm → has_match w' base tm.
Proof.
  intros Hnd (w1 & ids & _ & (w2 & [] & _ & Hp)%io_bind_Ok)%io_bind_Ok k tm Hk. eapply posts_Ok; [|exact Hp|].
  - by rewrite go_range_perm.
  - apply list_elem_of_fmap. exists (k, tm). split; [done|]. by apply elem_of_go_range.
Qed.

Lemma send_Ok base plan cl w w' : sendApplyRequest base plan cl w = (w', Ok tt) →
  ∃ body, MarshalPlan plan = Ok body ∧ Pod_Applied (pod w' base) = Some body.
Proof.
  intros (w1 & body & [-> Hb]%wrap_Ok%io_lift_Ok & (w2 & resp & Hd%wrap_Ok & Hs)%io_bind_Ok)%io_bind_Ok.
  destruct (success resp) eqn:Es; [|done]. injection Hs as <-. exists body. split; [done|]. by eapply pl_apply.
Qed.

(** A pod runs a plan. *)
Definition runs_plan (w : W) (base : string) (plan : ApplyPlan) : Prop :=
  ∃ body, MarshalPlan plan = Ok body ∧ Pod_Applied (pod w base) = Some body.

(** A pod is configured: it runs its part of the plan and has every match. *)
Definition configured (w : W) (base : string) (plan : ApplyPlan) (matches : gmap string TunnelTargetMatch) : Prop :=
  runs_plan w base plan ∧ ∀ k tm, matches !! k = Some tm → has_match w base tm.

(** No two matches of the plan share an identifier. *)
Definition distinct_ids (plan : ApplyPlan) : Prop := NoDup (TTM_ID <$> (map_to_list (AP_TunnelTargetMatches plan)).*2).
End Lemmas.

(** Calls to the API server and reads of files leave the pods alone. *)
Class PodFrame (W : Type) `{A : KubeApi W} `{V : ApiStore W} `{F : !Files W} `{P : !PodStore W} : Prop := {
  pf_get : ∀ k nn, preserves (only_pods (λ _, False)) (api_get k nn);
  pf_list : ∀ k ns ls, preserves (only_pods (λ _, False)) (api_list k ns ls);
  pf_create : ∀ k o, preserves (only_pods (λ _, False)) (api_create k o);
  pf_update : ∀ k o, preserves (only_pods (λ _, False)) (api_update k o);
  pf_updateStatus : ∀ k o, preserves (only_pods (λ _, False)) (api_updateStatus k o);
  pf_delete : ∀ k nn, preserves (only_pods (λ _, False)) (api_delete k nn);
  pf_read : ∀ path, preserves (only_pods (λ _, False)) (ReadFile path);
  pf_files : ∀ path, touches nothing (ReadFile path)
}.

Create HintDb pods.
#[export] Hint Resolve pf_get pf_list pf_create pf_update pf_updateStatus pf_delete pf_read : pods.

Section ApplyLemmas.
Context {W : Type} `{L : ApiLaws W} `{F : !Files W} `{H : !PodHTTP W} {J : PodJSON} `{E : ErrorText} `{P : !PodStore W}
  `{PL : !PodLaws W} `{PF : !PodFrame W} (R1 R2 : GoRuntime) (ClusterDomain : string).

Lemma only_pods_mono (S1 S2 : string → Prop) (w w' : W) : (∀ b, S1 b → S2 b) → only_pods S1 w w' → only_pods S2 w w'.
Proof. intros Hs Hw b Hb. apply Hw. naive_solver. Qed.

Lemma client_same_pods cluster : preserves (only_pods (λ _, False)) (createHTTPClientForCluster cluster).
Proof. unfold createHTTPClientForCluster, issuerClient, bundleClient, getIssuerCA. walk ltac:(eauto 2 with pods). Qed.

Lemma client_touches cluster : touches nothing (createHTTPClientForCluster cluster).
Proof. unfold createHTTPClientForCluster, issuerClient, bundleClient, getIssuerCA. walk ltac:(first [apply pf_files|eauto 3 with touches]). Qed.

(** The CA found through the issuer. *)
Definition issuer_ca (w : W) (ns ref ca : string) : Prop :=
  ∃ (issuer : obj KIssuer) (secret : obj KSecret) name,
    view w KIssuer !! {| NN_Namespace := ns; NN_Name := ref |} = Some issuer ∧ Spec issuer = Some name ∧
    view w KSecret !! {| NN_Namespace := ns; NN_Name := name |} = Some secret ∧
    (Spec secret : gmap string string) !! "tls.crt" = Some ca.

Lemma getIssuerCA_Ok ns ref w w' ca : getIssuerCA ns ref w = (w', Ok ca) → issuer_ca w ns ref ca.
Proof.
  intros (w1 & issuer & Hi%wrap_Ok & H1)%io_bind_Ok. pose proof (get_Ok KIssuer _ _ _ _ Hi) as [Hag Hv].
  destruct (Spec issuer) as [[|c name]|] eqn:En; [done| |done].
  apply io_bind_Ok in H1 as (w2 & secret & Hs%wrap_Ok & H1). pose proof (get_Ok KSecret _ _ _ _ Hs) as [_ Hvs].
  destruct (Spec secret !! "tls.crt") as [ca'|] eqn:Eca; [|done]. injection H1 as <- <-.
  exists issuer, secret, (String c name). split; [done|]. split; [done|]. split; [|done].
  by rewrite <- (view_nothing _ _ KSecret _ Hag).
Qed.

Lemma issuerClient_Ok ns ref w w' c : issuerClient ns ref w = (w', Ok c) →
  (ref = "" ∧ c = {| CT_Certificates := []; CT_RootCAs := None |}) ∨
  (ref ≠ "" ∧ ∃ pair ca, c = {| CT_Certificates := [pair]; CT_RootCAs := Some [ca] |} ∧ issuer_ca w ns ref ca).
Proof.
  unfold issuerClient. intros Hc. destruct (decide (ref ≠ "")) as [Hr|Hr];
    [right|left; injection Hc as <- <-; split; [by apply dec_stable|done]]. revert Hc.
  intros (w1 & cert & H1%wrap_Ok & (w2 & key & H2%wrap_Ok & (w3 & pair & [-> _]%io_lift_Ok & (w4 & ca & H4%wrap_Ok & [= <- <-])%io_bind_Ok)%io_bind_Ok)%io_bind_Ok)%io_bind_Ok.
  split; [done|]. exists pair, ca. split; [done|].
  destruct (getIssuerCA_Ok _ _ _ _ _ H4) as (issuer & secret & name & Hi & Hn & Hs & Hca).
  pose proof (pf_files GetControllerCertPath w) as K1. pose proof (pf_files GetControllerKeyPath w1) as K2.
  rewrite H1 in K1. rewrite H2 in K2. assert (agree_off nothing w w2) as K by by etrans.
  exists issuer, secret, name. rewrite <- (view_nothing _ _ KIssuer _ K), <- (view_nothing _ _ KSecret _ K). done.
Qed.

Lemma bundleClient_Ok ref c w w' c' : bundleClient ref c w = (w', Ok c') →
  (ref = "" ∧ c' = c) ∨
  (ref ≠ "" ∧ ∃ ca, c' = {| CT_Certificates := CT_Certificates c; CT_RootCAs := Some (default [] (CT_RootCAs c) ++ [ca]) |}).
Proof.
  unfold bundleClient. intros Hc. destruct (decide (ref ≠ "")) as [Hr|Hr];
    [right|left; injection Hc as <- <-; split; [by apply dec_stable|done]]. revert Hc.
  intros (w1 & ca & _ & [= <- <-])%io_bind_Ok. split; [done|]. by exists ca.
Qed.

Lemma podBaseURL_inj cluster i j : podBaseURL ClusterDomain cluster i = podBaseURL ClusterDomain cluster j → i = j.
Proof.
  unfold podBaseURL. intros Hij%app_str_inj_l%app_str_inj_l. rewrite !(app_str_assoc (podName _ _)) in Hij.
  do 2 apply app_str_inj_r in Hij. by eapply podName_inj.
Qed.

Lemma http_only_pods cl req base : PR_Base req = base → preserves (only_pods (λ b, b = base)) (http_do cl req).
Proof. intros <- w b Hb. by apply pl_others. Qed.

Lemma configurePod_only cluster plan plans client i :
  preserves (only_pods (λ b, is_Some (plans !! i) ∧ b = podBaseURL ClusterDomain cluster i))
    (configurePod R2 ClusterDomain cluster plan plans client i) ∧
  touches nothing (configurePod R2 ClusterDomain cluster plan plans client i).
Proof.
  split; [|unfold configurePod; walk ltac:(apply pl_kube)].
  intros w b Hb. unfold configurePod. destruct (plans !! i) as [podPlan|]; [|done].
  assert (b ≠ podBaseURL ClusterDomain cluster i) as Hn by (intros ->; by apply Hb).
  assert (∀ m : io W unit, preserves (only_pods (λ b, b = podBaseURL ClusterDomain cluster i)) m → pod (m w).1 b = pod w b) as Hp
    by (intros m Hm; by apply Hm).
  apply Hp. clear Hp Hb Hn.
  walk ltac:(apply http_only_pods; done).
Qed.

(** A pod was told its part, and the matches. *)
Definition told (w : W) (cluster : Cluster) (plan : ApplyPlan) (i : Z) (podPlan : ApplyPlan) : Prop :=
  runs_plan w (podBaseURL ClusterDomain cluster i) podPlan ∧
  (distinct_ids plan → configured w (podBaseURL ClusterDomain cluster i) podPlan (AP_TunnelTargetMatches plan)).

Lemma told_keep w w' cluster plan i podPlan :
  pod w' (podBaseURL ClusterDomain cluster i) = pod w (podBaseURL ClusterDomain cluster i) →
  told w cluster plan i podPlan → told w' cluster plan i podPlan.
Proof. unfold told, configured, runs_plan, has_match. by intros ->. Qed.

Lemma configurePod_Ok cluster plan plans client i podPlan w w' : plans !! i = Some podPlan →
  configurePod R2 ClusterDomain cluster plan plans client i w = (w', Ok tt) → told w' cluster plan i podPlan.
Proof.
  unfold configurePod. intros -> (w1 & [] & (body & Hb & Ha)%wrap_Ok%send_Ok & Hm%wrap_Ok)%io_bind_Ok.
  assert (runs_plan w' (podBaseURL ClusterDomain cluster i) podPlan) as Hr.
  { exists body. split; [done|].
    pose proof (matches_only_matches (R := R2) (podBaseURL ClusterDomain cluster i) (AP_TunnelTargetMatches plan) client w1) as [_ Hk].
    rewrite Hm in Hk. by etrans. }
  split; [done|]. intros Hnd. split; [done|]. by eapply matches_Ok.
Qed.

Lemma apply_touches cluster plan numPods : touches nothing (applyConfigToPods R1 R2 ClusterDomain cluster plan numPods).
Proof.
  unfold applyConfigToPods. apply preserves_bind; [exact _|apply preserves_wrap; [exact _|apply client_touches]|intros client].
  walk ltac:(apply configurePod_only).
Qed.
End ApplyLemmas.

(** ** Properties *)

Section Theorems.
Context {W : Type} `{L : ApiLaws W} `{F : !Files W} `{H : !PodHTTP W} {J : PodJSON} `{E : ErrorText} `{P : !PodStore W}
  `{PL : !PodLaws W} `{PF : !PodFrame W} (R1 R2 : GoRuntime) (ClusterDomain : string).

Lemma applyConfigToPods_Ok cluster plan numPods w w' unassigned :
  applyConfigToPods R1 R2 ClusterDomain cluster plan numPods w = (w', Ok unassigned) →
  let dist := DistributeTargets (R := R1) plan numPods (CS_TargetDistribution (Spec cluster)) in
  unassigned = to_int32 (Z.of_nat (length (UnassignedTargets dist))) ∧
  (∀ i podPlan, 0 ≤ i < numPods → PerPodPlans dist !! i = Some podPlan →
     runs_plan w' (podBaseURL ClusterDomain cluster i) podPlan ∧
     (distinct_ids plan → configured w' (podBaseURL ClusterDomain cluster i) podPlan (AP_TunnelTargetMatches plan))) ∧
  (∀ base, (∀ i, 0 ≤ i < numPods → is_Some (PerPodPlans dist !! i) → base ≠ podBaseURL ClusterDomain cluster i) →
     pod w' base = pod w base) ∧
  agree_off nothing w w'.
Proof.
  intros (w1 & client & Hc%wrap_Ok & (w2 & [] & Hl & [= <- <-])%io_bind_Ok)%io_bind_Ok dist. split; [done|].
  pose proof (client_same_pods cluster w) as Hsame. pose proof (client_touches cluster w) as Hkube. rewrite Hc in Hsame, Hkube.
  pose proof (for_each_Ok (configurePod R2 ClusterDomain cluster plan (PerPodPlans dist) client) (λ done w1,
    (∀ i podPlan, i ∈ done → PerPodPlans dist !! i = Some podPlan → told ClusterDomain w1 cluster plan i podPlan) ∧
    only_pods (λ b, ∃ i, i ∈ done ∧ is_Some (PerPodPlans dist !! i) ∧ b = podBaseURL ClusterDomain cluster i) w w1 ∧
    agree_off nothing w w1) (seqZ 0 numPods) w1 w2) as Hind.
  destruct Hind as (H1 & H2 & H3); [| |exact Hl|].
  - split; [by intros i pp ?%not_elem_of_nil|]. split; [|done]. by eapply only_pods_mono; [|exact Hsame].
  - intros done i rest w3 w4 Hseq (I1 & I2 & I3) Hi.
    destruct (configurePod_only (PL := PL) R2 ClusterDomain cluster plan (PerPodPlans dist) client i) as [Ho Ht].
    specialize (Ho w3). specialize (Ht w3). rewrite Hi in Ho, Ht. split_and!.
    + intros j pp [Hj| ->%list_elem_of_singleton]%elem_of_app Hpp; [|by eapply configurePod_Ok].
      eapply told_keep; [|by apply I1]. apply Ho. intros [_ ->%podBaseURL_inj].
      pose proof (NoDup_seqZ 0 numPods) as Hnds. rewrite Hseq in Hnds. apply NoDup_app in Hnds as (_ & Hx & _).
      apply (Hx _ Hj). by left.
    + etrans; (eapply only_pods_mono; [|eassumption]).
      * intros b (j & Hj & Hs & ->). exists j. set_solver.
      * intros b [Hs ->]. exists i. set_solver.
    + by etrans.
  - split; [|split; [|done]].
    + intros i pp Hi. apply H1, elem_of_seqZ. lia.
    + intros base Hb. apply H2. intros (i & Hi%elem_of_seqZ & Hs & ->). apply (Hb i); [lia|done..].
Qed.

(** When the configuration is applied without an error, every pod below the number of
    pods that has a part of the plan runs it, and has every tunnel target match, provided
    no two matches share an identifier; the number returned is that of the targets left
    out; no other pod, one without a part included, and no Kubernetes object has
    changed. *)
Theorem apply_configures_pods cluster plan numPods w w' unassigned :
  applyConfigToPods R1 R2 ClusterDomain cluster plan numPods w = (w', Ok unassigned) →
  let dist := DistributeTargets (R := R1) plan numPods (CS_TargetDistribution (Spec cluster)) in
  unassigned = to_int32 (Z.of_nat (length (UnassignedTargets dist))) ∧
  (∀ i podPlan, 0 ≤ i < numPods → PerPodPlans dist !! i = Some podPlan →
     runs_plan w' (podBaseURL ClusterDomain cluster i) podPlan ∧
     (distinct_ids plan → configured w' (podBaseURL ClusterDomain cluster i) podPlan (AP_TunnelTargetMatches plan))) ∧
  (∀ base, (∀ i, 0 ≤ i < numPods → is_Some (PerPodPlans dist !! i) → base ≠ podBaseURL ClusterDomain cluster i) →
     pod w' base = pod w base) ∧
  agree_off nothing w w'.
Proof. apply applyConfigToPods_Ok. Qed.

(** A cluster whose pipelines have tunnel target policies but no targets is never
    configured: the pods are sent neither the plan nor a match. *)
Theorem tunnel_only_never_configured cluster plan numPods w w' unassigned :
  AP_Targets plan = ∅ → applyConfigToPods R1 R2 ClusterDomain cluster plan numPods w = (w', Ok unassigned) →
  ∀ base, pod w' base = pod w base.
Proof.
  intros He (_ & _ & Hoff & _)%applyConfigToPods_Ok base. apply Hoff. intros i _ [pp Hpp].
  by rewrite (no_targets_no_part (R := R1) _ _ _ _ He) in Hpp.
Qed.

(** The client for a cluster's pods is plain exactly when the cluster configures no
    TLS; with an issuer it presents the operator's certificate and trusts the issuer's
    CA and, with a bundle, the operator's own; with neither it trusts the system's
    roots.  Making it changes no object and no pod. *)
Theorem client_trusts cluster w w' client :
  createHTTPClientForCluster cluster w = (w', Ok client) →
  agree_off nothing w w' ∧ only_pods (λ _, False) w w' ∧
  (HC_TLS client = None ↔ CS_API (Spec cluster) ≫= API_TLS = None) ∧
  ∀ tls c, CS_API (Spec cluster) ≫= API_TLS = Some tls → HC_TLS client = Some c →
    (CTLS_IssuerRef tls = "" ↔ CT_Certificates c = []) ∧
    (CT_RootCAs c = None ↔ CTLS_IssuerRef tls = "" ∧ CTLS_BundleRef tls = "") ∧
    (∀ ca, CTLS_IssuerRef tls ≠ "" → head (default [] (CT_RootCAs c)) = Some ca →
       issuer_ca w (Namespace (Meta cluster)) (CTLS_IssuerRef tls) ca).
Proof.
  intros Hc. pose proof (client_same_pods cluster w) as Hsame. pose proof (client_touches cluster w) as Hkube.
  rewrite Hc in Hsame, Hkube. split; [done|]. split; [done|]. unfold createHTTPClientForCluster in Hc.
  destruct (CS_API (Spec cluster) ≫= API_TLS) as [tls|]; [|by injection Hc as <- <-].
  apply io_bind_Ok in Hc as (w1 & c1 & Hi & (w2 & c2 & Hb & [= <- <-])%io_bind_Ok). split; [done|]. cbn [HC_TLS].
  intros ? ? [= <-] [= <-].
  destruct (issuerClient_Ok _ _ _ _ _ Hi) as [[Hr ->]|(Hr & pair & ca & -> & Hca)];
    destruct (bundleClient_Ok _ _ _ _ _ Hb) as [[Hr2 ->]|(Hr2 & ca2 & ->)]; cbn;
    (split; [by split|]); (split; [by (split; [|intros []])|]); intros ca' Hca' Heq; try done.
  - by injection Heq as <-.
  - by injection Heq as <-.
Qed.
End Theorems.

(** ** Pods over a concrete server *)

Module PodDemo.
Abbreviation World := (Server (gmap string PodState)).

#[export] Instance store : PodStore World :=
  {| pod w base := default {| Pod_Applied := None; Pod_Matches := ∅ |} (srv_extra w !! base) |}.

Definition with_pod (w : World) (base : string) (p : PodState) : World := {|
  srv_statefulsets := srv_statefulsets w; srv_services := srv_services w; srv_configmaps := srv_configmaps w;
  srv_certificates := srv_certificates w; srv_issuers := srv_issuers w; srv_secrets := srv_secrets w;
  srv_clusters := srv_clusters w; srv_sources := srv_sources w; srv_writes := srv_writes w;
  srv_extra := <[base := p]> (srv_extra w) |}.

(** A plan is written as the names of its targets, a match as its identifier, a bar and
    its type. *)
#[export] Instance json : PodJSON := {|
  MarshalPlan plan := Ok (Join (map_to_list (AP_Targets plan)).*1 ",");
  MarshalMatch tm := if no_byte "|"%char (TTM_ID tm) then Ok (TTM_ID tm +:+ String "|" (TTM_Type tm)) else Err (ErrMsg "bar");
  DecodeIDs s := Ok (if decide (s = "") then ∅ else {[ s := tt ]}) |}.

Definition ok (w : World) : World * res PodResponse := (w, Ok {| PR_Status := 200; PR_Content := "" |}).

#[export] Instance http : PodHTTP World := {|
  http_do cl req w :=
    let p := pod w (PR_Base req) in
    if decide (PR_Path req = apply_path) then
      ok (with_pod w (PR_Base req) {| Pod_Applied := Some (PR_Body req); Pod_Matches := Pod_Matches p |})
    else if decide (PR_Path req = matches_path) then
      if decide (PR_Method req = "POST") then
        match cut_first "|" (PR_Body req) with
        | Some (id, _) =>
            ok (with_pod w (PR_Base req) {| Pod_Applied := Pod_Applied p; Pod_Matches := <[id := PR_Body req]> (Pod_Matches p) |})
        | None => (w, Ok {| PR_Status := 400; PR_Content := "" |})
        end
      else (w, Ok {| PR_Status := 200; PR_Content := match map_to_list (Pod_Matches p) with (id, _) :: _ => id | [] => "" end |})
    else ok (with_pod w (PR_Base req) {| Pod_Applied := Pod_Applied p;
               Pod_Matches := delete (TrimPrefix (PR_Path req) (matches_path +:+ "/")) (Pod_Matches p) |}) |}.

#[export] Instance files : Files World := {|
  ReadFile path w := (w, Ok path); Getenv name := ""; X509KeyPair cert key := Ok (cert, key) |}.

#[export] Instance errors : ErrorText :=
  {| Error e := match e with ErrMsg m => m | ErrNotFound => "not found" | ErrConflict => "conflict" end; Quote s := s |}.

Lemma pod_with w base p base' : pod (with_pod w base p) base' = if decide (base' = base) then p else pod w base'.
Proof.
  cbn. case_decide as Hb; [subst; by rewrite lookup_insert_eq|]. by rewrite lookup_insert_ne by done.
Qed.

#[export] Instance laws : PodLaws World.
Proof.
  split.
  - intros cl req w k nn _. cbn. repeat (case_decide || case_match); done.
  - intros cl req w base Hb. unfold http_do, http. repeat (case_decide || case_match); try done;
      unfold ok; cbn [fst]; by rewrite pod_with, decide_False.
  - intros cl base body w w' resp. unfold http_do, http. rewrite decide_True by done. intros [= <- <-] _.
    by rewrite pod_with, decide_True.
  - intros cl req w Hp. unfold http_do, http. rewrite decide_False by done. repeat (case_decide || case_match); try done;
      unfold ok; cbn [fst]; by rewrite pod_with, decide_True.
  - intros cl base tm body w w' resp. cbn [MarshalMatch json]. destruct (no_byte _ _) eqn:En; [|done]. intros [= <-].
    unfold http_do, http. rewrite decide_False by done. rewrite decide_True by done. rewrite decide_True by done.
    cbn [PR_Body]. rewrite cut_first_app by done. intros [= <- <-] _. by rewrite pod_with, decide_True.
Qed.

#[export] Instance frame : PodFrame World.
Proof.
  split; try done; intros k; try done; intros o w b _; cbn; repeat (case_decide || case_match); try done; by destruct k.
Qed.
End PodDemo.

Import PodDemo.

Module ApplyDemo.
Definition tm (ty id : string) : TunnelTargetMatch := {| TTM_Type := ty; TTM_ID := id; TTM_Config := None |}.

Definition plan (matches : gmap string TunnelTargetMatch) : ApplyPlan := {|
  AP_Targets := {[ "ns/a" := None; "ns/b" := None; "ns/c" := None ]}; AP_CurrentTargetAssignment := ∅; AP_Subscriptions := ∅;
  AP_Outputs := ∅; AP_Inputs := ∅; AP_Processors := ∅; AP_TunnelTargetMatches := matches; AP_PrometheusPorts := ∅ |}.

Definition two : gmap string TunnelTargetMatch := {[ "ns/p" := tm "t1" "r.*"; "ns/q" := tm "t2" "s.*" ]}.

(** The issuer of the cluster, its secret, and a pod that has an old match. *)
Definition url (i : Z) : string := podBaseURL CertDemo.domain CertDemo.cluster i.
Definition world : World :=
  let issuer : obj KIssuer := MkResource (new_meta "ca" "ns" ∅ ∅) (Some "ca-key") tt in
  let secret : obj KSecret := MkResource (new_meta "ca-key" "ns" ∅ ∅) {[ "tls.crt" := "PEM" ]} tt in
  let w := empty_server {[ url 0 := {| Pod_Applied := None; Pod_Matches := {[ "old" := "old|t" ]} |} ]} in
  let w := srv_put w KIssuer {[ key_of issuer := issuer ]} (WCreate KIssuer (key_of issuer)) in
  srv_put w KSecret {[ key_of secret := secret ]} (WCreate KSecret (key_of secret)).

Definition apply (R2 : GoRuntime) (matches : gmap string TunnelTargetMatch) : World * res Z :=
  applyConfigToPods go_reference R2 CertDemo.domain CertDemo.cluster (plan matches) 2 world.
Definition after : World := (apply go_reference two).1.

Lemma apply_eq : applyConfigToPods go_reference go_reference CertDemo.domain CertDemo.cluster (plan two) 2 world = (after, Ok 0).
Proof. apply (run_Ok (apply go_reference two)). vm_compute. reflexivity. Qed.

Lemma ids : distinct_ids (plan two).
Proof. apply (bool_decide_unpack _). vm_compute. exact I. Qed.

Definition client : HttpClient :=
  {| HC_Timeout := 30; HC_TLS := Some {| CT_Certificates := [(DefaultControllerCertPath, DefaultControllerKeyPath)];
                                         CT_RootCAs := Some ["PEM"] |} |}.

Lemma client_eq : createHTTPClientForCluster CertDemo.cluster world = ((createHTTPClientForCluster CertDemo.cluster world).1, Ok client).
Proof. apply run_Ok. vm_compute. reflexivity. Qed.
End ApplyDemo.

(** Both pods are configured, and the old match is gone. *)
Lemma apply_configures_pods_witness :
  (∃ podPlan, configured ApplyDemo.after (podBaseURL CertDemo.domain CertDemo.cluster 1) podPlan (AP_TunnelTargetMatches (ApplyDemo.plan ApplyDemo.two))) ∧
  Pod_Matches (pod ApplyDemo.after (ApplyDemo.url 0)) !! "old" = None.
Proof.
  split; [|vm_compute; reflexivity]. assert (0 ≤ 1 < 2) as Hi by lia.
  destruct (apply_configures_pods (W := PodDemo.World) go_reference go_reference CertDemo.domain CertDemo.cluster
    (ApplyDemo.plan ApplyDemo.two) 2 ApplyDemo.world ApplyDemo.after 0 ApplyDemo.apply_eq) as (_ & H & _).
  destruct (PerPodPlans (DistributeTargets (R := go_reference) (ApplyDemo.plan ApplyDemo.two) 2
    (CS_TargetDistribution (Spec CertDemo.cluster))) !! 1) as [p|] eqn:Ep; [|vm_compute in Ep; discriminate].
  exists p. exact (proj2 (H 1 p Hi Ep) ApplyDemo.ids).
Defined.

Lemma client_trusts_witness : issuer_ca ApplyDemo.world "ns" "ca" "PEM".
Proof.
  destruct (client_trusts (W := PodDemo.World) (PF := PodDemo.frame) CertDemo.cluster _ _ _ ApplyDemo.client_eq) as (_ & _ & _ & H).
  destruct (H CertDemo.tls _ eq_refl eq_refl) as (_ & _ & Hca). by apply Hca.
Defined.

(** Two policies with one identifier: a pod keeps one of them, and which one depends on
    the order of a range over a map. *)
Example same_identifier_race :
  let both := {[ "ns/p" := ApplyDemo.tm "t1" "r.*"; "ns/q" := ApplyDemo.tm "t2" "r.*" ]} in
  let kept R2 := Pod_Matches (pod (ApplyDemo.apply R2 both).1 (ApplyDemo.url 0)) !! "r.*" in
  kept go_reference ≠ kept go_reversed ∧ is_Some (kept go_reference) ∧ is_Some (kept go_reversed).
Proof. vm_compute. split; [discriminate|]. split; eexists; reflexivity. Qed.
