(* ===== verification/ClusterReconcile.v ===== *)
(** [Reconcile] of the cluster controller ([internal/controller/cluster_controller.go],
    [cluster_controller_plan.go]): the finalizer and the clean-up it guards, the owned
    objects, the plan and its cache, the pods, and the status of the cluster. *)

From S2P Require Import Prelude GoLib Api GnmicTypes Distribute TargetConfigs OutputConfigs PlanBuilder ClusterClient Resolve Watch ClusterPlan PipelineStatus.
From S2P Require Import Kube Names Services Certificates Workload PodApi.
#[local] Open Scope Z_scope.

(** ** The status *)

Definition ConditionTypeReady := "Ready".
Definition ConditionTypeCertificatesReady := "CertificatesReady".
Definition ConditionTypeConfigApplied := "ConfigApplied".
Definition ConditionTypeCapacityExhausted := "CapacityExhausted".

(** [metav1.FormatLabelSelector], and how a nil or non-nil pointer prints with [%d]. *)
Class Format := { FormatLabelSelector : option (gmap string string) → string; PointerText : option Z → string }.

Definition podsReady (sts : StatefulSet) : Z := Sts_ReadyReplicas (Status sts).

(** What is known after the attempt to configure the pods: the targets left out, or the
    error. *)
Abbreviation Applied := (res Z).

Section Status.
Context `{Fmt : Format} `{E : ErrorText} `{R : GoRuntime}.

Definition cond (type : string) (status : ConditionStatus) (generation now : Z) (reason message : string) : Condition := {|
  Cond_Type := type; Cond_Status := status; Cond_ObservedGeneration := generation; Cond_LastTransitionTime := now;
  Cond_Reason := reason; Cond_Message := message |}.

Definition clusterReadyCondition (cluster : Cluster) (now readyReplicas : Z) (applied : Applied) : Condition :=
  let ready := cond ConditionTypeReady in
  let generation := Generation (Meta cluster) in
  let desired := default 0 (CS_Replicas (Spec cluster)) in
  if bool_decide (desired ≤ readyReplicas) && is_ok applied then
    ready ConditionTrue generation now "ClusterReady"
      ("All " +:+ Itoa readyReplicas +:+ " replicas are ready and configured")
  else if bool_decide (0 < readyReplicas) && is_ok applied then
    ready ConditionTrue generation now "ClusterPartiallyReady"
      (Itoa readyReplicas +:+ " of " +:+ PointerText (CS_Replicas (Spec cluster)) +:+ " replicas are ready and configured")
  else
    ready ConditionFalse generation now "ClusterNotReady"
      (if decide (readyReplicas = 0) then "Waiting for pods to be ready" else "Configuration not yet applied").

Definition configCondition (cluster : Cluster) (now numPods : Z) (applied : Applied) : Condition :=
  match applied with
  | Ok _ => cond ConditionTypeConfigApplied ConditionTrue (Generation (Meta cluster)) now "ConfigurationApplied"
              ("Configuration applied to " +:+ Itoa numPods +:+ " pods")
  | Err e => cond ConditionTypeConfigApplied ConditionFalse (Generation (Meta cluster)) now "ConfigurationFailed"
               ("Failed to apply configuration: " +:+ Error e)
  end.

Definition capacityCondition (cluster : Cluster) (now : Z) (applied : Applied) : list Condition :=
  match applied with
  | Ok unassigned =>
      if decide (0 < unassigned) then
        [cond ConditionTypeCapacityExhausted ConditionTrue (Generation (Meta cluster)) now "InsufficientCapacity"
           (Itoa unassigned +:+ " target(s) could not be assigned, all pods at capacity")]
      else [cond ConditionTypeCapacityExhausted ConditionFalse (Generation (Meta cluster)) now "SufficientCapacity"
              "All targets assigned"]
  | Err _ => []
  end.

Definition certCondition (cluster : Cluster) (now : Z) : list Condition :=
  match apiTLS (Spec cluster) with
  | Some _ => [cond ConditionTypeCertificatesReady ConditionTrue (Generation (Meta cluster)) now "CertificatesIssued"
                 "TLS certificates are ready"]
  | None => []
  end.

(** The distinct names over all pipelines. *)
Definition uniqueNames {V} (part : PipelineData → gmap string V) (dataMap : gmap string PipelineData) : gmap string unit :=
  foldl (λ acc (e : string * PipelineData), foldl (λ acc (k : string * V), <[k.1 := tt]> acc) acc (go_range (part e.2)))
    ∅ (go_range dataMap).

Definition newClusterStatus (cluster : Cluster) (now : Z) (sts : StatefulSet) (numPods : Z) (pipelines : list Pipeline)
    (dataMap : gmap string PipelineData) (applied : Applied) : ClusterStatus :=
  let count {V} (part : PipelineData → gmap string V) := to_int32 (Z.of_nat (size (uniqueNames part dataMap))) in
  {| CSt_Conditions := preserveTransition (CSt_Conditions (Status cluster)) <$>
       clusterReadyCondition cluster now (podsReady sts) applied :: certCondition cluster now ++
       configCondition cluster now numPods applied :: capacityCondition cluster now applied;
     CSt_ReadyReplicas := podsReady sts;
     CSt_Selector := FormatLabelSelector (Sts_Selector (Spec sts));
     CSt_PipelinesCount := to_int32 (Z.of_nat (length pipelines));
     CSt_TargetsCount := count PD_Targets;
     CSt_UnassignedTargets := match applied with Ok n => n | Err _ => 0 end;
     CSt_SubscriptionsCount := count PD_Subscriptions;
     CSt_InputsCount := count PD_Inputs;
     CSt_OutputsCount := count PD_Outputs |}.
End Status.

Definition clusterStatusEqual (a b : ClusterStatus) : bool :=
  bool_decide (CSt_ReadyReplicas a = CSt_ReadyReplicas b ∧ CSt_PipelinesCount a = CSt_PipelinesCount b ∧
               CSt_TargetsCount a = CSt_TargetsCount b ∧ CSt_UnassignedTargets a = CSt_UnassignedTargets b ∧
               CSt_SubscriptionsCount a = CSt_SubscriptionsCount b ∧ CSt_InputsCount a = CSt_InputsCount b ∧
               CSt_OutputsCount a = CSt_OutputsCount b) &&
  conditionsEqual (CSt_Conditions a) (CSt_Conditions b).

(** ** The plan cache *)

Abbreviation Plans := (gmap string ApplyPlan).

Definition plan_key (namespace name : string) : string := namespace +:+ "/" +:+ name.

Section Cache.
Context {W : Type}.

(** Each is one critical section of the cache's lock. *)
Definition CachePlan (namespace name : string) (plan : ApplyPlan) : io (Plans * W) unit :=
  modify_state (<[plan_key namespace name := plan]>).

Definition GetClusterPlan (namespace name : string) : io (Plans * W) ApplyPlan :=
  plans ← read_state;
  match plans !! plan_key namespace name with
  | Some plan => mret plan
  | None => io_fail (ErrMsg ("plan not found for cluster " +:+ plan_key namespace name))
  end.

Definition cleanupPlan (namespace name : string) : io (Plans * W) unit :=
  modify_state (delete (plan_key namespace name)).
End Cache.

(** ** Reconcile *)

(** [ctrl.Result]; the delay in seconds. *)
Record Result := { Requeue : bool; RequeueAfter : Z }.
Definition done_result : Result := {| Requeue := false; RequeueAfter := 0 |}.
Definition after (seconds : Z) : Result := {| Requeue := false; RequeueAfter := seconds |}.

(** A certificate kind that cert-manager issues as an object: with an issuer, not CSI. *)
Definition issued (tls : option ClusterTLSConfig) : bool :=
  match tls with Some t => negb (CTLS_UseCSIDriver t) | None => false end.

Definition when {W} (b : bool) (m : io W unit) : io W unit := if b then m else mret tt.

(** The number of pods a StatefulSet is for. *)
Definition desiredReplicas (sts : StatefulSet) : Z := default 0 (Sts_Replicas (Spec sts)).

Section Cleanup.
Context {W : Type} `{A : KubeApi W}.

(** What goes whether or not the cluster can still be read. *)
Definition cleanupByName (namespace name : string) : io W unit :=
  let nn := {| NN_Namespace := namespace; NN_Name := resourcePrefix +:+ name |} in
  _ ← ensureAbsent KStatefulSet nn;
  _ ← ensureAbsent KService nn;
  cleanupPrometheusServices namespace name.

(** What the finalizer guards. *)
Definition cleanupCluster (req : NamespacedName) (cluster : Cluster) : io W unit :=
  let spec := Spec cluster in
  let nn := in_ns cluster (stsName cluster) in
  _ ← ensureAbsent KStatefulSet nn;
  _ ← ensureAbsent KService nn;
  _ ← cleanupPrometheusServices (NN_Namespace req) (NN_Name req);
  _ ← when (issued (apiTLS spec)) (cleanupCertificates cluster);
  _ ← when (bool_decide (is_Some (apiTLS spec))) (cleanupControllerCA cluster);
  _ ← when (issued (tunnelTLS spec)) (cleanupTunnelCertificates cluster);
  _ ← when (issued (clientTLS spec)) (cleanupClientTLSCertificates cluster);
  when (bool_decide (is_Some (CS_GRPCTunnel spec))) (cleanupTunnelService cluster).

(** [controllerutil.AddFinalizer] and [RemoveFinalizer]. *)
Definition with_finalizers (cluster : Cluster) (l : list string) : Cluster :=
  MkResource {| Name := Name (Meta cluster); Namespace := Namespace (Meta cluster); Labels := Labels (Meta cluster);
                Annotations := Annotations (Meta cluster); Finalizers := l;
                DeletionTimestamp := DeletionTimestamp (Meta cluster); Generation := Generation (Meta cluster) |}
    (Spec cluster) (Status cluster).
Definition removeFinalizer (cluster : Cluster) : Cluster :=
  with_finalizers cluster (filter (λ f, f ≠ clusterFinalizer) (Finalizers (Meta cluster))).
Definition addFinalizer (cluster : Cluster) : Cluster :=
  with_finalizers cluster (Finalizers (Meta cluster) ++ [clusterFinalizer]).

(** The branch of a cluster that is being deleted, after its plan is dropped. *)
Definition finalizeCluster (req : NamespacedName) (cluster : Cluster) : io W Result :=
  if decide (clusterFinalizer ∈ Finalizers (Meta cluster)) then
    _ ← cleanupCluster req cluster;
    _ ← api_update KCluster (removeFinalizer cluster);
    mret done_result
  else mret done_result.
End Cleanup.

Section Owned.
Context {W : Type} `{A : KubeApi W} (readCA : io W string) (ClusterDomain : string).

(** Goes on when the certificates, if there are any, are ready. *)
Definition whenReady (enabled : bool) (certs : io W bool) (rest : io W bool) : io W bool :=
  if enabled then
    ready ← certs;
    if ready : bool then rest else mret false
  else rest.

(** Everything up to the plan: the headless service, the certificates, the controller's
    CA, the tunnel's service; [false] when certificates are awaited. *)
Definition reconcileOwned (cluster : Cluster) : io W bool :=
  let spec := Spec cluster in
  _ ← reconcileHeadlessService cluster;
  whenReady (issued (apiTLS spec)) (reconcileCertificates ClusterDomain cluster)
   (_ ← when (bool_decide (is_Some (apiTLS spec))) (reconcileControllerCA readCA cluster);
    whenReady (issued (tunnelTLS spec)) (reconcileTunnelCertificates ClusterDomain cluster)
     (whenReady (issued (clientTLS spec)) (reconcileClientTLSCertificates cluster)
       (_ ← when (bool_decide (is_Some (CS_GRPCTunnel spec))) (reconcileTunnelService cluster);
        mret true))).
End Owned.

Section Reconcile.
Context {W : Type} `{A : KubeApi W} `{PC : PipelineClient W} `{F : !Files W} `{H : !PodHTTP W} {J : PodJSON} `{E : ErrorText}.
Context `{Y : YAML} {YM : YAMLMarshal} `{YL : YAMLListen} `{Fmt : Format} `{Sel : Selectors} (ClusterDomain : string).
Context `{Rpl : Reader PipelineSpec PipelineStatus} `{Rt : Reader TargetSpec TargetStatus}
  `{Rtp : Reader TargetProfileSpec unit} `{Rsub : Reader SubscriptionSpec unit}
  `{Ro : Reader OutputSpec unit} `{Ri : Reader InputSpec unit} `{Rpr : Reader ProcessorSpec unit}
  `{Rtt : Reader TunnelTargetPolicySpec unit} `{Rsvc : Reader CoreServiceSpec unit}
  `{Rsec : Reader SecretSpec unit}.
Context (R R1 R2 : GoRuntime).
#[local] Existing Instance R.

(** The status of a pipeline; an error is logged and the loop goes on. *)
Definition runCall (c : StatusCall) : io W unit :=
  _ ← io_try match c with
             | UpdatePipelineStatus pipeline d => updatePipelineStatus pipeline d
             | UpdatePipelineStatusWithError pipeline reason message => updatePipelineStatusWithError pipeline reason message
             end;
  mret tt.

(** One pipeline: resolved, added to the plan, and its status written. *)
Definition collectPipeline (cluster : Cluster) (st : PlanBuilder * gmap string PipelineData) (pipeline : Pipeline)
    : io W (PlanBuilder * gmap string PipelineData) :=
  '(b, dataMap, calls) ← io_lift (collectOne ClusterDomain cluster (st, []) pipeline);
  _ ← for_each runCall calls;
  mret (b, dataMap).

(** [Status().Update], only when the status differs; an error is logged. *)
Definition updateClusterStatus (cluster : Cluster) (newStatus : ClusterStatus) : io W unit :=
  if clusterStatusEqual (Status cluster) newStatus then mret tt
  else _ ← io_try (api_updateStatus KCluster (MkResource (Meta cluster) (Spec cluster) newStatus)); mret tt.

(** From the moment the pods are ready: configure them and report. *)
Definition configureAndReport (cluster : Cluster) (plan : ApplyPlan) (sts : StatefulSet) (pipelines : list Pipeline)
    (dataMap : gmap string PipelineData) : io W Result :=
  let numPods := desiredReplicas sts in
  applied ← io_try (applyConfigToPods R1 R2 ClusterDomain cluster plan numPods);
  now ← (λ w, let '(w, t) := pc_now w in (w, Ok t) : W * res Z);
  _ ← updateClusterStatus cluster (newClusterStatus cluster now sts numPods pipelines dataMap applied);
  mret (if is_ok applied then done_result else after 10).

Definition waiting (sts : StatefulSet) : bool := bool_decide (podsReady sts < desiredReplicas sts).

(** The workload, the Prometheus services and the pods, for a plan.  The loop over the
    Prometheus outputs stores ports in the plan itself, which the cache shares. *)
Definition with_ports (plan : ApplyPlan) (ports : gmap string Z) : ApplyPlan := {|
  AP_Targets := AP_Targets plan; AP_CurrentTargetAssignment := AP_CurrentTargetAssignment plan;
  AP_Subscriptions := AP_Subscriptions plan; AP_Outputs := AP_Outputs plan; AP_Inputs := AP_Inputs plan;
  AP_Processors := AP_Processors plan; AP_TunnelTargetMatches := AP_TunnelTargetMatches plan;
  AP_PrometheusPorts := ports |}.

Definition prometheusServices (cluster : Cluster) (dataMap : gmap string PipelineData) (plan : ApplyPlan)
    : io (Plans * W) ApplyPlan := λ pw,
  let '(s, w, r) := reconcilePrometheusServices cluster dataMap
                      ({| Prom_Ports := AP_PrometheusPorts plan; Prom_Desired := ∅ |}, pw.2) in
  let plan := with_ports plan (Prom_Ports s) in
  ((<[plan_key (Namespace (Meta cluster)) (Name (Meta cluster)) := plan]> pw.1, w),
   match r with Ok _ => Ok plan | Err e => Err e end).

Definition reconcileWorkload (cluster : Cluster) (pipelines : list Pipeline) (dataMap : gmap string PipelineData)
    (plan : ApplyPlan) : io (Plans * W) Result :=
  _ ← CachePlan (Namespace (Meta cluster)) (Name (Meta cluster)) plan;
  sts ← beside (reconcileStatefulSet ClusterDomain cluster (AP_TunnelTargetMatches plan));
  plan ← prometheusServices cluster dataMap plan;
  if waiting sts then mret (after 1)
  else beside (configureAndReport cluster plan sts pipelines dataMap).

Definition reconcilePlan (cluster : Cluster) : io (Plans * W) Result :=
  pipelines ← io_lift (listPipelinesForCluster cluster);
  '(b, dataMap) ← beside (foldM (collectPipeline cluster) (newBuilder cluster, ∅) pipelines);
  plan ← io_lift (Build R1 R2 b).2;
  reconcileWorkload cluster pipelines dataMap plan.

Definition Reconcile (req : NamespacedName) : io (Plans * W) Result :=
  r ← io_try (beside (api_get KCluster req));
  match r with
  | Err ErrNotFound =>
      _ ← beside (cleanupByName (NN_Namespace req) (NN_Name req));
      _ ← cleanupPlan (NN_Namespace req) (NN_Name req);
      mret done_result
  | Err e => io_fail e
  | Ok cluster =>
      if decide (DeletionTimestamp (Meta cluster) ≠ 0) then
        _ ← cleanupPlan (NN_Namespace req) (NN_Name req);
        beside (finalizeCluster req cluster)
      else if decide (clusterFinalizer ∈ Finalizers (Meta cluster)) then
        ready ← beside (reconcileOwned (ReadFile GetControllerCAPath) ClusterDomain cluster);
        if ready : bool then reconcilePlan cluster else mret (after 2)
      else
        _ ← beside (api_update KCluster (addFinalizer cluster));
        mret {| Requeue := true; RequeueAfter := 0 |}
  end.
End Reconcile.

(** ** Clean-up *)

(** What is there was there before as it is, or is being deleted. *)
Definition shrinks {W} `{ApiStore W} (w w' : W) : Prop := ∀ k nn o, view w' k !! nn = Some o →
  view w k !! nn = Some o ∨ DeletionTimestamp (Meta o) ≠ 0.

#[export] Instance shrinks_po {W} `{ApiStore W} : PreOrder (shrinks (W := W)).
Proof. split; [by intros w k nn o; left|]. intros w1 w2 w3 H1 H2 k nn o [Ho|Hd]%H2; [by apply H1|by right]. Qed.

(** The objects a selector finds. *)
Definition labelled {W} `{ApiStore W} (k : Kind) (ns : string) (labels : gmap string string) (w : W) : objects :=
  λ k' nn, k' = k ∧ ∃ o : obj k, view w k !! nn = Some o ∧ matches k ns labels o.

(** What a selector finds is being deleted. *)
Definition all_cleared {W} `{ApiStore W} (w : W) (k : Kind) (ns : string) (labels : gmap string string) : Prop :=
  ∀ nn (o : obj k), view w k !! nn = Some o → matches k ns labels o → DeletionTimestamp (Meta o) ≠ 0.

Section CleanupLemmas.
Context {W : Type} `{L : ApiLaws W}.

Lemma shrinks_cleared (w w' : W) k nn : shrinks w w' → cleared w k nn → cleared w' k nn.
Proof. intros Hs Hn o [Ho|Hd]%Hs; [by apply Hn|done]. Qed.

Lemma only_at_shrinks k nn (w w' : W) : agree_off (only_at k nn) w w' ∧ cleared w' k nn → shrinks w w'.
Proof.
  intros [H1 H2] k' nn' o Ho. destruct (decide (k' = k)) as [->|Hk].
  - destruct (decide (nn' = nn)) as [->|Hn]; [right; by apply H2|]. left. rewrite H1 in Ho; [done|by intros []].
  - left. rewrite H1 in Ho; [done|by intros []].
Qed.

(** Deleting everything a list found. *)
Lemma delete_listed_Ok k ns labels l (w0 w w' : W) :
  agree_off nothing w0 w → (∀ o, o ∈ l ↔ view w0 k !! key_of o = Some o ∧ matches k ns labels o) →
  for_each (λ o : obj k, delete_if_present k (key_of o)) l w = (w', Ok tt) →
  shrinks w0 w' ∧ (∀ k' nn, k' ≠ k → view w' k' !! nn = view w0 k' !! nn) ∧
  all_cleared w' k ns labels.
Proof.
  intros Hag Hin Hf. assert (for_each (λ o : obj k, if decide True then delete_if_present k (key_of o) else mret tt) l w = (w', Ok tt)) as Hf' by exact Hf.
  apply (delete_those_Ok k (λ _, True)) in Hf' as [J1 J2]. clear Hf.
  assert (shrinks w0 w') as Hsh.
  { intros k' nn o Ho. destruct (decide (k' = k)) as [->|Hk].
    - destruct (decide (nn ∈ key_of <$> l)) as [(o' & -> & Ho')%list_elem_of_fmap|Hn].
      + right. apply (J2 (key_of o')); [|done]. split; [done|]. by exists o'.
      + left. rewrite J1, (view_nothing _ _ _ _ Hag) in Ho; [done|]. intros (_ & o' & Ho' & _ & ->). apply Hn. by apply list_elem_of_fmap_2.
    - left. rewrite J1, (view_nothing _ _ _ _ Hag) in Ho; [done|by intros []]. }
  split; [done|]. split.
  - intros k' nn Hk. rewrite J1 by (by intros []). apply view_nothing, Hag.
  - intros nn o Ho Hm. pose proof (al_key _ _ _ _ Ho) as Hk. destruct (Hsh _ _ _ Ho) as [Ho0|Hd]; [|done].
    rewrite <- Hk in Ho0. assert (o ∈ l) as Hol by (by apply Hin). apply (J2 nn); [|done]. split; [done|]. by exists o.
Qed.

Lemma deleteListed_Ok cluster labels (w w' : W) : deleteListed cluster labels w = (w', Ok tt) →
  shrinks w w' ∧ (∀ k nn, k ≠ KCertificate → view w' k !! nn = view w k !! nn) ∧
  all_cleared w' KCertificate (Namespace (Meta cluster)) labels.
Proof.
  intros (w1 & r & Hl%io_try_Ok & H)%io_bind_Ok. destruct r as [l|[| |msg]]; [| |done..].
  - apply list_Ok in Hl as (Hag & _ & Hin). by apply (delete_listed_Ok KCertificate _ _ l w w1).
  - injection H as <-. apply list_NotFound in Hl as [Hag He]. split; [|split].
    + intros k nn o Ho. left. by rewrite <- (view_nothing _ _ _ _ Hag).
    + intros k nn _. by apply view_nothing.
    + intros nn cert Hv. rewrite (view_nothing _ _ _ _ Hag), He in Hv. by rewrite lookup_empty in Hv.
Qed.

Lemma cleanupPrometheus_Ok ns name (w w' : W) : cleanupPrometheusServices ns name w = (w', Ok tt) →
  shrinks w w' ∧ (∀ k nn, k ≠ KService → view w' k !! nn = view w k !! nn) ∧
  all_cleared w' KService ns (promSelector name).
Proof.
  intros (w1 & l & (Hag & _ & Hin)%list_Ok & H)%io_bind_Ok. by apply (delete_listed_Ok KService _ _ l w w1).
Qed.

Lemma shrinks_all_cleared (w w' : W) k ns labels : shrinks w w' → all_cleared w k ns labels → all_cleared w' k ns labels.
Proof. intros Hs Hc nn o [Ho|Hd]%Hs Hm; [by eapply Hc|done]. Qed.

Lemma when_Ok (b : bool) (m : io W unit) (w w' : W) (Q : W → Prop) :
  (∀ w1 w2, m w1 = (w2, Ok tt) → shrinks w1 w2 ∧ Q w2) → when b m w = (w', Ok tt) → shrinks w w' ∧ (b = true → Q w').
Proof. intros Hm. destruct b; cbn; [naive_solver|]. intros [= <-]. by split. Qed.
End CleanupLemmas.

(** Everything but the clusters themselves. *)
Definition not_cluster : objects := λ k _, k ≠ KCluster.

(** What is gone, or at least being deleted, before the finalizer is taken away: of the
    certificates, the controller's CA and the tunnel's service those the spec asks for
    when the cluster is deleted. *)
Definition owned_gone {W} `{ApiStore W} (cluster : Cluster) (w : W) : Prop :=
  let ns := Namespace (Meta cluster) in
  cleared w KStatefulSet (in_ns cluster (stsName cluster)) ∧
  cleared w KService (in_ns cluster (stsName cluster)) ∧
  all_cleared w KService ns (promSelector (Name (Meta cluster))) ∧
  (issued (apiTLS (Spec cluster)) = true → all_cleared w KCertificate ns (api_cert_labels cluster)) ∧
  (is_Some (apiTLS (Spec cluster)) → cleared w KConfigMap (in_ns cluster (controllerCAName cluster))) ∧
  (issued (tunnelTLS (Spec cluster)) = true → all_cleared w KCertificate ns (tunnel_cert_labels cluster)) ∧
  (issued (clientTLS (Spec cluster)) = true → cleared w KCertificate (in_ns cluster (clientCertName cluster))) ∧
  (is_Some (CS_GRPCTunnel (Spec cluster)) → cleared w KService (in_ns cluster (tunnelServiceName cluster))).

Section CleanupCluster.
Context {W : Type} `{L : ApiLaws W}.

Lemma cleanupCluster_touches req cluster : touches not_cluster (cleanupCluster req cluster).
Proof.
  unfold cleanupCluster, when, cleanupCertificates, cleanupTunnelCertificates, cleanupClientTLSCertificates, cleanupControllerCA,
    cleanupTunnelService, cleanupPrometheusServices, deleteListed, delete_if_present, ensureAbsent, listPrometheusServicesForCluster.
  walk ltac:(first [apply touches_delete; done|eauto 3 with touches]).
Qed.

Lemma cleanupCluster_Ok req cluster (w w' : W) : key_of cluster = req →
  cleanupCluster req cluster w = (w', Ok tt) → owned_gone cluster w'.
Proof.
  intros <-. unfold cleanupCluster.
  intros (w1 & [] & H1%ensureAbsent_Ok & (w2 & [] & H2%ensureAbsent_Ok & (w3 & [] & (S3 & _ & H3)%cleanupPrometheus_Ok & H)%io_bind_Ok)%io_bind_Ok)%io_bind_Ok.
  apply io_bind_Ok in H as (w4 & [] & H4 & (w5 & [] & H5 & (w6 & [] & H6 & (w7 & [] & H7 & H8)%io_bind_Ok)%io_bind_Ok)%io_bind_Ok).
  pose proof (only_at_shrinks _ _ _ _ H2) as S2. destruct H1 as [_ H1], H2 as [_ H2].
  apply (when_Ok _ _ _ _ (λ w, all_cleared w KCertificate (Namespace (Meta cluster)) (api_cert_labels cluster))) in H4 as [S4 H4];
    [|by intros ? ? (? & _ & ?)%deleteListed_Ok].
  apply (when_Ok _ _ _ _ (λ w, cleared w KConfigMap (in_ns cluster (controllerCAName cluster)))) in H5 as [S5 H5];
    [|intros ? ? Hd%delete_if_present_Ok; split; [by eapply only_at_shrinks|apply Hd]].
  apply (when_Ok _ _ _ _ (λ w, all_cleared w KCertificate (Namespace (Meta cluster)) (tunnel_cert_labels cluster))) in H6 as [S6 H6];
    [|by intros ? ? (? & _ & ?)%deleteListed_Ok].
  apply (when_Ok _ _ _ _ (λ w, cleared w KCertificate (in_ns cluster (clientCertName cluster)))) in H7 as [S7 H7];
    [|intros ? ? Hd%delete_if_present_Ok; split; [by eapply only_at_shrinks|apply Hd]].
  apply (when_Ok _ _ _ _ (λ w, cleared w KService (in_ns cluster (tunnelServiceName cluster)))) in H8 as [S8 H8];
    [|intros ? ? Hd%delete_if_present_Ok; split; [by eapply only_at_shrinks|apply Hd]].
  assert (shrinks w6 w') as S68 by by etrans. assert (shrinks w5 w') as S58 by by etrans.
  assert (shrinks w4 w') as S48 by by etrans. assert (shrinks w3 w') as S38 by by etrans. assert (shrinks w2 w') as S28 by by etrans.
  split; [by eapply shrinks_cleared; [|exact H1]; etrans|].
  split; [by eapply shrinks_cleared; [exact S28|exact H2]|].
  split; [by eapply shrinks_all_cleared; [exact S38|exact H3]|].
  split; [intros Hi; eapply shrinks_all_cleared; [exact S48|by apply H4]|].
  split; [intros Hi; eapply shrinks_cleared; [exact S58|by apply H5, bool_decide_true]|].
  split; [intros Hi; eapply shrinks_all_cleared; [exact S68|by apply H6]|].
  split; [intros Hi; eapply shrinks_cleared; [exact S8|by apply H7]|].
  intros Hi. by apply H8, bool_decide_true.
Qed.

Lemma owned_gone_keep cluster (w w' : W) : (∀ k nn, k ≠ KCluster → view w' k !! nn = view w k !! nn) →
  owned_gone cluster w → owned_gone cluster w'.
Proof.
  intros Hk (H1 & H2 & H3 & H4 & H5 & H6 & H7 & H8).
  assert (∀ k, k ≠ KCluster → ∀ nn, cleared w k nn → cleared w' k nn) as C by (intros k Hn nn Hc o; rewrite Hk by done; apply Hc).
  assert (∀ k ns ls, k ≠ KCluster → all_cleared w k ns ls → all_cleared w' k ns ls) as A'
    by (intros k ns ls Hn Hc nn o; rewrite Hk by done; apply Hc).
  split_and!; [by apply C|by apply C|by apply A'|intros Hi; by apply A', H4|intros Hi; by apply C, H5|
    intros Hi; by apply A', H6|intros Hi; by apply C, H7|intros Hi; by apply C, H8].
Qed.
End CleanupCluster.

(** ** Properties: the end of a cluster *)

Section Deletion.
Context {W : Type} `{L : ApiLaws W} `{PC : PipelineClient W} `{F : !Files W} `{H : !PodHTTP W} {J : PodJSON} `{E : ErrorText}.
Context `{Y : YAML} {YM : YAMLMarshal} `{YL : YAMLListen} `{Fmt : Format} `{Sel : Selectors} (ClusterDomain : string).
Context `{Rpl : Reader PipelineSpec PipelineStatus} `{Rt : Reader TargetSpec TargetStatus}
  `{Rtp : Reader TargetProfileSpec unit} `{Rsub : Reader SubscriptionSpec unit}
  `{Ro : Reader OutputSpec unit} `{Ri : Reader InputSpec unit} `{Rpr : Reader ProcessorSpec unit}
  `{Rtt : Reader TunnelTargetPolicySpec unit} `{Rsvc : Reader CoreServiceSpec unit}
  `{Rsec : Reader SecretSpec unit}.
Context (R R1 R2 : GoRuntime).

Lemma finalizeCluster_spec req (cluster : Cluster) (w w' : W) r :
  view w KCluster !! req = Some cluster → clusterFinalizer ∈ Finalizers (Meta cluster) →
  finalizeCluster req cluster w = (w', r) →
  (view w' KCluster !! req = Some cluster ∨ owned_gone cluster w') ∧
  (is_ok r = true → owned_gone cluster w' ∧
     ∀ c', view w' KCluster !! req = Some c' → clusterFinalizer ∉ Finalizers (Meta c')).
Proof.
  intros Hv Hf. unfold finalizeCluster. rewrite decide_True by done. pose proof (al_key w KCluster req cluster Hv) as Hk.
  unfold mbind, io_bind. pose proof (cleanupCluster_touches req cluster w) as Ht.
  destruct (cleanupCluster req cluster w) as [w1 [[]|e]] eqn:Ec; cbn [fst] in Ht.
  2: { intros [= <- <-]. split; [|done]. left. refine (keep_off _ _ _ KCluster _ _ Ht _ Hv). by intros Hn. }
  apply cleanupCluster_Ok in Ec as Hgone; [|done].
  pose proof (al_update KCluster (removeFinalizer cluster) w1) as [U1 U2].
  assert (∀ k nn, k ≠ KCluster → view (api_update KCluster (removeFinalizer cluster) w1).1 k !! nn = view w1 k !! nn) as Hoff.
  { intros k nn Hne. apply U1. by intros []. }
  destruct (api_update KCluster (removeFinalizer cluster) w1) as [w2 [c|e]] eqn:Eu; cbn [fst snd] in *.
  - intros [= <- <-]. assert (owned_gone cluster w2) as Hg2 by by eapply owned_gone_keep.
    split; [by right|]. intros _. split; [done|]. intros c' Hc'.
    destruct (U2 c eq_refl) as ((_ & _ & _ & Hfin & _) & old & _ & _ & _ & Hal & Hde).
    rewrite <- Hk in Hc'.
    assert (clusterFinalizer ∉ Finalizers (Meta c)) as Hnot.
    { rewrite Hfin. cbn. rewrite list_elem_of_filter. by intros [? _]. }
    destruct (decide (alive (Meta c))) as [Ha|Ha].
    + specialize (Hal Ha).
      assert (c' = c) as -> by (apply (inj Some); exact (eq_trans (eq_sym Hc') Hal)). done.
    + specialize (Hde Ha). discriminate (eq_trans (eq_sym Hc') Hde).
  - intros [= <- <-]. split; [|done]. right. by eapply owned_gone_keep.
Qed.

(** C20: While a cluster that is being deleted still exists unchanged, its objects may
    still exist; once its finalizer has been taken away (or the attempt has been made),
    its StatefulSet, its headless service, the services that carry its Prometheus labels
    and, as far as its spec asks for them at that time, its API, tunnel and client
    certificates, the controller's CA and the tunnel's service are gone, or are being
    deleted and kept only by finalizers of their own.  A reconciliation that returns no
    error has reached that point and dropped the plan. *)
Theorem finalizer_after_cleanup req cluster (plans plans' : Plans) (w w' : W) r :
  view w KCluster !! req = Some cluster → DeletionTimestamp (Meta cluster) ≠ 0 →
  clusterFinalizer ∈ Finalizers (Meta cluster) →
  Reconcile ClusterDomain R R1 R2 req (plans, w) = ((plans', w'), r) →
  (view w' KCluster !! req = Some cluster ∨ owned_gone cluster w') ∧
  (is_ok r = true → owned_gone cluster w' ∧ plans' !! plan_key (NN_Namespace req) (NN_Name req) = None ∧
     ∀ c', view w' KCluster !! req = Some c' → clusterFinalizer ∉ Finalizers (Meta c')).
Proof.
  intros Hv Hd Hf. unfold Reconcile. unfold mbind, io_bind, io_try, beside. cbn [fst snd].
  pose proof (al_get KCluster req w) as [Hag Hg]. destruct (api_get KCluster req w) as [w1 r1]. cbn [fst snd] in *.
  pose proof (keep _ _ KCluster _ _ Hag Hv) as Hv1.
  destruct r1 as [c|[| |msg]].
  - assert (c = cluster) as -> by (apply (inj Some); exact (eq_trans (eq_sym Hg) Hv)).
    rewrite decide_True by done. cbn [fst snd cleanupPlan modify_state].
    destruct (finalizeCluster req cluster w1) as [w2 r2] eqn:Ef. intros [= <- <- <-].
    destruct (finalizeCluster_spec _ _ _ _ _ Hv1 Hf Ef) as [H1 H2]. split; [done|].
    intros Hok. destruct (H2 Hok) as [H3 H4]. split; [done|]. split; [|done]. cbn. by rewrite lookup_delete_eq.
  - discriminate (eq_trans (eq_sym Hg) Hv).
  - intros [= <- <- <-]. split; [by left|done].
  - intros [= <- <- <-]. split; [by left|done].
Qed.
End Deletion.

(** ** What the stages leave alone *)

(** No cluster and no pod changes. *)
Definition backstage {W} `{ApiStore W} `{PodStore W} (w w' : W) : Prop :=
  agree_off not_cluster w w' ∧ only_pods (λ _, False) w w'.

#[export] Instance backstage_po {W} `{ApiStore W} `{PodStore W} : PreOrder (backstage (W := W)).
Proof. split; [by split; reflexivity|]. intros w1 w2 w3 [H1 H2] [J1 J2]. by split; etrans. Qed.

(** The same below a program's own state. *)
Definition under {X W} (P : W → W → Prop) (a b : X * W) : Prop := P a.2 b.2.

#[export] Instance under_po {X W} (P : W → W → Prop) `{!PreOrder P} : PreOrder (under (X := X) P).
Proof. split; [by intros []; unfold under|]. intros a b c Hab Hbc. unfold under in *. by etrans. Qed.

Lemma under_beside {X W B} (P : W → W → Prop) (m : io W B) : preserves P m → preserves (under (X := X) P) (beside m).
Proof. intros Hm [x w]. apply (Hm w). Qed.

Lemma under_read {X W} (P : W → W → Prop) `{!PreOrder P} : preserves (under (X := X) P) (read_state (W := W)).
Proof. intros w. unfold under. cbn. reflexivity. Qed.

Lemma under_modify {X W} (P : W → W → Prop) `{!PreOrder P} (f : X → X) : preserves (under P) (modify_state (W := W) f).
Proof. intros w. unfold under. cbn. reflexivity. Qed.

(** What every call that writes the status of a pipeline keeps is kept. *)
Section PipelineCalls.
Context {W : Type} `{PC : PipelineClient W} (P : W → W → Prop) `{HP : !PreOrder P}.
Context (Hnow : ∀ w, P w (pc_now w).1) (Hget : ∀ nn, preserves P (pc_get nn : io W _))
  (Hupdate : ∀ p, preserves P (pc_updateStatus p : io W _)).

Lemma writeStatus_keeps n exhausted key s : preserves P (writeStatus n exhausted key s : io W unit).
Proof.
  induction n as [|n IH]; intros w; cbn; [reflexivity|].
  pose proof (Hget key w) as H1. destruct (pc_get key w) as [w1 [p|e]]; cbn in H1; [|done].
  pose proof (Hupdate (with_pipeline_status p s) w1) as H2.
  destruct (pc_updateStatus _ w1) as [w2 [u|[| |m]]]; cbn in H2; try by (etrans; [exact H1|exact H2]).
  etrans; [exact H1|]. etrans; [exact H2|apply IH].
Qed.

Lemma runCall_keeps c : preserves P (runCall (W := W) c).
Proof.
  unfold runCall. apply preserves_bind; [exact _| |intros ?; by apply preserves_ret]. apply preserves_try. intros w.
  destruct c as [p d|p reason message]; [unfold updatePipelineStatus|unfold updatePipelineStatusWithError];
    pose proof (Hnow w) as Hn; destruct (pc_now w) as [w1 now]; cbn in Hn.
  - destruct (pipelineStatusEqual _ _); [done|]. etrans; [exact Hn|apply writeStatus_keeps].
  - etrans; [exact Hn|apply writeStatus_keeps].
Qed.
End PipelineCalls.

(** The pipelines' statuses are neither objects of this model nor pods. *)
Class PipelineFrame (W : Type) `{V : ApiStore W} `{P : !PodStore W} `{PC : PipelineClient W} : Prop := {
  plf_now : ∀ w, agree_off nothing w (pc_now w).1 ∧ only_pods (λ _, False) w (pc_now w).1;
  plf_get : ∀ nn, preserves backstage (pc_get nn : io W _);
  plf_getCluster : ∀ nn, preserves backstage (pc_getCluster nn : io W _);
  plf_updateStatus : ∀ p, preserves backstage (pc_updateStatus p : io W _)
}.

Section Backstage.
Context {W : Type} `{L : ApiLaws W} `{F : !Files W} `{P : !PodStore W} `{PF : !PodFrame W}.

Lemma backstage_of {B} (m : io W B) : touches not_cluster m → preserves (only_pods (λ _, False)) m → preserves backstage m.
Proof. intros H1 H2 w. by split. Qed.

Lemma backstage_get k nn : preserves backstage (api_get k nn).
Proof. apply backstage_of; eauto with touches pods. Qed.

Lemma backstage_list k ns ls : preserves backstage (api_list k ns ls).
Proof. apply backstage_of; eauto with touches pods. Qed.

Lemma backstage_create k o : k ≠ KCluster → preserves backstage (api_create k o).
Proof. intros Hk. apply backstage_of; [by apply touches_create|eauto with pods]. Qed.

Lemma backstage_update k o : k ≠ KCluster → preserves backstage (api_update k o).
Proof. intros Hk. apply backstage_of; [by apply touches_update|eauto with pods]. Qed.

Lemma backstage_delete k nn : k ≠ KCluster → preserves backstage (api_delete k nn).
Proof. intros Hk. apply backstage_of; [by apply touches_delete|eauto with pods]. Qed.

Lemma backstage_read path : preserves backstage (ReadFile path).
Proof. apply backstage_of; [|eauto with pods]. intros w. eapply agree_off_mono; [|apply pf_files]. by intros ? ? []. Qed.
End Backstage.

Create HintDb backstage.
#[export] Hint Resolve backstage_get backstage_list backstage_create backstage_update backstage_delete backstage_read
  under_beside under_read under_modify : backstage.
#[export] Hint Extern 1 (_ ≠ KCluster) => discriminate : backstage.
#[export] Hint Extern 1 (PreOrder _) => typeclasses eauto : backstage.

Ltac offstage := walk ltac:(eauto 4 with backstage).

Section Stages.
Context {W : Type} `{L : ApiLaws W} `{F : !Files W} `{P : !PodStore W} `{PF : !PodFrame W} (ClusterDomain : string).

Lemma reconcilePodCertificates_backstage cluster n desired : preserves backstage (reconcilePodCertificates cluster n desired).
Proof. unfold reconcilePodCertificates, reconcileCertificate, create_or. offstage. Qed.

Lemma reconcileCertificates_backstage cluster : preserves backstage (reconcileCertificates ClusterDomain cluster).
Proof.
  unfold reconcileCertificates, replicasOf, deleteScaledDown, delete_if_present, reconcilePodCertificates, reconcileCertificate, create_or.
  offstage.
Qed.

Lemma reconcileTunnelCertificates_backstage cluster : preserves backstage (reconcileTunnelCertificates ClusterDomain cluster).
Proof.
  unfold reconcileTunnelCertificates, replicasOf, deleteScaledDown, delete_if_present, reconcilePodCertificates, reconcileCertificate, create_or.
  offstage.
Qed.

Lemma reconcileOwned_backstage cluster :
  preserves backstage (reconcileOwned (ReadFile GetControllerCAPath) ClusterDomain cluster).
Proof.
  unfold reconcileOwned, whenReady, when, reconcileHeadlessService, reconcileControllerCA, reconcileClientTLSCertificates,
    reconcileTunnelService, reconcileCertificate, create_or.
  walk ltac:(first [apply reconcileCertificates_backstage|apply reconcileTunnelCertificates_backstage|eauto 4 with backstage]).
Qed.

Lemma reconcileStatefulSet_backstage `{R : GoRuntime} {YM : YAMLMarshal} cluster matches :
  preserves backstage (reconcileStatefulSet ClusterDomain cluster matches).
Proof. unfold reconcileStatefulSet, reconcileConfigMap, applyStatefulSet, create_or. offstage. Qed.

Lemma reconcilePrometheusServices_touches `{R : GoRuntime} `{YL : YAMLListen} cluster plan :
  touches (λ k _, k = KService) (reconcilePrometheusServices (W := W) cluster plan).
Proof.
  unfold reconcilePrometheusServices, reconcilePrometheusOutputs, reconcilePrometheusOutput, deleteUnusedServices,
    reconcilePrometheusService, keepInStep, create_or, delete_if_present, listPrometheusServicesForCluster.
  walk ltac:(first [apply touches_beside; walk ltac:(first [apply touches_create; done|apply touches_update; done|
    apply touches_delete; done|eauto 3 with touches])|eauto 3 with touches]).
Qed.

Lemma reconcilePrometheusServices_backstage `{R : GoRuntime} `{YL : YAMLListen} cluster plan :
  preserves (under backstage) (reconcilePrometheusServices (W := W) cluster plan).
Proof.
  unfold reconcilePrometheusServices, reconcilePrometheusOutputs, reconcilePrometheusOutput, deleteUnusedServices,
    reconcilePrometheusService, keepInStep, create_or, delete_if_present, listPrometheusServicesForCluster.
  walk ltac:(first [apply under_beside; offstage|eauto 4 with backstage]).
Qed.
End Stages.

Section Live.
Context {W : Type} `{L : ApiLaws W} `{PC : PipelineClient W} `{F : !Files W} `{H : !PodHTTP W} {J : PodJSON} `{E : ErrorText}.
Context `{P : !PodStore W} `{PL : !PodLaws W} `{PF : !PodFrame W} `{PP : !PipelineFrame W}.
Context `{Y : YAML} {YM : YAMLMarshal} `{YL : YAMLListen} `{Fmt : Format} `{Sel : Selectors} (ClusterDomain : string).
Context `{Rpl : Reader PipelineSpec PipelineStatus} `{Rt : Reader TargetSpec TargetStatus}
  `{Rtp : Reader TargetProfileSpec unit} `{Rsub : Reader SubscriptionSpec unit}
  `{Ro : Reader OutputSpec unit} `{Ri : Reader InputSpec unit} `{Rpr : Reader ProcessorSpec unit}
  `{Rtt : Reader TunnelTargetPolicySpec unit} `{Rsvc : Reader CoreServiceSpec unit}
  `{Rsec : Reader SecretSpec unit}.
Context (R R1 R2 : GoRuntime).
#[local] Existing Instance R.

Lemma now_backstage (w : W) : backstage w (pc_now w).1.
Proof. destruct (plf_now w) as [H1 H2]. split; [|done]. eapply agree_off_mono; [|exact H1]. by intros ? ? []. Qed.

Lemma runCall_backstage c : preserves backstage (runCall (W := W) c).
Proof. apply runCall_keeps; [exact _|apply now_backstage|apply plf_get|apply plf_updateStatus]. Qed.

Lemma collect_backstage cluster st pipelines :
  preserves backstage (foldM (collectPipeline (W := W) ClusterDomain R cluster) st pipelines).
Proof.
  apply preserves_foldM; [exact _|]. intros [b dm] p _. apply preserves_bind; [exact _|by apply preserves_lift; exact _|].
  intros [[b' dm'] calls]. apply preserves_bind; [exact _| |intros ?; by apply preserves_ret; exact _].
  apply preserves_for_each; [exact _|]. intros c _. apply runCall_backstage.
Qed.

Lemma configure_touches cluster plan sts pipelines dataMap :
  touches (only_at KCluster (key_of cluster)) (configureAndReport ClusterDomain R R1 R2 cluster plan sts pipelines dataMap : io W _).
Proof.
  unfold configureAndReport. apply preserves_bind; [exact _| |intros applied].
  - apply preserves_try. intros w. eapply agree_off_mono; [|apply (apply_touches (PF := PF))]. by intros ? ? [].
  - apply preserves_bind; [exact _| |intros now].
    + intros w. pose proof (plf_now w) as [Hn _]. destruct (pc_now w) as [w1 t]. cbn in *.
      eapply agree_off_mono; [|exact Hn]. by intros ? ? [].
    + unfold updateClusterStatus. walk ltac:(apply touches_updateStatus; done).
Qed.

Definition cluster_key (cluster : Cluster) : string := plan_key (Namespace (Meta cluster)) (Name (Meta cluster)).

Lemma prometheusServices_spec cluster dataMap plan (plans plans' : Plans) (w w' : W) r :
  prometheusServices R cluster dataMap plan (plans, w) = ((plans', w'), r) →
  backstage w w' ∧ agree_off (λ k _, k = KService) w w' ∧ ∀ plan', r = Ok plan' →
    ∃ ports, plan' = with_ports plan ports ∧ plans' !! cluster_key cluster = Some plan'.
Proof.
  unfold prometheusServices. cbn [fst snd].
  pose proof (reconcilePrometheusServices_backstage (R := R) cluster dataMap
    ({| Prom_Ports := AP_PrometheusPorts plan; Prom_Desired := ∅ |}, w)) as Hb.
  pose proof (reconcilePrometheusServices_touches cluster dataMap
    ({| Prom_Ports := AP_PrometheusPorts plan; Prom_Desired := ∅ |}, w)) as Ht.
  destruct (reconcilePrometheusServices cluster dataMap _) as [[s w1] r1]. unfold under in Hb. cbn [fst snd] in Hb, Ht.
  intros [= <- <- Hr]. split; [exact Hb|]. split; [exact Ht|]. intros plan' ->.
  destruct r1; [|done]. injection Hr as <-. eexists. split; [done|]. apply lookup_insert_eq.
Qed.

(** Where the reconciliation of a plan ends: before the pods are told anything, or with
    them configured. *)
Definition stopped_early (w w' : W) (r : res Result) : Prop := backstage w w' ∧ ∀ res, r = Ok res → res ≠ done_result.

(** The pods are told, for a plan that is in the cache; [ports] are the ports as the loop
    over the Prometheus services left them. *)
Definition at_pods (cluster : Cluster) (plan : ApplyPlan) pipelines dataMap (plans' : Plans) (w w' : W) (r : res Result) : Prop :=
  ∃ w1 sts desired cm ports, backstage w w1 ∧
    buildStatefulSet ClusterDomain cluster (AP_TunnelTargetMatches plan) = Ok (desired, cm) ∧
    view w1 KStatefulSet !! in_ns cluster (stsName cluster) = Some sts ∧ sts_in_step cluster (Spec desired) (Spec sts) ∧
    waiting sts = false ∧ plans' !! cluster_key cluster = Some (with_ports plan ports) ∧
    configureAndReport ClusterDomain R R1 R2 cluster (with_ports plan ports) sts pipelines dataMap w1 = (w', r).

Lemma at_pods_from cluster plan pipelines dataMap plans' (w w1 w' : W) r :
  backstage w w1 → at_pods cluster plan pipelines dataMap plans' w1 w' r → at_pods cluster plan pipelines dataMap plans' w w' r.
Proof. intros Hb (w2 & sts & desired & cm & ports & H1 & H2). exists w2, sts, desired, cm, ports. split; [by etrans|done]. Qed.

Definition reached_pods (cluster : Cluster) (plans' : Plans) (w w' : W) (r : res Result) : Prop :=
  ∃ dataMap calls plan pipelines, buildClusterPlan ClusterDomain R1 R2 cluster = Ok (dataMap, calls, plan) ∧
    at_pods cluster plan pipelines dataMap plans' w w' r.

Lemma reached_pods_from cluster plans' (w w1 w' : W) r :
  backstage w w1 → reached_pods cluster plans' w1 w' r → reached_pods cluster plans' w w' r.
Proof. intros Hb (dm & calls & plan & ps & HB & H1). exists dm, calls, plan, ps. split; [done|by eapply at_pods_from]. Qed.

Lemma stopped_early_from (w w1 w' : W) r : backstage w w1 → stopped_early w1 w' r → stopped_early w w' r.
Proof. intros Hb [H1 H2]. split; [by etrans|done]. Qed.

Lemma reconcileWorkload_cases cluster pipelines dataMap plan (plans plans' : Plans) (w w' : W) r :
  reconcileWorkload ClusterDomain R R1 R2 cluster pipelines dataMap plan (plans, w) = ((plans', w'), r) →
  stopped_early w w' r ∨ at_pods cluster plan pipelines dataMap plans' w w' r.
Proof.
  unfold reconcileWorkload. unfold mbind at 1, io_bind at 1. cbn [CachePlan modify_state fst snd].
  unfold mbind at 1, io_bind at 1, beside at 1. cbn [fst snd].
  pose proof (reconcileStatefulSet_backstage ClusterDomain cluster (AP_TunnelTargetMatches plan) w) as Hb1.
  destruct (reconcileStatefulSet _ _ _ w) as [w1 [sts|e]] eqn:Es; cbn [fst snd] in *;
    [|intros [= _ <- <-]; left; by split].
  apply reconcileStatefulSet_Ok in Es as (desired & cm & Hdes & _ & Hv & Hstep & _).
  unfold mbind at 1, io_bind at 1.
  destruct (prometheusServices _ _ _ _ _) as [[plans2 w2] r2] eqn:Ep.
  apply prometheusServices_spec in Ep as (Hb2 & Hag2 & Hr2). assert (backstage w w2) as Hb by by etrans.
  destruct r2 as [plan'|e]; [|intros [= _ <- <-]; left; by split].
  destruct (Hr2 plan' eq_refl) as (ports & -> & Hpl).
  destruct (waiting sts) eqn:Ew; [intros [= _ <- <-]; left; split; [done|]; by intros res [= <-]|].
  unfold beside. cbn [fst snd]. destruct (configureAndReport _ _ _ _ _ _ _ _ _ w2) as [w3 r3] eqn:Ec.
  intros [= <- <- <-]. right. exists w2, sts, desired, cm, ports. split_and!; try done.
  refine (keep_off _ _ _ KStatefulSet _ _ Hag2 _ Hv). done.
Qed.

(** The loop over the pipelines, with the statuses it writes on the way, collects what
    [buildClusterPlan] collects. *)
Lemma collectOne_calls cluster b dm calls p :
  collectOne ClusterDomain cluster (b, dm, calls) p =
  '(b', dm', calls') ← collectOne ClusterDomain cluster (b, dm, []) p; Ok (b', dm', calls ++ calls').
Proof.
  unfold collectOne. destruct (negb _); [cbn; by rewrite app_nil_r|].
  destruct (resolvePipeline _ _ _) as [[d|]|e]; done.
Qed.

Lemma collect_Ok cluster pipelines b dm calls (w w' : W) b' dm' :
  foldM (collectPipeline ClusterDomain R cluster) (b, dm) pipelines w = (w', Ok (b', dm')) →
  ∃ calls', foldl_res (collectOne ClusterDomain cluster) (b, dm, calls) pipelines = Ok (b', dm', calls').
Proof.
  revert b dm calls w. induction pipelines as [|p pipelines IH]; intros b dm calls w; cbn [foldM foldl_res].
  { intros [= _ <- <-]. eauto. }
  intros (w1 & [b1 dm1] & (w2 & [[b2 dm2] new] & [-> Hc]%io_lift_Ok & (w3 & [] & _ & [= <- <- <-])%io_bind_Ok)%io_bind_Ok & Hrest)%io_bind_Ok.
  rewrite collectOne_calls, Hc. cbn [mbind res_bind]. by eapply IH.
Qed.

Lemma reconcilePlan_cases cluster (plans plans' : Plans) (w w' : W) r :
  reconcilePlan ClusterDomain R R1 R2 cluster (plans, w) = ((plans', w'), r) →
  stopped_early w w' r ∨ reached_pods cluster plans' w w' r.
Proof.
  unfold reconcilePlan. unfold mbind at 1, io_bind at 1, io_lift at 1.
  destruct (listPipelinesForCluster cluster) as [pipelines|e] eqn:El; [|intros [= _ <- <-]; by left].
  unfold mbind at 1, io_bind at 1, beside at 1. cbn [fst snd].
  pose proof (collect_backstage cluster (newBuilder cluster, ∅) pipelines w) as Hb.
  destruct (foldM _ _ pipelines w) as [w1 [[b dataMap]|e]] eqn:Ef; cbn [fst snd] in *; [|intros [= _ <- <-]; left; by split].
  apply (collect_Ok _ _ _ _ []) in Ef as [calls Hcoll].
  unfold mbind at 1, io_bind at 1, io_lift at 1.
  destruct (Build R1 R2 b).2 as [plan|e] eqn:Eb; [|intros [= _ <- <-]; left; by split].
  intros [Hs|Ha]%reconcileWorkload_cases; [left; by eapply stopped_early_from|].
  right. exists dataMap, calls, plan, pipelines. split; [|by eapply at_pods_from].
  unfold buildClusterPlan, collectPipelines. rewrite El. cbn [mbind res_bind]. rewrite Hcoll. cbn [mbind res_bind]. by rewrite Eb.
Qed.

(** A cluster that is not being deleted and has its finalizer. *)
Definition live (w : W) (req : NamespacedName) (cluster : Cluster) : Prop :=
  view w KCluster !! req = Some cluster ∧ DeletionTimestamp (Meta cluster) = 0 ∧ clusterFinalizer ∈ Finalizers (Meta cluster).

Lemma Reconcile_cases req cluster (plans plans' : Plans) (w w' : W) r : live w req cluster →
  Reconcile ClusterDomain R R1 R2 req (plans, w) = ((plans', w'), r) →
  stopped_early w w' r ∨ reached_pods cluster plans' w w' r.
Proof.
  intros (Hv & Hd & Hf). unfold Reconcile, mbind, io_bind, io_try, beside. cbn [fst snd].
  pose proof (al_get KCluster req w) as [_ Hg]. pose proof (backstage_get (PF := PF) KCluster req w) as Hag.
  destruct (api_get KCluster req w) as [w1 r1]. cbn [fst snd] in *.
  destruct r1 as [c|[| |msg]];
    [|discriminate (eq_trans (eq_sym Hg) Hv)|intros [= _ <- <-]; left; by split|intros [= _ <- <-]; left; by split].
  assert (c = cluster) as -> by (apply (inj Some); exact (eq_trans (eq_sym Hg) Hv)).
  rewrite decide_False by (by intros Hn). rewrite decide_True by done.
  pose proof (reconcileOwned_backstage ClusterDomain cluster w1) as Hb.
  cbn [fst snd]. destruct (reconcileOwned _ _ cluster w1) as [w2 [[]|e]]; cbn [fst snd] in *.
  - intros [Hs|Hr]%reconcilePlan_cases.
    + left. eapply stopped_early_from; [exact Hag|]. by eapply stopped_early_from.
    + right. eapply reached_pods_from; [exact Hag|]. by eapply reached_pods_from.
  - intros [= _ <- <-]. left. split; [by etrans|]. by intros res [= <-].
  - intros [= _ <- <-]. left. split; [by etrans|done].
Qed.

Lemma configure_done cluster plan sts pipelines dataMap (w w' : W) :
  configureAndReport ClusterDomain R R1 R2 cluster plan sts pipelines dataMap w = (w', Ok done_result) →
  ∃ w1 unassigned, applyConfigToPods R1 R2 ClusterDomain cluster plan (desiredReplicas sts) w = (w1, Ok unassigned) ∧
    only_pods (λ _, False) w1 w'.
Proof.
  intros (w1 & applied & Ha%io_try_Ok & (w2 & now & Hn & (w3 & [] & Hu & Hr)%io_bind_Ok)%io_bind_Ok)%io_bind_Ok.
  destruct applied as [u|e]; [|by injection Hr]. injection Hr as <-. exists w1, u. split; [done|]. etrans.
  - pose proof (plf_now w1) as [_ Hp]. destruct (pc_now w1) as [w4 t]. injection Hn as <- <-. exact Hp.
  - assert (preserves (only_pods (W := W) (λ _, False)) (updateClusterStatus cluster
      (newClusterStatus cluster now sts (desiredReplicas sts) pipelines dataMap (Ok u)))) as Hp.
    { unfold updateClusterStatus. walk ltac:(apply pf_updateStatus). }
    specialize (Hp w2). by rewrite Hu in Hp.
Qed.

Lemma reconcile_converges_Ok req cluster (plans plans' : Plans) (w w' : W) :
  live w req cluster → Reconcile ClusterDomain R R1 R2 req (plans, w) = ((plans', w'), Ok done_result) →
  ∃ dataMap calls plan ports sts desired cm,
    buildClusterPlan ClusterDomain R1 R2 cluster = Ok (dataMap, calls, plan) ∧
    plans' !! cluster_key cluster = Some (with_ports plan ports) ∧
    buildStatefulSet ClusterDomain cluster (AP_TunnelTargetMatches plan) = Ok (desired, cm) ∧
    view w' KStatefulSet !! in_ns cluster (stsName cluster) = Some sts ∧ sts_in_step cluster (Spec desired) (Spec sts) ∧
    desiredReplicas sts ≤ podsReady sts ∧
    let parts := PerPodPlans (DistributeTargets (R := R1) (with_ports plan ports) (desiredReplicas sts) (CS_TargetDistribution (Spec cluster))) in
    (∀ i podPlan, 0 ≤ i < desiredReplicas sts → parts !! i = Some podPlan →
       runs_plan w' (podBaseURL ClusterDomain cluster i) podPlan ∧
       (distinct_ids plan → configured w' (podBaseURL ClusterDomain cluster i) podPlan (AP_TunnelTargetMatches plan))) ∧
    ∀ base, (∀ i, 0 ≤ i < desiredReplicas sts → is_Some (parts !! i) → base ≠ podBaseURL ClusterDomain cluster i) →
      pod w' base = pod w base.
Proof.
  intros Hl [[_ Hne]|(dataMap & calls & plan & pipelines & HB & w1 & sts & desired & cm & ports & [_ Hpods] & Hdes & Hv & Hstep & Hwait & Hplan & Hc)]%(Reconcile_cases _ _ _ _ _ _ _ Hl);
    [by destruct (Hne _ eq_refl)|].
  exists dataMap, calls, plan, ports, sts, desired, cm. split; [done|]. split; [done|]. split; [done|]. split.
  { refine (keep_off _ _ _ KStatefulSet _ _ _ _ Hv); [|].
    - pose proof (configure_touches cluster (with_ports plan ports) sts pipelines dataMap w1) as Ht. rewrite Hc in Ht. exact Ht.
    - by intros []. }
  split; [done|]. split; [by apply bool_decide_eq_false, Z.nlt_ge in Hwait|].
  intros parts. apply configure_done in Hc as (w2 & u & Ha & Hsame).
  destruct (applyConfigToPods_Ok R1 R2 ClusterDomain _ _ _ _ _ _ Ha) as (_ & Hconf & Hoff & _). split.
  - intros i podPlan Hi Hpp. eapply (told_keep ClusterDomain w2 w' cluster (with_ports plan ports)); [|by apply Hconf].
    apply Hsame. intros [].
  - intros base Hb. rewrite (Hsame base) by (intros []). rewrite Hoff by exact Hb. apply Hpods. intros [].
Qed.

(** C18: A reconciliation of a live cluster that has nothing left to do has done it: the
    plan in the cache is the one built from the cluster's pipelines, up to the ports its
    Prometheus services were given; the StatefulSet is in line with the one built for
    the cluster and that plan; all its replicas are ready; every pod that has a part in
    the division of the plan runs that part, with every tunnel target match when no two
    matches share an identifier; and every other pod is as it was: one without targets is
    told nothing, neither the plan nor a match. *)
Theorem reconcile_converges req cluster (plans plans' : Plans) (w w' : W) :
  live w req cluster → Reconcile ClusterDomain R R1 R2 req (plans, w) = ((plans', w'), Ok done_result) →
  ∃ dataMap calls plan ports sts desired cm,
    buildClusterPlan ClusterDomain R1 R2 cluster = Ok (dataMap, calls, plan) ∧
    plans' !! cluster_key cluster = Some (with_ports plan ports) ∧
    buildStatefulSet ClusterDomain cluster (AP_TunnelTargetMatches plan) = Ok (desired, cm) ∧
    view w' KStatefulSet !! in_ns cluster (stsName cluster) = Some sts ∧ sts_in_step cluster (Spec desired) (Spec sts) ∧
    desiredReplicas sts ≤ podsReady sts ∧
    let parts := PerPodPlans (DistributeTargets (R := R1) (with_ports plan ports) (desiredReplicas sts) (CS_TargetDistribution (Spec cluster))) in
    (∀ i podPlan, 0 ≤ i < desiredReplicas sts → parts !! i = Some podPlan →
       runs_plan w' (podBaseURL ClusterDomain cluster i) podPlan ∧
       (distinct_ids plan → configured w' (podBaseURL ClusterDomain cluster i) podPlan (AP_TunnelTargetMatches plan))) ∧
    ∀ base, (∀ i, 0 ≤ i < desiredReplicas sts → is_Some (parts !! i) → base ≠ podBaseURL ClusterDomain cluster i) →
      pod w' base = pod w base.
Proof. exact (reconcile_converges_Ok req cluster plans plans' w w'). Qed.

(** While a live cluster's StatefulSet has fewer ready replicas than it should, a
    reconciliation changes neither a pod nor the cluster: nothing is configured, and the
    status keeps whatever it last said, a Ready condition that is True included. *)
Theorem unready_pods_left_alone req cluster (plans plans' : Plans) (w w' : W) r sts :
  live w req cluster → Reconcile ClusterDomain R R1 R2 req (plans, w) = ((plans', w'), r) →
  view w' KStatefulSet !! in_ns cluster (stsName cluster) = Some sts → waiting sts = true →
  only_pods (λ _, False) w w' ∧ view w' KCluster !! req = Some cluster.
Proof.
  intros Hl HR Hv Hw. destruct (Reconcile_cases _ _ _ _ _ _ _ Hl HR)
    as [[[H1 H2] _]|(dataMap & calls & plan & pipelines & _ & w1 & sts1 & desired & cm & ports & _ & _ & Hv1 & _ & Hwait & _ & Hc)].
  - split; [done|]. refine (keep_off _ _ _ KCluster _ _ H1 _ (proj1 Hl)). by intros Hn.
  - pose proof (configure_touches cluster (with_ports plan ports) sts1 pipelines dataMap w1) as Ht. rewrite Hc in Ht.
    assert (view w' KStatefulSet !! in_ns cluster (stsName cluster) = Some sts1) as Hv2.
    { refine (keep_off _ _ _ KStatefulSet _ _ Ht _ Hv1). by intros []. }
    assert (sts1 = sts) as -> by (apply (inj Some); exact (eq_trans (eq_sym Hv2) Hv)). by rewrite Hw in Hwait.
Qed.
End Live.

(** ** Properties: the status *)

Section StatusTheorems.
Context `{Fmt : Format} `{E : ErrorText} `{R : GoRuntime}.

Lemma lookup_add_keys {V} (l : list (string * V)) (acc : gmap string unit) k :
  is_Some (foldl (λ acc (e : string * V), <[e.1 := tt]> acc) acc l !! k) ↔ is_Some (acc !! k) ∨ k ∈ l.*1.
Proof.
  revert acc; induction l as [|e l IH]; intros acc; cbn [foldl fmap list_fmap]; [set_solver|].
  rewrite IH, lookup_insert_is_Some', elem_of_cons. naive_solver.
Qed.

Lemma uniqueNames_spec {V} (part : PipelineData → gmap string V) dataMap k :
  is_Some (uniqueNames part dataMap !! k) ↔ ∃ p d, dataMap !! p = Some d ∧ is_Some (part d !! k).
Proof.
  unfold uniqueNames. assert (∀ (l : list (string * PipelineData)) (acc : gmap string unit),
    is_Some (foldl (λ acc (e : string * PipelineData), foldl (λ acc (k : string * V), <[k.1 := tt]> acc) acc (go_range (part e.2))) acc l !! k) ↔
    is_Some (acc !! k) ∨ ∃ p d, (p, d) ∈ l ∧ is_Some (part d !! k)) as G.
  { induction l as [|[p d] l IH]; intros acc; cbn [foldl]; [set_solver|].
    rewrite IH, lookup_add_keys, elem_of_go_range_keys. setoid_rewrite elem_of_cons. cbn. naive_solver. }
  rewrite G. rewrite lookup_empty. setoid_rewrite elem_of_go_range. split; [intros [[? [=]]|?]|]; [done|by right].
Qed.

Lemma preserve_same old c : Cond_Type (preserveTransition old c) = Cond_Type c ∧
  Cond_Status (preserveTransition old c) = Cond_Status c ∧ Cond_Reason (preserveTransition old c) = Cond_Reason c.
Proof. unfold preserveTransition. by destruct (List.find _ old). Qed.

(** A condition of a type and a status is reported. *)
Definition reports (s : ClusterStatus) (type : string) (status : ConditionStatus) : Prop :=
  ∃ c, c ∈ CSt_Conditions s ∧ Cond_Type c = type ∧ Cond_Status c = status.

(** With all the wanted replicas there, the Ready condition is a matter of the pods'
    configuration. *)
Lemma clusterReadyCondition_ready (cluster : Cluster) now n applied : default 0 (CS_Replicas (Spec cluster)) ≤ n →
  ∃ message, clusterReadyCondition cluster now n applied =
    cond ConditionTypeReady (if is_ok applied then ConditionTrue else ConditionFalse) (Generation (Meta cluster)) now
      (if is_ok applied then "ClusterReady" else "ClusterNotReady") message.
Proof.
  intros H. unfold clusterReadyCondition. rewrite bool_decide_true by done.
  destruct applied; cbn [is_ok andb]; rewrite ?andb_false_r; eauto.
Qed.

(** The types and statuses of the conditions, given whether the pods are configured,
    whether there is an issuer, and whether targets were left out. *)
Definition truth (b : bool) : ConditionStatus := if b then ConditionTrue else ConditionFalse.
Definition condition_pairs (ok tls : bool) (exhausted : option bool) : list (string * ConditionStatus) :=
  (ConditionTypeReady, truth ok) :: (if tls then [(ConditionTypeCertificatesReady, ConditionTrue)] else []) ++
  (ConditionTypeConfigApplied, truth ok) ::
  match exhausted with Some b => [(ConditionTypeCapacityExhausted, truth b)] | None => [] end.

Lemma conditions_shape (cluster : Cluster) now sts numPods pipelines dataMap applied :
  default 0 (CS_Replicas (Spec cluster)) ≤ podsReady sts →
  (λ c, (Cond_Type c, Cond_Status c)) <$> CSt_Conditions (newClusterStatus cluster now sts numPods pipelines dataMap applied) =
  condition_pairs (is_ok applied) (bool_decide (is_Some (apiTLS (Spec cluster))))
    (match applied with Ok n => Some (bool_decide (0 < n)) | Err _ => None end).
Proof.
  intros H. destruct (clusterReadyCondition_ready cluster now _ applied H) as [message Hm].
  unfold newClusterStatus. cbn [CSt_Conditions]. rewrite Hm, <- list_fmap_compose.
  rewrite (list_fmap_ext _ (λ c, (Cond_Type c, Cond_Status c))).
  2: { intros i c _. cbn. by destruct (preserve_same (CSt_Conditions (Status cluster)) c) as (-> & -> & _). }
  unfold certCondition, configCondition, capacityCondition, condition_pairs.
  destruct (apiTLS (Spec cluster)), applied as [n|e]; try (destruct (decide (0 < n)) as [Hn|Hn]);
    rewrite ?(bool_decide_true _ Hn), ?(bool_decide_false _ Hn); reflexivity.
Qed.

Lemma reports_spec (s : ClusterStatus) type status :
  reports s type status ↔ (type, status) ∈ ((λ c, (Cond_Type c, Cond_Status c)) <$> CSt_Conditions s).
Proof.
  unfold reports. rewrite list_elem_of_fmap. split; [intros (c & Hc & <- & <-); by exists c|].
  intros (c & [= -> ->] & Hc). by exists c.
Qed.

Lemma condition_pairs_spec ok tls exhausted :
  let has type status := (type, status) ∈ condition_pairs ok tls exhausted in
  (has ConditionTypeReady ConditionTrue ↔ ok = true) ∧ (has ConditionTypeReady ConditionFalse ↔ ok = false) ∧
  (has ConditionTypeConfigApplied ConditionTrue ↔ ok = true) ∧ (has ConditionTypeConfigApplied ConditionFalse ↔ ok = false) ∧
  (has ConditionTypeCertificatesReady ConditionTrue ↔ tls = true) ∧
  (has ConditionTypeCapacityExhausted ConditionTrue ↔ exhausted = Some true) ∧
  (has ConditionTypeCapacityExhausted ConditionFalse ↔ exhausted = Some false).
Proof. destruct ok, tls, exhausted as [[]|]; cbv zeta; apply (bool_decide_unpack _); vm_compute; exact I. Qed.

(** A count is that of the distinct names some part has over all pipelines, as an int32. *)
Definition counts {V} (part : PipelineData → gmap string V) (dataMap : gmap string PipelineData) (n : Z) : Prop :=
  ∃ names : list string, NoDup names ∧ (∀ k, k ∈ names ↔ ∃ p d, dataMap !! p = Some d ∧ is_Some (part d !! k)) ∧
    n = to_int32 (Z.of_nat (length names)).

Lemma uniqueNames_counts {V} (part : PipelineData → gmap string V) dataMap :
  counts part dataMap (to_int32 (Z.of_nat (size (uniqueNames part dataMap)))).
Proof.
  exists (map_to_list (uniqueNames part dataMap)).*1. split; [apply NoDup_fst_map_to_list|]. split.
  - intros k. rewrite <- uniqueNames_spec. rewrite list_elem_of_fmap. split.
    + intros ([k' []] & -> & Hk%elem_of_map_to_list). by eexists.
    + intros [[] Hk]. exists (k, tt). split; [done|]. by apply elem_of_map_to_list.
  - by rewrite length_fmap, length_map_to_list.
Qed.

Lemma status_reports (cluster : Cluster) now sts numPods pipelines dataMap applied :
  default 0 (CS_Replicas (Spec cluster)) ≤ podsReady sts →
  let s := newClusterStatus cluster now sts numPods pipelines dataMap applied in
  (∀ type status, reports s type status ↔ (type, status) ∈ condition_pairs (is_ok applied)
     (bool_decide (is_Some (apiTLS (Spec cluster)))) (match applied with Ok n => Some (bool_decide (0 < n)) | Err _ => None end)) ∧
  ∀ c, c ∈ CSt_Conditions s → Cond_Reason c ≠ "ClusterPartiallyReady".
Proof.
  intros Hready s. split.
  - intros type status. rewrite reports_spec. subst s. by rewrite conditions_shape.
  - intros c (c' & -> & Hin)%list_elem_of_fmap. destruct (preserve_same (CSt_Conditions (Status cluster)) c') as (_ & _ & ->).
    destruct (clusterReadyCondition_ready cluster now _ applied Hready) as [message Hm]. rewrite Hm in Hin.
    unfold certCondition, capacityCondition, configCondition in Hin. destruct (apiTLS _), applied; try case_decide; set_solver.
Qed.
End StatusTheorems.

Section Report.
Context {W : Type} `{A : KubeApi W} `{PC : PipelineClient W} `{F : !Files W} `{H : !PodHTTP W} {J : PodJSON} `{E : ErrorText}.
Context `{Fmt : Format} (ClusterDomain : string) (R R1 R2 : GoRuntime).

Lemma apply_left_out cluster plan numPods (w w' : W) unassigned :
  applyConfigToPods R1 R2 ClusterDomain cluster plan numPods w = (w', Ok unassigned) →
  unassigned = to_int32 (Z.of_nat (length
    (UnassignedTargets (DistributeTargets (R := R1) plan numPods (CS_TargetDistribution (Spec cluster)))))).
Proof. by intros (w1 & client & _ & (w2 & [] & _ & [= _ <-])%io_bind_Ok)%io_bind_Ok. Qed.

Lemma configureAndReport_shape cluster plan sts pipelines dataMap (w w' : W) r :
  configureAndReport ClusterDomain R R1 R2 cluster plan sts pipelines dataMap w = (w', r) →
  ∃ w1 w2 applied now, applyConfigToPods R1 R2 ClusterDomain cluster plan (desiredReplicas sts) w = (w1, applied) ∧
    updateClusterStatus cluster (newClusterStatus (R := R) cluster now sts (desiredReplicas sts) pipelines dataMap applied) w2 = (w', Ok tt) ∧
    r = Ok (if is_ok applied then done_result else after 10).
Proof.
  unfold configureAndReport, io_try, mbind, io_bind. cbn.
  destruct (applyConfigToPods _ _ _ _ _ _ w) as [w1 applied]. cbn [fst snd]. destruct (pc_now w1) as [w2 now]. intros Hc.
  exists w1, w2, applied, now. split; [done|]. revert Hc.
  destruct (updateClusterStatus _ _ w2) as [w3 [[]|e]] eqn:Eu; [by intros [= <- <-]|].
  exfalso. revert Eu. unfold updateClusterStatus. case_match; [done|]. unfold io_try, mbind, io_bind. by destruct (api_updateStatus _ _ w2).
Qed.

End Report.

(** ** A cluster's life, over the concrete server *)

Import PodDemo.

Module LifeDemo.
#[export] Instance profiles : Reader TargetProfileSpec unit := map_reader [demo_profile_cr].
#[export] Instance subscriptions : Reader SubscriptionSpec unit := map_reader [].
#[export] Instance outputs : Reader OutputSpec unit := map_reader [].
#[export] Instance inputs : Reader InputSpec unit := map_reader [].
#[export] Instance policies : Reader TunnelTargetPolicySpec unit := map_reader [].
#[export] Instance services : Reader CoreServiceSpec unit := map_reader [].
#[export] Instance secrets : Reader SecretSpec unit := map_reader [].
#[export] Existing Instances demo_pipelines demo_target_cache demo_processor_cache demo_yaml WorkloadDemo.yaml.
#[export] Instance listen : YAMLListen := {| UnmarshalListen raw := Ok ("", "") |}.
#[export] Instance format : Format := {| FormatLabelSelector s := "selector"; PointerText p := "pointer" |}.

(** The clock stands still and the pipelines are not found. *)
#[export] Instance pipelines : PipelineClient World := {|
  pc_now w := (w, 7); pc_get nn w := (w, Err ErrNotFound); pc_getCluster nn w := (w, Err ErrNotFound);
  pc_updateStatus p w := (w, Ok tt) |}.

#[export] Instance pipelines_frame : PipelineFrame World.
Proof. split; intros; try split; done. Qed.

Definition reconcile (req : NamespacedName) (pw : Plans * World) : (Plans * World) * res Result :=
  Reconcile "cluster.local" go_reference go_reference go_reversed req pw.

Definition cluster : Cluster := with_finalizers demo_cluster [clusterFinalizer].
Definition req : NamespacedName := key_of cluster.

Definition put_cluster (c : Cluster) (w : World) : World := srv_put w KCluster {[ key_of c := c ]} (WUpdate KCluster (key_of c)).

(** The first run creates everything and waits; the pods come up; the second configures
    them; then the cluster is deleted. *)
Definition start : World := put_cluster cluster (empty_server ∅).
Definition first := reconcile req (∅, start).
Definition ready (w : World) : World :=
  srv_put w KStatefulSet
    ((λ sts : StatefulSet, MkResource (Meta sts) (Spec sts) {| Sts_ReadyReplicas := 2 |}) <$> srv_statefulsets w)
    (WUpdateStatus KStatefulSet req).
Definition up : World := ready first.1.2.
Definition second := reconcile req (first.1.1, up).
Definition deleted_cluster : Cluster := MkResource (with_deletion 5 (Meta cluster)) (Spec cluster) (Status cluster).
Definition dying : World := put_cluster deleted_cluster second.1.2.
Definition third := reconcile req (second.1.1, dying).

Lemma first_eq : Reconcile "cluster.local" go_reference go_reference go_reversed req (∅, start) =
  ((first.1.1, first.1.2), Ok (after 1)).
Proof. etrans; [apply (run_Ok first); vm_compute; reflexivity|]. by destruct first.1. Qed.

Lemma second_eq : Reconcile "cluster.local" go_reference go_reference go_reversed req (first.1.1, up) =
  ((second.1.1, second.1.2), Ok done_result).
Proof. etrans; [apply (run_Ok second); vm_compute; reflexivity|]. by destruct second.1. Qed.

Lemma third_eq : Reconcile "cluster.local" go_reference go_reference go_reversed req (second.1.1, dying) =
  ((third.1.1, third.1.2), Ok done_result).
Proof. etrans; [apply (run_Ok third); vm_compute; reflexivity|]. by destruct third.1. Qed.

Lemma dying_view : view dying KCluster !! req = Some deleted_cluster.
Proof. vm_compute. reflexivity. Qed.

Lemma live_start : live start req cluster.
Proof. split; [vm_compute; reflexivity|]. split; [reflexivity|left]. Qed.

Lemma live_up : live up req cluster.
Proof. split; [vm_compute; reflexivity|]. split; [reflexivity|left]. Qed.
End LifeDemo.

#[local] Existing Instances LifeDemo.profiles LifeDemo.subscriptions LifeDemo.outputs LifeDemo.inputs LifeDemo.policies
  LifeDemo.services LifeDemo.secrets demo_pipelines demo_target_cache demo_processor_cache demo_yaml WorkloadDemo.yaml
  LifeDemo.listen LifeDemo.format LifeDemo.pipelines LifeDemo.pipelines_frame.

Lemma finalizer_after_cleanup_witness :
  owned_gone LifeDemo.deleted_cluster LifeDemo.third.1.2 ∧ view LifeDemo.third.1.2 KCluster !! LifeDemo.req = None.
Proof.
  split; [|vm_compute; reflexivity].
  assert (DeletionTimestamp (Meta LifeDemo.deleted_cluster) ≠ 0) as Hd by discriminate.
  assert (clusterFinalizer ∈ Finalizers (Meta LifeDemo.deleted_cluster)) as Hf by left.
  exact (proj1 (proj2 (finalizer_after_cleanup (W := World) "cluster.local" go_reference go_reference go_reversed
    LifeDemo.req LifeDemo.deleted_cluster LifeDemo.second.1.1 LifeDemo.third.1.1 LifeDemo.dying LifeDemo.third.1.2
    (Ok done_result) LifeDemo.dying_view Hd Hf LifeDemo.third_eq) eq_refl)).
Defined.

(** Pod 0 has its target. *)
Lemma reconcile_converges_witness :
  Pod_Applied (pod LifeDemo.second.1.2 (podBaseURL "cluster.local" LifeDemo.cluster 0)) = Some "ns/t2" ∧
  ∃ sts, view LifeDemo.second.1.2 KStatefulSet !! in_ns LifeDemo.cluster "gnmic-c1" = Some sts ∧
    desiredReplicas sts ≤ podsReady sts.
Proof.
  split; [vm_compute; reflexivity|].
  destruct (reconcile_converges (W := World) (Y := demo_yaml) "cluster.local" go_reference go_reference go_reversed
    LifeDemo.req LifeDemo.cluster LifeDemo.first.1.1 LifeDemo.second.1.1 LifeDemo.up LifeDemo.second.1.2
    LifeDemo.live_up LifeDemo.second_eq) as (dataMap & calls & plan & ports & sts & desired & cm & _ & _ & _ & Hv & _ & Hr & _).
  exists sts. split; [exact Hv|exact Hr].
Defined.

Lemma unready_pods_left_alone_witness :
  view LifeDemo.first.1.2 KCluster !! LifeDemo.req = Some LifeDemo.cluster.
Proof.
  destruct (view LifeDemo.first.1.2 KStatefulSet !! in_ns LifeDemo.cluster (stsName LifeDemo.cluster)) as [sts|] eqn:E;
    [|vm_compute in E; discriminate].
  assert (waiting sts = true) as Hw.
  { assert (waiting <$> (view LifeDemo.first.1.2 KStatefulSet !! in_ns LifeDemo.cluster (stsName LifeDemo.cluster)) = Some true)
      as Hs by (vm_compute; reflexivity).
    rewrite E in Hs. by injection Hs. }
  apply (unready_pods_left_alone (W := World) (Y := demo_yaml) "cluster.local" go_reference go_reference go_reversed
    LifeDemo.req LifeDemo.cluster ∅ LifeDemo.first.1.1 LifeDemo.start LifeDemo.first.1.2 (Ok (after 1)) sts
    LifeDemo.live_start LifeDemo.first_eq E Hw).
Defined.

(** Pods that go away leave the cluster's status as it was: still True. *)
Example ready_stays_true :
  let gone := srv_put LifeDemo.second.1.2 KStatefulSet
    ((λ sts : StatefulSet, MkResource (Meta sts) (Spec sts) {| Sts_ReadyReplicas := 0 |}) <$> srv_statefulsets LifeDemo.second.1.2)
    (WUpdateStatus KStatefulSet LifeDemo.req) in
  let status w := (λ c : Cluster, (CSt_ReadyReplicas (Status c), Cond_Status <$> head (CSt_Conditions (Status c)))) <$>
    (view w KCluster !! LifeDemo.req : option Cluster) in
  status (LifeDemo.reconcile LifeDemo.req (LifeDemo.second.1.1, gone)).1.2 = Some (2, Some ConditionTrue).
Proof. vm_compute. reflexivity. Qed.

(** Both pods are up, one target was left out. *)
Definition up_sts : StatefulSet := MkResource (Meta LifeDemo.cluster)
  {| Sts_Replicas := Some 2; Sts_ServiceName := "gnmic-c1"; Sts_Selector := None;
     Sts_Template := {| Pod_Labels := ∅; Pod_InitContainers := []; Pod_Containers := []; Pod_Volumes := [] |} |}
  {| Sts_ReadyReplicas := 2 |}.

(** Two pods take one target each: of three, one is left out. *)
Definition tight : Cluster := MkResource (Meta LifeDemo.cluster)
  {| CS_Image := "gnmic"; CS_Replicas := Some 2; CS_API := None; CS_ClientTLS := None; CS_GRPCTunnel := None;
     CS_Resources := CS_Resources (Spec LifeDemo.cluster); CS_Env := [];
     CS_TargetDistribution := Some {| PodCapacity := 1 |} |} (Status LifeDemo.cluster).

Definition reported : World * res Result :=
  configureAndReport "cluster.local" go_reference go_reference go_reversed tight (ApplyDemo.plan ApplyDemo.two) up_sts [] ∅ LifeDemo.up.

Lemma reported_eq : configureAndReport "cluster.local" go_reference go_reference go_reversed tight (ApplyDemo.plan ApplyDemo.two)
  up_sts [] ∅ LifeDemo.up = (reported.1, Ok done_result).
Proof. apply (run_Ok reported). vm_compute. reflexivity. Qed.


(** The operator's own comparison does not see the generation a condition was computed
    for: with nothing else changed the stored [observedGeneration] stays behind. *)
Example observed_generation_stale :
  let c g : Cluster := MkResource {| Name := "c1"; Namespace := "ns"; Labels := ∅; Annotations := ∅; Finalizers := [];
    DeletionTimestamp := 0; Generation := g |} (Spec LifeDemo.cluster) (Status LifeDemo.cluster) in
  let status g := newClusterStatus (c g) 7 up_sts 2 [] ∅ (Ok 0) in
  clusterStatusEqual (status 1) (status 2) = true ∧
  (Cond_ObservedGeneration <$> CSt_Conditions (status 2)) = [2; 2; 2].
Proof. split; vm_compute; reflexivity. Qed.
