(* ===== verification/HttpMapper.v ===== *)
(** The mapping of an HTTP response to discovered targets
    ([internal/controller/discovery/loaders/http/mapper.go] and the extraction of
    [loader.go]): the values JSON and CEL produce, CEL as a parameter, and one target per
    item. *)

From S2P Require Import Prelude GoLib Api Discovery.
#[local] Open Scope Z_scope.

#[local] Set Warnings "-register-all".

(** ** Values *)

(** A [float64]: plus or minus [m] times 2 to the [e]. *)
Inductive Float64 := FNaN | FInf (negative : bool) | FFinite (negative : bool) (m : N) (e : Z).

(** The dynamic types the code tells apart.  [AObject] is a [map[string]any], [AMap] any
    other map, [AVal] a [ref.Val] of CEL with what its [Value] returns.  A map is the list
    of its entries, under distinct keys, in the order a range visits them. *)
Inductive Any :=
| ANil | ABool (b : bool) | AInt (n : Z) | AFloat (f : Float64) | AString (s : string)
| AList (l : list Any) | AObject (m : list (string * Any)) | AMap (m : list (Any * Any))
| AVal (v : Any) | AOther (type : string).

Definition assoc {V} (k : string) (m : list (string * V)) : option V :=
  snd <$> List.find (λ e, bool_decide (e.1 = k)) m.

Definition as_string (v : option Any) : option string := match v with Some (AString s) => Some s | _ => None end.

(** [out[k] = v]. *)
Fixpoint store {V} (k : string) (v : V) (m : list (string * V)) : list (string * V) :=
  match m with
  | [] => [(k, v)]
  | e :: m => if decide (e.1 = k) then (k, v) :: m else e :: store k v m
  end.

(** What Go and the libraries leave to the model: the [%v] verb, and the conversion of a
    NaN, which no source defines. *)
Class GoValues := { Sprint : Any → string; int32_of_NaN : Z }.

(** cel-go: [Compile] is the environment's [Compile] and [Program], [Eval] takes the
    variables; a nil result is [None], and otherwise the result is its [Value]. *)
Class CEL := {
  Program : Type;
  CompileCEL : string → res Program;
  EvalCEL : Program → list (string * Any) → res (option Any)
}.

Section Mapper.
Context {G : GoValues} {C : CEL}.

(** A list is normalised in place in the code; every reader of it sees the same values. *)
Fixpoint normalizeCEL (v : Any) : Any :=
  match v with
  | AVal ANil => ANil
  | AVal v => normalizeCEL v
  | AList l => AList (normalizeCEL <$> l)
  | AObject m => AObject (foldl (λ out e, store e.1 e.2 out) [] ((λ e : string * Any, (e.1, normalizeCEL e.2)) <$> m))
  | AMap m => AObject (foldl (λ out e, store e.1 e.2 out) []
                         ((λ e : Any * Any, (Sprint (normalizeCEL e.1), normalizeCEL e.2)) <$> m))
  | v => v
  end.

Definition evalCEL (p : Program) (item : list (string * Any)) (full : Any) : res Any :=
  out ← EvalCEL p [("self", full); ("item", AObject item)];
  match out with None => Err (ErrMsg "CEL returned nil") | Some v => Ok (normalizeCEL v) end.

Definition MaxInt32 : Z := 2 ^ 31 - 1.

(** The conversion of a [float64] to [int32] cuts off the fraction. *)
Definition float_port (f : Float64) : Z :=
  match f with
  | FNaN => to_int32 int32_of_NaN
  | FInf _ => 0
  | FFinite negative m e =>
      let m := Z.of_N m in
      if negative && bool_decide (m ≠ 0) then 0
      else if (if decide (0 ≤ e) then bool_decide (MaxInt32 < m * 2 ^ e) else bool_decide (MaxInt32 * 2 ^ (- e) < m)) then 0
      else if decide (0 ≤ e) then m * 2 ^ e else m `div` 2 ^ (- e)
  end.

Definition extractPort (v : Any) : Z :=
  match v with
  | AFloat f => float_port f
  | AString s => match ParseInt s 32 with Some p => p | None => 0 end
  | _ => 0
  end.

Record compiledMapping := {
  CM_name : option Program; CM_address : option Program; CM_port : option Program;
  CM_targetProfile : option Program; CM_labels : option Program
}.

(** One expression of the mapping, when there is one. *)
Definition compileField (field expr : string) : res (option Program) :=
  if decide (expr ≠ "") then
    match CompileCEL expr with Ok p => Ok (Some p) | Err _ => Err (ErrMsg field) end
  else Ok None.

Definition compileMapping (rm : option ResponseMappingSpec) : res compiledMapping :=
  match rm with
  | None => Ok {| CM_name := None; CM_address := None; CM_port := None; CM_targetProfile := None; CM_labels := None |}
  | Some rm =>
      name ← compileField "name" (Map_Name rm);
      address ← compileField "address" (Map_Address rm);
      port ← compileField "port" (Map_Port rm);
      targetProfile ← compileField "targetProfile" (Map_TargetProfile rm);
      labels ← compileField "labels" (Map_Labels rm);
      Ok {| CM_name := name; CM_address := address; CM_port := port; CM_targetProfile := targetProfile; CM_labels := labels |}
  end.

Section Item.
Context (item : list (string * Any)) (full : Any).

(** [getName] and [getAddress]: the expression, or else the field. *)
Definition getField (field : string) (p : option Program) : res string :=
  v ← match p with Some p => Some <$> evalCEL p item full | None => Ok (assoc field item) end;
  match as_string v with
  | None | Some "" => Err (ErrMsg (field +:+ " must be non-empty string"))
  | Some s => Ok s
  end.
Definition getName (cm : compiledMapping) : res string := getField "name" (CM_name cm).
Definition getAddress (cm : compiledMapping) : res string := getField "address" (CM_address cm).

Definition getPort (cm : compiledMapping) : Z :=
  match CM_port cm with
  | Some p => match evalCEL p item full with Ok v => extractPort v | Err _ => 0 end
  | None => extractPort (default ANil (assoc "port" item))
  end.

(** The labels of a map, on top of [labels]. *)
Definition addLabels (labels : gmap string string) (m : list (string * Any)) : gmap string string :=
  foldl (λ labels e, <[e.1 := Sprint e.2]> labels) labels m.

(** Labels that are no map end it, and otherwise the item's own come on top. *)
Definition getLabels (cm : compiledMapping) : gmap string string :=
  let own labels := match assoc "labels" item with Some (AObject m) => addLabels labels m | _ => labels end in
  match CM_labels cm with
  | Some p => match evalCEL p item full with Ok (AObject m) => own (addLabels ∅ m) | _ => ∅ end
  | None => own ∅
  end.

Definition getTargetProfile (cm : compiledMapping) : string :=
  match CM_targetProfile cm with
  | Some p => match evalCEL p item full with Ok (AString s) => s | _ => "" end
  | None => default "" (as_string (assoc "targetProfile" item))
  end.

Definition mapItemToTarget (cm : compiledMapping) : res DiscoveredTarget :=
  name ← getName cm;
  address ← getAddress cm;
  Ok {| DT_Name := name; DT_Address := address; DT_Port := getPort cm; DT_Labels := getLabels cm;
        DT_TargetProfile := getTargetProfile cm |}.
End Item.

(** Items that are no objects or have no name or address are logged and skipped. *)
Definition mapItem (cm : compiledMapping) (full item : Any) : option DiscoveredTarget :=
  match item with
  | AObject obj => match mapItemToTarget obj full cm with Ok target => Some target | Err _ => None end
  | _ => None
  end.

Definition mapItemsToTargets (rm : option ResponseMappingSpec) (items : list Any) (full : Any) : res (list DiscoveredTarget) :=
  match compileMapping rm with
  | Err _ => Err (ErrMsg "compile mapping")
  | Ok cm => Ok (foldl (λ targets item, match mapItem cm full item with Some t => targets ++ [t] | None => targets end) [] items)
  end.

(** The items of a response: what [targetsField] evaluates to, or the response itself. *)
Definition responseItems (rm : option ResponseMappingSpec) (raw : Any) : res (list Any) :=
  match rm with
  | Some rm =>
      if decide (Map_TargetsField rm ≠ "") then
        prog ← CompileCEL (Map_TargetsField rm);
        out ← EvalCEL prog [("self", raw)];
        match out with
        | None => Err (ErrMsg "TargetsField expression returned nil")
        | Some (AList items) => Ok items
        | Some _ => Err (ErrMsg "invalid HTTP response: targetsField expression must evaluate to an array of objects")
        end
      else match raw with AList items => Ok items | _ => Err (ErrMsg "invalid HTTP response: expected a JSON array when itemsField is not set") end
  | None => match raw with AList items => Ok items | _ => Err (ErrMsg "invalid HTTP response: expected a JSON array when itemsField is not set") end
  end.

Definition extractTargetsFromResponse (rm : option ResponseMappingSpec) (raw : Any) : res (list DiscoveredTarget) :=
  items ← responseItems rm raw;
  mapItemsToTargets rm items raw.

(** ** Lemmas *)

Lemma mapItems_omap rm items full :
  mapItemsToTargets rm items full = match compileMapping rm with
    | Ok cm => Ok (omap (mapItem cm full) items) | Err _ => Err (ErrMsg "compile mapping") end.
Proof.
  unfold mapItemsToTargets. destruct (compileMapping rm) as [cm|]; [|done]. f_equal.
  assert (∀ acc, foldl (λ targets item, match mapItem cm full item with Some t => targets ++ [t] | None => targets end) acc items =
    (acc ++ omap (mapItem cm full) items)%list) as H; [|apply H].
  induction items as [|item items IH]; intros acc; cbn [foldl omap list_omap]; [by rewrite app_nil_r|].
  rewrite IH. destruct (mapItem cm full item); cbn; [by rewrite <- app_assoc|done].
Qed.

Lemma getField_Ok item full field p s : getField item full field p = Ok s → s ≠ "".
Proof. intros (v & _ & H)%bind_Ok. destruct (as_string v) as [[]|]; [done| |done]. by injection H as <-. Qed.

Lemma extractPort_range v : - 2 ^ 31 ≤ extractPort v < 2 ^ 31.
Proof.
  destruct v; cbn [extractPort]; try lia.
  - destruct f as [|n|n m e]; cbn [float_port]; [apply to_int32_range|lia|].
    destruct (n && _); [lia|]. unfold MaxInt32. destruct (decide (0 ≤ e)) as [He|He]; (case_bool_decide as H; [lia|]).
    + split; [|lia]. assert (0 ≤ 2 ^ e) by (by apply Z.pow_nonneg). nia.
    + assert (0 < 2 ^ (- e)) by (apply Z.pow_pos_nonneg; lia). split.
      * transitivity 0; [lia|]. apply Z.div_pos; lia.
      * apply Z.div_lt_upper_bound; nia.
  - destruct (ParseInt s 32) as [p|] eqn:E; [|lia]. apply ParseInt_range in E. lia.
Qed.

Lemma getPort_range item full cm : - 2 ^ 31 ≤ getPort item full cm < 2 ^ 31.
Proof. unfold getPort. destruct (CM_port cm); [destruct (evalCEL _ _ _); [|lia]|]; apply extractPort_range. Qed.

(** What the API takes for a target: a name, an address, and a port that fits. *)
Definition sound_target (t : DiscoveredTarget) : Prop :=
  DT_Name t ≠ "" ∧ DT_Address t ≠ "" ∧ - 2 ^ 31 ≤ DT_Port t < 2 ^ 31.

Lemma mapItemToTarget_sound item full cm t : mapItemToTarget item full cm = Ok t → sound_target t.
Proof.
  intros (name & Hn & (address & Ha & [= <-])%bind_Ok)%bind_Ok.
  split; [by eapply getField_Ok|]. split; [by eapply getField_Ok|apply getPort_range].
Qed.

Lemma extract_sound rm raw targets : extractTargetsFromResponse rm raw = Ok targets → Forall sound_target targets.
Proof.
  intros (items & _ & H)%bind_Ok. rewrite mapItems_omap in H. destruct (compileMapping rm) as [cm|]; [|done].
  injection H as <-. apply Forall_forall. intros t (item & _ & Ht)%list_elem_of_omap.
  destruct item as [| | | | | |obj| | |]; try done. cbn in Ht.
  destruct (mapItemToTarget obj raw cm) eqn:E; [|done]. injection Ht as <-. by eapply mapItemToTarget_sound.
Qed.

(** ** The theorem *)

(** Mapping the items of a response fails exactly when an expression of the mapping
    does not compile.  Otherwise the targets are, in order, those of the items that are
    objects with a name and an address, each with a port of 32 bits; the others are left
    out.  Without a mapping an object with a name and an address is the target of its own
    fields. *)
Theorem mapping_exact rm items full :
  (is_ok (mapItemsToTargets rm items full) = is_ok (compileMapping rm)) ∧
  (∀ cm targets, compileMapping rm = Ok cm → mapItemsToTargets rm items full = Ok targets →
     targets = omap (mapItem cm full) items ∧
     ∀ t, t ∈ targets ↔ ∃ obj, AObject obj ∈ items ∧ mapItemToTarget obj full cm = Ok t ∧ sound_target t) ∧
  (rm = None → ∀ obj name address, AObject obj ∈ items → assoc "name" obj = Some (AString name) →
     assoc "address" obj = Some (AString address) → name ≠ "" → address ≠ "" →
     ∃ t targets, mapItemsToTargets rm items full = Ok targets ∧ t ∈ targets ∧
       DT_Name t = name ∧ DT_Address t = address ∧ DT_Port t = extractPort (default ANil (assoc "port" obj)) ∧
       DT_TargetProfile t = default "" (as_string (assoc "targetProfile" obj))).
Proof.
  rewrite mapItems_omap. split; [by destruct (compileMapping rm)|]. split.
  - intros cm targets -> [= <-]. split; [done|]. intros t. rewrite list_elem_of_omap. split.
    + intros (item & Hin & Ht). destruct item as [| | | | | |obj| | |]; try done. cbn in Ht.
      destruct (mapItemToTarget obj full cm) eqn:E; [|done]. injection Ht as <-.
      exists obj. split; [done|]. split; [done|by eapply mapItemToTarget_sound].
    + intros (obj & Hin & Ht & _). exists (AObject obj). split; [done|]. cbn. by rewrite Ht.
  - intros -> obj name address Hin Hn Ha Hne Hae. cbn [compileMapping].
    set (cm := {| CM_name := None; CM_address := _; CM_port := _; CM_targetProfile := _; CM_labels := _ |}).
    assert (∃ t, mapItemToTarget obj full cm = Ok t ∧ DT_Name t = name ∧ DT_Address t = address ∧
      DT_Port t = extractPort (default ANil (assoc "port" obj)) ∧
      DT_TargetProfile t = default "" (as_string (assoc "targetProfile" obj))) as (t & Ht & Hf).
    { unfold mapItemToTarget, getName, getAddress, getField. cbn [CM_name CM_address cm]. rewrite Hn, Ha.
      cbn [mbind res_bind as_string]. destruct name, address; [done..|]. eexists. by split. }
    exists t, (omap (mapItem cm full) items). split; [done|]. split; [|done].
    apply list_elem_of_omap. exists (AObject obj). split; [done|]. unfold mapItem. by rewrite Ht.
Qed.
End Mapper.

(** ** Examples *)

Module MapperDemo.
#[export] Instance values : GoValues := {|
  Sprint v := match v with AString s => s | AInt n => Itoa n | _ => "?" end; int32_of_NaN := 0 |}.

(** Programs are field names; [labels()] is a map of CEL's own. *)
#[export] Instance cel : CEL := {|
  Program := string;
  CompileCEL expr := if decide (expr = "(") then Err (ErrMsg "syntax error") else Ok expr;
  EvalCEL p vars :=
    if decide (p = "count") then Ok (Some (AInt 830))
    else if decide (p = "labels()") then Ok (Some (AMap [(AVal (AString "env"), AVal (AString "prod"))]))
    else match assoc "item" vars, assoc "self" vars with
         | Some (AObject m), _ => Ok (assoc p m)
         | _, Some (AObject m) => Ok (assoc p m)
         | _, _ => Err (ErrMsg "no such key")
         end |}.

Definition mapping (port labels : string) : ResponseMappingSpec := {|
  Map_TargetsField := ""; Map_Name := "host"; Map_Address := ""; Map_Port := port; Map_Labels := labels; Map_TargetProfile := "" |}.

Definition item : list (string * Any) :=
  [("host", AString "r1"); ("name", AString "n1"); ("address", AString "10.0.0.1"); ("port", AFloat (FFinite false 415 1));
   ("labels", AObject [("env", AString "lab")])].

Definition targets (rm : option ResponseMappingSpec) : res (list DiscoveredTarget) :=
  extractTargetsFromResponse rm (AList [AString "not an object"; AObject item; AObject [("name", AString "no address")]]).

Definition each {B} (f : DiscoveredTarget → B) (rm : ResponseMappingSpec) : res (list B) :=
  match targets (Some rm) with Ok l => Ok (f <$> l) | Err e => Err e end.
End MapperDemo.

#[local] Existing Instances MapperDemo.values MapperDemo.cel.

Lemma mapping_exact_witness :
  ∃ t targets, mapItemsToTargets None [AString "x"; AObject MapperDemo.item] ANil = Ok targets ∧
    t ∈ targets ∧ DT_Name t = "n1" ∧ DT_Address t = "10.0.0.1" ∧ DT_Port t = 830.
Proof.
  destruct (mapping_exact None [AString "x"; AObject MapperDemo.item] ANil) as (_ & _ & H).
  destruct (H eq_refl MapperDemo.item "n1" "10.0.0.1") as (t & targets & H1 & H2 & H3 & H4 & H5 & _);
    [right; left|reflexivity|reflexivity|discriminate|discriminate|].
  exists t, targets. split; [exact H1|]. split; [exact H2|]. split; [exact H3|]. split; [exact H4|exact H5].
Defined.

(** A port that CEL computes as an integer is dropped. *)
Example cel_int_port_lost :
  MapperDemo.each DT_Port (MapperDemo.mapping "count" "") = Ok [0] ∧
  MapperDemo.each DT_Port (MapperDemo.mapping "port" "") = Ok [830].
Proof. split; vm_compute; reflexivity. Qed.

(** A negative port is refused as a number and taken as a text. *)
Example negative_port_taken :
  extractPort (AFloat (FFinite true 5 0)) = 0 ∧ extractPort (AString "-5") = -5.
Proof. split; vm_compute; reflexivity. Qed.

(** The item's own labels override those of the mapping. *)
Example mapped_labels_overridden :
  MapperDemo.each DT_Labels (MapperDemo.mapping "" "labels()") = Ok [{[ "env" := "lab" ]}].
Proof. vm_compute. reflexivity. Qed.
