(* ===== verification/HttpLoader.v ===== *)
(** The HTTP loader ([internal/controller/discovery/loaders/http/loader.go],
    [pagination.go], [auth.go], and [ressource_fetcher.go]): the client, one page, the
    pages one after the other, the loop of polls, and the way of a poll through the
    message processor. *)

From S2P Require Import Prelude GoLib Api KubeClient Discovery MessageProcessor Kube HttpMapper.
From Stdlib Require Import Ascii.
#[local] Open Scope Z_scope.

(** ** net/http *)

(** The bytes of a header name ([isTokenTable]). *)
Definition is_token (c : ascii) : bool :=
  let n := Z.of_N (N_of_ascii c) in
  bool_decide (48 ≤ n ≤ 57 ∨ 65 ≤ n ≤ 90 ∨ 97 ≤ n ≤ 122 ∨ n ∈ [33; 35; 36; 37; 38; 39; 42; 43; 45; 46; 94; 95; 96; 124; 126]).

Definition upper (c : ascii) : ascii :=
  let n := N_of_ascii c in if decide (97 ≤ n ≤ 122)%N then ascii_of_N (n - 32) else c.
Definition lower (c : ascii) : ascii :=
  let n := N_of_ascii c in if decide (65 ≤ n ≤ 90)%N then ascii_of_N (n + 32) else c.

Fixpoint canonical_go (start : bool) (s : string) : string :=
  match s with
  | "" => ""
  | String c s => String ((if start then upper else lower) c) (canonical_go (Ascii.eqb c "-") s)
  end.

(** [textproto.CanonicalMIMEHeaderKey]. *)
Definition CanonicalHeaderKey (s : string) : string :=
  if forallb is_token (String.list_ascii_of_string s) then canonical_go true s else s.

Definition b64_char (n : N) : ascii :=
  ascii_of_N (if decide (n < 26)%N then n + 65 else if decide (n < 52)%N then n + 71 else if decide (n < 62)%N then n - 4
              else if decide (n = 62)%N then 43 else 47).

(** Three bytes to four characters. *)
Fixpoint b64_groups (l : list N) : list ascii :=
  match l with
  | a :: b :: c :: l =>
      b64_char (a / 4) :: b64_char (a mod 4 * 16 + b / 16) :: b64_char (b mod 16 * 4 + c / 64) :: b64_char (c mod 64) :: b64_groups l
  | [a; b] => [b64_char (a / 4); b64_char (a mod 4 * 16 + b / 16); b64_char (b mod 16 * 4); "="%char]
  | [a] => [b64_char (a / 4); b64_char (a mod 4 * 16); "="%char; "="%char]
  | [] => []
  end%N.

(** [base64.StdEncoding.EncodeToString]. *)
Definition base64 (s : string) : string := String.string_of_list_ascii (b64_groups (N_of_ascii <$> String.list_ascii_of_string s)).

(** Headers hold one value per canonical key; [Get] reads the first. *)
Record Request := { Req_Method : string; Req_URL : string; Req_Header : gmap string string; Req_Body : string }.
Record Response := { Resp_Status : Z; Resp_Header : gmap string string; Resp_Body : string }.

Definition set_header (key value : string) (req : Request) : Request := {|
  Req_Method := Req_Method req; Req_URL := Req_URL req;
  Req_Header := <[CanonicalHeaderKey key := value]> (Req_Header req); Req_Body := Req_Body req |}.
Definition HeaderGet (h : gmap string string) (key : string) : string := default "" (h !! CanonicalHeaderKey key).

Definition SetBasicAuth (username password : string) : Request → Request :=
  set_header "Authorization" ("Basic " +:+ base64 (username +:+ ":" +:+ password)).

(** The client as far as it is configured; the pool is the PEM text it was made of. *)
Record LoaderTLS := { LT_InsecureSkipVerify : bool; LT_RootCAs : option string }.
Record LoaderClient := { LC_Timeout : Z; LC_TLS : option LoaderTLS }.

(** [net/http] and [net/url], JSON, PEM and the UUIDs. *)
Class LoaderNet (W : Type) := {
  do_request : LoaderClient → Request → io W Response;
  valid_request : string → string → res unit;
  DecodeJSON : string → res Any;
  DecodeStrings : string → res (gmap string string);
  valid_PEM : string → bool;
  (** [url.Parse] as to the scheme of the result, and a URL with one query parameter set. *)
  URLScheme : string → res string;
  SetQuery : string → string → string → res string;
  NewUUID : io W string
}.

(** ** The resource fetcher *)

(** [core.ResourceFetcher]. *)
Record ResourceFetcher (W : Type) := {
  GetSecretKey : string → option KeySelector → io W string;
  GetConfigMapKey : string → option KeySelector → io W string
}.
Arguments GetSecretKey {W} _.
Arguments GetConfigMapKey {W} _.

Section Fetcher.
Context {W : Type} `{A : KubeApi W}.

(** [k8sResourceFetcher]; [data] is the [Data] of the object. *)
Definition fetchKey (k : Kind) (data : obj k → gmap string string) (kind namespace : string) (selector : option KeySelector) : io W string :=
  match selector with
  | None => mret ""
  | Some sel =>
      o ← api_get k {| NN_Namespace := namespace; NN_Name := Sel_Name sel |};
      if decide (Sel_Key sel = "") then
        io_fail (ErrMsg (kind +:+ " key selector has empty key for " +:+ kind +:+ " " +:+ namespace +:+ "/" +:+ Sel_Name sel))
      else match data o !! Sel_Key sel with
      | Some val => mret val
      | None => io_fail (ErrMsg (kind +:+ " " +:+ namespace +:+ "/" +:+ Sel_Name sel +:+ " does not contain key " +:+ Sel_Key sel))
      end
  end.

Definition newK8sResourceFetcher : ResourceFetcher W := {|
  GetSecretKey := fetchKey KSecret (λ o, Spec o) "secret";
  GetConfigMapKey := fetchKey KConfigMap (λ o, Spec o) "config map" |}.
End Fetcher.

(** [core.CommonLoaderConfig]. *)
Record CommonLoaderConfig (W : Type) := {
  LCfg_NN : NamespacedName;
  LCfg_ChunkSize : Z;
  LCfg_AcceptPush : bool;
  LCfg_ResourceFetcher : option (ResourceFetcher W)
}.
Arguments LCfg_NN {W} _.
Arguments LCfg_ChunkSize {W} _.
Arguments LCfg_AcceptPush {W} _.
Arguments LCfg_ResourceFetcher {W} _.

(** ** Pagination *)

Definition dquote : string := String (ascii_of_N 34) "".
Definition rel_next : string := "rel=" +:+ dquote +:+ "next" +:+ dquote.

(** [p[start+1 : end]] for the first angle brackets of [p]; [None] is the panic of a
    closing one that comes first. *)
Definition between_brackets (p : string) : option (option string) :=
  match cut_first "<" p, cut_first ">" p with
  | Some (a, _), Some (b, _) =>
      let start := String.length a in
      let stop := String.length b in
      if decide (stop < start + 1)%nat then None
      else Some (Some (String.substring (start + 1) (stop - (start + 1)) p))
  | _, _ => Some None
  end.

Fixpoint next_link (parts : list string) : option string :=
  match parts with
  | [] => Some ""
  | p :: parts =>
      if Contains p rel_next then
        match between_brackets p with
        | None => None
        | Some (Some url) => Some url
        | Some None => next_link parts
        end
      else next_link parts
  end.

(** [None] is a panic. *)
Definition extractNextFromLinkHeader (h : gmap string string) : option string :=
  let link := HeaderGet h "Link" in
  if decide (link = "") then Some "" else next_link (Split link ",").

(** How the pages end: with the targets of all of them, or an error, or a panic; [Runs]
    when the fuel did not do. *)
Inductive Pages := Returns (r : res (list DiscoveredTarget)) | Panics | Runs.

Section Loader.
Context {W : Type} {G : GoValues} {C : CEL} `{N : !LoaderNet W} `{R : GoRuntime}.
Context (cfg : CommonLoaderConfig W) (spec : HTTPConfig).

Definition extractNextPageInfo (raw : Any) : res string :=
  match HTTP_Pagination spec with
  | None => Ok ""
  | Some page =>
      if decide (Page_NextField page = "") then Ok "" else
      prog ← CompileCEL (Page_NextField page);
      out ← EvalCEL prog [("self", raw)];
      match out with
      | None | Some ANil => Ok ""
      | Some (AString s) => Ok s
      | Some _ => Err (ErrMsg "NextField must evaluate to string")
      end
  end.

(** A full URL, or a token for the request parameter.  It is only called with a
    pagination. *)
Definition buildNextURL (currentURL nextVal : string) : res string :=
  let token :=
    match HTTP_Pagination spec with
    | None => Err (ErrMsg "nil pointer dereference")
    | Some page =>
        if decide (Page_RequestParam page = "") then Err (ErrMsg "requestParam must be set for token pagination")
        else SetQuery currentURL (Page_RequestParam page) nextVal
    end in
  match URLScheme nextVal with
  | Ok scheme => if decide (scheme ≠ "") then Ok nextVal else token
  | Err _ => token
  end.

(** The next URL and whether to stop; errors are logged and stop, [None] is a panic. *)
Definition getNextURL (raw : Any) (headers : gmap string string) (currentURL : string) : option (string * bool) :=
  next ← extractNextFromLinkHeader headers;
  if decide (next ≠ "") then Some (next, false) else
  Some match extractNextPageInfo raw with
       | Err _ | Ok "" => ("", true)
       | Ok nextPage => match buildNextURL currentURL nextPage with Err _ => ("", true) | Ok url => (url, false) end
       end.

(** ** Authentication *)

Definition fetchSecret (sel : option KeySelector) : io W string :=
  match LCfg_ResourceFetcher cfg with
  | None => mret ""
  | Some f => GetSecretKey f (NN_Namespace (LCfg_NN cfg)) sel
  end.

Definition applyBasicAuth (sel : option KeySelector) (req : Request) : io W Request :=
  match sel with
  | None => io_fail (ErrMsg "Basic auth enabled but no valid credentials provided")
  | Some _ =>
      val ← fetchSecret sel;
      cm ← io_lift (DecodeStrings val);
      let username := default "" (cm !! "username") in
      let password := default "" (cm !! "password") in
      if decide (username = "" ∧ password = "") then io_fail (ErrMsg "Basic auth enabled but no valid credentials provided")
      else mret (SetBasicAuth username password req)
  end.

Definition applyTokenAuth (scheme : string) (sel : option KeySelector) (req : Request) : io W Request :=
  match sel with
  | None => io_fail (ErrMsg "Token auth enabled but no valid token secret reference provided")
  | Some _ =>
      token ← fetchSecret sel;
      mret (set_header "Authorization" (scheme +:+ " " +:+ token) req)
  end.

Definition applyAuthentication (req : Request) : io W Request :=
  match HTTP_Authentication spec with
  | None => mret req
  | Some auth =>
      match Auth_Basic auth, Auth_Token auth with
      | Some basic, _ => applyBasicAuth (Basic_CredentialSecretRef basic) req
      | None, Some token => applyTokenAuth (Token_Scheme token) (Token_TokenSecretRef token) req
      | None, None => io_fail (ErrMsg "no supported authentication method configured")
      end
  end.

(** ** One page *)

Definition pageRequest (url : string) : Request :=
  foldl (λ req h, set_header h.1 h.2 req)
    (set_header "Accept" "application/json"
       {| Req_Method := HTTP_Method spec; Req_URL := url; Req_Header := ∅;
          Req_Body := if decide (HTTP_Method spec = "POST" ∧ HTTP_Body spec ≠ "") then HTTP_Body spec else "" |})
    (go_range (HTTP_Headers spec)).

Definition fetchPage (client : LoaderClient) (url : string) : io W (Any * gmap string string) :=
  if decide (HTTP_Method spec = "") then io_fail (ErrMsg "method must be configured") else
  _ ← io_lift (valid_request (HTTP_Method spec) url);
  req ← applyAuthentication (pageRequest url);
  resp ← do_request client req;
  if decide (Resp_Status resp ≠ 200) then io_fail (ErrMsg ("unexpected HTTP status: " +:+ Itoa (Resp_Status resp))) else
  raw ← io_lift (DecodeJSON (Resp_Body resp));
  mret (raw, Resp_Header resp).

(** ** The pages *)

Fixpoint fetchPages (fuel : nat) (client : LoaderClient) (seen : gmap string unit) (currentURL : string)
    (allTargets : list DiscoveredTarget) (w : W) : W * Pages :=
  match fuel with
  | O => (w, Runs)
  | S fuel =>
      if decide (is_Some (seen !! currentURL)) then (w, Returns (Ok allTargets)) else
      match fetchPage client currentURL w with
      | (w, Err e) => (w, Returns (Err e))
      | (w, Ok (raw, headers)) =>
          match extractTargetsFromResponse (HTTP_ResponseMapping spec) raw with
          | Err _ => (w, Returns (Err (ErrMsg "Failed to extract targets")))
          | Ok targets =>
              let allTargets := allTargets ++ targets in
              match getNextURL raw headers currentURL with
              | None => (w, Panics)
              | Some (_, true) => (w, Returns (Ok allTargets))
              | Some (nextURL, false) => fetchPages fuel client (<[currentURL := tt]> seen) nextURL allTargets w
              end
          end
      end
  end.

Definition fetchTargetsFromHTTPEndpoint (fuel : nat) (client : LoaderClient) : W → W * Pages :=
  fetchPages fuel client ∅ (HTTP_URL spec) [].

(** ** The client *)

Definition buildTLSConfig (tls : ClientTLSConfig) : io W LoaderTLS :=
  match CliTLS_CABundleRef tls with
  | None => mret {| LT_InsecureSkipVerify := CliTLS_InsecureSkipVerify tls; LT_RootCAs := None |}
  | Some ref =>
      match LCfg_ResourceFetcher cfg with
      | None => io_fail (ErrMsg "resource fetcher is not configured")
      | Some f =>
          if decide (Sel_Name ref = "" ∨ Sel_Key ref = "") then io_fail (ErrMsg "CABundleRef must specify both name and key") else
          r ← io_try (GetConfigMapKey f (NN_Namespace (LCfg_NN cfg)) (Some ref));
          match r with
          | Err _ => io_fail (ErrMsg "failed to fetch CA bundle from config map ref")
          | Ok caPEM =>
              if valid_PEM caPEM
              then mret {| LT_InsecureSkipVerify := CliTLS_InsecureSkipVerify tls; LT_RootCAs := Some caPEM |}
              else io_fail (ErrMsg "failed to parse CA bundle PEM")
          end
      end
  end.

Definition buildHTTPClient : io W LoaderClient :=
  match HTTP_Timeout spec with
  | None => io_fail (ErrMsg "timeout must be configured")
  | Some timeout =>
      match HTTP_TLS spec with
      | None => mret {| LC_Timeout := timeout; LC_TLS := None |}
      | Some tls => t ← buildTLSConfig tls; mret {| LC_Timeout := timeout; LC_TLS := Some t |}
      end
  end.

(** ** The loop *)

(** What is left to send goes to the channel, here a list of batches. *)
Abbreviation Out := (list (list DiscoveryMessage)).

Inductive Poll := Polled | PollPanics | PollHangs.

Definition snapshotID (uuid : string) : string :=
  NN_Namespace (LCfg_NN cfg) +:+ "-" +:+ NN_Name (LCfg_NN cfg) +:+ "-" +:+ uuid.

(** Errors are logged.  A chunk size that is not positive divides by zero or never
    ends. *)
Definition fetchAndEmit (fuel : nat) (client : LoaderClient) (out : Out) (w : W) : Out * W * Poll :=
  match fetchTargetsFromHTTPEndpoint fuel client w with
  | (w, Runs) => (out, w, PollHangs)
  | (w, Panics) => (out, w, PollPanics)
  | (w, Returns (Err _)) => (out, w, Polled)
  | (w, Returns (Ok targets)) =>
      match NewUUID w with
      | (w, Err _) => (out, w, PollPanics)
      | (w, Ok uuid) =>
          match SendSnapshot (S (length targets)) targets (snapshotID uuid) (LCfg_ChunkSize cfg) with
          | Some (Ok batches) => (out ++ batches, w, Polled)
          | Some (Err _) => (out, w, Polled)
          | None => (out, w, if decide (LCfg_ChunkSize cfg = 0) then PollPanics else PollHangs)
          end
      end
  end.

(** What [select] sees next: the ticker, or the end of the context. *)
Inductive Tick := TickerFired | CtxDone.

Inductive LoaderEnd := LoaderReturned (r : res unit) | LoaderPanicked | LoaderHung | LoaderWaiting.

Fixpoint pollLoop (fuel : nat) (client : LoaderClient) (ticks : list Tick) (out : Out) (w : W) : Out * W * LoaderEnd :=
  match ticks with
  | [] => (out, w, LoaderWaiting)
  | CtxDone :: _ => (out, w, LoaderReturned (Ok tt))
  | TickerFired :: ticks =>
      match fetchAndEmit fuel client out w with
      | (out, w, Polled) => pollLoop fuel client ticks out w
      | (out, w, PollPanics) => (out, w, LoaderPanicked)
      | (out, w, PollHangs) => (out, w, LoaderHung)
      end
  end.

(** [time.NewTicker] panics for an interval that is not positive.  The first poll does
    not wait for the ticker. *)
Definition Run (fuel : nat) (ticks : list Tick) (out : Out) (w : W) : Out * W * LoaderEnd :=
  if decide (HTTP_URL spec = "") then (out, w, LoaderReturned (Ok tt)) else
  match buildHTTPClient w with
  | (w, Err _) => (out, w, LoaderReturned (Err (ErrMsg "failed to build HTTP client")))
  | (w, Ok client) =>
      match HTTP_Interval spec with
      | None => (out, w, LoaderReturned (Err (ErrMsg "interval must be configured")))
      | Some interval =>
          if decide (interval ≤ 0) then (out, w, LoaderPanicked)
          else pollLoop fuel client (TickerFired :: ticks) out w
      end
  end.
End Loader.

(** ** Lemmas *)

(** A page as it was read, and the pages a sequence of requests went through. *)
Record Page := { P_URL : string; P_Raw : Any; P_Headers : gmap string string; P_Targets : list DiscoveredTarget }.

Section Pages.
Context {W : Type} {G : GoValues} {C : CEL} `{N : !LoaderNet W} `{R : GoRuntime}.
Context (cfg : CommonLoaderConfig W) (spec : HTTPConfig) (client : LoaderClient).

Definition next_of (p : Page) : option (string * bool) := getNextURL spec (P_Raw p) (P_Headers p) (P_URL p).

Inductive follows : W → list Page → W → Prop :=
| follows_last w w' p :
    fetchPage cfg spec client (P_URL p) w = (w', Ok (P_Raw p, P_Headers p)) →
    extractTargetsFromResponse (HTTP_ResponseMapping spec) (P_Raw p) = Ok (P_Targets p) → follows w [p] w'
| follows_next w w1 w' p q l :
    fetchPage cfg spec client (P_URL p) w = (w1, Ok (P_Raw p, P_Headers p)) →
    extractTargetsFromResponse (HTTP_ResponseMapping spec) (P_Raw p) = Ok (P_Targets p) →
    next_of p = Some (P_URL q, false) → follows w1 (q :: l) w' → follows w (p :: q :: l) w'.

(** The last page says stop, or names a page that has been read. *)
Definition ends (seen : string → Prop) (l : list Page) : Prop :=
  ∃ p, last l = Some p ∧ ((∃ url, next_of p = Some (url, true)) ∨ ∃ url, next_of p = Some (url, false) ∧ seen url).

(** What a page names as the next one: the target of its [Link] header, or else the page its
    body's token leads to. *)
Definition names_next (p : Page) (url : string) : Prop :=
  (extractNextFromLinkHeader (P_Headers p) = Some url ∧ url ≠ "") ∨
  (extractNextFromLinkHeader (P_Headers p) = Some "" ∧
   ∃ token, extractNextPageInfo spec (P_Raw p) = Ok token ∧ token ≠ "" ∧ buildNextURL spec (P_URL p) token = Ok url).

(** The reading went on as long as a page named one that had not been read. *)
Definition read_to_end (l : list Page) : Prop :=
  ∃ p, last l = Some p ∧ ∀ url, names_next p url → url ∈ P_URL <$> l.

Lemma next_of_spec p url stop : next_of p = Some (url, stop) →
  if stop then ∀ u, ¬ names_next p u else ∀ u, names_next p u ↔ u = url.
Proof.
  unfold next_of, getNextURL, names_next. destruct (extractNextFromLinkHeader _) as [l|]; cbn; [|done].
  destruct (decide (l ≠ "")) as [Hl|Hl%dec_stable].
  - intros [= <- <-] u. naive_solver.
  - subst l. destruct (extractNextPageInfo spec (P_Raw p)) as [[|c t]|e]; [intros [= <- <-]; naive_solver| |intros [= <- <-]; naive_solver].
    destruct (buildNextURL spec (P_URL p) (String c t)) as [u'|e] eqn:Eb; intros [= <- <-].
    2: { intros u [[[= <-] ?]|(_ & t' & [= <-] & _ & Hu)]; [done|congruence]. }
    intros u. split; [|intros ->; right; split; [done|]; by exists (String c t)].
    intros [[[= <-] ?]|(_ & t' & [= <-] & _ & Hu)]; [done|]. rewrite Eb in Hu. by injection Hu.
Qed.

Lemma ends_read l : ends (λ u, u ∈ P_URL <$> l) l → read_to_end l.
Proof.
  intros (p & Hl & H). exists p. split; [done|]. destruct H as [(u & H%next_of_spec)|(u & H%next_of_spec & Hin)]; intros url Hn.
  - by destruct (H url).
  - apply H in Hn. by subst.
Qed.

Lemma ends_cons seen p q l : ends seen (q :: l) → ends seen (p :: q :: l).
Proof. intros (x & Hl & H). exists x. by rewrite last_cons, Hl. Qed.

Lemma fetchPages_Ok fuel seen url acc w w' targets :
  fetchPages cfg spec fuel client seen url acc w = (w', Returns (Ok targets)) →
  (is_Some (seen !! url) ∧ w' = w ∧ targets = acc) ∨
  ∃ p l, P_URL p = url ∧ follows w (p :: l) w' ∧ targets = (acc ++ concat (P_Targets <$> p :: l))%list ∧
    NoDup (P_URL <$> p :: l) ∧ (∀ u, u ∈ P_URL <$> p :: l → seen !! u = None) ∧
    ends (λ u, is_Some (seen !! u) ∨ u ∈ P_URL <$> p :: l) (p :: l).
Proof.
  revert seen url acc w. induction fuel as [|fuel IH]; intros seen url acc w; cbn [fetchPages]; [done|].
  destruct (decide (is_Some (seen !! url))) as [Hs|Hs]; [intros [= <- <-]; by left|].
  apply eq_None_not_Some in Hs.
  destruct (fetchPage cfg spec client url w) as [w1 [[raw headers]|e]] eqn:Ef; [|done].
  destruct (extractTargetsFromResponse _ raw) as [ts|e] eqn:Ee; [|done].
  set (p := {| P_URL := url; P_Raw := raw; P_Headers := headers; P_Targets := ts |}).
  destruct (getNextURL spec raw headers url) as [[next []]|] eqn:En; [| |done]; intros H; right.
  - injection H as <- <-. exists p, []. split; [done|]. split; [by apply follows_last|]. cbn. rewrite app_nil_r.
    split; [done|]. split; [apply NoDup_singleton|]. split; [intros u ->%list_elem_of_singleton; done|].
    exists p. split; [done|]. left. by exists next.
  - apply IH in H as [(Hseen & -> & ->)|(q & l & Hq & Hf & -> & Hnd & Hfresh & He)].
    + exists p, []. split; [done|]. split; [by apply follows_last|]. cbn. rewrite app_nil_r.
      split; [done|]. split; [apply NoDup_singleton|]. split; [intros u ->%list_elem_of_singleton; done|].
      exists p. split; [done|]. right. exists next. split; [done|].
      apply lookup_insert_is_Some' in Hseen as [->|Hseen]; [right; left|by left].
    + exists p, (q :: l). split; [done|]. split; [eapply follows_next; [done..|by rewrite Hq|done]|].
      split; [cbn; by rewrite <- app_assoc|]. split; [|split].
      * cbn [fmap list_fmap]. apply NoDup_cons. split; [|exact Hnd]. intros Hin. apply Hfresh in Hin. cbn in Hin.
        by rewrite lookup_insert_eq in Hin.
      * intros u [->|Hin]%elem_of_cons; [done|]. apply Hfresh, lookup_insert_None in Hin. apply Hin.
      * destruct He as (x & Hl & He). exists x. split; [by rewrite last_cons, Hl|].
        destruct He as [He|(u & Hu & Hin)]; [by left|right]. exists u. split; [done|].
        destruct Hin as [[->|Hin]%lookup_insert_is_Some'|Hin]; [right; left|by left|by right; right].
Qed.

(** As long as the links stay among finitely many pages, one unit of fuel per page and
    one more is enough. *)
Lemma fetchPages_terminates (U : gset string) fuel seen url acc w :
  (∀ u w w' raw headers next, u ∈ U → fetchPage cfg spec client u w = (w', Ok (raw, headers)) →
     getNextURL spec raw headers u = Some (next, false) → next ∈ U) →
  url ∈ U → (size (U ∖ dom seen) < fuel)%nat →
  (fetchPages cfg spec fuel client seen url acc w).2 ≠ Runs ∧
  ∀ more, fetchPages cfg spec (fuel + more) client seen url acc w = fetchPages cfg spec fuel client seen url acc w.
Proof.
  intros HU. revert seen url acc w. induction fuel as [|fuel IH]; intros seen url acc w Hu Hf; [lia|].
  cbn [fetchPages Nat.add].
  destruct (decide (is_Some (seen !! url))) as [Hs|Hs]; [done|].
  destruct (fetchPage cfg spec client url w) as [w1 [[raw headers]|e]] eqn:Ef; [|done].
  destruct (extractTargetsFromResponse _ raw) as [ts|e] eqn:Ee; [|done].
  destruct (getNextURL spec raw headers url) as [[next []]|] eqn:En; [done| |done].
  apply IH; [by eapply HU|].
  enough (size (U ∖ dom (<[url:=tt]> seen)) < size (U ∖ dom seen))%nat by lia.
  apply subset_size. rewrite dom_insert_L. apply eq_None_not_Some, not_elem_of_dom in Hs. set_solver.
Qed.
End Pages.

(** ** The theorems *)

Section Theorems.
Context {W : Type} {G : GoValues} {C : CEL} `{N : !LoaderNet W} `{R : GoRuntime}.
Context (cfg : CommonLoaderConfig W) (spec : HTTPConfig) (client : LoaderClient).

(** C32: Reading the pages of an endpoint ends whenever its links stay among finitely many
    pages, even in a circle: one unit of fuel per page and one more is enough, and more
    changes nothing. *)
Theorem pagination_terminates (U : gset string) fuel w :
  (∀ u w w' raw headers next, u ∈ U → fetchPage cfg spec client u w = (w', Ok (raw, headers)) →
     getNextURL spec raw headers u = Some (next, false) → next ∈ U) →
  HTTP_URL spec ∈ U → (size U < fuel)%nat →
  (fetchTargetsFromHTTPEndpoint cfg spec fuel client w).2 ≠ Runs ∧
  ∀ more, fetchTargetsFromHTTPEndpoint cfg spec (fuel + more) client w = fetchTargetsFromHTTPEndpoint cfg spec fuel client w.
Proof.
  intros HU Hu Hf. apply (fetchPages_terminates cfg spec client U); [done..|].
  rewrite dom_empty_L, difference_empty_L. done.
Qed.

Lemma pages_read fuel w w' targets :
  fetchPages cfg spec fuel client ∅ (HTTP_URL spec) [] w = (w', Returns (Ok targets)) →
  ∃ p l, P_URL p = HTTP_URL spec ∧ follows cfg spec client w (p :: l) w' ∧
    targets = concat (P_Targets <$> p :: l) ∧ NoDup (P_URL <$> p :: l) ∧ ends spec (λ u, u ∈ P_URL <$> p :: l) (p :: l).
Proof.
  intros [(Hs & _)|(p & l & Hp & Hf & -> & Hnd & _ & He)]%fetchPages_Ok; [by rewrite lookup_empty in Hs; destruct Hs|].
  exists p, l. split_and!; try done. destruct He as (x & Hl & He). exists x. split; [done|].
  destruct He as [He|(u & Hu & [Hin|Hin])]; [by left| |right; eauto]. rewrite lookup_empty in Hin. by destruct Hin.
Qed.

(** The targets an endpoint is found to list are those of its pages, one after the
    other from the configured URL along the links, every page once; the reading stops
    only at a page that names no next one, or one that has been read, or whose next one
    cannot be told.  All of them have a name, an address and a port of 32 bits. *)
Theorem pagination_exact fuel w w' targets :
  fetchTargetsFromHTTPEndpoint cfg spec fuel client w = (w', Returns (Ok targets)) →
  ∃ p l, P_URL p = HTTP_URL spec ∧ follows cfg spec client w (p :: l) w' ∧
    targets = concat (P_Targets <$> p :: l) ∧ NoDup (P_URL <$> p :: l) ∧
    ends spec (λ u, u ∈ P_URL <$> p :: l) (p :: l) ∧ Forall sound_target targets.
Proof.
  intros (p & l & Hp & Hf & -> & Hnd & He)%pages_read.
  exists p, l. split; [done|]. split; [done|]. split; [done|]. split; [done|]. split; [exact He|].
  - apply Forall_concat, Forall_fmap. clear Hp Hnd He. revert Hf. generalize (p :: l).
    induction 1 as [w w' q Hq He|w w1 w' q q2 l2 Hq He Hn Hf IH]; (constructor; [by eapply extract_sound|]); [constructor|done].
Qed.
End Theorems.

(** ** From the endpoint to the cluster *)

(** An endpoint that serves the same pages all the time; none makes the reading fail. *)
Record static_site {W : Type} {G : GoValues} {C : CEL} `{N : !LoaderNet W} `{R : GoRuntime} (cfg : CommonLoaderConfig W)
    (spec : HTTPConfig) (client : LoaderClient) (site : gmap string Page) : Prop := {
  site_first : is_Some (site !! HTTP_URL spec);
  site_page : ∀ u p w, site !! u = Some p →
    P_URL p = u ∧ ∃ w', fetchPage cfg spec client u w = (w', Ok (P_Raw p, P_Headers p));
  site_targets : ∀ u p, site !! u = Some p →
    extractTargetsFromResponse (HTTP_ResponseMapping spec) (P_Raw p) = Ok (P_Targets p);
  site_next : ∀ u p, site !! u = Some p →
    ∃ next stop, next_of spec p = Some (next, stop) ∧ (stop = false → is_Some (site !! next))
}.

Section Site.
Context {W : Type} {G : GoValues} {C : CEL} `{N : !LoaderNet W} `{R : GoRuntime}.
Context (cfg : CommonLoaderConfig W) (spec : HTTPConfig) (client : LoaderClient) (site : gmap string Page).
Context (S : static_site cfg spec client site).

Lemma site_fetch fuel seen url acc w : is_Some (site !! url) → (size (dom site ∖ dom seen) < fuel)%nat →
  ∃ w' targets, fetchPages cfg spec fuel client seen url acc w = (w', Returns (Ok (acc ++ targets))) ∧
    (seen !! url = None → ∀ p, site !! url = Some p → P_Targets p ⊆ targets).
Proof.
  revert seen url acc w. induction fuel as [|fuel IH]; intros seen url acc w [p Hp] Hf; [lia|]. cbn [fetchPages].
  destruct (decide (is_Some (seen !! url))) as [Hs|Hs].
  { exists w, []. rewrite app_nil_r. split; [done|]. intros Hn. rewrite Hn in Hs. by destruct Hs. }
  apply eq_None_not_Some in Hs. destruct (site_page _ _ _ _ S url p w Hp) as [Hu (w1 & ->)].
  rewrite (site_targets _ _ _ _ S url p Hp). destruct (site_next _ _ _ _ S url p Hp) as (next & stop & Hn & Hc).
  unfold next_of in Hn. rewrite Hu in Hn. rewrite Hn. destruct stop.
  - exists w1, (P_Targets p). split; [done|]. intros _ q [= <-]%(eq_trans (eq_sym Hp)). done.
  - destruct (IH (<[url := tt]> seen) next (acc ++ P_Targets p)%list w1 (Hc eq_refl)) as (w2 & ts & -> & _).
    { enough (size (dom site ∖ dom (<[url:=tt]> seen)) < size (dom site ∖ dom seen))%nat by lia.
      apply subset_size. rewrite dom_insert_L. apply not_elem_of_dom in Hs. apply elem_of_dom_2 in Hp. set_solver. }
    exists w2, (P_Targets p ++ ts)%list. rewrite app_assoc. split; [done|].
    intros _ q [= <-]%(eq_trans (eq_sym Hp)) t Ht. apply elem_of_app. by left.
Qed.
End Site.

(** A poll brings the cluster in line with its endpoint.  Let an endpoint serve fixed
    pages, the first of which lists a target.  Then a poll reads all the pages its links
    lead to, sends their targets in chunks, and once the chunks have come in, in any
    order, the Targets of the source are exactly those of the pages, and nothing else has
    changed. *)
Theorem poll_converges {W K} {G : GoValues} {C : CEL} `{N : !LoaderNet W} `{R : GoRuntime} `{L : KubeLaws K} `{Rl : !Reliable K}
    (cfg : CommonLoaderConfig W) (spec : HTTPConfig) client site first fuel out (w : W) ts m (k : K) :
  static_site cfg spec client site → site !! HTTP_URL spec = Some first → P_Targets first ≠ [] →
  (∀ w, is_ok (NewUUID w).2 = true) → (size site < fuel)%nat → 0 < LCfg_ChunkSize cfg → MP_activeSnapshot m = None →
  ∃ pages batches w1 w2, fetchAndEmit cfg spec fuel client out w = (out ++ batches, w2, Polled) ∧
    follows cfg spec client w pages w1 ∧ P_URL <$> head pages = Some (HTTP_URL spec) ∧ NoDup (P_URL <$> pages) ∧
    read_to_end spec pages ∧
    ∀ delivered, delivered ≡ₚ batches →
      ∃ m' k', runLoop ts m k (Some <$> delivered) = (m', k', None) ∧ idle m' ∧
        reconciled ts (normalizeAll (Name (Meta ts)) (concat (P_Targets <$> pages))) k k'.
Proof.
  intros S Hfirst Hne Hid Hf Hc Hm. unfold fetchAndEmit.
  destruct (site_fetch cfg spec client site S fuel ∅ (HTTP_URL spec) [] w) as (w1 & targets & Hfetch & Hsub).
  { apply (site_first _ _ _ _ S). }
  { by rewrite dom_empty_L, difference_empty_L, size_dom. }
  cbn [app] in Hfetch. unfold fetchTargetsFromHTTPEndpoint. rewrite Hfetch.
  assert (targets ≠ []) as Htne.
  { specialize (Hsub (lookup_empty _) _ Hfirst). destruct (P_Targets first) as [|t ?]; [done|]. intros ->.
    specialize (Hsub t ltac:(left)). by apply not_elem_of_nil in Hsub. }
  specialize (Hid w1). destruct (NewUUID w1) as [w2 [uuid|e]]; [|done].
  destruct (snapshot_protocol_Ok ts (Datatypes.S (length targets)) targets (snapshotID cfg uuid) (LCfg_ChunkSize cfg) m k)
    as (batches & -> & Hrun); [done|lia|done|done|].
  apply pages_read in Hfetch as (p & l & Hp & Hfol & -> & Hnd & He).
  exists (p :: l), batches, w1, w2. split; [done|]. split; [done|]. split; [by cbn; rewrite Hp|]. split; [done|].
  split; [by apply ends_read|].
  intros delivered Hp'. destruct (Hrun delivered Hp') as (m' & k' & H1 & H2 & _ & H3). by exists m', k'.
Qed.

(** ** Witnesses and examples *)

Module LoaderDemo.
Import MapperDemo.
#[export] Existing Instances MapperDemo.values MapperDemo.cel go_reference.

Definition link (url : string) : gmap string string := {[ "Link" := "<" +:+ url +:+ ">; " +:+ rel_next ]}.
Definition target_item (name : string) : Any := AObject [("name", AString name); ("address", AString "10.0.0.1")].

(** Two pages that link to each other, one page with a broken link and one whose next
    page cannot be told; any other URL is its own body.  The world is the URLs asked for. *)
Definition serve (url : string) : Response :=
  {| Resp_Status := 200; Resp_Body := url;
     Resp_Header := if decide (url = "http://a/1") then link "http://a/2" else if decide (url = "http://a/2") then link "http://a/1"
                    else if decide (url = "http://broken") then {[ "Link" := "> " +:+ rel_next +:+ " <" ]} else ∅ |}.

Definition decode (body : string) : Any :=
  if decide (body = "http://a/1") then AList [target_item "a"; AString "skipped"]
  else if decide (body = "http://a/2") then AList [target_item "b"]
  else if decide (body = "http://broken") then AList [target_item "c"]
  else if decide (body = "http://numbered") then AObject [("items", AList [target_item "d"]); ("next", AInt 2)]
  else AObject [("items", AList []); ("next", AString (body +:+ "1"))].

#[export] Instance net : LoaderNet (list string) := {|
  do_request client req w := (w ++ [Req_URL req], Ok (serve (Req_URL req)));
  valid_request method url := Ok tt;
  DecodeJSON body := Ok (decode body);
  DecodeStrings body := Ok ∅;
  valid_PEM pem := true;
  URLScheme s := Ok (if HasPrefix s "http" then "http" else "");
  SetQuery url param value := Ok value;
  NewUUID w := (w, Ok "uuid") |}.

Definition cfg : CommonLoaderConfig (list string) := {|
  LCfg_NN := {| NN_Namespace := "ns"; NN_Name := "netbox" |}; LCfg_ChunkSize := 1; LCfg_AcceptPush := false;
  LCfg_ResourceFetcher := None |}.

Definition spec (url : string) (page : option PaginationSpec) (targetsField : string) : HTTPConfig := {|
  HTTP_URL := url; HTTP_Method := "GET"; HTTP_Headers := ∅; HTTP_Body := ""; HTTP_Authentication := None;
  HTTP_Interval := Some 60; HTTP_Timeout := Some 10; HTTP_TLS := None; HTTP_Pagination := page;
  HTTP_ResponseMapping := Some {| Map_TargetsField := targetsField; Map_Name := ""; Map_Address := ""; Map_Port := "";
    Map_Labels := ""; Map_TargetProfile := "" |};
  HTTP_Push := None |}.
Definition circle : HTTPConfig := spec "http://a/1" None "".
Definition tokens (url : string) : HTTPConfig := spec url (Some {| Page_NextField := "next"; Page_RequestParam := "page" |}) "items".

Definition client : LoaderClient := {| LC_Timeout := 10; LC_TLS := None |}.

Definition target (name : string) : DiscoveredTarget :=
  {| DT_Name := name; DT_Address := "10.0.0.1"; DT_Port := 0; DT_Labels := ∅; DT_TargetProfile := "" |}.
Definition page (url : string) (targets : list DiscoveredTarget) : Page :=
  {| P_URL := url; P_Raw := decode url; P_Headers := Resp_Header (serve url); P_Targets := targets |}.
Definition site : gmap string Page :=
  {[ "http://a/1" := page "http://a/1" [target "a"]; "http://a/2" := page "http://a/2" [target "b"] ]}.

Lemma site_pages u p : site !! u = Some p →
  (u = "http://a/1" ∧ p = page "http://a/1" [target "a"]) ∨ (u = "http://a/2" ∧ p = page "http://a/2" [target "b"]).
Proof. unfold site. intros [[<- <-]|[_ [<- <-]%lookup_singleton_Some]]%lookup_insert_Some; [by left|by right]. Qed.

Lemma circle_site : static_site cfg circle client site.
Proof.
  split.
  - vm_compute. by eexists.
  - intros u p w [[-> ->]|[-> ->]]%site_pages; (split; [reflexivity|]);
      [exists (w ++ ["http://a/1"])%list|exists (w ++ ["http://a/2"])%list]; vm_compute; reflexivity.
  - intros u p [[-> ->]|[-> ->]]%site_pages; vm_compute; reflexivity.
  - intros u p [[-> ->]|[-> ->]]%site_pages; eexists _, _; (split; [vm_compute; reflexivity|]); intros _; vm_compute; by eexists.
Qed.

Lemma circle_closed u w w' raw headers next : u ∈ ({[ "http://a/1"; "http://a/2" ]} : gset string) →
  fetchPage cfg circle client u w = (w', Ok (raw, headers)) → getNextURL circle raw headers u = Some (next, false) →
  next ∈ ({[ "http://a/1"; "http://a/2" ]} : gset string).
Proof.
  intros [->%elem_of_singleton| ->%elem_of_singleton]%elem_of_union Hf Hn.
  - destruct (site_page _ _ _ _ circle_site "http://a/1" _ w (lookup_insert_eq _ _ _)) as [_ (w1 & H1)].
    rewrite Hf in H1. injection H1 as -> -> ->. assert (Some (next, false) = Some ("http://a/2", false)) as [= ->]
      by (rewrite <- Hn; vm_compute; reflexivity). set_solver.
  - destruct (site_page _ _ _ _ circle_site "http://a/2" (page "http://a/2" [target "b"]) w) as [_ (w1 & H1)].
    { vm_compute. reflexivity. }
    rewrite Hf in H1. injection H1 as -> -> ->. assert (Some (next, false) = Some ("http://a/1", false)) as [= ->]
      by (rewrite <- Hn; vm_compute; reflexivity). set_solver.
Qed.
End LoaderDemo.

Import LoaderDemo.

Lemma pagination_terminates_witness : (fetchTargetsFromHTTPEndpoint cfg circle 3 client []).2 ≠ Runs.
Proof.
  apply (pagination_terminates cfg circle client {[ "http://a/1"; "http://a/2" ]} 3 []).
  - intros u w w' raw headers next Hu Hf Hn. apply (circle_closed u w w' raw headers next Hu Hf Hn).
  - set_solver.
  - vm_compute. lia.
Defined.

Lemma pagination_exact_witness :
  ∃ p l, P_URL p = "http://a/1" ∧ [target "a"; target "b"] = concat (P_Targets <$> p :: l) ∧ NoDup (P_URL <$> p :: l).
Proof.
  destruct (pagination_exact cfg circle client 3 [] ["http://a/1"; "http://a/2"] [target "a"; target "b"])
    as (p & l & H1 & _ & H2 & H3 & _).
  - vm_compute. reflexivity.
  - exists p, l. split; [exact H1|]. split; [exact H2|exact H3].
Defined.

Lemma poll_converges_witness :
  ∃ batches w', fetchAndEmit cfg circle 3 client [] [] = (batches, w', Polled) ∧
    ∃ m' k', runLoop demo_source NewMessageProcessor demo_world (Some <$> reverse batches) = (m', k', None).
Proof.
  destruct (poll_converges cfg circle client site (page "http://a/1" [target "a"]) 3 [] [] demo_source NewMessageProcessor demo_world)
    as (pages & batches & w1 & w2 & H1 & _ & _ & _ & _ & H2).
  - exact circle_site.
  - vm_compute. reflexivity.
  - discriminate.
  - intros w. reflexivity.
  - vm_compute. lia.
  - vm_compute. reflexivity.
  - reflexivity.
  - destruct (H2 (reverse batches) (reverse_Permutation batches)) as (m' & k' & H3 & _).
    exists batches, w2. split; [exact H1|]. exists m', k'. exact H3.
Defined.

(** A page whose next one cannot be told ends the reading without an error: what was read
    so far is taken for everything there is, and the rest is deleted from the cluster. *)
Example unreadable_link_drops_pages :
  fetchTargetsFromHTTPEndpoint cfg (tokens "http://numbered") 2 client [] = (["http://numbered"], Returns (Ok [target "d"])).
Proof. vm_compute. reflexivity. Qed.

(** A [Link] header whose brackets are the wrong way round is a slice out of range: the
    panic is in a goroutine of its own and ends the operator. *)
Example broken_link_panics : (fetchAndEmit cfg (spec "http://broken" None "") 2 client [] []).2 = PollPanics.
Proof. vm_compute. reflexivity. Qed.

Fixpoint token (n : nat) : string := match n with O => "t" | S n => token n +:+ "1" end.

Lemma token_length n : String.length (token n) = S n.
Proof.
  induction n as [|n IH]; [done|]. cbn [token].
  assert (∀ a b : string, String.length (a +:+ b) = (String.length a + String.length b)%nat) as ->.
  { induction a as [|c a IHa]; intros b; [done|]. rewrite app_str_cons. cbn. by rewrite IHa. }
  rewrite IH. cbn. lia.
Qed.

Lemma token_page n w : fetchPage cfg (tokens "t") client (token n) w =
  (w ++ [token n], Ok (AObject [("items", AList []); ("next", AString (token (S n)))], ∅))%list.
Proof.
  unfold fetchPage, applyAuthentication. cbn [tokens spec HTTP_Method HTTP_Authentication]. rewrite decide_False by done.
  unfold mbind, io_bind, io_lift. cbn. unfold serve, decode. cbn [Resp_Body Resp_Status].
  assert (∃ t, token n = String "t" t) as [t ->].
  { clear w. induction n as [|n [t IH]]; [by eexists|]. cbn [token]. rewrite IH, app_str_cons. by eexists. }
  done.
Qed.

Lemma token_next n headers : getNextURL (tokens "t") (AObject [("items", AList []); ("next", AString (token (S n)))]) ∅ headers =
  Some (token (S n), false).
Proof.
  assert (∃ t, token (S n) = String "t" t) as [t Ht].
  { generalize (S n). clear n. intros n. induction n as [|n [t IH]]; [by eexists|]. cbn [token]. rewrite IH, app_str_cons. by eexists. }
  rewrite Ht. reflexivity.
Qed.

(** Nothing bounds the number of pages: an endpoint that always has another one is read
    for ever, whatever the fuel. *)
Theorem endless_pages fuel : (fetchTargetsFromHTTPEndpoint cfg (tokens "t") fuel client []).2 = Runs.
Proof.
  unfold fetchTargetsFromHTTPEndpoint. change (HTTP_URL (tokens "t")) with (token 0).
  assert (∀ seen n w, (∀ u, is_Some (seen !! u) → (String.length u < S n)%nat) →
    (fetchPages cfg (tokens "t") fuel client seen (token n) [] w).2 = Runs) as H.
  { induction fuel as [|fuel IH]; intros seen n w Hs; [done|]. cbn [fetchPages].
    rewrite decide_False by (intros Hin%Hs; rewrite token_length in Hin; lia).
    rewrite token_page. change (extractTargetsFromResponse _ _) with (@Ok (list DiscoveredTarget) []).
    rewrite token_next.
    apply IH. intros u [<-|Hu]%lookup_insert_is_Some'; [rewrite token_length; lia|]. specialize (Hs u Hu). lia. }
  apply H. intros u Hu. rewrite lookup_empty in Hu. by destruct Hu.
Qed.
