(* ===== verification/TargetSourceCtl.v ===== *)
(** The TargetSource controller ([internal/controller/targetsource_controller.go], with
    the loader factory of [discovery/loaders.go]): it keeps one discovery runtime per
    source, a message processor and a loader in a goroutine each, registered under the
    source's name. *)

From S2P Require Import Prelude GoLib Api KubeClient Discovery MessageProcessor Kube Names HttpMapper HttpLoader.
#[local] Open Scope Z_scope.

(** ** State *)

(** A message processor's goroutine: in [Run], between the [cancel] and the [Unregister]
    of its clean-up, or through. *)
Inductive Goroutine := NotStarted | Running | Cleaning | Exited.
#[export] Instance Goroutine_eq_dec : EqDecision Goroutine.
Proof. solve_decision. Defined.

Section Controller.
Context {W : Type} `{A : KubeApi W}.

(** What one call of [startDiscovery] makes: a context, named by its position among all
    those made, the channel, and the goroutines with what they were given. *)
Record Runtime := {
  RT_Key : NamespacedName;
  RT_BufferSize : Z;
  RT_Cancelled : bool;
  RT_Source : TargetSource;
  RT_Processor : Goroutine;
  RT_Loader : option (CommonLoaderConfig W * HTTPConfig)
}.

(** [core.DiscoveryRegistryValue]: [Stop] cancels a context, the channel is its
    runtime's. *)
Record DiscoveryRegistryValue := { RV_Stop : nat; RV_CommonLoaderConfig : CommonLoaderConfig W }.

(** The steps goroutines make by themselves. *)
Inductive Act := ProcessorReturns (id : nat) | ProcessorUnregisters (id : nat) | LoaderReturns (id : nat).

(** The registry, the runtimes started so far, and what the goroutines will have done by
    the next steps of the reconciler. *)
Record Ctl := {
  Ctl_Registry : gmap NamespacedName DiscoveryRegistryValue;
  Ctl_Runtimes : list Runtime;
  Ctl_Schedule : list (list Act)
}.

Definition with_registry (f : gmap NamespacedName DiscoveryRegistryValue → gmap NamespacedName DiscoveryRegistryValue) (s : Ctl) : Ctl :=
  {| Ctl_Registry := f (Ctl_Registry s); Ctl_Runtimes := Ctl_Runtimes s; Ctl_Schedule := Ctl_Schedule s |}.
Definition with_runtimes (f : list Runtime → list Runtime) (s : Ctl) : Ctl :=
  {| Ctl_Registry := Ctl_Registry s; Ctl_Runtimes := f (Ctl_Runtimes s); Ctl_Schedule := Ctl_Schedule s |}.
Definition with_schedule (l : list (list Act)) (s : Ctl) : Ctl :=
  {| Ctl_Registry := Ctl_Registry s; Ctl_Runtimes := Ctl_Runtimes s; Ctl_Schedule := l |}.

Definition cancelled (rt : Runtime) : Runtime := {|
  RT_Key := RT_Key rt; RT_BufferSize := RT_BufferSize rt; RT_Cancelled := true; RT_Source := RT_Source rt;
  RT_Processor := RT_Processor rt; RT_Loader := RT_Loader rt |}.
Definition with_processor (p : Goroutine) (rt : Runtime) : Runtime := {|
  RT_Key := RT_Key rt; RT_BufferSize := RT_BufferSize rt; RT_Cancelled := RT_Cancelled rt; RT_Source := RT_Source rt;
  RT_Processor := p; RT_Loader := RT_Loader rt |}.
Definition with_loader (l : option (CommonLoaderConfig W * HTTPConfig)) (rt : Runtime) : Runtime := {|
  RT_Key := RT_Key rt; RT_BufferSize := RT_BufferSize rt; RT_Cancelled := RT_Cancelled rt; RT_Source := RT_Source rt;
  RT_Processor := RT_Processor rt; RT_Loader := l |}.

Definition at_id (f : Runtime → Runtime) (id : nat) : Ctl → Ctl := with_runtimes (alter f id).

(** ** Goroutines *)

(** [Run] may return at any time, for a context that has ended or a message that could
    not be processed; the deferred [cleanup] then cancels and unregisters whatever the
    key names by then. *)
Definition act (s : Ctl) (a : Act) : Ctl :=
  match a with
  | ProcessorReturns id =>
      match Ctl_Runtimes s !! id with
      | Some rt => if decide (RT_Processor rt = Running) then at_id (with_processor Cleaning ∘ cancelled) id s else s
      | None => s
      end
  | ProcessorUnregisters id =>
      match Ctl_Runtimes s !! id with
      | Some rt => if decide (RT_Processor rt = Cleaning)
                   then at_id (with_processor Exited) id (with_registry (λ r, Unregister r (RT_Key rt)) s) else s
      | None => s
      end
  | LoaderReturns id => at_id (with_loader None) id s
  end.

(** ** The reconciler *)

(** Between any two steps of the reconciler the goroutines may move. *)
Definition pause : io (Ctl * W) unit :=
  modify_state (λ s, match Ctl_Schedule s with
                     | [] => s
                     | acts :: schedule => foldl act (with_schedule schedule s) acts
                     end).

(** One locked operation on the registry, or one other step on the runtimes. *)
Definition locked {B} (f : Ctl → Ctl * B) : io (Ctl * W) B := λ sw, (((f sw.1).1, sw.2), Ok (f sw.1).2).
Definition shared {B} (f : Ctl → Ctl * B) : io (Ctl * W) B := _ ← pause; locked f.
Definition call {B} (m : io W B) : io (Ctl * W) B := _ ← pause; beside m.

Definition stop (id : nat) (s : Ctl) : Ctl := at_id cancelled id s.
Definition unregister (key : NamespacedName) : Ctl → Ctl := with_registry (λ r, Unregister r key).

(** The end of a runtime, if there is one. *)
Definition stopRegistered (key : NamespacedName) : io (Ctl * W) unit :=
  runtime ← shared (λ s, (s, Get (Ctl_Registry s) key));
  match runtime with
  | Some v =>
      _ ← shared (λ s, (stop (RV_Stop v) s, tt));
      shared (λ s, (unregister key s, tt))
  | None => mret tt
  end.

Definition with_finalizers (ts : TargetSource) (l : list string) : TargetSource :=
  MkResource {| Name := Name (Meta ts); Namespace := Namespace (Meta ts); Labels := Labels (Meta ts);
                Annotations := Annotations (Meta ts); Finalizers := l;
                DeletionTimestamp := DeletionTimestamp (Meta ts); Generation := Generation (Meta ts) |} (Spec ts) (Status ts).

(** [discovery.NewLoader]: the configuration it completes and the specification the loader
    gets; [None] is the panic on a source without provider. *)
Definition NewLoader (cfg : CommonLoaderConfig W) (spec : TargetSourceSpec) : option (res (CommonLoaderConfig W * HTTPConfig)) :=
  match TSrc_Provider spec with
  | None => None
  | Some provider =>
      Some match Prov_HTTP provider with
           | Some http => Ok ({| LCfg_NN := LCfg_NN cfg; LCfg_ChunkSize := LCfg_ChunkSize cfg;
                                 LCfg_AcceptPush := match HTTP_Push http with Some push => Push_Enabled push | None => false end;
                                 LCfg_ResourceFetcher := Some newK8sResourceFetcher |}, http)
           | None => Err (ErrMsg "unknown targetsource provider, check TargetSource CRD")
           end
  end.

(** [TargetSourceReconciler], with flags for the two sizes. *)
Record TargetSourceReconciler := { TSR_BufferSize : Z; TSR_ChunkSize : Z }.
Context (r : TargetSourceReconciler).

Definition reconcileDeletion (key : NamespacedName) (ts : TargetSource) : io (Ctl * W) unit :=
  _ ← stopRegistered key;
  if decide (LabelTargetSourceFinalizer ∈ Finalizers (Meta ts)) then
    _ ← call (api_update KTargetSource (with_finalizers ts (filter (λ f, f ≠ LabelTargetSourceFinalizer) (Finalizers (Meta ts)))));
    mret tt
  else mret tt.

(** What the pointer holds afterwards. *)
Definition ensureFinalizer (ts : TargetSource) : io (Ctl * W) TargetSource :=
  if decide (LabelTargetSourceFinalizer ∈ Finalizers (Meta ts)) then mret ts
  else call (api_update KTargetSource (with_finalizers ts (Finalizers (Meta ts) ++ [LabelTargetSourceFinalizer]))).

Definition newContext (key : NamespacedName) (ts : TargetSource) (s : Ctl) : Ctl * nat :=
  (with_runtimes (λ l, l ++ [{| RT_Key := key; RT_BufferSize := TSR_BufferSize r; RT_Cancelled := false; RT_Source := ts;
                                RT_Processor := NotStarted; RT_Loader := None |}]) s, length (Ctl_Runtimes s)).

Definition register (key : NamespacedName) (v : DiscoveryRegistryValue) (s : Ctl) : Ctl * res unit :=
  let '(registry, result) := Register (Ctl_Registry s) key v in (with_registry (λ _, registry) s, result).

(** The controller's manager makes an error of a panic. *)
Definition startDiscovery (key : NamespacedName) (ts : TargetSource) : io (Ctl * W) unit :=
  id ← shared (newContext key ts);
  match NewLoader {| LCfg_NN := key; LCfg_ChunkSize := TSR_ChunkSize r; LCfg_AcceptPush := false; LCfg_ResourceFetcher := None |} (Spec ts) with
  | None => io_fail (ErrMsg "nil pointer dereference")
  | Some (Err e) =>
      _ ← shared (λ s, (stop id s, tt));
      _ ← shared (λ s, (unregister key s, tt));
      io_fail e
  | Some (Ok (cfg, http)) =>
      result ← shared (register key {| RV_Stop := id; RV_CommonLoaderConfig := cfg |});
      _ ← io_lift result;
      _ ← shared (λ s, (at_id (with_processor Running) id s, tt));
      shared (λ s, (at_id (with_loader (Some (cfg, http))) id s, tt))
  end.

Definition with_observed (ts : TargetSource) : TargetSource :=
  MkResource (Meta ts) (Spec ts)
    {| TSrcSt_Status := TSrcSt_Status (Status ts); TSrcSt_ObservedGeneration := Generation (Meta ts);
       TSrcSt_TargetsCount := TSrcSt_TargetsCount (Status ts); TSrcSt_LastSync := TSrcSt_LastSync (Status ts) |}.

(** No branch asks to be called again; an error does. *)
Definition Reconcile (key : NamespacedName) : io (Ctl * W) unit :=
  found ← io_try (call (api_get KTargetSource key));
  match found with
  | Err ErrNotFound => stopRegistered key
  | Err e => io_fail e
  | Ok ts =>
      if decide (DeletionTimestamp (Meta ts) ≠ 0) then reconcileDeletion key ts else
      ts ← ensureFinalizer ts;
      exists_ ← shared (λ s, (s, Exists_ (Ctl_Registry s) key));
      if exists_ : bool then
        if decide (Generation (Meta ts) ≠ TSrcSt_ObservedGeneration (Status ts)) then reconcileDeletion key ts
        else mret tt
      else
        _ ← startDiscovery key ts;
        _ ← call (api_updateStatus KTargetSource (with_observed ts));
        mret tt
  end.
End Controller.

(** ** One runtime per source *)

(** A goroutine of the runtime is at work for a context that has not ended. *)
Definition live {W} (rt : Runtime (W := W)) : Prop :=
  RT_Cancelled rt = false ∧ (RT_Processor rt = Running ∨ is_Some (RT_Loader rt)).

(** [Run] of its message processor or the clean-up after it is not through. *)
Definition busy {W} (rt : Runtime (W := W)) : Prop := RT_Processor rt = Running ∨ RT_Processor rt = Cleaning.

(** The runtime of [id] is the registered one of its key. *)
Definition registered {W} (s : Ctl (W := W)) (key : NamespacedName) (id : nat) : Prop :=
  RV_Stop <$> Ctl_Registry s !! key = Some id.

(** Whatever of [key] is not registered has ended. *)
Definition settled {W} (key : NamespacedName) (s : Ctl (W := W)) : Prop :=
  ∀ id rt, Ctl_Runtimes s !! id = Some rt → RT_Key rt = key → busy rt → registered s key id.

Record ctl_ok {W} (s : Ctl (W := W)) : Prop := {
  ok_live : ∀ id rt, Ctl_Runtimes s !! id = Some rt → RT_Cancelled rt = false → RT_Processor rt ≠ NotStarted →
    RT_Processor rt = Running ∧ registered s (RT_Key rt) id;
  ok_old : ∀ id rt id', Ctl_Runtimes s !! id = Some rt → registered s (RT_Key rt) id' → busy rt → id = id';
  ok_loader : ∀ id rt, Ctl_Runtimes s !! id = Some rt → is_Some (RT_Loader rt) → RT_Processor rt ≠ NotStarted
}.

Lemma alter_Some {X} (f : X → X) i (l : list X) j y :
  alter f i l !! j = Some y ↔ (j = i ∧ ∃ x, l !! i = Some x ∧ y = f x) ∨ (j ≠ i ∧ l !! j = Some y).
Proof.
  destruct (decide (j = i)) as [->|Hj].
  - rewrite list_lookup_alter_eq, fmap_Some. naive_solver.
  - rewrite list_lookup_alter_ne by done. naive_solver.
Qed.

Lemma alter_snoc {X} (f : X → X) l x : alter f (length l) (l ++ [x]) = (l ++ [f x])%list.
Proof. induction l as [|y l IH]; [done|]. cbn. f_equal. exact IH. Qed.

(** Every runtime in the changed list is an old one, or the old one at its place changed. *)
Ltac altered :=
  repeat match goal with H : alter _ _ _ !! _ = Some _ |- _ => apply alter_Some in H as [(-> & ? & ? & ->)|[? H]] end;
  cbn in *; simplify_eq.

Section Invariant.
Context {W : Type} `{A : KubeApi W}.
Implicit Types (s : Ctl (W := W)) (I E : Ctl (W := W) → Prop).

(** What the goroutines cannot break. *)
Definition stable I : Prop := (∀ s a, I s → I (act s a)) ∧ ∀ s l, I s → I (with_schedule l s).

(** From a state of [I] the reconciler gets to one of [J] when it returns, and to one of
    [E] when it fails. *)
Definition triple {B} E I (m : io (Ctl (W := W) * W) B) (J : B → Ctl → Prop) : Prop :=
  ∀ sw, I sw.1 → match m sw with (sw', Ok b) => J b sw'.1 | (sw', Err _) => E sw'.1 end.

Lemma triple_ret {B} E (b : B) (J : B → Ctl → Prop) : triple E (J b) (mret b) J.
Proof. by intros sw. Qed.

Lemma triple_bind {B C} E I (m : io _ B) (f : B → io _ C) (J : B → Ctl → Prop) (K : C → Ctl → Prop) :
  triple E I m J → (∀ b, triple E (J b) (f b) K) → triple E I (m ≫= f) K.
Proof.
  intros Hm Hf sw Hs. specialize (Hm sw Hs). unfold mbind, io_bind.
  destruct (m sw) as [sw1 [b|e]]; [by apply Hf|done].
Qed.

Lemma triple_weaken {B} E I (I' : Ctl → Prop) (m : io _ B) (J J' : B → Ctl → Prop) :
  triple E I m J → (∀ s, I' s → I s) → (∀ b s, J b s → J' b s) → triple E I' m J'.
Proof. intros Hm H1 H2 sw Hs. specialize (Hm sw (H1 _ Hs)). destruct (m sw) as [? [|]]; auto. Qed.

Lemma triple_fail {B} E I e (J : B → Ctl → Prop) : (∀ s, I s → E s) → triple E I (io_fail (A := B) e) J.
Proof. intros H sw. apply H. Qed.

Lemma pause_stable I s : stable I → I s → ∀ w, I (pause (s, w)).1.1 ∧ ∃ s', pause (s, w) = ((s', w), Ok tt).
Proof.
  intros [H1 H2] Hs w. split; [|by eexists]. cbn. destruct (Ctl_Schedule s) as [|acts l]; [done|].
  apply (H2 _ l) in Hs. revert Hs. generalize (with_schedule l s). clear s.
  induction acts as [|a acts IH]; intros s Hs; cbn; [done|]. by apply IH, H1.
Qed.

Lemma triple_shared {B} E I (f : Ctl → Ctl * B) (J : B → Ctl → Prop) : stable I →
  (∀ s, I s → J (f s).2 (f s).1) → triple E I (shared f) J.
Proof.
  intros Hst Hf [s w] Hs. destruct (pause_stable I s Hst Hs w) as [Hi (s' & Ep)].
  unfold shared, mbind, io_bind. rewrite Ep in Hi |- *. cbn. by apply Hf.
Qed.

Lemma triple_call {B} E I (m : io W B) : stable I → (∀ s, I s → E s) → triple E I (call m) (λ _, I).
Proof.
  intros Hst Hok [s w] Hs. destruct (pause_stable I s Hst Hs w) as [Hi (s' & Ep)].
  unfold call, mbind, io_bind. rewrite Ep in Hi |- *. unfold beside. cbn. destruct (m w).2; [done|by apply Hok].
Qed.

Lemma triple_try_call {B} E I (m : io W B) : stable I → triple E I (io_try (call m)) (λ _, I).
Proof.
  intros Hst [s w] Hs. destruct (pause_stable I s Hst Hs w) as [Hi (s' & Ep)].
  unfold io_try, call, mbind, io_bind. rewrite Ep in Hi |- *. done.
Qed.


Lemma registered_delete s key key' id : RV_Stop <$> delete key (Ctl_Registry s) !! key' = Some id ↔ key' ≠ key ∧ registered s key' id.
Proof.
  unfold registered. destruct (decide (key' = key)) as [->|Hk].
  - rewrite lookup_delete_eq. naive_solver.
  - rewrite lookup_delete_ne by done. naive_solver.
Qed.

Lemma ok_act s a : ctl_ok s → ctl_ok (act s a).
Proof.
  intros [H1 H2 H3]. destruct a as [i|i|i]; cbn.
  - destruct (Ctl_Runtimes s !! i) as [x|] eqn:Ex; [case_decide as Hp|]; [|by split..].
    split; unfold registered; cbn; [intros id rt Hl Hc Hn|intros id rt id' Hl Hr Hb|intros id rt Hl Hs]; altered; eauto.
    eapply H2; [done|done|by left].
  - destruct (Ctl_Runtimes s !! i) as [x|] eqn:Ex; [case_decide as Hp|]; [|by split..].
    split; unfold registered; cbn; [intros id rt Hl Hc Hn|intros id rt id' Hl Hr Hb|intros id rt Hl Hs]; altered; eauto.
    + destruct (H1 _ _ Ex) as [? _]; congruence.
    + destruct (H1 id rt) as [? Hr]; [done..|]. split; [done|]. apply registered_delete. split; [|done].
      intros Hk. rewrite Hk in Hr. assert (i = id) by (eapply (H2 i x); [done|done|by right]). congruence.
    + by destruct Hb.
    + apply registered_delete in Hr as [_ Hr]. eauto.
  - split; unfold registered; cbn; [intros id rt Hl Hc Hn|intros id rt id' Hl Hr Hb|intros id rt Hl Hs]; altered; eauto.
    by destruct Hs.
Qed.

Lemma stable_ok : stable ctl_ok.
Proof. split; [exact ok_act|]. intros s l [H1 H2 H3]. by split. Qed.

(** What acts leave of a registration and of a runtime. *)
Lemma act_registered s a key id : registered (act s a) key id → registered s key id.
Proof.
  destruct a as [i|i|i]; cbn; [| |done]; destruct (Ctl_Runtimes s !! i) as [x|]; try done; case_decide; try done.
  by intros [_ Hr]%registered_delete.
Qed.

Definition evolves (rt rt' : Runtime (W := W)) : Prop :=
  RT_Key rt' = RT_Key rt ∧ (RT_Cancelled rt = true → RT_Cancelled rt' = true) ∧ (busy rt' → busy rt) ∧
  (RT_Processor rt' = Running → RT_Processor rt = Running) ∧ (RT_Processor rt' = NotStarted ↔ RT_Processor rt = NotStarted) ∧ (RT_Loader rt = None → RT_Loader rt' = None).

Lemma alter_evolves f i (l : list (Runtime (W := W))) id : (∀ x, l !! i = Some x → evolves x (f x)) →
  option_Forall2 evolves (l !! id) (alter f i l !! id).
Proof.
  intros Hf. rewrite list_lookup_alter. case_decide as Hi; [subst|].
  - destruct (l !! id) as [x|]; constructor. by apply Hf.
  - destruct (l !! id); constructor. by split_and!.
Qed.

Lemma act_evolves s a id : option_Forall2 evolves (Ctl_Runtimes s !! id) (Ctl_Runtimes (act s a) !! id).
Proof.
  assert (option_Forall2 evolves (Ctl_Runtimes s !! id) (Ctl_Runtimes s !! id)) as Hrefl.
  { destruct (Ctl_Runtimes s !! id); constructor. by split_and!. }
  destruct a as [i|i|i]; cbn.
  1,2: destruct (Ctl_Runtimes s !! i) as [x|] eqn:Ex; [|done]; case_decide as Hp; [|done]; apply alter_evolves;
    intros y Hy; cbn in Hy; rewrite Ex in Hy; injection Hy as <-;
    unfold evolves, busy; cbn; rewrite Hp; split_and!; try done; tauto.
  apply alter_evolves. by intros x _; split_and!.
Qed.

Lemma act_back s a id rt' : Ctl_Runtimes (act s a) !! id = Some rt' → ∃ rt, Ctl_Runtimes s !! id = Some rt ∧ evolves rt rt'.
Proof. intros Ha. pose proof (act_evolves s a id) as He. rewrite Ha in He. inversion He; subst. eauto. Qed.

Lemma act_on s a id rt : Ctl_Runtimes s !! id = Some rt → ∃ rt', Ctl_Runtimes (act s a) !! id = Some rt' ∧ evolves rt rt'.
Proof. intros Ha. pose proof (act_evolves s a id) as He. rewrite Ha in He. inversion He; subst. eauto. Qed.

Definition ready key s : Prop := ctl_ok s ∧ settled key s.
(** A context made for [key], nothing of it started. *)
Definition fresh key id s : Prop :=
  ∃ rt, Ctl_Runtimes s !! id = Some rt ∧ RT_Key rt = key ∧ RT_Processor rt = NotStarted ∧ RT_Loader rt = None.
Definition only key id s : Prop := ∀ id', registered s key id' → id' = id.
Definition stopped_ key s : Prop :=
  ∀ id rt, registered s key id → Ctl_Runtimes s !! id = Some rt → RT_Cancelled rt = true.

Lemma settled_act key s a : ctl_ok s → settled key s → settled key (act s a).
Proof.
  intros Hok Hs id rt' Hl Hk Hb. destruct (act_back _ _ _ _ Hl) as (rt & Hrt & Hke & _ & Hbe & _ & _).
  rewrite Hke in Hk. specialize (Hs id rt Hrt Hk (Hbe Hb)). destruct a as [i|i|i]; cbn in *; [| |done].
  - destruct (Ctl_Runtimes s !! i) as [x|] eqn:Ex; [case_decide|]; done.
  - destruct (Ctl_Runtimes s !! i) as [x|] eqn:Ex; [case_decide as Hp|]; try done.
    apply registered_delete. split; [|done]. intros Hx. rewrite Hx in Hs.
    assert (i = id) as -> by (eapply (ok_old s Hok i x); [done|done|by right]).
    cbn in Hl. rewrite list_lookup_alter_eq, Ex in Hl. injection Hl as <-. by destruct Hb.
Qed.

Lemma stable_and (I J : Ctl → Prop) : stable I → stable J → stable (λ s, I s ∧ J s).
Proof. intros [H1 H2] [H3 H4]. split; naive_solver. Qed.

Lemma stable_ready key : stable (ready key).
Proof.
  split; [|intros s l [[H1 H2 H3] H4]; by split].
  intros s a [H1 H2]. split; [by apply ok_act|by apply settled_act].
Qed.

Lemma stable_fresh key id : stable (fresh key id).
Proof.
  split; [|by intros s l H].
  intros s a (rt & Hl & Hk & Hp & Hn). destruct (act_on s a id rt Hl) as (rt' & Hl' & E1 & _ & _ & _ & E2 & E3).
  exists rt'. split; [done|]. split; [congruence|]. split; [by apply E2|by apply E3].
Qed.

Lemma stable_unregistered key : stable (λ s, Ctl_Registry s !! key = None).
Proof.
  split; [|by intros s l H]. intros s a Hn. destruct (Ctl_Registry (act s a) !! key) as [v|] eqn:E; [|done].
  assert (registered (act s a) key (RV_Stop v)) as Hr by (unfold registered; by rewrite E).
  apply act_registered in Hr. unfold registered in Hr. by rewrite Hn in Hr.
Qed.

Lemma stable_only key id : stable (only key id).
Proof. split; [|by intros s l H]. intros s a H id' Hr. by apply H, (act_registered s a). Qed.

Lemma stable_stopped key : stable (stopped_ key).
Proof.
  split; [|by intros s l H]. intros s a H id rt' Hr Hl. destruct (act_back _ _ _ _ Hl) as (rt & Hrt & _ & Hc & _).
  eapply Hc, H; [by eapply act_registered|done].
Qed.

(** A fresh context is not what an act unregisters. *)
Lemma stable_registered key id : stable (λ s, ctl_ok s ∧ fresh key id s ∧ registered s key id).
Proof.
  split; [|intros s l [[H1 H2 H3] H]; by split]. intros s a (Hok & Hf & Hr).
  split; [by apply ok_act|]. split; [by apply stable_fresh|].
  destruct a as [i|i|i]; cbn; [| |done]; destruct (Ctl_Runtimes s !! i) as [x|] eqn:Ex; try done; case_decide as Hp; try done.
  apply registered_delete. split; [|done]. intros ->.
  assert (i = id) as -> by (eapply (ok_old s Hok i x); [done|done|by right]).
  destruct Hf as (rt & Hl & _ & Hn & _). assert (rt = x) as -> by congruence. congruence.
Qed.
End Invariant.

Section Steps.
Context {W : Type} `{A : KubeApi W} (r : TargetSourceReconciler).
Implicit Types (s : Ctl (W := W)).

Lemma ok_cancel s id : ctl_ok s → ctl_ok (stop id s).
Proof.
  intros [H1 H2 H3]. split; unfold registered; cbn;
    [intros j rt Hl Hc Hn|intros j rt id' Hl Hr Hb|intros j rt Hl Hs]; altered; eauto.
Qed.

Lemma ok_unregister key s : ctl_ok s → stopped_ key s → ctl_ok (unregister key s).
Proof.
  intros [H1 H2 H3] Hst. split; unfold registered; cbn; [| |done].
  - intros id rt Hl Hc Hn. destruct (H1 id rt Hl Hc Hn) as [Hp Hr]. split; [done|]. apply registered_delete. split; [|done].
    intros Hk. rewrite Hk in Hr. rewrite (Hst id rt Hr Hl) in Hc. done.
  - intros id rt id' Hl [_ Hr]%registered_delete Hb. by eapply H2.
Qed.

Lemma ready_new key ts s : ready key s → Ctl_Registry s !! key = None →
  ready key (newContext r key ts s).1 ∧ Ctl_Registry (newContext r key ts s).1 !! key = None ∧
  fresh key (newContext r key ts s).2 (newContext r key ts s).1.
Proof.
  intros [[H1 H2 H3] H4] Hn. cbn. split; [split; [split|]|split; [done|]]; cbn.
  - intros id rt [[_ Hl]|[_ <-]]%lookup_snoc_Some Hc Hp; [by eapply H1|done].
  - intros id rt id' [[_ Hl]|[_ <-]]%lookup_snoc_Some Hr Hb; [by eapply H2|by destruct Hb].
  - intros id rt [[_ Hl]|[_ <-]]%lookup_snoc_Some; [by eapply H3|by intros []].
  - intros id rt [[_ Hl]|[_ <-]]%lookup_snoc_Some Hk Hb; [by eapply H4|by destruct Hb].
  - eexists. split; [cbn; by rewrite lookup_app_r, Nat.sub_diag by done|done].
Qed.

Lemma registered_insert s key v key' id : RV_Stop <$> <[key := v]> (Ctl_Registry s) !! key' = Some id ↔
  (key' = key ∧ id = RV_Stop v) ∨ (key' ≠ key ∧ registered s key' id).
Proof.
  unfold registered. destruct (decide (key' = key)) as [->|Hk].
  - rewrite lookup_insert_eq. cbn. naive_solver.
  - rewrite lookup_insert_ne by done. naive_solver.
Qed.

(** What is not registered is not busy, so nothing of the key is in the way. *)
Lemma ok_register key v s : ready key s → Ctl_Registry s !! key = None → fresh key (RV_Stop v) s →
  ∃ s', register key v s = (s', Ok tt) ∧ ctl_ok s' ∧ fresh key (RV_Stop v) s' ∧ registered s' key (RV_Stop v).
Proof.
  intros [[H1 H2 H3] H4] Hn Hf. unfold register.
  assert (Register (Ctl_Registry s) key v = match Ctl_Registry s !! key with
    Some _ => (Ctl_Registry s, Err (ErrMsg "already registered")) | None => (<[key := v]> (Ctl_Registry s), Ok tt) end)
    as -> by reflexivity. rewrite Hn.
  eexists. split; [done|].
  split; [|split; [exact Hf|unfold registered; cbn; by rewrite lookup_insert_eq]].
  assert (∀ id, ¬ registered s key id) as Hnone by (intros id Hr; unfold registered in Hr; by rewrite Hn in Hr).
  split; unfold registered; cbn; [| |done].
  - intros id rt Hl Hc Hp. destruct (H1 id rt Hl Hc Hp) as [Hr Hreg]. split; [done|]. apply registered_insert. right.
    split; [|done]. intros Hk. rewrite Hk in Hreg. by eapply Hnone.
  - intros id rt id' Hl [[Hk ->]|[Hk Hr]]%registered_insert Hb; [|by eapply H2].
    exfalso. apply (Hnone id). by apply (H4 id rt).
Qed.

Lemma ok_running key id s : ctl_ok s → fresh key id s → registered s key id →
  ctl_ok (at_id (with_processor Running) id s) ∧
  ∃ rt, Ctl_Runtimes (at_id (with_processor Running) id s) !! id = Some rt ∧ RT_Processor rt ≠ NotStarted.
Proof.
  intros [H1 H2 H3] (rt & Hl & Hk & Hp & Hn) Hr. split.
  - split; unfold registered; cbn; [intros j x Hx Hc Hb|intros j x id' Hx Hg Hb|intros j x Hx Hs]; altered; eauto.
    unfold registered in Hr. congruence.
  - exists (with_processor Running rt). cbn. by rewrite list_lookup_alter_eq, Hl.
Qed.

Lemma stable_started id : stable (λ s, ctl_ok s ∧ ∃ rt, Ctl_Runtimes s !! id = Some rt ∧ RT_Processor rt ≠ NotStarted).
Proof.
  split; [|intros s l [[H1 H2 H3] H]; by split]. intros s a [Hok (rt & Hl & Hp)]. split; [by apply ok_act|].
  destruct (act_on s a id rt Hl) as (rt' & Hl' & _ & _ & _ & _ & Hn & _). exists rt'. split; [done|]. by rewrite Hn.
Qed.

Lemma ok_loading x id s : ctl_ok s → (∃ rt, Ctl_Runtimes s !! id = Some rt ∧ RT_Processor rt ≠ NotStarted) →
  ctl_ok (at_id (with_loader x) id s).
Proof.
  intros [H1 H2 H3] (rt & Hl & Hp).
  split; unfold registered; cbn; [intros j y Hy Hc Hb|intros j y id' Hy Hg Hb|intros j y Hy Hs]; altered; eauto.
Qed.

Lemma triple_stopRegistered key : triple ctl_ok ctl_ok (stopRegistered (W := W) key) (λ _, ctl_ok).
Proof.
  unfold stopRegistered. apply triple_bind with
    (J := λ v s, ctl_ok s ∧ match v with Some v => only key (RV_Stop v) s | None => True end).
  { apply triple_shared; [exact stable_ok|]. intros s Hs. cbn. split; [done|]. change (Get ?m ?k) with (m !! k).
    destruct (Ctl_Registry s !! key) as [v|] eqn:E; [|done]. intros id. unfold registered. rewrite E. cbn. congruence. }
  intros [v|]; [|eapply triple_weaken; [apply (triple_ret _ tt (λ _, ctl_ok))|by intros s []|done]].
  apply triple_bind with (J := λ _ s, ctl_ok s ∧ stopped_ key s).
  - apply triple_shared; [apply stable_and; [exact stable_ok|apply stable_only]|]. intros s [Hok Ho]. cbn.
    split; [by apply ok_cancel|]. intros id rt Hr Hl. apply Ho in Hr as ->. cbn in Hl.
    by apply alter_Some in Hl as [(_ & x & _ & ->)|[]].
  - intros []. apply triple_shared; [apply stable_and; [exact stable_ok|apply stable_stopped]|].
    intros s [Hok Hs]. by apply ok_unregister.
Qed.

Lemma triple_deletion key ts : triple ctl_ok ctl_ok (reconcileDeletion key ts) (λ _, ctl_ok).
Proof.
  unfold reconcileDeletion. eapply triple_bind; [apply triple_stopRegistered|]. intros []. case_decide; [|apply (triple_ret _ tt (λ _, ctl_ok))].
  eapply triple_bind; [apply triple_call; [exact stable_ok|done]|]. intros o. apply (triple_ret _ tt (λ _, ctl_ok)).
Qed.

Lemma triple_start key ts :
  triple ctl_ok (λ s, ready key s ∧ Ctl_Registry s !! key = None) (startDiscovery r key ts) (λ _, ctl_ok).
Proof.
  assert (∀ id, stable (λ s : Ctl (W := W), ready key s ∧ Ctl_Registry s !! key = None ∧ fresh key id s)) as Hst.
  { intros id. apply stable_and; [apply stable_ready|]. apply stable_and; [apply stable_unregistered|apply stable_fresh]. }
  unfold startDiscovery. eapply triple_bind.
  { apply triple_shared with (J := λ id s, ready key s ∧ Ctl_Registry s !! key = None ∧ fresh key id s);
      [apply stable_and; [apply stable_ready|apply stable_unregistered]|]. intros s [H1 H2]. by apply ready_new. }
  intros id. destruct (NewLoader _ _) as [[[cfg http]|e]|].
  - eapply triple_bind.
    { apply triple_shared with (J := λ result s, result = Ok tt ∧ ctl_ok s ∧ fresh key id s ∧ registered s key id); [apply Hst|].
      intros s (H1 & H2 & H3). destruct (ok_register key {| RV_Stop := id; RV_CommonLoaderConfig := cfg |} s)
        as (s' & E & H4 & H5 & H6); [done..|]. rewrite E. done. }
    intros result. eapply triple_bind with (J := λ _ s, ctl_ok s ∧ fresh key id s ∧ registered s key id).
    { intros [s w] [-> Hs]. exact Hs. }
    intros []. eapply triple_bind.
    { apply triple_shared with (J := λ _ s, ctl_ok s ∧ ∃ rt, Ctl_Runtimes s !! id = Some rt ∧ RT_Processor rt ≠ NotStarted);
        [apply stable_registered|]. intros s (H1 & H2 & H3). by eapply ok_running. }
    intros []. apply triple_shared; [apply stable_started|]. intros s [H1 H2]. by apply ok_loading.
  - eapply triple_bind.
    { apply triple_shared with (J := λ _ s, ctl_ok s ∧ stopped_ key s); [apply Hst|]. intros s ([H1 _] & H2 & _). cbn.
      split; [by apply ok_cancel|]. intros i rt Hr. unfold registered in Hr. cbn in Hr. by rewrite H2 in Hr. }
    intros []. eapply triple_bind with (J := λ _, ctl_ok); [|intros []; by apply triple_fail].
    apply triple_shared; [apply stable_and; [exact stable_ok|apply stable_stopped]|]. intros s [H1 H2]. by apply ok_unregister.
  - apply triple_fail. by intros s [[H _] _].
Qed.

Lemma triple_Reconcile key : triple ctl_ok (ready key) (Reconcile r key) (λ _, ctl_ok).
Proof.
  assert (∀ s : Ctl (W := W), ready key s → ctl_ok s) as Hrd by by intros s [H _].
  unfold Reconcile. eapply triple_bind; [apply triple_try_call, stable_ready|]. intros [ts|[| |msg]];
    [|by eapply triple_weaken; [apply triple_stopRegistered|..]|by apply triple_fail..].
  case_decide; [by eapply triple_weaken; [apply triple_deletion|..]|].
  eapply triple_bind with (J := λ _, ready key).
  { unfold ensureFinalizer. case_decide; [apply (triple_ret _ _ (λ _, ready key))|].
    by apply triple_call; [apply stable_ready|]. }
  clear. intros ts. eapply triple_bind with (J := λ b s, ready key s ∧ (b = false → Ctl_Registry s !! key = None)).
  { apply triple_shared; [apply stable_ready|]. intros s Hs. cbn. split; [done|]. unfold Exists_. rewrite bool_decide_eq_false.
    intros Hn. by apply eq_None_not_Some in Hn. }
  intros [].
  - case_decide; [eapply triple_weaken; [apply triple_deletion|by intros s [[H1 _] _]|done]|].
    intros [s w] [[H1 _] _]. exact H1.
  - eapply triple_bind; [eapply triple_weaken; [apply triple_start| |done]; naive_solver|]. intros [].
    eapply triple_bind; [apply triple_call; [exact stable_ok|done]|]. intros o [s w] Hs. exact Hs.
Qed.
End Steps.

(** ** What a reconciliation of another source leaves alone *)

Section Others.
Context {W : Type} `{A : KubeApi W} (r : TargetSourceReconciler).
Implicit Types (s : Ctl (W := W)) (key : NamespacedName).

Definition no_live key s : Prop := ∀ id rt, Ctl_Runtimes s !! id = Some rt → RT_Key rt = key → ¬ live rt.

Lemma stable_no_live key : stable (no_live key).
Proof.
  split; [|by intros s l H]. intros s a H id rt' Hl Hk [Hc Hw].
  destruct (act_back _ _ _ _ Hl) as (rt & Hrt & Hke & E1 & _ & E2 & _ & E3).
  apply (H id rt Hrt); [congruence|]. split.
  - destruct (RT_Cancelled rt); [|done]. by rewrite E1 in Hc.
  - destruct Hw as [Hw|Hw]; [left; by apply E2|right]. destruct (RT_Loader rt); [done|]. rewrite E3 in Hw by done. by destruct Hw.
Qed.

(** The runtime at [id] is of [key]. *)
Definition names key id s : Prop := ∃ rt, Ctl_Runtimes s !! id = Some rt ∧ RT_Key rt = key.

Lemma stable_names key id : stable (names key id).
Proof.
  split; [|by intros s l H]. intros s a (rt & Hl & Hk). destruct (act_on s a id rt Hl) as (rt' & Hl' & E & _).
  exists rt'. split; [done|congruence].
Qed.

Lemma no_live_stop key s id : no_live key s → no_live key (stop id s).
Proof. intros H j rt Hl Hk [Hc Hw]. cbn in Hl. altered. by apply (H j rt). Qed.

Lemma no_live_at key other f id s : key ≠ other → (∀ rt, RT_Key (f rt) = RT_Key rt) → no_live key s → names other id s →
  no_live key (at_id f id s) ∧ names other id (at_id f id s).
Proof.
  intros Hne Hf H (x & Hx & Hxk). split.
  - intros j rt [(-> & y & Hy & ->)|[_ Hl]]%alter_Some Hk; [|by apply (H j)].
    rewrite Hf in Hk. congruence.
  - exists (f x). cbn. rewrite list_lookup_alter_eq, Hx, Hf. done.
Qed.

Lemma other_stopRegistered key other : triple (no_live key) (no_live key) (stopRegistered (W := W) other) (λ _, no_live key).
Proof.
  unfold stopRegistered. eapply triple_bind; [apply (triple_shared _ _ _ (λ _, no_live key)); [apply stable_no_live|done]|].
  intros [v|]; [|apply (triple_ret _ tt (λ _, no_live key))].
  eapply triple_bind; [apply (triple_shared _ _ _ (λ _, no_live key)); [apply stable_no_live|]|].
  - intros s. apply no_live_stop.
  - intros []. by apply triple_shared; [apply stable_no_live|].
Qed.

Lemma other_deletion key other ts : triple (no_live key) (no_live key) (reconcileDeletion other ts) (λ _, no_live key).
Proof.
  unfold reconcileDeletion. eapply triple_bind; [apply other_stopRegistered|]. intros [].
  case_decide; [|apply (triple_ret _ tt (λ _, no_live key))].
  eapply triple_bind; [by apply triple_call; [apply stable_no_live|]|]. intros o. apply (triple_ret _ tt (λ _, no_live key)).
Qed.

Lemma other_start key other ts : key ≠ other →
  triple (no_live key) (no_live key) (startDiscovery r other ts) (λ _, no_live key).
Proof.
  intros Hne. set (I id s := no_live key s ∧ names other id s).
  assert (∀ id, stable (I id)) as Hst by (intros id; apply stable_and; [apply stable_no_live|apply stable_names]).
  unfold startDiscovery. eapply triple_bind with (J := I).
  { apply triple_shared; [apply stable_no_live|]. intros s H. split; [|exists {| RT_Key := other; RT_BufferSize := TSR_BufferSize r;
      RT_Cancelled := false; RT_Source := ts; RT_Processor := NotStarted; RT_Loader := None |}; cbn; by rewrite lookup_app_r, Nat.sub_diag by done].
    intros id rt [[_ Hl]|[_ <-]]%lookup_snoc_Some; [by apply (H id)|done]. }
  intros id. destruct (NewLoader _ _) as [[[cfg http]|e]|]; [| |apply triple_fail; by intros s []].
  - eapply triple_bind with (J := λ _, I id).
    { apply triple_shared; [apply Hst|]. intros s H. unfold register. by destruct (Register _ _ _). }
    intros result. eapply triple_bind with (J := λ _, I id).
    { intros [s w] Hs. destruct result; [exact Hs|apply Hs]. }
    intros []. eapply triple_bind with (J := λ _, I id).
    { apply triple_shared; [apply Hst|]. intros s [H1 H2]. by apply no_live_at. }
    intros []. apply triple_shared; [apply Hst|]. intros s [H1 H2]. by eapply no_live_at.
  - eapply triple_bind with (J := λ _, no_live key).
    { apply triple_shared; [apply Hst|]. intros s [H1 _]. by apply no_live_stop. }
    intros []. eapply triple_bind with (J := λ _, no_live key); [by apply triple_shared; [apply stable_no_live|]|].
    intros []. by apply triple_fail.
Qed.

Lemma other_Reconcile key other : key ≠ other → triple (no_live key) (no_live key) (Reconcile r other) (λ _, no_live key).
Proof.
  intros Hne. unfold Reconcile. eapply triple_bind; [apply triple_try_call, stable_no_live|]. intros [ts|[| |msg]];
    [|apply other_stopRegistered|by apply triple_fail..].
  case_decide; [apply other_deletion|]. eapply triple_bind with (J := λ _, no_live key).
  { unfold ensureFinalizer. case_decide; [apply (triple_ret _ _ (λ _, no_live key))|]. by apply triple_call; [apply stable_no_live|]. }
  clear ts H. intros ts. eapply triple_bind with (J := λ _, no_live key); [by apply triple_shared; [apply stable_no_live|]|]. intros [].
  - case_decide; [apply other_deletion|apply (triple_ret _ tt (λ _, no_live key))].
  - eapply triple_bind; [by apply other_start|]. intros [].
    eapply triple_bind; [by apply triple_call; [apply stable_no_live|]|]. intros o. apply (triple_ret _ tt (λ _, no_live key)).
Qed.
End Others.
