(* ===== verification/SourceDiscovery.v ===== *)
(** The TargetSource controller in its surroundings: the manager's queue, the goroutines and
    the other writers as steps; what a reconciliation does; and the way from a source
    through its loader and its message processor to the Targets. *)

From S2P Require Import Prelude GoLib Api KubeClient Discovery MessageProcessor Kube Names HttpMapper HttpLoader TargetSourceCtl.
#[local] Open Scope Z_scope.

(** ** The controller in its surroundings *)

Section System.
Context {W : Type} `{A : KubeApi W} `{V : ApiStore W} (r : TargetSourceReconciler).

(** The reconciler's state, the world, and the keys the manager will have it reconcile. *)
Record Sys := { Sys_Ctl : Ctl (W := W); Sys_World : W; Sys_Queue : NamespacedName → Prop }.

(** [predicate.GenerationChangedPredicate] on what happened to a source. *)
Definition changed (old new : option TargetSource) : bool :=
  match old, new with
  | Some old, Some new => bool_decide (Generation (Meta old) ≠ Generation (Meta new))
  | None, None => false
  | _, _ => true
  end.
Definition source_changed (w w' : W) (key : NamespacedName) : Prop :=
  changed (view w KTargetSource !! key) (view w' KTargetSource !! key) = true.

(** A goroutine moves; others write; or a queued key is reconciled, whatever the
    goroutines do meanwhile, and queued again after an error.  [guard] says when a
    reconciliation may begin. *)
Inductive sys_step (guard : NamespacedName → Ctl (W := W) → Prop) : Sys → Sys → Prop :=
| sys_act s w q a : sys_step guard {| Sys_Ctl := s; Sys_World := w; Sys_Queue := q |}
    {| Sys_Ctl := act s a; Sys_World := w; Sys_Queue := q |}
| sys_write s w w' q : sys_step guard {| Sys_Ctl := s; Sys_World := w; Sys_Queue := q |}
    {| Sys_Ctl := s; Sys_World := w'; Sys_Queue := λ k, q k ∨ source_changed w w' k |}
| sys_reconcile s w q key schedule s' w' result : q key → guard key s →
    Reconcile r key (with_schedule schedule s, w) = ((s', w'), result) →
    sys_step guard {| Sys_Ctl := s; Sys_World := w; Sys_Queue := q |}
      {| Sys_Ctl := s'; Sys_World := w';
         Sys_Queue := λ k, (q k ∧ k ≠ key) ∨ (k = key ∧ is_ok result = false) ∨ source_changed w w' k |}.

(** The operator has just started. *)
Definition sys_start (w : W) : Sys := {|
  Sys_Ctl := {| Ctl_Registry := ∅; Ctl_Runtimes := []; Ctl_Schedule := [] |}; Sys_World := w;
  Sys_Queue := λ k, is_Some (view w KTargetSource !! k) |}.

Lemma sys_ok w t : rtc (sys_step settled) (sys_start w) t → ctl_ok (Sys_Ctl t).
Proof.
  assert (ctl_ok (Sys_Ctl (sys_start w))) as Hs by (split; intros id rt; cbn; by rewrite lookup_nil).
  revert Hs. generalize (sys_start w). induction 2 as [|t1 t2 t3 Hstep _ IH]; [done|]. apply IH. clear IH.
  destruct Hstep as [s w1 q a|s w1 w2 q|s w1 q key schedule s' w2 result _ Hg H]; cbn in *; [by apply ok_act|done|].
  assert (ready key (with_schedule schedule s)) as Hr by (destruct Hs; by split).
  pose proof (triple_Reconcile r key (with_schedule schedule s, w1) Hr) as Ht. rewrite H in Ht. by destruct result.
Qed.

(** C29: No two runtimes of one source ever work side by side, provided no reconciliation of
    the source begins while the message processor of a runtime that was stopped before is
    still at work.  Whatever the goroutines and the other writers do in between, a runtime
    whose context has not ended is the one registered for its source. *)
Theorem one_runtime w t : rtc (sys_step settled) (sys_start w) t →
  (∀ id rt, Ctl_Runtimes (Sys_Ctl t) !! id = Some rt → live rt → registered (Sys_Ctl t) (RT_Key rt) id) ∧
  ∀ id1 id2 rt1 rt2, Ctl_Runtimes (Sys_Ctl t) !! id1 = Some rt1 → Ctl_Runtimes (Sys_Ctl t) !! id2 = Some rt2 →
    live rt1 → live rt2 → RT_Key rt1 = RT_Key rt2 → id1 = id2.
Proof.
  intros [H1 H2 H3]%sys_ok.
  assert (∀ id rt, Ctl_Runtimes (Sys_Ctl t) !! id = Some rt → live rt → registered (Sys_Ctl t) (RT_Key rt) id) as H.
  { intros id rt Hl [Hc Hw]. apply (H1 id rt Hl Hc). destruct Hw as [Hw|Hw]; [by rewrite Hw|by eapply H3]. }
  split; [done|]. intros id1 id2 rt1 rt2 Hl1 Hl2 Hw1 Hw2 Hk.
  pose proof (H _ _ Hl1 Hw1) as R1. pose proof (H _ _ Hl2 Hw2) as R2. unfold registered in *. congruence.
Qed.
End System.

(** ** What a reconciliation does *)

(** An update that changes nothing of the specification leaves the generation. *)
Class GenerationKept (W : Type) `{A : KubeApi W} `{V : ApiStore W} : Prop := gen_kept :
  ∀ k (o o' old : obj k) w w', api_update k o w = (w', Ok o') → view w k !! key_of o = Some old →
    Spec o = Spec old → Generation (Meta o) = Generation (Meta old) → Generation (Meta o') = Generation (Meta old).

(** What a key holds, whichever name the type of the value goes by. *)
Lemma held_same {X} (m : option X) x y : m = Some x → m = Some y → x = y.
Proof. congruence. Qed.
Lemma held_not {X} (m : option X) x : m = Some x → m = None → False.
Proof. congruence. Qed.

Section Exact.
Context {W : Type} `{L : ApiLaws W} `{Gk : !GenerationKept W} (r : TargetSourceReconciler).
Implicit Types (s : Ctl (W := W)).

(** The runtime of [key] is stopped and no longer registered. *)
Definition stopped key s : Ctl :=
  match Ctl_Registry s !! key with Some v => unregister key (stop (RV_Stop v) s) | None => s end.

(** One more runtime, registered and at work. *)
Definition started key ts cfg http s : Ctl := {|
  Ctl_Registry := <[key := {| RV_Stop := length (Ctl_Runtimes s); RV_CommonLoaderConfig := cfg |}]> (Ctl_Registry s);
  Ctl_Runtimes := Ctl_Runtimes s ++ [{| RT_Key := key; RT_BufferSize := TSR_BufferSize r; RT_Cancelled := false; RT_Source := ts;
                                        RT_Processor := Running; RT_Loader := Some (cfg, http) |}];
  Ctl_Schedule := Ctl_Schedule s |}.

Lemma shared_quiet {B} (f : Ctl → Ctl * B) s (w : W) : Ctl_Schedule s = [] →
  shared f (s, w) = (((f s).1, w), Ok (f s).2).
Proof. intros H. unfold shared, mbind, io_bind, pause, modify_state. cbn. by rewrite H. Qed.

Lemma call_quiet {B} (m : io W B) s w : Ctl_Schedule s = [] → call m (s, w) = ((s, (m w).1), (m w).2).
Proof. intros H. unfold call, mbind, io_bind, pause, modify_state. cbn. by rewrite H. Qed.

Lemma stopRegistered_quiet key s (w : W) : Ctl_Schedule s = [] → stopRegistered key (s, w) = ((stopped key s, w), Ok tt).
Proof.
  intros H. unfold stopRegistered, mbind at 1, io_bind at 1. rewrite shared_quiet by done. cbn [fst snd].
  change (Get ?m ?k) with (m !! k). unfold stopped. destruct (Ctl_Registry s !! key) as [v|]; [|done].
  unfold mbind, io_bind. rewrite shared_quiet by done. cbn [fst snd]. by rewrite shared_quiet.
Qed.

Lemma update_finalizers ts l (w w' : W) o : view w KTargetSource !! key_of ts = Some ts →
  api_update KTargetSource (with_finalizers ts l) w = (w', Ok o) →
  agree_off (only_at KTargetSource (key_of ts)) w w' ∧ key_of o = key_of ts ∧ Finalizers (Meta o) = l ∧ Spec o = Spec ts ∧
  Status o = Status ts ∧ Generation (Meta o) = Generation (Meta ts) ∧ DeletionTimestamp (Meta o) = DeletionTimestamp (Meta ts) ∧
  (view w' KTargetSource !! key_of ts = Some o ∨ (DeletionTimestamp (Meta ts) ≠ 0 ∧ view w' KTargetSource !! key_of ts = None)).
Proof.
  intros Hv Hu. pose proof (al_update KTargetSource (with_finalizers ts l) w) as [H1 H2]. rewrite Hu in H1, H2.
  pose proof (gen_kept KTargetSource (with_finalizers ts l) o ts w w' Hu Hv eq_refl eq_refl) as Hg. cbn [fst snd] in H1, H2.
  destruct (H2 o eq_refl) as ((K1 & _ & _ & K2 & K3) & old & Hold & K4 & K5 & Ha & Hd).
  pose proof (held_same _ _ _ Hold Hv) as ->. split_and!; try done.
  destruct (decide (DeletionTimestamp (Meta ts) = 0)) as [H0|H0]; [left; apply Ha; left; exact (eq_trans K5 H0)|].
  destruct (decide (l = [])) as [->|Hl]; [|left; apply Ha; right; intros Hn; apply Hl; exact (eq_trans (eq_sym K2) Hn)].
  right. split; [done|]. apply Hd. intros [Hn|Hn]; [apply H0; exact (eq_trans (eq_sym K5) Hn)|by apply Hn].
Qed.

Lemma reconcileDeletion_quiet key ts s (w : W) s' w' : Ctl_Schedule s = [] → key = key_of ts → view w KTargetSource !! key = Some ts →
  reconcileDeletion key ts (s, w) = ((s', w'), Ok tt) →
  s' = stopped key s ∧ agree_off (only_at KTargetSource key) w w' ∧
  (∀ o, view w' KTargetSource !! key = Some o → (LabelTargetSourceFinalizer ∉ Finalizers (Meta o)) ∧ Spec o = Spec ts ∧
     Status o = Status ts ∧ Generation (Meta o) = Generation (Meta ts)) ∧
  (DeletionTimestamp (Meta ts) = 0 → is_Some (view w' KTargetSource !! key)).
Proof.
  intros Hs -> Hv. unfold reconcileDeletion, mbind at 1, io_bind at 1. rewrite stopRegistered_quiet by done.
  assert (Ctl_Schedule (stopped (key_of ts) s) = []) as Hs' by (unfold stopped; by destruct (Ctl_Registry s !! key_of ts)).
  case_decide as Hf.
  - intros (sw1 & o & H & Hr)%io_bind_Ok. rewrite call_quiet in H by done. injection Hr as ->. revert H.
    destruct (api_update _ _ _) as [w1 r1] eqn:Eu. intros [= <- -> ->].
    pose proof (update_finalizers ts _ w w' o Hv Eu) as (U1 & _ & U2 & U3 & U4 & U5 & U6 & U7).
    split; [done|]. split; [done|]. split.
    + intros x Hx. destruct U7 as [U7|[_ U7]]; [|by destruct (held_not _ _ Hx U7)].
      pose proof (held_same _ _ _ Hx U7) as ->.
      split; [|done]. kinds. rewrite U2, list_elem_of_filter. by intros [].
    + intros Hd. destruct U7 as [U7|[Hn _]]; [exists o; exact U7|done].
  - intros [= <- <-]. split; [done|]. split; [done|]. split; [|by exists ts].
    intros x Hx. by pose proof (held_same _ _ _ Hx Hv) as ->.
Qed.

(** An error of the factory, with the context that was made for nothing cancelled. *)
Lemma startDiscovery_quiet key ts s (w : W) s' w' : Ctl_Schedule s = [] → Ctl_Registry s !! key = None →
  startDiscovery r key ts (s, w) = ((s', w'), Ok tt) →
  ∃ cfg http, NewLoader {| LCfg_NN := key; LCfg_ChunkSize := TSR_ChunkSize r; LCfg_AcceptPush := false; LCfg_ResourceFetcher := None |}
                (Spec ts) = Some (Ok (cfg, http)) ∧ w' = w ∧ s' = started key ts cfg http s.
Proof.
  intros Hs Hn. unfold startDiscovery. intros (sw1 & id & H & Hrest)%io_bind_Ok. rewrite shared_quiet in H by done. injection H as <- <-.
  destruct (NewLoader _ _) as [[[cfg http]|e]|] eqn:El; [| |done].
  - exists cfg, http. split; [done|]. cbn [fst snd] in Hrest.
    apply io_bind_Ok in Hrest as (sw1 & result & H & Hrest). rewrite shared_quiet in H by done. injection H as <- <-.
    assert (register key {| RV_Stop := length (Ctl_Runtimes s); RV_CommonLoaderConfig := cfg |} (newContext r key ts s).1 =
      (with_registry (λ m, <[key := {| RV_Stop := length (Ctl_Runtimes s); RV_CommonLoaderConfig := cfg |}]> m) (newContext r key ts s).1, Ok tt)) as Hreg.
    { unfold register. change (Register ?m ?k ?v) with (match m !! k with Some _ => (m, Err (ErrMsg "already registered")) | None => (<[k := v]> m, Ok tt) end).
      cbn [newContext fst with_runtimes Ctl_Registry]. by rewrite Hn. }
    cbn [fst snd newContext] in Hreg, Hrest. rewrite Hreg in Hrest. clear Hreg.
    apply io_bind_Ok in Hrest as (sw1 & [] & H & Hrest). injection H as <-.
    apply io_bind_Ok in Hrest as (sw1 & [] & H & Hrest). rewrite shared_quiet in H by done. injection H as <-.
    rewrite shared_quiet in Hrest by done. injection Hrest as <- <-. split; [done|].
    unfold started, at_id, with_runtimes, with_registry. cbn. f_equal.
    by rewrite !alter_snoc.
  - apply io_bind_Ok in Hrest as (sw1 & [] & H & Hrest). apply io_bind_Ok in Hrest as (sw2 & [] & _ & [=]).
Qed.

Lemma ensureFinalizer_quiet ts s (w : W) sw' o : Ctl_Schedule s = [] → view w KTargetSource !! key_of ts = Some ts →
  DeletionTimestamp (Meta ts) = 0 → ensureFinalizer ts (s, w) = (sw', Ok o) →
  sw'.1 = s ∧ agree_off (only_at KTargetSource (key_of ts)) w sw'.2 ∧ view sw'.2 KTargetSource !! key_of ts = Some o ∧
  key_of o = key_of ts ∧
  LabelTargetSourceFinalizer ∈ Finalizers (Meta o) ∧ DeletionTimestamp (Meta o) = 0 ∧
  Spec o = Spec ts ∧ Status o = Status ts ∧ Generation (Meta o) = Generation (Meta ts).
Proof.
  intros Hs Hv Hd. unfold ensureFinalizer. case_decide as Hf; [by intros [= <- <-]|]. rewrite call_quiet by done.
  destruct (api_update _ _ _) as [w1 r1] eqn:Eu. intros [= <- ->].
  pose proof (update_finalizers ts _ w w1 o Hv Eu) as (U1 & U0 & U2 & U3 & U4 & U5 & U6 & U7). kinds.
  destruct U7 as [U7|[Hn _]]; [|done]. split_and!; try done; [|congruence]. rewrite U2. apply elem_of_app. right. by left.
Qed.

Definition loader_base key : CommonLoaderConfig W :=
  {| LCfg_NN := key; LCfg_ChunkSize := TSR_ChunkSize r; LCfg_AcceptPush := false; LCfg_ResourceFetcher := None |}.

(** What a reconciliation that returns without an error has done to the runtimes and to
    the source, which is [ts] before and [now] after. *)
Inductive outcome key s (ts : TargetSource) : Ctl (W := W) → option TargetSource → Prop :=
| out_deleted now : DeletionTimestamp (Meta ts) ≠ 0 → (∀ o, now = Some o → LabelTargetSourceFinalizer ∉ Finalizers (Meta o)) →
    outcome key s ts (stopped key s) now
| out_running now : DeletionTimestamp (Meta ts) = 0 → is_Some (Ctl_Registry s !! key) →
    Generation (Meta ts) = TSrcSt_ObservedGeneration (Status ts) → LabelTargetSourceFinalizer ∈ Finalizers (Meta now) →
    Status now = Status ts → outcome key s ts s (Some now)
| out_changed now : DeletionTimestamp (Meta ts) = 0 → is_Some (Ctl_Registry s !! key) →
    Generation (Meta ts) ≠ TSrcSt_ObservedGeneration (Status ts) → (LabelTargetSourceFinalizer ∉ Finalizers (Meta now)) →
    Status now = Status ts → outcome key s ts (stopped key s) (Some now)
| out_started now made cfg http : DeletionTimestamp (Meta ts) = 0 → Ctl_Registry s !! key = None →
    NewLoader (loader_base key) (Spec ts) = Some (Ok (cfg, http)) → Spec made = Spec ts → key_of made = key →
    LabelTargetSourceFinalizer ∈ Finalizers (Meta now) →
    TSrcSt_ObservedGeneration (Status now) = Generation (Meta now) → outcome key s ts (started key made cfg http s) (Some now).

(** The rest, for a source that lives and has its finalizer. *)
Lemma reconcile_alive_quiet ts o s (w w1 w2 : W) s' w' :
  let key := key_of ts in
  Ctl_Schedule s = [] → agree_off nothing w w1 → agree_off (only_at KTargetSource key) w1 w2 → DeletionTimestamp (Meta ts) = 0 →
  view w2 KTargetSource !! key = Some o → key_of o = key → LabelTargetSourceFinalizer ∈ Finalizers (Meta o) →
  DeletionTimestamp (Meta o) = 0 → Spec o = Spec ts → Status o = Status ts → Generation (Meta o) = Generation (Meta ts) →
  (if Exists_ (Ctl_Registry s) key then
     if decide (Generation (Meta o) ≠ TSrcSt_ObservedGeneration (Status o)) then reconcileDeletion key o else mret tt
   else
     _ ← startDiscovery r key o;
     _ ← call (api_updateStatus KTargetSource (with_observed o));
     mret tt) (s, w2) = ((s', w'), Ok tt) →
  agree_off (only_at KTargetSource key) w w' ∧ outcome key s ts s' (view w' KTargetSource !! key) ∧
  ∀ now, view w' KTargetSource !! key = Some now → Spec now = Spec ts ∧ Generation (Meta now) = Generation (Meta ts).
Proof.
  intros key Hs Hag0 Hag Hd Hv Hk Hf Hod Hsp Hst Hg. unfold Exists_. change (is_Some (?m !! key)) with (is_Some (Ctl_Registry s !! key)).
  assert (agree_off (only_at KTargetSource key) w w2) as Hag2 by by eapply agree_nothing_off.
  case_bool_decide as Hx; [case_decide as Hgen|].
  - intros H. apply reconcileDeletion_quiet in H as (-> & H1 & H2 & H3); [|done..]. split; [by eapply agree_off_trans|].
    destruct (H3 Hod) as [now Hnow]. destruct (H2 now Hnow) as (J1 & J2 & J3 & J4). kinds. split.
    + rewrite Hnow. apply out_changed; congruence.
    + intros x Hx'. pose proof (held_same _ _ _ Hx' Hnow) as ->. split; congruence.
  - intros [= <- <-]. split; [done|]. split.
    + kinds. rewrite Hv. apply out_running; congruence.
    + intros x Hx'. by pose proof (held_same _ _ _ Hx' Hv) as ->.
  - intros ([s3 w3] & [] & H & Hr)%io_bind_Ok. apply eq_None_not_Some in Hx.
    apply startDiscovery_quiet in H as (cfg & http & Hl & -> & ->); [|done..].
    apply io_bind_Ok in Hr as (sw4 & c & H & Hr). injection Hr as ->. rewrite call_quiet in H by done. revert H.
    destruct (api_updateStatus _ _ _) as [w4 r4] eqn:Eu. intros [= <- -> ->].
    pose proof (al_updateStatus KTargetSource (with_observed o) w2) as [U1 U2]. rewrite Eu in U1, U2. cbn [fst snd] in U1, U2.
    destruct (U2 c eq_refl) as (K1 & K2 & old & K3 & K4 & K5). pose proof (held_same _ _ _ K3 ltac:(rewrite <- Hk in Hv; exact Hv)) as ->.
    change (key_of (with_observed o)) with (key_of o) in *. rewrite Hk in *. split; [by eapply agree_off_trans|]. split.
    + kinds. rewrite K2. eapply out_started; try done; [by rewrite <- Hsp| |]; rewrite ?K4, ?K1; done.
    + intros x Hx'. pose proof (held_same _ _ _ Hx' K2) as ->. kinds. split; congruence.
Qed.

Lemma source_reconcile_Ok key s (w : W) s' w' : Ctl_Schedule s = [] →
  Reconcile r key (s, w) = ((s', w'), Ok tt) →
  agree_off (only_at KTargetSource key) w w' ∧
  match view w KTargetSource !! key with
  | None => s' = stopped key s ∧ view w' KTargetSource !! key = None
  | Some ts => outcome key s ts s' (view w' KTargetSource !! key) ∧
      ∀ now, view w' KTargetSource !! key = Some now → Spec now = Spec ts ∧ Generation (Meta now) = Generation (Meta ts)
  end.
Proof.
  intros Hs. unfold Reconcile. intros (sw1 & found & Hget & H)%io_bind_Ok. apply io_try_Ok in Hget.
  rewrite call_quiet in Hget by done. destruct (api_get KTargetSource key w) as [w1 r1] eqn:Eg. injection Hget as <- <-.
  destruct r1 as [ts|[| |msg]]; [| |done..].
  - apply get_Ok in Eg as [Hag Hv]. kinds. rewrite Hv. pose proof (al_key w KTargetSource key ts Hv) as <-.
    pose proof (keep w w1 KTargetSource _ _ Hag Hv) as Hv1. case_decide as Hd.
    + destruct (reconcileDeletion_quiet _ ts s w1 s' w' Hs eq_refl Hv1 H) as (-> & H1 & H2 & _).
      split; [by eapply agree_nothing_off|]. split; [apply out_deleted; [done|by intros o Ho; apply H2]|by intros o Ho; apply H2 in Ho as (_ & ? & _ & ?)].
    + apply io_bind_Ok in H as ([s2 w2] & o & He & H).
      apply ensureFinalizer_quiet in He as (E0 & E1 & E2 & E3 & E4 & E5 & E6 & E7 & E8); [|done..].
      cbn [fst snd] in E0, E1, E2. subst s2. apply io_bind_Ok in H as ([s2 w3] & b & Hb & H). rewrite shared_quiet in Hb by done.
      injection Hb as <- <- <-. by eapply (reconcile_alive_quiet ts o s w w1 w2).
  - apply get_NotFound in Eg as [Hag Hv]. kinds. rewrite Hv. rewrite stopRegistered_quiet in H by done. injection H as <- <-.
    split; [eapply agree_off_mono; [|exact Hag]; done|]. split; [done|exact (keep w w1 KTargetSource _ _ Hag Hv)].
Qed.

(** The runtime of a live source was started for the generation the source has now. *)
Definition up_to_date key s (ts : TargetSource) : Prop :=
  DeletionTimestamp (Meta ts) = 0 → is_Some (Ctl_Registry s !! key) → Generation (Meta ts) = TSrcSt_ObservedGeneration (Status ts).

End Exact.

(** ** A change of the specification *)

Section Restart.
Context {W : Type} `{L : ApiLaws W} `{Gk : !GenerationKept W} (r : TargetSourceReconciler).

(** Steps during which nobody creates, deletes or respecifies the source. *)
Definition undisturbed (key : NamespacedName) (a b : Sys (W := W)) : Prop :=
  sys_step r (λ _ _, True) a b ∧ ¬ source_changed (Sys_World a) (Sys_World b) key.

(** A source nothing works for and nobody has queued stays that way. *)
Lemma quiet_stays_quiet key a b : rtc (undisturbed key) a b →
  ¬ Sys_Queue a key → no_live key (Sys_Ctl a) → ¬ Sys_Queue b key ∧ no_live key (Sys_Ctl b).
Proof.
  induction 1 as [|a b c [Hstep Hch] _ IH]; intros Hq Hn; [done|].
  destruct Hstep as [s w q x|s w w' q|s w q other schedule s' w' result Ho _ H]; cbn in *; apply IH; try done.
  - by apply stable_no_live.
  - by intros [].
  - intros [[]|[[-> _]|]]; done.
  - assert (key ≠ other) as Hne by (intros ->; done).
    pose proof (other_Reconcile r key other Hne (with_schedule schedule s, w)) as Ht. rewrite H in Ht.
    specialize (Ht ltac:(by apply stable_no_live)). by destruct result.
Qed.

(** A change of the specification ends the discovery of a source, and the controller does
    not start it again by itself: when it reconciles the change, it stops and unregisters the
    runtime, takes the finalizer off, keeps the generation, and so returns without being
    queued; and until somebody changes the source once more nothing works for it, whatever
    the goroutines, the other writers and the reconciliations of other sources do. *)
Theorem spec_change_not_restarted key s w s1 w1 q ts t :
  Ctl_Schedule s = [] → (∀ id rt, Ctl_Runtimes s !! id = Some rt → RT_Key rt = key → live rt → registered s key id) →
  view w KTargetSource !! key = Some ts → DeletionTimestamp (Meta ts) = 0 → is_Some (Ctl_Registry s !! key) →
  Generation (Meta ts) ≠ TSrcSt_ObservedGeneration (Status ts) → Reconcile r key (s, w) = ((s1, w1), Ok tt) →
  Ctl_Registry s1 !! key = None ∧
  (∃ now, view w1 KTargetSource !! key = Some now ∧ (LabelTargetSourceFinalizer ∉ Finalizers (Meta now)) ∧
     Generation (Meta now) ≠ TSrcSt_ObservedGeneration (Status now)) ∧
  (rtc (undisturbed key) {| Sys_Ctl := s1; Sys_World := w1;
      Sys_Queue := λ k, (q k ∧ k ≠ key) ∨ (k = key ∧ is_ok (Ok tt) = false) ∨ source_changed w w1 k |} t →
    ¬ Sys_Queue t key ∧ no_live key (Sys_Ctl t)).
Proof.
  intros Hs Hlive Hv Hd [v Hr] Hg H. apply source_reconcile_Ok in H as [_ H]; [|done]. kinds. rewrite Hv in H.
  destruct H as [Hout Hkept]. inversion Hout as [| |now _ _ _ Hf Hst Ho Hn|]; subst; [congruence..| |congruence].
  destruct (Hkept now) as [Hsp Hgen]; [done|]. split; [|split].
  - unfold stopped. rewrite Hr. exact (lookup_delete_eq (Ctl_Registry s) key).
  - exists now. split; [done|]. split; [done|congruence].
  - intros Hrtc. apply quiet_stays_quiet in Hrtc as [H1 H2]; [done| |].
    + cbn. intros [[_ []]|[[_ [=]]|Hc]]; [done|]. unfold source_changed in Hc. kinds. rewrite Hv, <- Hn in Hc. cbn in Hc.
      rewrite bool_decide_eq_true in Hc. congruence.
    + cbn. unfold stopped. rewrite Hr. intros id rt [(-> & x & Hx & ->)|[Hne Hl]]%alter_Some Hk [Hc Hw]; [done|].
      apply Hne. assert (registered s key id) as Hreg by by apply (Hlive id rt). unfold registered in Hreg. rewrite Hr in Hreg. cbn in Hreg. congruence.
Qed.
End Restart.

(** ** From a source to its Targets *)

(** The configuration the loader of a source runs with. *)
Definition source_config {W} `{A : KubeApi W} (r : TargetSourceReconciler) key http : CommonLoaderConfig W := {|
  LCfg_NN := key; LCfg_ChunkSize := TSR_ChunkSize r;
  LCfg_AcceptPush := match HTTP_Push http with Some push => Push_Enabled push | None => false end;
  LCfg_ResourceFetcher := Some newK8sResourceFetcher |}.

(** What [reconciled] reads of the world a run starts in. *)
Lemma reconciled_from {K} `{TargetStore K} ts all (k1 k2 k3 : K) :
  targets_of k1 = targets_of k2 → reconciled ts all k1 k3 → reconciled ts all k2 k3.
Proof. intros He Hr k. specialize (Hr k). by rewrite He in Hr. Qed.

Lemma outcome_started {W} `{A : KubeApi W} r key s ts s' now : outcome r key s ts s' now → DeletionTimestamp (Meta ts) = 0 →
  Ctl_Registry s !! key = None → ∃ made cfg http, NewLoader (loader_base r key) (Spec ts) = Some (Ok (cfg, http)) ∧
    s' = started r key made cfg http s ∧ Spec made = Spec ts ∧ key_of made = key.
Proof.
  destruct 1 as [| now _ Hx|now _ Hx|now made cfg http]; intros Hd Hn; [done|by destruct Hx as [v Hx]; congruence..|].
  by exists made, cfg, http.
Qed.

(** C27: From a TargetSource to its Targets.  Take a source with an HTTP provider without
    TLS and with a polling interval, that is neither being deleted nor running, and a
    reconciliation of it that succeeds while no goroutine of the controller moves.  It
    registers a runtime whose loader polls the endpoint at once.  Let the endpoint serve
    fixed pages, the first of which lists a target, none of which makes the reading fail.
    The loader reads the first page and then every page the one before names as the next,
    each once, and stops only at one that names none or one already read, and sends their
    targets.  Whatever order the chunks come in, if the API server refuses none of the
    calls ([Reliable]) the message processor of that runtime makes the Targets of the
    source exactly those of the pages, with the source's own name, namespace and
    specification, and changes nothing else. *)
Theorem source_discovers {W K} {G : GoValues} {C : CEL} `{N : !LoaderNet W} `{R : GoRuntime} `{L : ApiLaws W} `{Gk : !GenerationKept W}
    `{KL : KubeLaws K} `{Rl : !Reliable K} (r : TargetSourceReconciler) key s (w : W) s' w' ts http timeout interval site first fuel (k : K) :
  let client := {| LC_Timeout := timeout; LC_TLS := None |} in
  Ctl_Schedule s = [] → Ctl_Registry s !! key = None → Reconcile r key (s, w) = ((s', w'), Ok tt) →
  view w KTargetSource !! key = Some ts → DeletionTimestamp (Meta ts) = 0 → TSrc_Provider (Spec ts) = Some {| Prov_HTTP := Some http |} →
  HTTP_URL http ≠ "" → HTTP_Timeout http = Some timeout → HTTP_TLS http = None → HTTP_Interval http = Some interval → 0 < interval →
  0 < TSR_ChunkSize r → static_site (source_config r key http) http client site → site !! HTTP_URL http = Some first →
  P_Targets first ≠ [] → (∀ w, is_ok (NewUUID w).2 = true) → (size site < fuel)%nat →
  ∃ rt pages batches w1 w2, Ctl_Runtimes s' !! length (Ctl_Runtimes s) = Some rt ∧ live rt ∧ registered s' key (length (Ctl_Runtimes s)) ∧
    RT_Loader rt = Some (source_config r key http, http) ∧ key_of (RT_Source rt) = key ∧ Spec (RT_Source rt) = Spec ts ∧
    HttpLoader.Run (source_config r key http) http fuel [] [] w' = (batches, w2, LoaderWaiting) ∧
    follows (source_config r key http) http client w' pages w1 ∧ P_URL <$> head pages = Some (HTTP_URL http) ∧ NoDup (P_URL <$> pages) ∧
    read_to_end http pages ∧
    ∀ delivered, delivered ≡ₚ batches →
      ∃ m' k', MessageProcessor.Run (RT_Source rt) k (Some <$> delivered) = (m', k', None) ∧ MessageProcessor.idle m' ∧
        reconciled (RT_Source rt) (normalizeAll (NN_Name key) (concat (P_Targets <$> pages))) k k'.
Proof.
  intros client Hs Hn H Hv Hd Hp Hu Ht Htls Hi Hpos Hc S Hfirst Hne Hid Hf.
  apply source_reconcile_Ok in H as [_ H]; [|done]. kinds. rewrite Hv in H. destruct H as [Hout _].
  destruct (outcome_started r key s ts s' _ Hout Hd Hn) as (made & cfg & http' & Hl & -> & Hsp & <-). clear Hout.
  set (key := key_of made) in *.
  unfold NewLoader, loader_base in Hl. rewrite Hp in Hl. injection Hl as <- <-. fold (source_config (A := A) r key http).
  destruct (fetchExistingTargets made k) as [k1 existing] eqn:Ee.
  assert (targets_of k1 = targets_of k) as Hk1.
  { pose proof (kl_list_view (Namespace (Meta made)) (Name (Meta made)) k) as Hvw. unfold fetchExistingTargets in Ee. by rewrite Ee in Hvw. }
  set (m := match existing with Ok l => with_count NewMessageProcessor (to_int32 (Z.of_nat (length l))) | Err _ => NewMessageProcessor end).
  destruct (poll_converges (source_config r key http) http client site first fuel [] w' made m k1) as (pages & batches & w1 & w2 & P1 & P2 & P3 & P4 & P6 & P5);
    [done..|by destruct existing|].
  eexists _, pages, batches, w1, w2. split; [cbn; rewrite lookup_app_r, Nat.sub_diag by done; reflexivity|].
  split; [split; [done|by left]|]. split; [unfold registered; cbn; by rewrite lookup_insert_eq|].
  split_and!; try done.
  - unfold HttpLoader.Run, buildHTTPClient. rewrite decide_False by done. rewrite Ht, Htls. cbn [mret io_ret]. rewrite Hi.
    rewrite decide_False by lia. cbn [pollLoop]. fold client. by rewrite P1.
  - intros delivered Hperm. destruct (P5 delivered Hperm) as (m' & k' & Q1 & Q2 & Q3). exists m', k'. cbn [RT_Source].
    split; [unfold MessageProcessor.Run; by rewrite Ee|]. split; [done|]. by eapply reconciled_from.
Qed.

(** ** Witnesses and counterexamples *)

#[export] Instance srv_generation {X} : GenerationKept (Server X).
Proof.
  intros k o o' old w w'. cbn. intros Hu Hv _ Hg. rewrite Hv in Hu. by injection Hu as _ <-.
Qed.

Module SourceDemo.
Definition key : NamespacedName := {| NN_Namespace := "ns"; NN_Name := "netbox" |}.
Definition r : TargetSourceReconciler := {| TSR_BufferSize := 10; TSR_ChunkSize := 100 |}.
Definition http : HTTPConfig := {|
  HTTP_URL := "http://netbox"; HTTP_Method := "GET"; HTTP_Headers := ∅; HTTP_Body := ""; HTTP_Authentication := None;
  HTTP_Interval := Some 60; HTTP_Timeout := Some 10; HTTP_TLS := None; HTTP_Pagination := None; HTTP_ResponseMapping := None;
  HTTP_Push := None |}.
Definition source (gen observed : Z) : TargetSource := MkResource
  {| Name := "netbox"; Namespace := "ns"; Labels := ∅; Annotations := ∅; Finalizers := []; DeletionTimestamp := 0; Generation := gen |}
  {| TSrc_Provider := Some {| Prov_HTTP := Some http |}; TSrc_TargetPort := 57400; TSrc_TargetLabels := ∅; TSrc_TargetProfile := "p" |}
  {| TSrcSt_Status := ""; TSrcSt_ObservedGeneration := observed; TSrcSt_TargetsCount := 0; TSrcSt_LastSync := 0 |}.

(** The server with that source, written by a user. *)
Definition put (gen observed : Z) (w : Server unit) : Server unit :=
  srv_put w KTargetSource (<[key := source gen observed]> (srv_sources w)) (WUpdate KTargetSource key).
Definition w0 : Server unit := put 1 0 (empty_server tt).

Abbreviation State := (Ctl (W := Server unit) * Server unit)%type.
Definition idle : Ctl (W := Server unit) := {| Ctl_Registry := ∅; Ctl_Runtimes := []; Ctl_Schedule := [] |}.
Definition reconcile (x : State) : State := (Reconcile r key (with_schedule [] x.1, x.2)).1.
(** The user changes the specification, and the controller reconciles. *)
Definition respec (gen observed : Z) (x : State) : State := reconcile (x.1, put gen observed x.2).

Lemma reconcile_run x : Ctl_Schedule x.1 = [] → is_ok (Reconcile r key x).2 = true →
  Reconcile r key x = ((reconcile x).1, (reconcile x).2, Ok tt).
Proof.
  destruct x as [[registry runtimes schedule] w]. cbn. intros ->. unfold reconcile. cbn.
  by destruct (Reconcile _ _ _) as [[s w'] [[]|e]].
Qed.

Definition running : State := reconcile (idle, w0).
Definition changed_spec : State := respec 2 1 running.
Definition again : State := respec 3 1 changed_spec.
(** The message processor of the first runtime is through only now. *)
Definition moves (a : Act) (x : State) : State := (act x.1 a, x.2).
Definition late : State := moves (ProcessorUnregisters 0) (moves (ProcessorReturns 0) again).
Definition twice : State := respec 4 3 late.

Definition keys_live (s : Ctl (W := Server unit)) : list bool :=
  (λ rt, negb (RT_Cancelled rt) && bool_decide (RT_Processor rt = Running)) <$> Ctl_Runtimes s.

Definition live_at (id : nat) (s : Ctl (W := Server unit)) : bool :=
  match Ctl_Runtimes s !! id with
  | Some rt => negb (RT_Cancelled rt) && bool_decide (RT_Processor rt = Running) && bool_decide (RT_Key rt = key)
  | None => false
  end.

Lemma live_at_Ok id s : live_at id s = true → ∃ rt, Ctl_Runtimes s !! id = Some rt ∧ live rt ∧ RT_Key rt = key.
Proof.
  unfold live_at. destruct (Ctl_Runtimes s !! id) as [rt|]; [|done].
  intros [[H1%negb_true_iff H2%bool_decide_eq_true]%andb_true_iff H3%bool_decide_eq_true]%andb_true_iff.
  exists rt. split; [done|]. split; [split; [done|by left]|done].
Qed.

Definition sys (x : State) (q : NamespacedName → Prop) : Sys := {| Sys_Ctl := x.1; Sys_World := x.2; Sys_Queue := q |}.

Lemma respec_reachable t gen observed x q : rtc (sys_step r (λ _ _, True)) t (sys x q) →
  source_changed x.2 (put gen observed x.2) key →
  ∃ q', rtc (sys_step r (λ _ _, True)) t (sys (respec gen observed x) q').
Proof.
  intros H Hc. unfold sys, respec, reconcile. cbn [fst snd].
  destruct (Reconcile r key (with_schedule [] x.1, put gen observed x.2)) as [[s' w'] result] eqn:E.
  eexists. eapply rtc_r; [eapply rtc_r; [exact H|apply (sys_write r _ x.1 x.2 (put gen observed x.2))]|].
  eapply sys_reconcile; [by right|done|exact E].
Qed.

Lemma moves_reachable t a x q : rtc (sys_step r (λ _ _, True)) t (sys x q) → rtc (sys_step r (λ _ _, True)) t (sys (moves a x) q).
Proof. intros H. eapply rtc_r; [exact H|]. apply (sys_act r _ x.1 x.2 q a). Qed.

(** What it takes for [w0] to be reconciled first. *)
Lemma running_reachable : ∃ q, rtc (sys_step r (λ _ _, True)) (sys_start w0) (sys running q).
Proof.
  unfold sys, running, reconcile. cbn [fst snd].
  destruct (Reconcile r key (with_schedule [] idle, w0)) as [[s' w'] result] eqn:E. eexists. apply rtc_once.
  eapply (sys_reconcile r _ _ w0 _ key []); [vm_compute; by eexists|done|exact E].
Qed.
End SourceDemo.

Import SourceDemo.

(** Without the proviso of [one_runtime] two runtimes can work for one source: the message
    processor of a stopped runtime, through at last, unregisters the runtime that was
    started in the meantime, and the next change of the source starts another one. *)
Theorem late_cleanup_two_runtimes : ∃ t rt1 rt2, rtc (sys_step r (λ _ _, True)) (sys_start w0) t ∧
  Ctl_Runtimes (Sys_Ctl t) !! 1%nat = Some rt1 ∧ Ctl_Runtimes (Sys_Ctl t) !! 2%nat = Some rt2 ∧
  live rt1 ∧ live rt2 ∧ RT_Key rt1 = key ∧ RT_Key rt2 = key.
Proof.
  destruct running_reachable as [q0 H0].
  destruct (respec_reachable _ 2 1 running q0 H0) as [q1 H1]; [vm_compute; reflexivity|].
  destruct (respec_reachable _ 3 1 changed_spec q1 H1) as [q2 H2]; [vm_compute; reflexivity|].
  pose proof (moves_reachable _ (ProcessorUnregisters 0) _ _ (moves_reachable _ (ProcessorReturns 0) _ _ H2)) as H3.
  destruct (respec_reachable _ 4 3 late q2 H3) as [q3 H4]; [vm_compute; reflexivity|].
  destruct (live_at_Ok 1 twice.1) as (rt1 & L1 & L2 & L3); [vm_compute; reflexivity|].
  destruct (live_at_Ok 2 twice.1) as (rt2 & M1 & M2 & M3); [vm_compute; reflexivity|].
  exists (sys twice q3), rt1, rt2. exact (conj H4 (conj L1 (conj M1 (conj L2 (conj M2 (conj L3 M3)))))).
Qed.

Lemma lookup_past {W} (s : Ctl (W := W)) id rt : (length (Ctl_Runtimes s) ≤ id)%nat → ¬ Ctl_Runtimes s !! id = Some rt.
Proof. intros H. by rewrite lookup_ge_None_2. Qed.

Lemma one_runtime_witness : ∃ t rt, rtc (sys_step r settled) (sys_start w0) t ∧
  Ctl_Runtimes (Sys_Ctl t) !! 0%nat = Some rt ∧ live rt ∧ registered (Sys_Ctl t) (RT_Key rt) 0.
Proof.
  destruct (Reconcile r key (with_schedule [] idle, w0)) as [[s' w'] result] eqn:E.
  assert (rtc (sys_step r settled) (sys_start w0) {| Sys_Ctl := s'; Sys_World := w';
    Sys_Queue := λ k, (is_Some (view w0 KTargetSource !! k) ∧ k ≠ key) ∨ (k = key ∧ is_ok result = false) ∨ source_changed w0 w' k |}) as H.
  { apply rtc_once. eapply (sys_reconcile r _ _ w0 _ key []); [vm_compute; by eexists| |exact E]. intros id rt. cbn. by rewrite lookup_nil. }
  destruct (one_runtime r w0 _ H) as [H1 _]. cbn [Sys_Ctl] in H1.
  assert (s' = running.1) as -> by (unfold running, reconcile; cbn [fst snd]; by rewrite E).
  destruct (live_at_Ok 0 running.1) as (rt & L1 & L2 & _); [vm_compute; reflexivity|].
  eexists _, rt. split; [exact H|]. split; [exact L1|]. split; [exact L2|]. exact (H1 0%nat rt L1 L2).
Defined.


Lemma spec_change_not_restarted_witness :
  Ctl_Registry changed_spec.1 !! key = None ∧ no_live key changed_spec.1.
Proof.
  destruct (spec_change_not_restarted r key running.1 (put 2 1 running.2) changed_spec.1 changed_spec.2 (λ _, True) (source 2 1)
    {| Sys_Ctl := changed_spec.1; Sys_World := changed_spec.2;
       Sys_Queue := λ k, (True ∧ k ≠ key) ∨ (k = key ∧ is_ok (Ok tt) = false) ∨ source_changed (put 2 1 running.2) changed_spec.2 k |})
    as (H1 & _ & H2).
  - reflexivity.
  - intros [|id] rt Hl; [intros _ _; vm_compute; reflexivity|]. exfalso. revert Hl. apply (lookup_past running.1). vm_compute. lia.
  - vm_compute. reflexivity.
  - reflexivity.
  - apply (bool_decide_unpack _); vm_compute; reflexivity.
  - discriminate.
  - apply (reconcile_run (running.1, put 2 1 running.2)); vm_compute; reflexivity.
  - split; [exact H1|]. apply H2. constructor.
Defined.

(** A server on which the status of a source has just been written by somebody else. *)
Definition conflicting : KubeApi (Server unit) := {|
  api_get := @api_get (Server unit) srv_api; api_list := @api_list (Server unit) srv_api; api_create := @api_create (Server unit) srv_api; api_update := @api_update (Server unit) srv_api;
  api_updateStatus k o w := (w, Err ErrConflict); api_delete := @api_delete (Server unit) srv_api; api_setOwner := @api_setOwner (Server unit) srv_api |}.

(** When the status cannot be written after the start, the next attempt takes the runtime for
    one of an older specification and stops it. *)
Example status_conflict_stops :
  let x := Reconcile (A := conflicting) r key (idle, w0) in
  is_ok x.2 = false ∧ keys_live x.1.1 = [true] ∧
  let y := Reconcile (A := conflicting) r key x.1 in is_ok y.2 = true ∧ keys_live y.1.1 = [false].
Proof. vm_compute. done. Qed.

(** A source without a known provider leaves a context behind at every attempt. *)
Example no_provider_fails :
  let w := srv_put w0 KTargetSource (<[key := MkResource (Meta (source 1 0))
    {| TSrc_Provider := Some {| Prov_HTTP := None |}; TSrc_TargetPort := 0; TSrc_TargetLabels := ∅; TSrc_TargetProfile := "" |}
    (Status (source 1 0))]> ∅) (WUpdate KTargetSource key) in
  let x := Reconcile r key (idle, w) in is_ok x.2 = false ∧ keys_live x.1.1 = [false].
Proof. vm_compute. done. Qed.

(** A source whose endpoint is the two pages of [LoaderDemo]. *)
Module DiscoveryDemo.
#[export] Existing Instances MapperDemo.values MapperDemo.cel go_reference.

#[export] Instance server_net : LoaderNet (Server unit) := {|
  do_request client req w := (w, Ok (LoaderDemo.serve (Req_URL req)));
  valid_request method url := Ok tt;
  DecodeJSON body := Ok (LoaderDemo.decode body);
  DecodeStrings body := Ok ∅;
  valid_PEM pem := true;
  URLScheme s := Ok (if HasPrefix s "http" then "http" else "");
  SetQuery url param value := Ok value;
  NewUUID w := (w, Ok "uuid") |}.

Definition paged : TargetSource := MkResource (Meta (source 1 0))
  {| TSrc_Provider := Some {| Prov_HTTP := Some LoaderDemo.circle |}; TSrc_TargetPort := 57400; TSrc_TargetLabels := ∅;
     TSrc_TargetProfile := "p" |} (Status (source 1 0)).
Definition world : Server unit := srv_put (empty_server tt) KTargetSource {[ key := paged ]} (WUpdate KTargetSource key).

Lemma paged_site : static_site (source_config r key LoaderDemo.circle) LoaderDemo.circle LoaderDemo.client LoaderDemo.site.
Proof.
  split.
  - vm_compute. by eexists.
  - intros u p w [[-> ->]|[-> ->]]%LoaderDemo.site_pages; (split; [reflexivity|]); exists w; vm_compute; reflexivity.
  - intros u p [[-> ->]|[-> ->]]%LoaderDemo.site_pages; vm_compute; reflexivity.
  - intros u p [[-> ->]|[-> ->]]%LoaderDemo.site_pages; eexists _, _; (split; [vm_compute; reflexivity|]); intros _; vm_compute; by eexists.
Qed.
End DiscoveryDemo.
#[local] Existing Instances MapperDemo.values MapperDemo.cel go_reference DiscoveryDemo.server_net.

Lemma source_discovers_witness :
  ∃ batches w2 rt, HttpLoader.Run (source_config r key LoaderDemo.circle) LoaderDemo.circle 3 [] [] (reconcile (idle, DiscoveryDemo.world)).2 =
      (batches, w2, LoaderWaiting) ∧
    ∃ m' k', MessageProcessor.Run rt demo_world (Some <$> reverse batches) = (m', k', None).
Proof.
  destruct (source_discovers r key idle DiscoveryDemo.world (reconcile (idle, DiscoveryDemo.world)).1 (reconcile (idle, DiscoveryDemo.world)).2
    DiscoveryDemo.paged LoaderDemo.circle 10 60 LoaderDemo.site (LoaderDemo.page "http://a/1" [LoaderDemo.target "a"]) 3 demo_world)
    as (rt & pages & batches & w1 & w2 & _ & _ & _ & _ & _ & _ & H1 & _ & _ & _ & _ & H2);
    [reflexivity|reflexivity|apply (reconcile_run (idle, DiscoveryDemo.world)); vm_compute; reflexivity|vm_compute; reflexivity|
     reflexivity|reflexivity|discriminate|reflexivity|reflexivity|reflexivity|lia|reflexivity|exact DiscoveryDemo.paged_site|
     vm_compute; reflexivity|discriminate|intros w; reflexivity|vm_compute; lia|].
  destruct (H2 (reverse batches) (reverse_Permutation batches)) as (m' & k' & H3 & _).
  exists batches, w2, (RT_Source rt). split; [exact H1|]. exists m', k'. exact H3.
Defined.
