(* ===== verification/Webhooks.v ===== *)
(** The admission webhooks ([internal/webhook/v1alpha1/*_webhook.go]): what the API server
    is told about the objects users write, what that means for what it stores, and what the
    rest of the operator can rely on. *)

From S2P Require Import Prelude GoLib Api GnmicTypes TargetConfigs OutputConfigs PlanBuilder Discovery.
From S2P Require Import ClusterClient Resolve Watch ClusterPlan PipelineStatus.
From Stdlib Require Import Ascii.
#[local] Open Scope Z_scope.

(** ** Errors *)

(** [field.Error], of which the offending value is left out; the path is its text. *)
Inductive FieldErrorType := ErrorTypeRequired | ErrorTypeInvalid.
Record FieldError := { FE_Type : FieldErrorType; FE_Field : string; FE_Detail : string }.

Definition Required (field detail : string) : FieldError := {| FE_Type := ErrorTypeRequired; FE_Field := field; FE_Detail := detail |}.
Definition Invalid (field detail : string) : FieldError := {| FE_Type := ErrorTypeInvalid; FE_Field := field; FE_Detail := detail |}.
Definition Child (path name : string) : string := path +:+ "." +:+ name.

(** [apierrors.NewInvalid], and the error for an object of another type. *)
Inductive AdmissionError := NewInvalid (kind name : string) (errs : list FieldError) | WrongObject (expected : string).
Abbreviation Admission := (option AdmissionError).

(** [if b { errs = append(errs, e) }]. *)
Definition check (b : bool) (e : FieldError) : list FieldError := if b then [e] else [].

(** What is returned once all checks are made. *)
Definition refuse (kind name : string) (errs : list FieldError) : Admission :=
  match errs with [] => None | _ => Some (NewInvalid kind name errs) end.

(** ** The validators *)

(** [regexp.Compile]: the text of its error, if any. *)
Class Regexp := { regexp_Compile : string → option string }.

Definition isValidPort (port : Z) : bool := bool_decide (1 ≤ port) && bool_decide (port ≤ 65535).

Definition validateClusterTLS (tls : option ClusterTLSConfig) (fldPath : string) : list FieldError :=
  match tls with
  | None => []
  | Some tls => check (bool_decide (CTLS_IssuerRef tls = ""))
                  (Required (Child fldPath "issuerRef") "issuerRef is required when TLS is enabled")
  end.

Definition validateClusterSpec (spec : ClusterSpec) : Admission :=
  refuse "Cluster" "" (
    check (bool_decide (CS_Image spec = "")) (Required (Child "spec" "image") "image is required") ++
    match CS_Replicas spec with
    | Some n => check (bool_decide (n < 1)) (Invalid (Child "spec" "replicas") "replicas must be at least 1")
    | None => []
    end ++
    match CS_API spec with
    | None => []
    | Some api =>
        let apiPath := Child "spec" "api" in
        check (negb (isValidPort (API_RestPort api))) (Invalid (Child apiPath "restPort") "restPort must be between 1 and 65535") ++
        (if bool_decide (API_GNMIPort api ≠ 0) then
           check (negb (isValidPort (API_GNMIPort api))) (Invalid (Child apiPath "gnmiPort") "gnmiPort must be between 1 and 65535") ++
           check (bool_decide (API_GNMIPort api = API_RestPort api)) (Invalid (Child apiPath "gnmiPort") "gnmiPort must not be the same as restPort")
         else []) ++
        validateClusterTLS (API_TLS api) (Child apiPath "tls")
    end ++
    validateClusterTLS (CS_ClientTLS spec) (Child "spec" "clientTLS") ++
    match CS_GRPCTunnel spec with
    | None => []
    | Some tunnel =>
        let tunnelPath := Child "spec" "grpcTunnel" in
        check (negb (isValidPort (GT_Port tunnel))) (Invalid (Child tunnelPath "port") "port must be between 1 and 65535") ++
        validateClusterTLS (GT_TLS tunnel) (Child tunnelPath "tls")
    end).

Definition hasAny {A B} (l : list A) (l' : list B) : bool := bool_decide (0 < length l)%nat || bool_decide (0 < length l')%nat.

Definition validatePipelineSpec (spec : PipelineSpec) : Admission :=
  let hasTargets := hasAny (PL_TargetSelectors spec) (PL_TargetRefs spec) in
  let hasTunnelTargets := hasAny (PL_TunnelTargetPolicySelectors spec) (PL_TunnelTargetPolicyRefs spec) in
  let hasInputs := hasAny (InSel_InputSelectors (PL_Inputs spec)) (InSel_InputRefs (PL_Inputs spec)) in
  let hasSubscriptions := hasAny (PL_SubscriptionSelectors spec) (PL_SubscriptionRefs spec) in
  let hasOutputs := hasAny (OutSel_OutputSelectors (PL_Outputs spec)) (OutSel_OutputRefs (PL_Outputs spec)) in
  refuse "Pipeline" "" (
    check (bool_decide (PL_ClusterRef spec = "")) (Required (Child "spec" "clusterRef") "clusterRef is required") ++
    check (negb hasTargets && negb hasTunnelTargets && negb hasInputs) (Required "spec"
      "at least one data source is required: configure targetSelectors, targetRefs, tunnelTargetPolicySelectors, tunnelTargetPolicyRefs, or inputs") ++
    (if hasTargets || hasTunnelTargets then
       check (negb hasSubscriptions) (Required "spec"
         "at least one subscription is required when targets or tunnel target policies are configured: set subscriptionSelectors or subscriptionRefs")
     else []) ++
    check (negb hasOutputs) (Required (Child "spec" "outputs") "at least one output is required: set outputSelectors or outputRefs")).

(** A zero time is absent. *)
Definition validateSubscriptionSpec (name : string) (spec : SubscriptionSpec) : Admission :=
  refuse "Subscription" name (
    check (bool_decide (length (Sub_Paths spec) = 0%nat) && bool_decide (length (Sub_StreamSubscriptions spec) = 0%nat))
      (Required (Child "spec" "paths") "at least one path is required when streamSubscriptions is empty") ++
    check (bool_decide (0 < length (Sub_StreamSubscriptions spec))%nat && negb (HasPrefix (Sub_Mode spec) "STREAM"))
      (Invalid (Child "spec" "mode") "mode must be STREAM when streamSubscriptions are set") ++
    check (bool_decide (Sub_SampleInterval spec < 0)) (Invalid (Child "spec" "sampleInterval") "sampleInterval must be a positive duration") ++
    check (bool_decide (Sub_HeartbeatInterval spec < 0)) (Invalid (Child "spec" "heartbeatInterval") "heartbeatInterval must be a positive duration") ++
    match Sub_History spec with
    | None => []
    | Some h => check (bool_decide (Hist_Start h ≠ 0) && bool_decide (Hist_End h ≠ 0) && bool_decide (Hist_Start h < Hist_End h))
                  (Invalid (Child (Child "spec" "history") "start") "history start must be before end")
    end).

Definition validateTargetSpec (name : string) (spec : TargetSpec) : Admission :=
  let address := Child "spec" "address" in
  refuse "Target" name (
    (if bool_decide (Target_Address spec = "") then [Required address "address is required"] else
     match SplitHostPort (Target_Address spec) with
     | None => [Invalid address "address must be in host:port format"]
     | Some (host, portStr) =>
         check (bool_decide (host = "")) (Invalid address "address must include a host") ++
         check (match Atoi portStr with Some port => bool_decide (port < 1) || bool_decide (65535 < port) | None => true end)
           (Invalid address "port must be between 1 and 65535")
     end) ++
    check (bool_decide (Target_Profile spec = "")) (Required (Child "spec" "profile") "profile is required")).

(** Nanoseconds. *)
Definition Second : Z := 1000000000.
Definition encodings : list string := ["JSON"; "BYTES"; "PROTO"; "ASCII"; "JSON_IETF"].
Definition tls_versions : list string := [""; "1.1"; "1.2"; "1.3"].

Definition validateTargetProfileSpec (spec : TargetProfileSpec) : list FieldError :=
  check (bool_decide (TP_Timeout spec < 1 * Second)) (Invalid (Child "spec" "timeout") "timeout must be at least 1 second") ++
  check (bool_decide (TP_RetryTimer spec < 1 * Second)) (Invalid (Child "spec" "retryTimer") "retry timer must be at least 1 second") ++
  check (negb (bool_decide (TP_Encoding spec ∈ encodings)))
    (Invalid (Child "spec" "encoding") "encoding must be one of JSON, BYTES, PROTO, ASCII, or JSON_IETF") ++
  match TP_TLS spec with
  | None => []
  | Some tls =>
      check (negb (bool_decide (TLS_MaxVersion tls ∈ tls_versions)))
        (Invalid (Child (Child "spec" "tls") "maxVersion") "TLS max version must be one of 1.1, 1.2, or 1.3") ++
      check (negb (bool_decide (TLS_MinVersion tls ∈ tls_versions)))
        (Invalid (Child (Child "spec" "tls") "minVersion") "TLS min version must be one of 1.1, 1.2, or 1.3")
  end ++
  match TP_TCPKeepAlive spec with
  | None => []
  | Some d => check (bool_decide (d < 1 * Second))
                (Invalid (Child (Child "spec" "tcpKeepAlive") "duration") "TCP keep-alive interval must be at least 1 second")
  end ++
  match TP_GRCPKeepAlive spec with
  | None => []
  | Some ka =>
      let grpcKeepAlivePath := Child "spec" "grpcKeepAlive" in
      check (bool_decide (KA_Time ka < 1 * Second))
        (Invalid (Child (Child grpcKeepAlivePath "time") "duration") "gRPC keep-alive time must be at least 1 second") ++
      check (bool_decide (KA_Timeout ka < 1 * Second)) (Invalid (Child grpcKeepAlivePath "timeout") "gRPC keep-alive timeout must be at least 1 second")
  end.

Section Policy.
Context {Re : Regexp}.

Definition validateRegexp (path regex : string) : list FieldError :=
  if bool_decide (regex ≠ "") then
    match regexp_Compile regex with Some err => [Invalid path ("must be a valid regex: " +:+ err)] | None => [] end
  else [].

Definition validateTunnelTargetPolicySpec (name : string) (spec : TunnelTargetPolicySpec) : Admission :=
  refuse "TunnelTargetPolicy" name (
    check (bool_decide (TTP_Profile spec = "")) (Required (Child "spec" "profile") "profile is required") ++
    match TTP_Match spec with
    | None => []
    | Some m => let matchPath := Child "spec" "match" in
                validateRegexp (Child matchPath "type") (ttm_Type m) ++ validateRegexp (Child matchPath "id") (ttm_ID m)
    end).
End Policy.

(** ** The webhooks *)

(** [runtime.Object], of the kinds the operator has webhooks for. *)
Inductive Object :=
| OCluster (o : Cluster) | OPipeline (o : Pipeline) | OSubscription (o : Subscription) | OTarget (o : Target)
| OTargetProfile (o : TargetProfile) | OTunnelTargetPolicy (o : TunnelTargetPolicy) | OOutput (o : Output) | OInput (o : Input)
| OProcessor (o : Processor) | OTargetSource (o : TargetSource).

(** [webhook.CustomValidator]; no webhook gives warnings. *)
Record CustomValidator := {
  ValidateCreate : Object → Admission;
  ValidateUpdate : Object → Object → Admission;
  ValidateDelete : Object → Admission
}.

(** The type assertion of each handler, and what it goes on with. *)
Definition asserted {A} (expected : string) (select : Object → option A) (f : A → Admission) (obj : Object) : Admission :=
  match select obj with Some o => f o | None => Some (WrongObject expected) end.

(** The defaulters change nothing. *)
Definition Default {A} (expected : string) (select : Object → option A) (obj : Object) : Object * Admission :=
  (obj, asserted expected select (λ _, None) obj).

Definition accept {A} (o : A) : Admission := None.

(** [%T] of an object of another kind is left out of the errors. *)
Definition handlers {A} (expected expectedNew : string) (select : Object → option A) (create update delete : A → Admission)
    : CustomValidator := {|
  ValidateCreate := asserted expected select create;
  ValidateUpdate := λ _, asserted expectedNew select update;
  ValidateDelete := asserted expected select delete |}.

Definition as_Cluster (o : Object) : option Cluster := match o with OCluster o => Some o | _ => None end.
Definition as_Pipeline (o : Object) : option Pipeline := match o with OPipeline o => Some o | _ => None end.
Definition as_Subscription (o : Object) : option Subscription := match o with OSubscription o => Some o | _ => None end.
Definition as_Target (o : Object) : option Target := match o with OTarget o => Some o | _ => None end.
Definition as_TargetProfile (o : Object) : option TargetProfile := match o with OTargetProfile o => Some o | _ => None end.
Definition as_TunnelTargetPolicy (o : Object) : option TunnelTargetPolicy := match o with OTunnelTargetPolicy o => Some o | _ => None end.
Definition as_Output (o : Object) : option Output := match o with OOutput o => Some o | _ => None end.
Definition as_Input (o : Object) : option Input := match o with OInput o => Some o | _ => None end.
Definition as_Processor (o : Object) : option Processor := match o with OProcessor o => Some o | _ => None end.
Definition as_TargetSource (o : Object) : option TargetSource := match o with OTargetSource o => Some o | _ => None end.

Definition ClusterCustomValidator : CustomValidator :=
  let validate (o : Cluster) := validateClusterSpec (Spec o) in
  handlers "a Cluster object" "a Cluster object" as_Cluster validate validate accept.

Definition PipelineCustomValidator : CustomValidator :=
  let validate (o : Pipeline) := validatePipelineSpec (Spec o) in
  handlers "a Pipeline object" "a Pipeline object" as_Pipeline validate validate accept.

Definition SubscriptionCustomValidator : CustomValidator :=
  let validate (o : Subscription) := validateSubscriptionSpec (Name (Meta o)) (Spec o) in
  handlers "a Subscription object" "a Subscription object" as_Subscription validate validate accept.

Definition TargetCustomValidator : CustomValidator :=
  let validate (o : Target) := validateTargetSpec (Name (Meta o)) (Spec o) in
  handlers "a Target object" "a Target object" as_Target validate validate accept.

(** Nothing is checked when a profile is created. *)
Definition TargetProfileCustomValidator : CustomValidator :=
  let validate (o : TargetProfile) := refuse "TargetProfile" (Name (Meta o)) (validateTargetProfileSpec (Spec o)) in
  handlers "a TargetProfile object" "a TargetProfile object for the newObj" as_TargetProfile accept validate validate.

Definition TunnelTargetPolicyCustomValidator {Re : Regexp} : CustomValidator :=
  let validate (o : TunnelTargetPolicy) := validateTunnelTargetPolicySpec (Name (Meta o)) (Spec o) in
  handlers "a TunnelTargetPolicy object" "a TunnelTargetPolicy object" as_TunnelTargetPolicy validate validate accept.

Definition OutputCustomValidator : CustomValidator :=
  handlers "a Output object" "a Output object for the newObj" as_Output accept accept accept.
Definition InputCustomValidator : CustomValidator :=
  handlers "a Input object" "a Input object for the newObj" as_Input accept accept accept.
Definition ProcessorCustomValidator : CustomValidator :=
  handlers "a Processor object" "a Processor object for the newObj" as_Processor accept accept accept.
Definition TargetSourceCustomValidator : CustomValidator :=
  handlers "a TargetSource object" "a TargetSource object for the newObj" as_TargetSource accept accept accept.

Definition ClusterCustomDefaulter : Object → Object * Admission := Default "an Cluster object" as_Cluster.
Definition PipelineCustomDefaulter : Object → Object * Admission := Default "an Pipeline object" as_Pipeline.
Definition SubscriptionCustomDefaulter : Object → Object * Admission := Default "an Subscription object" as_Subscription.
Definition TargetCustomDefaulter : Object → Object * Admission := Default "an Target object" as_Target.
Definition OutputCustomDefaulter : Object → Object * Admission := Default "an Output object" as_Output.
Definition InputCustomDefaulter : Object → Object * Admission := Default "an Input object" as_Input.
Definition ProcessorCustomDefaulter : Object → Object * Admission := Default "an Processor object" as_Processor.
Definition TargetProfileCustomDefaulter : Object → Object * Admission := Default "an TargetProfile object" as_TargetProfile.
Definition TargetSourceCustomDefaulter : Object → Object * Admission := Default "an TargetSource object" as_TargetSource.
Definition TunnelTargetPolicyCustomDefaulter : Object → Object * Admission := Default "an TunnelTargetPolicy object" as_TunnelTargetPolicy.

(** ** Registration *)

(** What [NewWebhookManagedBy] is given: the kind, the defaulter and the validator. *)
Record Webhook := { WH_For : string; WH_Default : Object → Object * Admission; WH_Validator : CustomValidator }.

Definition SetupClusterWebhookWithManager : Webhook :=
  {| WH_For := "Cluster"; WH_Default := ClusterCustomDefaulter; WH_Validator := ClusterCustomValidator |}.
Definition SetupPipelineWebhookWithManager : Webhook :=
  {| WH_For := "Pipeline"; WH_Default := PipelineCustomDefaulter; WH_Validator := PipelineCustomValidator |}.
Definition SetupSubscriptionWebhookWithManager : Webhook :=
  {| WH_For := "Subscription"; WH_Default := SubscriptionCustomDefaulter; WH_Validator := SubscriptionCustomValidator |}.
Definition SetupTargetWebhookWithManager : Webhook :=
  {| WH_For := "Target"; WH_Default := TargetCustomDefaulter; WH_Validator := TargetCustomValidator |}.
Definition SetupOutputWebhookWithManager : Webhook :=
  {| WH_For := "Output"; WH_Default := OutputCustomDefaulter; WH_Validator := OutputCustomValidator |}.
Definition SetupInputWebhookWithManager : Webhook :=
  {| WH_For := "Input"; WH_Default := InputCustomDefaulter; WH_Validator := InputCustomValidator |}.
Definition SetupProcessorWebhookWithManager : Webhook :=
  {| WH_For := "Processor"; WH_Default := ProcessorCustomDefaulter; WH_Validator := ProcessorCustomValidator |}.
Definition SetupTargetProfileWebhookWithManager : Webhook :=
  {| WH_For := "TargetProfile"; WH_Default := TargetProfileCustomDefaulter; WH_Validator := TargetProfileCustomValidator |}.
Definition SetupTargetSourceWebhookWithManager : Webhook :=
  {| WH_For := "TargetSource"; WH_Default := TargetSourceCustomDefaulter; WH_Validator := TargetSourceCustomValidator |}.

Section Server.
Context {Re : Regexp}.

Definition SetupTunnelTargetPolicyWebhookWithManager : Webhook :=
  {| WH_For := "TunnelTargetPolicy"; WH_Default := TunnelTargetPolicyCustomDefaulter;
     WH_Validator := TunnelTargetPolicyCustomValidator |}.

(** [main], for the value of [ENABLE_WEBHOOKS]. *)
Definition setupWebhooks (enable : string) : list Webhook :=
  if bool_decide (enable ≠ "false") then
    [SetupTargetSourceWebhookWithManager; SetupClusterWebhookWithManager; SetupPipelineWebhookWithManager;
     SetupSubscriptionWebhookWithManager; SetupTargetWebhookWithManager; SetupOutputWebhookWithManager;
     SetupInputWebhookWithManager; SetupProcessorWebhookWithManager; SetupTargetProfileWebhookWithManager;
     SetupTunnelTargetPolicyWebhookWithManager]
  else [].

Definition kind_of (o : Object) : string :=
  match o with
  | OCluster _ => "Cluster" | OPipeline _ => "Pipeline" | OSubscription _ => "Subscription" | OTarget _ => "Target"
  | OTargetProfile _ => "TargetProfile" | OTunnelTargetPolicy _ => "TunnelTargetPolicy" | OOutput _ => "Output"
  | OInput _ => "Input" | OProcessor _ => "Processor" | OTargetSource _ => "TargetSource"
  end.

(** Requests to the API server that change an object (its status aside). *)
Inductive Request := Create (obj : Object) | Update (old new : Object) | Delete (obj : Object).

Definition webhook_for (hooks : list Webhook) (obj : Object) : option Webhook :=
  List.find (λ h, bool_decide (WH_For h = kind_of obj)) hooks.

(** The defaulter, then the validator; each may refuse. *)
Definition call_webhook (hooks : list Webhook) (obj : Object) (validate : CustomValidator → Object → Admission)
    : Object + AdmissionError :=
  match webhook_for hooks obj with
  | None => inl obj
  | Some h =>
      match WH_Default h obj with
      | (_, Some e) => inr e
      | (obj, None) => match validate (WH_Validator h) obj with Some e => inr e | None => inl obj end
      end
  end.

(** The webhooks are registered for the verbs create and update: what is written, or why
    nothing is. *)
Definition admitRequest (hooks : list Webhook) (r : Request) : Object + AdmissionError :=
  match r with
  | Create obj => call_webhook hooks obj ValidateCreate
  | Update old new => call_webhook hooks new (λ v, ValidateUpdate v old)
  | Delete obj => inl obj
  end.
End Server.

(** ** What is valid *)

Definition valid_port (p : Z) : Prop := 1 ≤ p ≤ 65535.
Definition valid_tls (tls : option ClusterTLSConfig) : Prop := ∀ t, tls = Some t → CTLS_IssuerRef t ≠ "".

Definition valid_cluster (s : ClusterSpec) : Prop :=
  CS_Image s ≠ "" ∧ (∀ n, CS_Replicas s = Some n → 1 ≤ n) ∧ valid_tls (CS_ClientTLS s) ∧
  (∀ api, CS_API s = Some api → valid_port (API_RestPort api) ∧ valid_tls (API_TLS api) ∧
     (API_GNMIPort api = 0 ∨ valid_port (API_GNMIPort api) ∧ API_GNMIPort api ≠ API_RestPort api)) ∧
  ∀ t, CS_GRPCTunnel s = Some t → valid_port (GT_Port t) ∧ valid_tls (GT_TLS t).

(** Some selector or reference is given. *)
Definition configured {A B} (selectors : list A) (refs : list B) : Prop := selectors ≠ [] ∨ refs ≠ [].

Definition valid_pipeline (s : PipelineSpec) : Prop :=
  let dialled := configured (PL_TargetSelectors s) (PL_TargetRefs s) ∨
    configured (PL_TunnelTargetPolicySelectors s) (PL_TunnelTargetPolicyRefs s) in
  PL_ClusterRef s ≠ "" ∧ (dialled ∨ configured (InSel_InputSelectors (PL_Inputs s)) (InSel_InputRefs (PL_Inputs s))) ∧
  (dialled → configured (PL_SubscriptionSelectors s) (PL_SubscriptionRefs s)) ∧
  configured (OutSel_OutputSelectors (PL_Outputs s)) (OutSel_OutputRefs (PL_Outputs s)).

(** A range of history that is open at an end, or in order. *)
Definition valid_history (s : SubscriptionSpec) : Prop :=
  ∀ h, Sub_History s = Some h → Hist_Start h = 0 ∨ Hist_End h = 0 ∨ Hist_Start h < Hist_End h.

Definition valid_but_history (s : SubscriptionSpec) : Prop :=
  configured (Sub_Paths s) (Sub_StreamSubscriptions s) ∧
  (Sub_StreamSubscriptions s ≠ [] → HasPrefix (Sub_Mode s) "STREAM" = true) ∧
  0 ≤ Sub_SampleInterval s ∧ 0 ≤ Sub_HeartbeatInterval s.

Definition valid_subscription (s : SubscriptionSpec) : Prop := valid_but_history s ∧ valid_history s.

(** A range of history with both ends. *)
Definition history_range (s : SubscriptionSpec) : Prop :=
  ∃ h, Sub_History s = Some h ∧ Hist_Start h ≠ 0 ∧ Hist_End h ≠ 0.

Definition valid_target (s : TargetSpec) : Prop :=
  (∃ host port n, SplitHostPort (Target_Address s) = Some (host, port) ∧ host ≠ "" ∧ Atoi port = Some n ∧ valid_port n) ∧
  Target_Profile s ≠ "".

Definition valid_profile (s : TargetProfileSpec) : Prop :=
  Second ≤ TP_Timeout s ∧ Second ≤ TP_RetryTimer s ∧ TP_Encoding s ∈ encodings ∧
  (∀ t, TP_TLS s = Some t → TLS_MaxVersion t ∈ tls_versions ∧ TLS_MinVersion t ∈ tls_versions) ∧
  (∀ d, TP_TCPKeepAlive s = Some d → Second ≤ d) ∧
  ∀ k, TP_GRCPKeepAlive s = Some k → Second ≤ KA_Time k ∧ Second ≤ KA_Timeout k.

Definition valid_policy {Re : Regexp} (s : TunnelTargetPolicySpec) : Prop :=
  TTP_Profile s ≠ "" ∧ ∀ m, TTP_Match s = Some m →
    (ttm_Type m = "" ∨ regexp_Compile (ttm_Type m) = None) ∧ (ttm_ID m = "" ∨ regexp_Compile (ttm_ID m) = None).

Definition valid_object {Re : Regexp} (o : Object) : Prop :=
  match o with
  | OCluster o => valid_cluster (Spec o)
  | OPipeline o => valid_pipeline (Spec o)
  | OSubscription o => valid_subscription (Spec o)
  | OTarget o => valid_target (Spec o)
  | OTargetProfile o => valid_profile (Spec o)
  | OTunnelTargetPolicy o => valid_policy (Spec o)
  | _ => True
  end.

Definition has_history_range (o : Object) : Prop :=
  match o with OSubscription o => history_range (Spec o) | _ => False end.

(** What the webhooks take: the check of the history is the wrong way round. *)
Definition taken_subscription (s : SubscriptionSpec) : Prop :=
  valid_but_history s ∧ ∀ h, Sub_History s = Some h → Hist_Start h = 0 ∨ Hist_End h = 0 ∨ Hist_End h ≤ Hist_Start h.
Definition taken_object {Re : Regexp} (o : Object) : Prop :=
  match o with OSubscription o => taken_subscription (Spec o) | _ => valid_object o end.

(** ** Lemmas *)

Lemma taken_valid {Re : Regexp} o : ¬ has_history_range o → taken_object o ↔ valid_object o.
Proof.
  destruct o as [| |o| | | | | | |]; try done. cbn. intros Hn. unfold taken_subscription, valid_subscription, valid_history.
  apply and_iff_compat_l, forall_proper. intros h. assert (Sub_History (Spec o) = Some h → Hist_Start h = 0 ∨ Hist_End h = 0) as Hh.
  { intros E. destruct (decide (Hist_Start h = 0)), (decide (Hist_End h = 0)); auto. destruct Hn. by exists h. }
  split; intros H E; specialize (H E); specialize (Hh E); tauto.
Qed.

Lemma refuse_None kind name errs : refuse kind name errs = None ↔ errs = [].
Proof. by destruct errs. Qed.

Lemma check_nil b e : check b e = [] ↔ b = false.
Proof. by destruct b. Qed.

Lemma configured_spec {A B} (l : list A) (l' : list B) : hasAny l l' = true ↔ configured l l'.
Proof.
  unfold hasAny, configured. rewrite orb_true_iff, !bool_decide_eq_true, <- (length_zero_iff_nil l), <- (length_zero_iff_nil l'). lia.
Qed.

Lemma not_configured {A B} (l : list A) (l' : list B) : hasAny l l' = false ↔ ¬ configured l l'.
Proof. rewrite <- configured_spec. by destruct (hasAny l l'). Qed.

Lemma isValidPort_spec p : negb (isValidPort p) = false ↔ valid_port p.
Proof. unfold isValidPort, valid_port. rewrite negb_false_iff, andb_true_iff, !bool_decide_eq_true. lia. Qed.

Lemma validateClusterTLS_spec tls path : validateClusterTLS tls path = [] ↔ valid_tls tls.
Proof.
  unfold valid_tls. destruct tls as [t|]; cbn; [|naive_solver].
  rewrite check_nil, bool_decide_eq_false. naive_solver.
Qed.

Lemma each_nil {A} (o : option A) (f : A → list FieldError) :
  match o with Some a => f a | None => [] end = [] ↔ ∀ a, o = Some a → f a = [].
Proof. destruct o; naive_solver. Qed.

Lemma when_nil (b : bool) (l : list FieldError) : (if b then l else []) = [] ↔ (b = true → l = []).
Proof. destruct b; naive_solver. Qed.

#[local] Opaque check validateClusterTLS isValidPort hasAny.

(** Turns the lists of errors of a validator into the conditions they stand for. *)
Ltac no_errors := rewrite ?refuse_None; repeat (setoid_rewrite each_nil || setoid_rewrite app_nil || setoid_rewrite when_nil ||
  setoid_rewrite check_nil || setoid_rewrite isValidPort_spec || setoid_rewrite validateClusterTLS_spec ||
  setoid_rewrite andb_false_iff || setoid_rewrite orb_false_iff || setoid_rewrite orb_true_iff || setoid_rewrite negb_false_iff ||
  setoid_rewrite bool_decide_eq_false || setoid_rewrite bool_decide_eq_true || setoid_rewrite Z.nlt_ge).

Lemma validateClusterSpec_exact s : validateClusterSpec s = None ↔ valid_cluster s.
Proof.
  unfold validateClusterSpec, valid_cluster. no_errors. split.
  - intros (? & ? & Hapi & ? & ?). split_and!; [done..| |done]. intros api Ha. specialize (Hapi api Ha) as (? & Hg & ?).
    split_and!; [done..|]. destruct (decide (API_GNMIPort api = 0)); [by left|right; by apply Hg].
  - intros (? & ? & ? & Hapi & ?). split_and!; [done..| |done|done]. intros api Ha. specialize (Hapi api Ha) as (? & ? & Hg).
    split_and!; [done| |done]. intros Hn. by destruct Hg.
Qed.

Lemma validatePipelineSpec_exact s : validatePipelineSpec s = None ↔ valid_pipeline s.
Proof.
  unfold validatePipelineSpec, valid_pipeline. no_errors. setoid_rewrite configured_spec. tauto.
Qed.

Lemma validateSubscriptionSpec_exact name s : validateSubscriptionSpec name s = None ↔ taken_subscription s.
Proof.
  unfold validateSubscriptionSpec, taken_subscription, valid_but_history, configured. no_errors.
  rewrite <- !length_zero_iff_nil. split; [intros (? & Hm & ? & ? & Hh)|intros ((? & Hm & ? & ?) & Hh)]; split_and!; try done.
  - intros ?. destruct Hm; [lia|done].
  - intros h Hs. specialize (Hh h Hs). lia.
  - destruct (decide (length (Sub_StreamSubscriptions s) = 0%nat)); [left; lia|right; by apply Hm].
  - intros h Hs. specialize (Hh h Hs). lia.
Qed.

Lemma validateTargetSpec_exact name s : validateTargetSpec name s = None ↔ valid_target s.
Proof.
  unfold validateTargetSpec, valid_target. no_errors. f_equiv. case_bool_decide as Ha.
  { rewrite Ha. cbn. naive_solver. }
  destruct (SplitHostPort (Target_Address s)) as [[host port]|]; [|naive_solver]. no_errors.
  destruct (Atoi port) as [n|] eqn:E; [no_errors|].
  - split; [intros (? & ? & ?); exists host, port, n; unfold valid_port; split_and!; try done; lia|].
    intros (? & ? & m & [= <- <-] & ? & Hm & Hv). rewrite E in Hm. injection Hm as <-. unfold valid_port in Hv. split; [done|lia].
  - split; [naive_solver|]. intros (? & ? & m & [= <- <-] & _ & Hm & _). by rewrite E in Hm.
Qed.

Lemma validateTargetProfileSpec_exact s : validateTargetProfileSpec s = [] ↔ valid_profile s.
Proof.
  unfold validateTargetProfileSpec, valid_profile. rewrite Z.mul_1_l. no_errors. tauto.
Qed.

Lemma profile_refused_exact kind name s : refuse kind name (validateTargetProfileSpec s) = None ↔ valid_profile s.
Proof. by rewrite refuse_None, validateTargetProfileSpec_exact. Qed.

Lemma validateRegexp_spec {Re : Regexp} path regex : validateRegexp path regex = [] ↔ regex = "" ∨ regexp_Compile regex = None.
Proof. unfold validateRegexp. case_bool_decide as E; [destruct (regexp_Compile regex); naive_solver|]. naive_solver. Qed.

#[local] Opaque validateRegexp.

Lemma validateTunnelTargetPolicySpec_exact {Re : Regexp} name s : validateTunnelTargetPolicySpec name s = None ↔ valid_policy s.
Proof.
  unfold validateTunnelTargetPolicySpec, valid_policy. no_errors. by setoid_rewrite validateRegexp_spec.
Qed.

(** The object a request writes or removes, and the one that has to be valid for it. *)
Definition object_of_request (r : Request) : Object := match r with Create o | Update _ o | Delete o => o end.

Definition must_be_valid (r : Request) : option Object :=
  match r with Create (OTargetProfile _) | Delete _ => None | Create o | Update _ o => Some o end.

Definition refused_as_invalid {Re : Regexp} (hooks : list Webhook) (r : Request) : Prop :=
  ∃ name errs, admitRequest hooks r = inr (NewInvalid (kind_of (object_of_request r)) name errs) ∧ errs ≠ [].

(** What a handler decides, where its checks decide validity. *)
Lemma decided (validate : Admission) (P : Prop) (o : Object) kind name errs :
  validate = refuse kind name errs → (validate = None ↔ P) →
  let r := match validate with Some e => inr e | None => inl o end in
  P ∧ r = inl o ∨ ¬ P ∧ ∃ name errs, r = inr (NewInvalid kind name errs) ∧ errs ≠ [].
Proof. intros -> H. destruct errs as [|e l]; [left|right]; cbn in *; naive_solver. Qed.

Lemma admit_decides {Re : Regexp} r o :
  must_be_valid r = Some o →
  taken_object o ∧ admitRequest (setupWebhooks "") r = inl o ∨ ¬ taken_object o ∧ refused_as_invalid (setupWebhooks "") r.
Proof.
  intros H. destruct r as [o'|old o'|o']; [..|done]; destruct o'; cbn in H; simplify_eq; try (by left); unfold refused_as_invalid; cbn.
  all: try by eapply decided; [reflexivity|apply validateClusterSpec_exact].
  all: try by eapply decided; [reflexivity|apply validatePipelineSpec_exact].
  all: try by eapply decided; [reflexivity|apply validateSubscriptionSpec_exact].
  all: try by eapply decided; [reflexivity|apply validateTargetSpec_exact].
  all: try by eapply decided; [reflexivity|apply validateTunnelTargetPolicySpec_exact].
  by eapply decided; [reflexivity|apply profile_refused_exact].
Qed.

Lemma setupWebhooks_on {Re : Regexp} enable : enable ≠ "false" → setupWebhooks enable = setupWebhooks "".
Proof. intros H. unfold setupWebhooks. by rewrite !bool_decide_true. Qed.

(** ** Theorems *)

Section Admission.
Context {Re : Regexp} (enable : string) (Henable : enable ≠ "false").

(** C30: The webhooks decide by the validity of what is written, for anything but a
    Subscription whose history has both a start and an end: a request is admitted, its
    object unchanged, when nothing has to be valid (a deletion, or the creation of a
    TargetProfile, which is not checked) or when the object is valid; an invalid object
    is refused as an invalid object of its own kind, with at least one field named.  A
    history with both ends is left out because the code checks it the wrong way round,
    against its comment and its message: of those subscriptions exactly the ones whose
    history does not start before it ends are admitted ([history_check_inverted]). *)
Theorem admission_exact (r : Request) :
  (∀ o, must_be_valid r = Some o → ¬ has_history_range o) →
  match must_be_valid r with
  | None => admitRequest (setupWebhooks enable) r = inl (object_of_request r)
  | Some o => valid_object o ∧ admitRequest (setupWebhooks enable) r = inl o ∨
              ¬ valid_object o ∧ refused_as_invalid (setupWebhooks enable) r
  end.
Proof.
  intros Hn. rewrite setupWebhooks_on by done. destruct (must_be_valid r) as [o|] eqn:E.
  - specialize (Hn o eq_refl). rewrite <- taken_valid by done. by apply admit_decides.
  - destruct r as [o|old o|o]; [by destruct o|done|done].
Qed.

(** A subscription that is valid but for its history, which has both ends, is admitted
    exactly when the history does not start before it ends: the ones in order are refused. *)
Theorem history_check_inverted (s : Subscription) h :
  valid_but_history (Spec s) → Sub_History (Spec s) = Some h → Hist_Start h ≠ 0 → Hist_End h ≠ 0 →
  (admitRequest (setupWebhooks enable) (Create (OSubscription s)) = inl (OSubscription s) ↔ ¬ Hist_Start h < Hist_End h).
Proof.
  intros Hv Hh H1 H2. rewrite setupWebhooks_on by done.
  destruct (admit_decides (Create (OSubscription s)) _ eq_refl) as [[[_ Ht] Ha]|[Ht (name & errs & Ha & _)]]; rewrite Ha.
  - split; [|done]. intros _. specialize (Ht h Hh). lia.
  - split; [done|]. intros Hlt. destruct Ht. split; [done|]. intros h' Hh'. replace h' with h by congruence. lia.
Qed.

Lemma admit_Ok r x : admitRequest (setupWebhooks enable) r = inl x →
  x = object_of_request r ∧ ∀ o, must_be_valid r = Some o → taken_object o.
Proof.
  rewrite setupWebhooks_on by done. intros H. destruct (must_be_valid r) as [o|] eqn:E.
  - destruct (admit_decides r o E) as [[Hv Ha]|[_ (name & errs & Ha & _)]]; rewrite Ha in H; [|done]. injection H as <-.
    split; [|by intros ? [= <-]]. destruct r as [o'|old o'|o']; cbn in E; [destruct o'; by simplify_eq|by simplify_eq|done].
  - split; [|done]. destruct r as [o|old o|o]; [destruct o; cbn in E; try done; by injection H|done|by injection H].
Qed.

(** A store of objects behind the webhooks: what a request leaves was there or is written. *)
Section Store.
Context {St : Type} (holds : St → Object → Prop) (apply : Request → Object → St → St).
Context (apply_writes : ∀ r o s x, holds (apply r o s) x → holds s x ∨ x = o ∧ ∀ d, r ≠ Delete d).

Definition serve (s : St) (r : Request) : St :=
  match admitRequest (setupWebhooks enable) r with inl o => apply r o s | inr _ => s end.

(** Whatever is asked of the API server, in whatever order, an object it holds is
    valid (a Subscription in everything but the order of its history), or was there
    before, or is a TargetProfile as it was created. *)
Theorem stored_objects_valid (rs : list Request) (s : St) (x : Object) :
  holds (foldl serve s rs) x →
  taken_object x ∨ holds s x ∨ Create x ∈ rs ∧ must_be_valid (Create x) = None.
Proof.
  revert x. induction rs as [|r rs IH] using rev_ind; intros x; [by right; left|]. rewrite foldl_app. cbn. unfold serve at 1.
  assert (holds (foldl serve s rs) x →
    taken_object x ∨ holds s x ∨ Create x ∈ rs ++ [r] ∧ must_be_valid (Create x) = None) as Hold by (intros H; apply IH in H; set_solver).
  destruct (admitRequest _ r) as [o|e] eqn:E; [|done]. apply admit_Ok in E as [-> Hv].
  intros [H|[-> Hd]]%apply_writes; [by apply Hold|]. destruct (must_be_valid r) as [o|] eqn:Em.
  - left. destruct r as [o'|old o'|o']; cbn in Em; [destruct o'; simplify_eq; by apply Hv|simplify_eq; by apply Hv|done].
  - right. right. destruct r as [o'|old o'|o']; [|done|by destruct (Hd o')]. split; [cbn; set_solver|done].
Qed.
End Store.

(** ** Discovered targets *)

Lemma valid_discovered d ts :
  let port := if decide (DT_Port d = 0) then TSrc_TargetPort (Spec ts) else DT_Port d in
  let profile := if decide (DT_TargetProfile d = "") then TSrc_TargetProfile (Spec ts) else DT_TargetProfile d in
  no_byte "["%char (DT_Address d) = true → no_byte "]"%char (DT_Address d) = true → - 2 ^ 31 ≤ port < 2 ^ 31 →
  valid_object (OTarget (generateTargetResource d ts)) ↔ DT_Address d ≠ "" ∧ valid_port port ∧ profile ≠ "".
Proof.
  intros port profile H1 H2 Hp. cbn [valid_object]. unfold valid_target. cbn [Spec generateTargetResource Target_Address Target_Profile].
  fold port profile. rewrite SplitHostPort_JoinHostPort; [|done..|by apply Itoa_no_byte|by apply Itoa_no_byte|by apply Itoa_no_byte].
  assert (Atoi (Itoa port) = Some port) as Ha.
  { destruct (decide (0 ≤ port)); [apply Atoi_Itoa|apply Atoi_Itoa_neg]; lia. }
  split.
  - intros [(h & q & n & [= <- <-] & Hh & Hn & Hv) Hf]. rewrite Ha in Hn. injection Hn as <-. done.
  - intros (Hh & Hv & Hf). split; [|done]. by exists (DT_Address d), (Itoa port), port.
Qed.

(** the Target made of a discovered target is admitted, created or updated, exactly
    when its address is not empty, its port (or the source's) is a port and it has a
    profile: the address that is joined for it is split as it was, brackets around an
    IPv6 address included. *)
Theorem discovered_admitted (d : DiscoveredTarget) (ts : TargetSource) (r : Request) :
  let port := if decide (DT_Port d = 0) then TSrc_TargetPort (Spec ts) else DT_Port d in
  let profile := if decide (DT_TargetProfile d = "") then TSrc_TargetProfile (Spec ts) else DT_TargetProfile d in
  let o := OTarget (generateTargetResource d ts) in
  no_byte "["%char (DT_Address d) = true → no_byte "]"%char (DT_Address d) = true → - 2 ^ 31 ≤ port < 2 ^ 31 →
  r = Create o ∨ (∃ old, r = Update old o) →
  admitRequest (setupWebhooks enable) r = inl o ↔ DT_Address d ≠ "" ∧ valid_port port ∧ profile ≠ "".
Proof.
  intros port profile o H1 H2 Hp Hr. pose proof (valid_discovered d ts H1 H2 Hp) as Hd. fold port profile o in Hd.
  assert (must_be_valid r = Some o) as Hm by (destruct Hr as [->|[old ->]]; done).
  rewrite setupWebhooks_on by done. destruct (admit_decides r o Hm) as [[Hv ->]|[Hv (name & errs & -> & _)]]; rewrite <- Hd; naive_solver.
Qed.
End Admission.

(** ** Admitted pipelines *)

Lemma keyed_nonempty {S T V} (key : Resource S T → string) (value : Resource S T → V) l : keyed key value l ≠ ∅ ↔ l ≠ [].
Proof.
  unfold keyed. destruct l as [|o l]; [done|]. split; [done|]. intros _. cbn.
  apply (foldl_inv _ (λ m, m ≠ ∅)); [|intros m a _ _]; apply insert_non_empty.
Qed.

Section Ready.
Context {Re : Regexp} (enable : string) (Henable : enable ≠ "false").
Context `{R : GoRuntime} `{Y : YAML} `{Sel : Selectors} (ClusterDomain : string).
Context `{Lt : ReaderLaws TargetSpec TargetStatus} `{Ls : ReaderLaws SubscriptionSpec unit}
  `{Lo : ReaderLaws OutputSpec unit} `{Li : ReaderLaws InputSpec unit} `{Lp : ReaderLaws TunnelTargetPolicySpec unit}
  `{Rtp : Reader TargetProfileSpec unit} `{Rpr : Reader ProcessorSpec unit} `{Rsvc : Reader CoreServiceSpec unit}.

(** What is configured finds an object. *)
Definition finds {S T} `{Stored S T} (ns : string) (selectors : list LabelSelector) (refs : list string) : Prop :=
  configured selectors refs → ∃ o : Resource S T, chosen ns refs selectors o.

Lemma found_configured {S T} `{Stored S T} ns selectors refs (o : Resource S T) : chosen ns refs selectors o → configured selectors refs.
Proof. unfold configured. intros [_ [Hr|(s & f & Hs & _)]]; [right|left]; intros E; rewrite E in *; by eapply elem_of_nil. Qed.

Lemma found_all {S T} `{Stored S T} ns selectors refs (P : Prop) :
  (P ↔ ∃ o : Resource S T, chosen ns refs selectors o) → (P → configured selectors refs).
Proof. intros -> [o Ho]. by eapply found_configured. Qed.

Lemma resolved_nonempty {S T V} `{L : ReaderLaws S T} ns refs selectors l (key : Resource S T → string) (value : Resource S T → V) :
  resolve (S:=S) (T:=T) ns refs selectors = Ok l → keyed key value l ≠ ∅ ↔ ∃ o : Resource S T, chosen ns refs selectors o.
Proof.
  intros [_ H]%resolve_chosen. rewrite keyed_nonempty. setoid_rewrite <- H. destruct l; [set_solver|]. split; [|done]. eexists. by left.
Qed.

Lemma resolvePipeline_groups cluster p d :
  resolvePipeline ClusterDomain cluster p = Ok (Some d) →
  let ns := Namespace (Meta p) in let s := Spec p in
  (PD_Targets d ≠ ∅ ↔ ∃ o : Target, chosen ns (PL_TargetRefs s) (PL_TargetSelectors s) o) ∧
  (PD_Subscriptions d ≠ ∅ ↔ ∃ o : Subscription, chosen ns (PL_SubscriptionRefs s) (PL_SubscriptionSelectors s) o) ∧
  (PD_Outputs d ≠ ∅ ↔ ∃ o : Output, chosen ns (OutSel_OutputRefs (PL_Outputs s)) (OutSel_OutputSelectors (PL_Outputs s)) o) ∧
  (PD_Inputs d ≠ ∅ ↔ ∃ o : Input, chosen ns (InSel_InputRefs (PL_Inputs s)) (InSel_InputSelectors (PL_Inputs s)) o) ∧
  (PD_TunnelTargetPolicies d ≠ ∅ ↔
   ∃ o : TunnelTargetPolicy, chosen ns (PL_TunnelTargetPolicyRefs s) (PL_TunnelTargetPolicySelectors s) o).
Proof.
  unfold resolvePipeline. intros (ts & Ht & (profiles & _ & (subs & Hs & (outs & Ho & (ins & Hi & (op & _ & (ip & _ & (pols & Hpol & H)
    %bind_Ok)%bind_Ok)%bind_Ok)%bind_Ok)%bind_Ok)%bind_Ok)%bind_Ok)%bind_Ok.
  destruct (bool_decide (pols ≠ []) && _); [done|]. apply bind_Ok in H as (profiles' & _ & [= <-]). cbn.
  split_and!; by eapply resolved_nonempty.
Qed.

(** the webhook refuses the pipelines that could not work, and those only: an admitted
    pipeline all of whose configured references and selectors find an object is ready
    once it is resolved, on whatever cluster; and a refused one that names a cluster and
    has no inputs is never ready, whatever objects there are. *)
Theorem admitted_pipeline_ready (cluster : Cluster) (p : Pipeline) (d : PipelineData) :
  resolvePipeline ClusterDomain cluster p = Ok (Some d) →
  let ns := Namespace (Meta p) in let s := Spec p in
  let inputs := PL_Inputs s in let outputs := PL_Outputs s in
  (admitRequest (setupWebhooks enable) (Create (OPipeline p)) = inl (OPipeline p) →
   finds (S:=TargetSpec) (T:=TargetStatus) ns (PL_TargetSelectors s) (PL_TargetRefs s) →
   finds (S:=SubscriptionSpec) (T:=unit) ns (PL_SubscriptionSelectors s) (PL_SubscriptionRefs s) →
   finds (S:=OutputSpec) (T:=unit) ns (OutSel_OutputSelectors outputs) (OutSel_OutputRefs outputs) →
   finds (S:=InputSpec) (T:=unit) ns (InSel_InputSelectors inputs) (InSel_InputRefs inputs) →
   finds (S:=TunnelTargetPolicySpec) (T:=unit) ns (PL_TunnelTargetPolicySelectors s) (PL_TunnelTargetPolicyRefs s) →
   pipelineReady d = true) ∧
  (refused_as_invalid (setupWebhooks enable) (Create (OPipeline p)) →
   PL_ClusterRef s ≠ "" → ¬ configured (InSel_InputSelectors inputs) (InSel_InputRefs inputs) →
   pipelineReady d = false).
Proof.
  intros Hd ns s inputs outputs. rewrite (setupWebhooks_on enable) by done.
  apply resolvePipeline_groups in Hd. cbn zeta in Hd. fold ns s inputs outputs in Hd. destruct Hd as (Gt & Gs & Go & Gi & Gp).
  destruct (admit_decides (Create (OPipeline p)) _ eq_refl) as [[Hv Ha]|[Hv (name & errs & Ha & He)]]; split.
  - intros _ Ft Fs Fo Fi Fp. destruct Hv as (_ & Hsrc & Hsub & Hout). apply pipelineReady_spec. unfold ready.
    unfold finds in *. rewrite <- Gt in Ft. rewrite <- Gs in Fs. rewrite <- Go in Fo. rewrite <- Gi in Fi. rewrite <- Gp in Fp.
    fold s inputs outputs in Hsrc, Hsub, Hout. clear -Ft Fs Fo Fi Fp Hsrc Hsub Hout. tauto.
  - by intros (n & l & Hr & _); rewrite Ha in Hr.
  - by rewrite Ha.
  - intros _ Hc Hi. apply not_true_is_false. intros Hr%pipelineReady_spec. apply Hv. split; [done|]. fold s inputs outputs.
    pose proof (found_all _ _ _ _ Gt) as Ct. pose proof (found_all _ _ _ _ Gs) as Cs. pose proof (found_all _ _ _ _ Go) as Co.
    pose proof (found_all _ _ _ _ Gi) as Ci. pose proof (found_all _ _ _ _ Gp) as Cp. unfold ready in Hr. clear -Ct Cs Co Ci Cp Hi Hr. cbn zeta. tauto.
Qed.
End Ready.

(** ** Witnesses *)

Module AdmissionDemo.
#[local] Instance demo_regexp : Regexp :=
  {| regexp_Compile s := if bool_decide (s = "(") then Some "missing closing )" else None |}.

Definition history (start end_ : Z) : Subscription := MkResource (demo_meta "s" ∅)
  {| Sub_Prefix := ""; Sub_Target := ""; Sub_Paths := ["/interfaces"]; Sub_Mode := "ONCE";
     Sub_SampleInterval := 0; Sub_HeartbeatInterval := 0; Sub_UpdatesOnly := false;
     Sub_StreamSubscriptions := []; Sub_Depth := 0; Sub_Encoding := ""; Sub_Qos := None; Sub_SuppressRedundant := false;
     Sub_History := Some {| Hist_Snapshot := 0; Hist_Start := start; Hist_End := end_ |} |} tt.

(** What starts before it ends is refused, what ends before it starts is not. *)
Example history_refused :
  admitRequest (setupWebhooks "") (Create (OSubscription (history 10 20))) =
    inr (NewInvalid "Subscription" "s"
      [{| FE_Type := ErrorTypeInvalid; FE_Field := "spec.history.start"; FE_Detail := "history start must be before end" |}]) ∧
  admitRequest (setupWebhooks "") (Create (OSubscription (history 20 10))) = inl (OSubscription (history 20 10)).
Proof. split; vm_compute; reflexivity. Qed.

(** A profile that is created is not checked, and cannot be updated as it is, be it to
    change a label. *)
Example profile_stuck :
  let labelled : TargetProfile := MkResource (demo_meta "p" {["site" := "a"]}) (Spec demo_profile_cr) tt in
  admitRequest (setupWebhooks "") (Create (OTargetProfile demo_profile_cr)) = inl (OTargetProfile demo_profile_cr) ∧
  match admitRequest (setupWebhooks "") (Update (OTargetProfile demo_profile_cr) (OTargetProfile labelled)) with
  | inr (NewInvalid _ _ errs) => FE_Field <$> errs = ["spec.timeout"; "spec.retryTimer"; "spec.encoding"]
  | _ => False end.
Proof. split; vm_compute; reflexivity. Qed.

Definition cluster_with (rest gnmi tunnel : Z) : Cluster := MkResource (demo_meta "c1" ∅)
  {| CS_Image := "gnmic"; CS_Replicas := Some 2;
     CS_API := Some {| API_RestPort := rest; API_GNMIPort := gnmi; API_TLS := None |}; CS_ClientTLS := None;
     CS_GRPCTunnel := Some {| GT_Port := tunnel; GT_TLS := None; GT_Service := None |};
     CS_Resources := {| Requests := ∅; Limits := ∅ |}; CS_Env := []; CS_TargetDistribution := None |} (Status demo_cluster).

(** The port of the tunnel is not compared with those of the API. *)
Example tunnel_port_may_collide :
  admitRequest (setupWebhooks "") (Create (OCluster (cluster_with 7890 57400 7890))) = inl (OCluster (cluster_with 7890 57400 7890)).
Proof. vm_compute. reflexivity. Qed.

(** With [ENABLE_WEBHOOKS=false] everything is admitted. *)
Example webhooks_off :
  admitRequest (setupWebhooks "false") (Create (OCluster (cluster_with 0 0 0))) = inl (OCluster (cluster_with 0 0 0)).
Proof. vm_compute. reflexivity. Qed.

Lemma admission_exact_witness :
  ¬ valid_pipeline demo_pipeline_spec ∧ refused_as_invalid (setupWebhooks "true") (Create (OPipeline demo_pipeline_cr)).
Proof.
  destruct (admission_exact "true" ltac:(discriminate) (Create (OPipeline demo_pipeline_cr))) as [[_ H]|H];
    [by intros ? [= <-] []|exfalso; vm_compute in H; discriminate|exact H].
Defined.

(** A store as the list of everything written. *)
Definition keep (r : Request) (o : Object) (s : list Object) : list Object := match r with Delete _ => s | _ => o :: s end.

Lemma keep_writes r o s x : x ∈ keep r o s → x ∈ s ∨ x = o ∧ ∀ d, r ≠ Delete d.
Proof. destruct r; cbn; set_solver. Qed.

Lemma stored_objects_valid_witness : valid_target (Spec demo_target_cr).
Proof.
  destruct (stored_objects_valid "true" ltac:(discriminate) (λ s x, x ∈ s) keep keep_writes
    [Create (OTarget demo_target_cr); Create (OTargetProfile demo_profile_cr); Delete (OTargetProfile demo_profile_cr)]
    [] (OTarget demo_target_cr)) as [H|[H|[_ H]]]; [|exact H|..].
  - vm_compute. right. left.
  - by apply elem_of_nil in H.
  - discriminate H.
Defined.

Definition demo_source : TargetSource := MkResource (demo_meta "netbox" ∅)
  {| TSrc_Provider := None; TSrc_TargetPort := 57400; TSrc_TargetLabels := ∅; TSrc_TargetProfile := "p" |}
  {| TSrcSt_Status := ""; TSrcSt_ObservedGeneration := 0; TSrcSt_TargetsCount := 0; TSrcSt_LastSync := 0 |}.

Definition discovered (address : string) (port : Z) : DiscoveredTarget :=
  {| DT_Name := "r1"; DT_Address := address; DT_Port := port; DT_Labels := ∅; DT_TargetProfile := "" |}.

Lemma discovered_admitted_witness :
  let o := OTarget (generateTargetResource (discovered "2001:db8::1" 0) demo_source) in
  admitRequest (setupWebhooks "") (Create o) = inl o.
Proof.
  destruct (discovered_admitted "" ltac:(discriminate) (discovered "2001:db8::1" 0) demo_source
    (Create (OTarget (generateTargetResource (discovered "2001:db8::1" 0) demo_source)))) as [_ H];
    [reflexivity|reflexivity|split; by vm_compute|by left|].
  apply H. split; [discriminate|]. split; [split; by vm_compute|discriminate].
Defined.

(** A port that a provider reports beyond 65535 is refused. *)
Example discovered_port_refused :
  let o := OTarget (generateTargetResource (discovered "10.0.0.1" 70000) demo_source) in
  admitRequest (setupWebhooks "") (Create o) = inr (NewInvalid "Target" "r1"
    [{| FE_Type := ErrorTypeInvalid; FE_Field := "spec.address"; FE_Detail := "port must be between 1 and 65535" |}]).
Proof. vm_compute. reflexivity. Qed.

Definition full_pipeline : Pipeline := MkResource (demo_meta "pl" ∅)
  {| PL_ClusterRef := "c1"; PL_Enabled := true;
     PL_TargetSelectors := [by_label "site" "a"]; PL_TargetRefs := [];
     PL_TunnelTargetPolicySelectors := []; PL_TunnelTargetPolicyRefs := [];
     PL_SubscriptionSelectors := []; PL_SubscriptionRefs := ["s"];
     PL_Outputs := {| OutSel_OutputSelectors := []; OutSel_OutputRefs := ["o"];
                      OutSel_ProcessorSelectors := []; OutSel_ProcessorRefs := [] |};
     PL_Inputs := {| InSel_InputSelectors := []; InSel_InputRefs := []; InSel_ProcessorSelectors := []; InSel_ProcessorRefs := [] |};
     PL_Labels := ∅ |} (Status demo_pipeline_cr).

Definition an_output : Output := MkResource (demo_meta "o" ∅)
  {| Output_Type := "file"; Output_Config := None; Output_Service := None; Output_ServiceRef := None; Output_ServiceSelector := None |} tt.

#[local] Existing Instance demo_yaml.
#[local] Instance demo_profiles : Reader TargetProfileSpec unit := map_reader [demo_profile_cr].
#[local] Instance demo_no_processors : Reader ProcessorSpec unit := map_reader [].
#[local] Instance demo_no_services : Reader CoreServiceSpec unit := map_reader [].

Lemma admitted_pipeline_ready_witness :
  ∃ d, resolvePipeline (R := go_reference) (Rt := map_reader demo_targets) (Rsub := map_reader [history 20 10]) (Ro := map_reader [an_output])
         (Ri := map_reader []) (Rtt := map_reader []) "cluster.local" demo_cluster full_pipeline = Ok (Some d) ∧ pipelineReady d = true.
Proof.
  destruct (resolvePipeline _ _ _) as [[d|]|] eqn:E; [|vm_compute in E; discriminate..]. exists d. split; [reflexivity|].
  refine (proj1 (admitted_pipeline_ready "" ltac:(discriminate) "cluster.local" (Lt := map_reader_laws demo_targets)
    (Ls := map_reader_laws [history 20 10]) (Lo := map_reader_laws [an_output]) (Li := map_reader_laws [])
    (Lp := map_reader_laws []) demo_cluster full_pipeline d E) _ _ _ _ _ _).
  - vm_compute. reflexivity.
  - intros _. exists (demo_target "t1" {["site" := "a"]}). split; [split; vm_compute; reflexivity|]. right.
    exists (by_label "site" "a"). eexists. split; [left|]. split; [reflexivity|]. split; [reflexivity|]. vm_compute. reflexivity.
  - intros _. exists (history 20 10). split; [split; vm_compute; reflexivity|]. left. left.
  - intros _. exists an_output. split; [split; vm_compute; reflexivity|]. left. left.
  - intros [H|H]; by destruct H.
  - intros [H|H]; by destruct H.
Defined.
End AdmissionDemo.
