(* ===== verification/StreamLoop.v ===== *)
(** The life of one target-state stream ([runStream], [processEvents] and the HTTP client of
    [internal/controller/targetstate_controller.go], [StreamTargetState] of
    [internal/gnmic/sse.go]): the goroutine of a pod, the reader it starts for every
    connection, and the channel between them, as a machine whose moves come in any order. *)

From S2P Require Import Prelude GoLib Api Kube PodApi Sse StatusClient TargetState.
From Stdlib Require Import Ascii.
#[local] Open Scope Z_scope.

(** ** The client *)

Section Client.
Context {W : Type} `{A : KubeApi W} `{F : !Files W} `{E : ErrorText}.

(** The same code as the cluster controller's. *)
Definition getIssuerCA (namespace issuerName : string) : io W string := PodApi.getIssuerCA namespace issuerName.

Definition createHTTPClient (cluster : Cluster) : io W HttpClient :=
  match CS_API (Spec cluster) ≫= API_TLS with
  | None => mret {| HC_Timeout := 0; HC_TLS := None |}
  | Some tls =>
      c ← (if decide (CTLS_IssuerRef tls ≠ "") then
             cert ← wrap "failed to read controller cert" (ReadFile GetControllerCertPath);
             key ← wrap "failed to read controller key" (ReadFile GetControllerKeyPath);
             certificate ← io_lift (X509KeyPair cert key);
             ca ← wrap "failed to get issuer CA" (getIssuerCA (Namespace (Meta cluster)) (CTLS_IssuerRef tls));
             mret {| CT_Certificates := [certificate]; CT_RootCAs := Some [ca] |}
           else mret {| CT_Certificates := []; CT_RootCAs := None |});
      c ← (if decide (CTLS_BundleRef tls ≠ "") then
             ca ← wrap "failed to read controller CA" (ReadFile GetControllerCAPath);
             mret {| CT_Certificates := CT_Certificates c; CT_RootCAs := Some (default [] (CT_RootCAs c) ++ [ca]) |}
           else mret c);
      mret {| HC_Timeout := 0; HC_TLS := Some c |}
  end.
End Client.

(** ** The reader of a connection *)

(** One turn of the scanner loop: the event type that is current after a line, and the
    event it sends. *)
Definition scanLine `{J : JSONDecoder} (currentEventType line : string) : string * option SSEEvent :=
  if HasPrefix line ":" then (currentEventType, None)
  else if bool_decide (line = "") then ("", None)
  else match CutPrefix line "event: " with
  | (after, true) => (after, None)
  | _ =>
      match CutPrefix line "data: " with
      | (dataStr, true) =>
          match decodeEvent dataStr with
          | None => (currentEventType, None)
          | Some data =>
              if bool_decide (SSE_Kind data ≠ "targets" ∨ SSE_Store data ≠ SSEStoreState) then (currentEventType, None)
              else (currentEventType, Some {| EventType := currentEventType; Data := data |})
          end
      | _ => (currentEventType, None)
      end
  end.

(** What the pod and the network do to a connection: answer, send a line, or end it. *)
Inductive Input := Response (status : res Z) | Line (raw : string) | Close.

(** Where [StreamTargetState] is: in [Do], before the next [Scan], before [events <- e], or
    returned, [streamDone] being told. *)
Inductive Reader := Dialling | Scanning (currentEventType : string) | Sending (currentEventType : string) (event : SSEEvent) | Ended.

Definition read `{J : JSONDecoder} (i : Input) (r : Reader) : option Reader :=
  match r, i with
  | Dialling, Response (Ok status) => Some (if bool_decide (status ≠ 200) then Ended else Scanning "")
  | Dialling, Response (Err _) => Some Ended
  | Scanning cur, Line raw =>
      match scanText raw with
      | None => Some Ended
      | Some line => match scanLine cur line with (cur, None) => Some (Scanning cur) | (cur, Some e) => Some (Sending cur e) end
      end
  | Scanning _, Close => Some Ended
  | _, _ => None
  end.

(** ** The stream *)

Definition sseStreamBufferCapacity : Z := 1024.

(** Where [runStream] is: at the head of its loop, in [processEvents] with the client and
    [receivedEvents], in [sleepOrDone], or returned. *)
Inductive Main := AtHead | Processing (httpClient : HttpClient) (receivedEvents : bool) | Sleeping | Returned.

(** [reader] is the goroutine of the latest connection, [events] its channel. *)
Record Stream := { ctx_done : bool; delay : Z; main : Main; events : list SSEEvent; reader : option Reader }.

Definition with_main (s : Stream) (m : Main) : Stream :=
  {| ctx_done := ctx_done s; delay := delay s; main := m; events := events s; reader := reader s |}.
Definition with_reader (s : Stream) (r : Reader) : Stream :=
  {| ctx_done := ctx_done s; delay := delay s; main := main s; events := events s; reader := Some r |}.
Definition with_delay (s : Stream) (d : Z) : Stream :=
  {| ctx_done := ctx_done s; delay := d; main := main s; events := events s; reader := reader s |}.
Definition with_events (s : Stream) (l : list SSEEvent) : Stream :=
  {| ctx_done := ctx_done s; delay := delay s; main := main s; events := l; reader := reader s |}.

(** The arguments of [runStream] but the context. *)
Record StreamArgs := { SA_cluster : Cluster; SA_stsName : string; SA_podIndex : Z; SA_sseURL : string }.

Definition started : Stream := {| ctx_done := false; delay := reconnectMinDelay; main := AtHead; events := []; reader := None |}.

(** A move: the context is cancelled, the reader gets an input or hands its event over, the
    loop goes on from its head, [select] in [processEvents] takes one of its cases, or the
    sleep is over. *)
Inductive Move := Cancel | Reads (i : Input) | HandsOver | Turn | OnDone | OnStreamDone | OnEvent | OnTick | Wakes.

Section Stream.
Context `{R : GoRuntime} {W : Type} `{A : KubeApi W} `{F : !Files W} `{E : ErrorText} `{C : StatusClient W} `{J : JSONDecoder}.
Context (clusterDomain : string) (a : StreamArgs).

Definition stream_pod : string := podName (SA_stsName a) (SA_podIndex a).
Definition pollURL : string := buildPodPollURL clusterDomain (SA_cluster a) (SA_stsName a) (SA_podIndex a).

(** From the head of the loop to [processEvents] or to the sleep after an error. *)
Definition turn (s : Stream) (w : W) : Stream * W :=
  if ctx_done s then (with_main s Returned, w) else
  match createHTTPClient (SA_cluster a) w with
  | (w, Err _) => (with_main s Sleeping, w)
  | (w, Ok httpClient) =>
      ({| ctx_done := false; delay := delay s; main := Processing httpClient false; events := []; reader := Some Dialling |}, w)
  end.

(** After [processEvents]. *)
Definition disconnected (receivedEvents : bool) (s : Stream) : Stream :=
  if ctx_done s then with_main s Returned
  else with_main (if receivedEvents then with_delay s reconnectMinDelay else s) Sleeping.

(** One move, where it can be made. *)
Definition step (m : Move) (s : Stream) (w : W) : option (Stream * W) :=
  match m, main s, reader s with
  | Cancel, _, _ => Some ({| ctx_done := true; delay := delay s; main := main s; events := events s; reader := reader s |}, w)
  | Reads i, _, Some r => r' ← read i r; Some (with_reader s r', w)
  | HandsOver, _, Some (Sending cur e) =>
      if decide (Z.of_nat (length (events s)) < sseStreamBufferCapacity)
      then Some (with_reader (with_events s (events s ++ [e])) (Scanning cur), w) else None
  | Turn, AtHead, _ => Some (turn s w)
  | OnDone, Processing _ rec, _ => if ctx_done s then Some (disconnected rec s, w) else None
  | OnStreamDone, Processing _ rec, Some Ended => Some (disconnected rec s, w)
  | OnEvent, Processing httpClient _, _ =>
      match events s with
      | [] => None
      | e :: l => Some (with_main (with_events s l) (Processing httpClient true),
                        handleEvent e (Name (Meta (SA_cluster a))) stream_pod w)
      end
  | OnTick, Processing httpClient _, _ =>
      Some (s, pollAndSync httpClient pollURL (Name (Meta (SA_cluster a))) (Namespace (Meta (SA_cluster a))) stream_pod w)
  | Wakes, Sleeping, _ => Some (with_main (with_delay s (backoff (delay s))) AtHead, w)
  | _, _, _ => None
  end.
End Stream.

(** ** What happened *)

(** Of the latest connection: the lines its reader scanned and the events that were handled;
    of the whole life: the sleeps since a connection last delivered events, and how many
    connections were opened. *)
Record History := { H_lines : list string; H_handled : list SSEEvent; H_failures : nat; H_opened : nat }.

Definition nothing_yet : History := {| H_lines := []; H_handled := []; H_failures := 0; H_opened := 0 |}.

Definition observe (m : Move) (s s' : Stream) (h : History) : History :=
  match m, main s, main s' with
  | Reads (Line raw), _, _ =>
      {| H_lines := H_lines h ++ option_list (scanText raw); H_handled := H_handled h; H_failures := H_failures h; H_opened := H_opened h |}
  | OnEvent, _, _ =>
      {| H_lines := H_lines h; H_handled := H_handled h ++ take 1 (events s); H_failures := H_failures h; H_opened := H_opened h |}
  | Turn, _, Processing _ _ =>
      {| H_lines := []; H_handled := []; H_failures := H_failures h; H_opened := S (H_opened h) |}
  | OnStreamDone, Processing _ true, Sleeping =>
      {| H_lines := H_lines h; H_handled := H_handled h; H_failures := 0; H_opened := H_opened h |}
  | Wakes, _, _ =>
      {| H_lines := H_lines h; H_handled := H_handled h; H_failures := S (H_failures h); H_opened := H_opened h |}
  | _, _, _ => h
  end.

Section Run.
Context `{R : GoRuntime} {W : Type} `{A : KubeApi W} `{F : !Files W} `{E : ErrorText} `{C : StatusClient W} `{J : JSONDecoder}.
Context (clusterDomain : string) (a : StreamArgs).

(** A sequence of moves each of which can be made. *)
Fixpoint run (ms : list Move) (s : Stream) (w : W) (h : History) : option (Stream * W * History) :=
  match ms with
  | [] => Some (s, w, h)
  | m :: ms => '(s', w') ← step clusterDomain a m s w; run ms s' w' (observe m s s' h)
  end.

(** The whole life of a stream. *)
Definition lives (ms : list Move) (w : W) : option (Stream * W * History) := run ms started w nothing_yet.
End Run.

(** ** Lemmas *)

Section Lines.
Context `{J : JSONDecoder}.

Lemma streamLines_scan cur line lines :
  streamLines cur (line :: lines) = option_list (scanLine cur line).2 ++ streamLines (scanLine cur line).1 lines.
Proof.
  cbn [streamLines]. unfold scanLine. destruct (HasPrefix line ":"); [done|]. case_bool_decide; [done|].
  destruct (CutPrefix line "event: ") as [after []]; [done|]. destruct (CutPrefix line "data: ") as [data []]; [|done].
  destruct (decodeEvent data); [|done]. by case_bool_decide.
Qed.

(** The event type that is current after some lines. *)
Definition after_lines (cur : string) (lines : list string) : string := foldl (λ c l, (scanLine c l).1) cur lines.

Lemma streamLines_app cur l1 l2 : streamLines cur (l1 ++ l2) = streamLines cur l1 ++ streamLines (after_lines cur l1) l2.
Proof.
  revert cur. induction l1 as [|l l1 IH]; intros cur; [done|]. cbn [app]. by rewrite !streamLines_scan, IH, app_assoc.
Qed.

Lemma after_lines_snoc cur l line : after_lines cur (l ++ [line]) = (scanLine (after_lines cur l) line).1.
Proof. unfold after_lines. by rewrite foldl_app. Qed.
End Lines.

(** The delay after a number of failures. *)
Lemma iter_backoff n : Nat.iter n backoff reconnectMinDelay = Z.min (reconnectMinDelay * 2 ^ Z.of_nat n) reconnectMaxDelay.
Proof.
  induction n as [|n IH]; [done|]. change (Nat.iter (S n) ?f ?x) with (f (Nat.iter n f x)). rewrite IH, Nat2Z.inj_succ, Z.pow_succ_r by lia.
  assert (0 < 2 ^ Z.of_nat n) by lia. unfold backoff, reconnectMinDelay, reconnectMaxDelay in *. case_decide; lia.
Qed.

#[local] Arguments after_lines : simpl never.
#[local] Arguments Nat.iter : simpl never.

(** ** Invariants *)

(** What the reader has scanned and not sent. *)
Definition in_flight (r : option Reader) : list SSEEvent := match r with Some (Sending _ e) => [e] | _ => [] end.

(** No connection is open. *)
Definition closed (s : Stream) : Prop := match reader s with None | Some Ended => True | _ => False end.

Section Invariant.
Context `{J : JSONDecoder}.

(** The reader is where the lines have brought it. *)
Definition reader_ok (s : Stream) (h : History) : Prop :=
  match reader s with
  | None | Some Dialling => H_lines h = []
  | Some (Scanning cur) | Some (Sending cur _) => cur = after_lines "" (H_lines h)
  | Some Ended => True
  end.

(** The goroutine is where the history has brought it. *)
Definition main_ok (s : Stream) (h : History) : Prop :=
  match main s with
  | AtHead | Sleeping => closed s
  | Processing _ rec => reader s ≠ None ∧ (rec = true ↔ H_handled h ≠ [])
  | Returned => ctx_done s = true
  end.

Definition stream_ok (s : Stream) (h : History) : Prop :=
  streamLines "" (H_lines h) = H_handled h ++ events s ++ in_flight (reader s) ∧
  Z.of_nat (length (events s)) ≤ sseStreamBufferCapacity ∧ reader_ok s h ∧ main_ok s h ∧
  delay s = Nat.iter (H_failures h) backoff reconnectMinDelay.
End Invariant.

Section Steps.
Context `{R : GoRuntime} {W : Type} `{A : KubeApi W} `{F : !Files W} `{E : ErrorText} `{C : StatusClient W} `{J : JSONDecoder}.
Context (clusterDomain : string) (a : StreamArgs).

Lemma started_ok : stream_ok started nothing_yet.
Proof. done. Qed.

(** Only an open connection moves its reader, and then the goroutine stays where it is. *)
Lemma main_ok_reader s h r lines : main_ok s h → ¬ closed s →
  main_ok (with_reader s r) {| H_lines := lines; H_handled := H_handled h; H_failures := H_failures h; H_opened := H_opened h |}.
Proof. unfold main_ok, closed. cbn. by destruct (main s) as [|client rec| |]; intros H Hc; try done; destruct H as [_ H]. Qed.

Lemma reads_ok i s s' w w' h :
  step clusterDomain a (Reads i) s w = Some (s', w') → stream_ok s h → stream_ok s' (observe (Reads i) s s' h).
Proof.
  intros Hs (H1 & H2 & H3 & H4 & H5). cbn in Hs. destruct (reader s) as [r|] eqn:Er; [|done].
  destruct (read i r) as [r'|] eqn:Ei; [|done]. cbn in Hs. injection Hs as <- <-.
  assert (¬ closed s) as Hc by (unfold closed; rewrite Er; destruct r; cbn in Ei; by try tauto).
  pose proof (main_ok_reader s h r' (H_lines h) H4 Hc) as Hm. destruct h as [lines handled n k]. cbn in *.
  unfold stream_ok, reader_ok in *. rewrite Er in *.
  destruct r as [|cur|cur e|], i as [[status|er]|raw|]; cbn in Ei; simplify_eq; cbn in *; [| | |by split_and!].
  - subst lines. by case_bool_decide; split_and!.
  - by split_and!.
  - destruct (scanText raw) as [line|]; cbn; [|injection Ei as <-; rewrite app_nil_r; by split_and!].
    pose proof (after_lines_snoc "" lines line) as Ha. pose proof (streamLines_app "" lines [line]) as Hl.
    rewrite streamLines_scan in Hl. cbn [streamLines] in Hl. rewrite H1, !app_nil_r in Hl.
    destruct (scanLine (after_lines "" lines) line) as [cur o] eqn:Esc. cbn in *.
    destruct o as [e|]; injection Ei as <-; cbn; (split_and!; [|done|done| |done]).
    all: rewrite ?Hl, ?app_nil_r, <- ?app_assoc; try done.
    all: by apply (main_ok_reader s {| H_lines := lines; H_handled := handled; H_failures := n; H_opened := k |} _ (lines ++ [line])).
Qed.

Lemma hands_over_ok s s' w w' h :
  step clusterDomain a HandsOver s w = Some (s', w') → stream_ok s h → stream_ok s' h.
Proof.
  intros Hs (H1 & H2 & H3 & H4 & H5). cbn in Hs. destruct (reader s) as [[| |cur e|]|] eqn:Er; try done.
  case_decide as Hlen; [|done]. injection Hs as <- <-.
  assert (¬ closed s) as Hc by (unfold closed; rewrite Er; tauto).
  pose proof (main_ok_reader s h (Scanning cur) (H_lines h) H4 Hc) as Hm. destruct h as [lines handled n k].
  unfold stream_ok, reader_ok in *. rewrite Er in *. cbn in *. rewrite app_nil_r, length_app. cbn.
  split_and!; [by rewrite H1|lia|done|exact Hm|done].
Qed.

Lemma turn_ok s s' w w' h : step clusterDomain a Turn s w = Some (s', w') → stream_ok s h → stream_ok s' (observe Turn s s' h).
Proof.
  intros Hs (H1 & H2 & H3 & H4 & H5). cbn in Hs. destruct (main s) eqn:Em; [|done..]. injection Hs as Hs. unfold turn in Hs.
  unfold stream_ok, reader_ok, main_ok in *. rewrite Em in H4.
  destruct (ctx_done s) eqn:Ed; [injection Hs as <- <-; by split_and!|].
  destruct (createHTTPClient _ w) as [w1 [client|er]]; injection Hs as <- <-; cbn; split_and!; try done; unfold sseStreamBufferCapacity; lia.
Qed.

Lemma event_ok s s' w w' h : step clusterDomain a OnEvent s w = Some (s', w') → stream_ok s h → stream_ok s' (observe OnEvent s s' h).
Proof.
  intros Hs (H1 & H2 & H3 & H4 & H5). cbn in Hs. destruct (main s) eqn:Em; [done| |done..].
  destruct (events s) as [|e l] eqn:Ee; [done|]. injection Hs as <- <-.
  unfold stream_ok, reader_ok, main_ok in *. rewrite Em in H4. cbn. rewrite Ee in *. cbn in *.
  rewrite take_0, H1, <- app_assoc. split; [done|]. split; [lia|]. split; [done|]. split; [|done]. split; [tauto|].
  split; [intros _ [_ Hn]%app_nil; done|done].
Qed.

(** The end of a connection, on either way out of [processEvents]. *)
Lemma disconnected_ok s h client rec : main s = Processing client rec → (ctx_done s = true ∨ closed s) → stream_ok s h →
  stream_ok (disconnected rec s) (if rec && negb (ctx_done s)
    then {| H_lines := H_lines h; H_handled := H_handled h; H_failures := 0; H_opened := H_opened h |} else h).
Proof.
  intros Em Hc (H1 & H2 & H3 & H4 & H5). unfold disconnected, stream_ok, reader_ok, main_ok, closed in *. rewrite Em in H4.
  destruct (ctx_done s) eqn:Ed; [rewrite andb_false_r; by split_and!|]. destruct Hc as [Hc|Hc]; [done|].
  destruct rec; cbn; by split_and!.
Qed.

Lemma step_ok m s s' w w' h : step clusterDomain a m s w = Some (s', w') → stream_ok s h → stream_ok s' (observe m s s' h).
Proof.
  intros Hs Hok. destruct m; [|by eapply reads_ok|by eapply hands_over_ok|by eapply turn_ok| | |by eapply event_ok|..].
  - injection Hs as <- <-. destruct Hok as (H1 & H2 & H3 & H4 & H5). split_and!; try done.
    unfold main_ok, closed in *. cbn. by destruct (main s).
  - cbn in Hs. destruct (main s) as [|client rec| |] eqn:Em; try done. destruct (ctx_done s) eqn:Ed; [|done]. injection Hs as <- <-.
    pose proof (disconnected_ok s h client rec Em (or_introl Ed) Hok) as H. rewrite Ed, andb_false_r in H. exact H.
  - cbn in Hs. destruct (main s) as [|client rec| |] eqn:Em; try done. destruct (reader s) as [[]|] eqn:Er; try done. injection Hs as <- <-.
    assert (closed s) as Hc by (unfold closed; by rewrite Er).
    pose proof (disconnected_ok s h client rec Em (or_intror Hc) Hok) as H. cbn. rewrite Em. unfold disconnected in *.
    destruct (ctx_done s), rec; exact H.
  - cbn in Hs. destruct (main s); try done. by injection Hs as <- <-.
  - cbn in Hs. destruct (main s) eqn:Em; try done. injection Hs as <- <-. destruct Hok as (H1 & H2 & H3 & H4 & H5).
    unfold main_ok, closed in H4. rewrite Em in H4. split_and!; try done. cbn. by rewrite H5.
Qed.

Lemma run_ok ms s w h s' w' h' : run clusterDomain a ms s w h = Some (s', w', h') → stream_ok s h → stream_ok s' h'.
Proof.
  revert s w h. induction ms as [|m ms IH]; intros s w h; cbn; [by intros [= <- _ <-]|].
  destruct (step clusterDomain a m s w) as [[s1 w1]|] eqn:Es; [|done]. cbn. intros Hr Hok. eapply IH; [exact Hr|]. by eapply step_ok.
Qed.

Lemma lives_ok ms w s w' h : lives clusterDomain a ms w = Some (s, w', h) → stream_ok s h.
Proof. intros H. by eapply run_ok. Qed.
End Steps.

(** ** Theorems *)

Section Theorems.
Context `{R : GoRuntime} {W : Type} `{A : KubeApi W} `{F : !Files W} `{E : ErrorText} `{C : StatusClient W} `{J : JSONDecoder}.
Context (clusterDomain : string) (a : StreamArgs).

(** C35: whatever moves the goroutines, the network and the clock make, and in whatever
    order, the events a stream handles are those its connection has delivered, in that
    order, the ones not handled yet being in the channel, which is within its capacity, or
    in the hands of the reader; so of events a pod has framed a prefix is handled, without
    one lost, repeated or out of turn; and while the stream sleeps or is about to connect
    no connection of it is open. *)
Theorem stream_in_order ms w s w' h :
  lives clusterDomain a ms w = Some (s, w', h) →
  streamLines "" (H_lines h) = H_handled h ++ events s ++ in_flight (reader s) ∧
  Z.of_nat (length (events s)) ≤ sseStreamBufferCapacity ∧
  (main s = AtHead ∨ main s = Sleeping → closed s) ∧
  ∀ framed rest, filter (λ l, is_comment l = false) (H_lines h ++ rest) = concat (frame <$> framed) →
    H_handled h `prefix_of` omap forwarded framed.
Proof.
  intros (H1 & H2 & _ & H4 & _)%lives_ok. split_and!; [done|done| |].
  - unfold main_ok in H4. by intros [E1|E1]; rewrite E1 in H4.
  - intros framed rest Hf. apply streamLines_frames in Hf. rewrite <- Hf, streamLines_app, H1, <- app_assoc. by eexists.
Qed.

(** The delay before the next attempt to connect doubles with every failure since a
    connection last delivered an event, from two seconds and up to ten; it is within
    these bounds at any moment. *)
Theorem reconnect_delay ms w s w' h :
  lives clusterDomain a ms w = Some (s, w', h) →
  delay s = Z.min (reconnectMinDelay * 2 ^ Z.of_nat (H_failures h)) reconnectMaxDelay ∧
  reconnectMinDelay ≤ delay s ≤ reconnectMaxDelay.
Proof.
  intros (_ & _ & _ & _ & ->)%lives_ok. rewrite iter_backoff. split; [done|].
  assert (0 < 2 ^ Z.of_nat (H_failures h)) by lia. unfold reconnectMinDelay, reconnectMaxDelay. lia.
Qed.

Lemma turn_cancelled s w : ctx_done s = true → turn a s w = (with_main s Returned, w).
Proof. unfold turn. by intros ->. Qed.

Lemma step_cancelled m s w s' w' h : ctx_done s = true → step clusterDomain a m s w = Some (s', w') →
  ctx_done s' = true ∧ H_opened (observe m s s' h) = H_opened h.
Proof.
  intros Hd Hs. destruct m; cbn in Hs.
  - by injection Hs as <- <-.
  - destruct (reader s) as [r|]; [|done]. destruct (read i r); [|done]. cbn in Hs. injection Hs as <- <-. by destruct i.
  - destruct (reader s) as [[]|]; try done. case_decide; [|done]. by injection Hs as <- <-.
  - destruct (main s) eqn:Em; try done. unfold turn in Hs. rewrite Hd in Hs. by injection Hs as <- <-.
  - destruct (main s) as [|? rec| |]; try done. rewrite Hd in Hs. injection Hs as <- <-. unfold disconnected. by rewrite Hd.
  - destruct (main s) as [|? rec| |] eqn:Em; try done. destruct (reader s) as [[]|]; try done. injection Hs as <- <-.
    unfold disconnected. rewrite Hd. split; [done|]. cbn. rewrite Em. by destruct rec.
  - destruct (main s); try done. destruct (events s); [done|]. by injection Hs as <- <-.
  - destruct (main s); try done. by injection Hs as <- <-.
  - destruct (main s); try done. by injection Hs as <- <-.
Qed.

(** A stream whose context is cancelled stops: it opens no connection any more, and
    from wherever it is its goroutine can return at once, in at most two moves of its own
    that do not depend on the pod and change nothing on the server. *)
Theorem cancelled_stream_stops ms s w h s' w' h' :
  ctx_done s = true → run clusterDomain a ms s w h = Some (s', w', h') →
  H_opened h' = H_opened h ∧
  ∃ own s'' h'', (length own ≤ 2)%nat ∧ Forall (λ m, m ∈ [Turn; OnDone; Wakes]) own ∧
    run clusterDomain a own s' w' h' = Some (s'', w', h'') ∧ main s'' = Returned.
Proof.
  revert s w h. induction ms as [|m ms IH]; intros s w h Hd; cbn.
  - intros [= <- <- <-]. split; [done|]. destruct (main s) as [|client rec| |] eqn:Em.
    + exists [Turn]. eexists _, _. split; [cbn; lia|]. split; [by repeat constructor|]. cbn. rewrite Em. cbn. rewrite turn_cancelled by done. by split.
    + exists [OnDone]. eexists _, _. split; [cbn; lia|]. split; [repeat constructor|].
      cbn. rewrite Em, Hd. cbn. split; [reflexivity|]. unfold disconnected. by rewrite Hd.
    + exists [Wakes; Turn]. eexists _, _. split; [cbn; lia|]. split; [repeat constructor|].
      cbn. rewrite Em. cbn. rewrite turn_cancelled by done. by split.
    + exists []. eexists _, _. split; [cbn; lia|]. by split; [constructor|].
  - destruct (step clusterDomain a m s w) as [[s1 w1]|] eqn:Es; [|done]. cbn. intros Hr.
    destruct (step_cancelled _ _ _ _ _ h Hd Es) as [Hd1 Ho]. destruct (IH _ _ _ Hd1 Hr) as [Ho' H]. by rewrite Ho', Ho.
Qed.
End Theorems.

(** ** What a stream does to the server *)

(** Reads of the files and of the issuer leave the Targets alone. *)
Class StreamFrame (W : Type) `{A : KubeApi W} `{F : !Files W} `{S : StatusStore W} : Prop := {
  sf_get : ∀ k nn, preserves reads (api_get k nn);
  sf_read : ∀ path, preserves reads (ReadFile path)
}.

Section Refinement.
Context `{R : GoRuntime} {W : Type} `{A : KubeApi W} `{F : !Files W} `{E : ErrorText} `{C : StatusClient W} `{J : JSONDecoder}.
Context `{S : StatusStore W} `{L : !StatusLaws W} `{SF : !StreamFrame W} (clusterDomain : string) (a : StreamArgs).

#[local] Instance reads_po : PreOrder (reads (W := W)).
Proof.
  split.
  - intros w. split; [apply sl_env|done].
  - intros w1 w2 w3 [E1 K1] [E2 K2]. split; [by eapply sl_env|auto].
Qed.

Lemma client_reads cluster : preserves reads (createHTTPClient (W := W) cluster).
Proof.
  unfold createHTTPClient, getIssuerCA, PodApi.getIssuerCA, wrap. walk ltac:(first [apply sf_get|apply sf_read]).
Qed.

Lemma turn_reads s w : reads w (turn a s w).2.
Proof.
  unfold turn. destruct (ctx_done s); [reflexivity|]. pose proof (client_reads (SA_cluster a) w) as H.
  by destruct (createHTTPClient _ w) as [w1 [client|er]].
Qed.

(** C36: the whole of a stream's goroutine, with its connections, its delays and its client,
    does nothing to the server but the steps of its own cluster: what holds in every
    interleaving of those ([summaries_preserved], [other_clusters_untouched]) holds in
    every interleaving of the streams themselves. *)
Theorem stream_refines_steps ms s w h s' w' h' :
  run clusterDomain a ms s w h = Some (s', w', h') →
  rtc (cluster_step (Namespace (Meta (SA_cluster a))) (Name (Meta (SA_cluster a)))) w w'.
Proof.
  revert s w h. induction ms as [|m ms IH]; intros s w h; cbn; [by intros [= _ <- _]|].
  destruct (step clusterDomain a m s w) as [[s1 w1]|] eqn:Es; [|done]. cbn. intros Hr%IH. clear IH. etrans; [|exact Hr].
  destruct m; cbn in Es.
  - by injection Es as _ <-.
  - destruct (reader s) as [r|]; [|done]. destruct (read i r); [|done]. by injection Es as _ <-.
  - destruct (reader s) as [[]|]; try done. case_decide; [|done]. by injection Es as _ <-.
  - destruct (main s); try done. injection Es as Es. apply rtc_once, step_read. pose proof (turn_reads s w) as H. by rewrite Es in H.
  - destruct (main s); try done. destruct (ctx_done s); [|done]. by injection Es as _ <-.
  - destruct (main s); try done. destruct (reader s) as [[]|]; try done. by injection Es as _ <-.
  - destruct (main s); try done. destruct (events s); [done|]. injection Es as _ <-. apply rtc_once, step_event.
  - destruct (main s); try done. injection Es as _ <-. apply rtc_once, step_poll.
  - destruct (main s); try done. by injection Es as _ <-.
Qed.

(** A reader that has an event in hand when the stream has returned and the channel is full
    waits for ever: nobody takes from the channel, and the send does not look at the
    context. *)
Theorem reader_leaks ms s w h s' w' h' cur e :
  main s = Returned → reader s = Some (Sending cur e) → sseStreamBufferCapacity ≤ Z.of_nat (length (events s)) →
  run clusterDomain a ms s w h = Some (s', w', h') → main s' = Returned ∧ reader s' = Some (Sending cur e).
Proof.
  intros Hm Hr Hl. revert s w h Hm Hr Hl. induction ms as [|m ms IH]; intros s w h Hm Hr Hl; cbn; [by intros [= <- _ _]|].
  destruct (step clusterDomain a m s w) as [[s1 w1]|] eqn:Es; [|done]. cbn.
  assert (main s1 = main s ∧ reader s1 = reader s ∧ events s1 = events s) as (Em & Er & Ee); [|apply IH; congruence].
  destruct m; cbn in Es; try rewrite Hm in Es; try rewrite Hr in Es; cbn in Es; try done.
  - by injection Es as <- <-.
  - case_decide; [lia|done].
Qed.
End Refinement.

(** ** Witnesses *)

Module StreamDemo.
#[local] Instance demo_json : JSONDecoder := {
  decodeEvent s := Some {| SSE_Timestamp := 0; SSE_Store := "state"; SSE_Kind := s; SSE_Name := "ns/t1"; SSE_EventType := "";
                           SSE_Object := "READY" |};
  decodeState s := Some demo_object;
  decodePoll s := Some []
}.
#[local] Instance demo_errors : ErrorText := {| Error _ := ""; Quote s := s |}.

(** Without TLS neither the API server nor a file is asked for the client. *)
#[local] Instance no_api : KubeApi StatusWorld := {|
  api_get _ _ w := (w, Err (ErrMsg "")); api_list _ _ _ w := (w, Err (ErrMsg "")); api_create _ _ w := (w, Err (ErrMsg ""));
  api_update _ _ w := (w, Err (ErrMsg "")); api_updateStatus _ _ w := (w, Err (ErrMsg "")); api_delete _ _ w := (w, Err (ErrMsg ""));
  api_setOwner _ _ o := Ok o |}.
#[local] Instance no_files : Files StatusWorld :=
  {| ReadFile _ w := (w, Err (ErrMsg "")); Getenv _ := ""; X509KeyPair _ _ := Err (ErrMsg "") |}.
#[local] Instance demo_frame : StreamFrame StatusWorld.
Proof. by split; intros; intros w; split. Qed.

Definition demo_args : StreamArgs :=
  {| SA_cluster := c1; SA_stsName := "gnmic-c1"; SA_podIndex := 0; SA_sseURL := buildPodSSEURL "cluster.local" c1 "gnmic-c1" 0 |}.

(** A connection that delivers an update and ends, and the next attempt. *)
Definition one_event : list Move :=
  [Turn; Reads (Response (Ok 200)); Reads (Line "event: update"); Reads (Line "data: targets"); HandsOver].
Definition handled_and_closed : list Move := one_event ++ [OnEvent; Reads Close; OnStreamDone; Wakes; Turn; Reads (Response (Err ErrConflict))].
Definition closed_before_handled : list Move := one_event ++ [Reads Close; OnStreamDone; Wakes; Turn].

Definition demo_life (ms : list Move) := lives "cluster.local" demo_args ms (status_world 0).

Definition life_entry (ms : list Move) : option (option string) := '(s, w, h) ← demo_life ms; Some (entry_pod w).

(** When the end of the stream and an event are both there, [select] may take the end: the
    event is dropped with the channel, and the Target keeps the entry of pod 2. *)
Example event_dropped_at_end :
  life_entry handled_and_closed = Some (Some "gnmic-c1-0") ∧ life_entry closed_before_handled = Some (Some "gnmic-c1-2").
Proof. split; vm_compute; reflexivity. Qed.

(** 1024 events in the channel and one in the hands of the reader when the stream is
    stopped. *)
Definition stopped_when_full : list Move :=
  one_event ++ concat (replicate 1023 [Reads (Line "data: targets"); HandsOver]) ++ [Reads (Line "data: targets"); Cancel; OnDone].

Definition leaking (s : Stream) : bool :=
  match main s, reader s with
  | Returned, Some (Sending _ _) => bool_decide (sseStreamBufferCapacity ≤ Z.of_nat (length (events s)))
  | _, _ => false end.

(** The reader of a stream that is stopped with a full channel is never heard of again,
    whatever moves follow. *)
Example stopped_reader_leaks ms s w h s' w' h' :
  demo_life stopped_when_full = Some (s, w, h) → run "cluster.local" demo_args ms s w h = Some (s', w', h') →
  main s' = Returned ∧ ¬ closed s'.
Proof.
  intros Hs Hr. assert ((l ← demo_life stopped_when_full; Some (leaking l.1.1)) = Some true) as Hl by (vm_compute; reflexivity).
  rewrite Hs in Hl. clear Hs. cbn in Hl. injection Hl as Hl. unfold leaking in Hl. destruct (main s) eqn:Em; try done.
  destruct (reader s) as [[| |cur e|]|] eqn:Er; try done. apply bool_decide_eq_true in Hl.
  destruct (reader_leaks "cluster.local" demo_args ms s w h s' w' h' cur e Em Er Hl Hr) as [H1 H2]. split; [done|].
  unfold closed. rewrite H2. tauto.
Qed.

Lemma demo_life_some ms : is_Some (demo_life ms) → ∃ s w h, demo_life ms = Some (s, w, h).
Proof. intros [[[s w] h] H]. by exists s, w, h. Qed.

Definition some_life (ms : list Move) : bool := match demo_life ms with Some _ => true | None => false end.

Lemma stream_in_order_witness :
  ∃ s w h, demo_life handled_and_closed = Some (s, w, h) ∧ Z.of_nat (length (events s)) ≤ sseStreamBufferCapacity.
Proof.
  assert (some_life handled_and_closed = true) as Hs by (vm_compute; reflexivity). unfold some_life in Hs.
  destruct (demo_life handled_and_closed) as [[[s w] h]|] eqn:Hl; [|discriminate]. exists s, w, h. split; [reflexivity|].
  exact (proj1 (proj2 (stream_in_order "cluster.local" demo_args handled_and_closed _ s w h Hl))).
Defined.

Lemma reconnect_delay_witness :
  ∃ s w h, demo_life closed_before_handled = Some (s, w, h) ∧ delay s = 4 * 1000000000.
Proof.
  assert ((l ← demo_life closed_before_handled; Some (H_failures l.2)) = Some 1%nat) as Hs by (vm_compute; reflexivity).
  destruct (demo_life closed_before_handled) as [[[s w] h]|] eqn:Hl; [|discriminate]. exists s, w, h. split; [reflexivity|].
  destruct (reconnect_delay "cluster.local" demo_args closed_before_handled _ s w h Hl) as [H _].
  cbn in Hs. injection Hs as Hs. rewrite Hs in H. exact H.
Defined.

Lemma cancelled_stream_stops_witness :
  ∃ s w h own s'' h'', demo_life (one_event ++ [Cancel]) = Some (s, w, h) ∧
    run "cluster.local" demo_args own s w h = Some (s'', w, h'') ∧ main s'' = Returned.
Proof.
  assert ((l ← demo_life (one_event ++ [Cancel]); Some (ctx_done l.1.1)) = Some true) as Hs by (vm_compute; reflexivity).
  destruct (demo_life (one_event ++ [Cancel])) as [[[s w] h]|] eqn:Hl; [|discriminate]. cbn in Hs. injection Hs as Hs.
  destruct (cancelled_stream_stops "cluster.local" demo_args [] s w h s w h Hs eq_refl) as [_ (own & s'' & h'' & _ & _ & H1 & H2)].
  exists s, w, h, own, s'', h''. exact (conj eq_refl (conj H1 H2)).
Defined.

Lemma stream_refines_steps_witness :
  ∃ s w h, demo_life handled_and_closed = Some (s, w, h) ∧ rtc (cluster_step "ns" "c1") (status_world 0) w.
Proof.
  assert (some_life handled_and_closed = true) as Hs by (vm_compute; reflexivity). unfold some_life in Hs.
  destruct (demo_life handled_and_closed) as [[[s w] h]|] eqn:Hl; [|discriminate]. exists s, w, h. split; [reflexivity|].
  exact (stream_refines_steps "cluster.local" demo_args handled_and_closed started _ nothing_yet s w h Hl).
Defined.
End StreamDemo.
