(* ===== verification/Dns.v ===== *)
(** The DNS domain of the Kubernetes cluster ([internal/gnmic/dns.go]), from which the names
    of pods and services are made. *)

From S2P Require Import Prelude GoLib.
From Stdlib Require Import Ascii.
#[local] Open Scope Z_scope.

Definition defaultClusterDomain : string := "cluster.local".

(** The entries of a search line, [shortest] being the shortest so far: [inl] is a return. *)
Fixpoint searchDomain (shortest : string) (entries : list string) : string + string :=
  match entries with
  | [] => inr shortest
  | d :: entries =>
      if HasPrefix d "svc." then inl (TrimPrefix d "svc.") else
      searchDomain (if bool_decide (shortest = "") || bool_decide (String.length d < String.length shortest)%nat then d else shortest) entries
  end.

Fixpoint parseLines (lines : list string) : string :=
  match lines with
  | [] => defaultClusterDomain
  | line :: lines =>
      match Fields line with
      | f :: d :: entries =>
          if bool_decide (f ≠ "search") then parseLines lines else
          match searchDomain "" (d :: entries) with
          | inl domain => domain
          | inr shortest => if bool_decide (shortest ≠ "") then shortest else parseLines lines
          end
      | _ => parseLines lines
      end
  end.

Definition parseClusterDomain (content : string) : string := parseLines (scanLines content).

(** [os.Open "/etc/resolv.conf"] and its content. *)
Definition detectClusterDomain (resolv : res string) : string :=
  match resolv with Err _ => defaultClusterDomain | Ok content => parseClusterDomain content end.

(** The environment wins over what was detected when the process started. *)
Definition ClusterDomain (CLUSTER_DOMAIN clusterDomain : string) : string :=
  if bool_decide (CLUSTER_DOMAIN ≠ "") then CLUSTER_DOMAIN else clusterDomain.

(** ** Lemmas *)

(** The bytes no space begins with. *)
Definition space_heads : list ascii := ascii_of_N <$> [9; 10; 11; 12; 13; 32; 194; 225; 226; 227]%N.

Definition plain_byte (c : ascii) : bool := bool_decide (c ∉ space_heads).

Fixpoint plain (s : string) : bool := match s with "" => true | String c s => plain_byte c && plain s end.

Definition head_known (p : string) : bool := match p with String d _ => bool_decide (d ∈ space_heads) | "" => false end.

Lemma not_space c s : plain_byte c = true → List.find (HasPrefix (String c s)) space_runes = None.
Proof.
  intros Hc%bool_decide_eq_true. assert (forallb head_known space_runes = true) as Hall by (vm_compute; reflexivity).
  revert Hall. generalize space_runes. induction l as [|p l IH]; [done|]. cbn [forallb List.find].
  intros [Hp Hl]%andb_true_iff. destruct p as [|d p]; [done|]. apply bool_decide_eq_true in Hp. cbn [HasPrefix].
  destruct (Ascii.eqb_spec d c) as [->|]; [done|]. by apply IH.
Qed.

Lemma str_length_app a b : String.length (a +:+ b) = (String.length a + String.length b)%nat.
Proof. induction a as [|c a IH]; [done|]. rewrite app_str_cons. cbn. by rewrite IH. Qed.

Lemma fields_go_word w fuel piece s : plain w = true →
  fields_go (String.length w + fuel) piece (w +:+ s) = fields_go fuel (rev_string w +:+ piece) s.
Proof.
  revert piece. induction w as [|c w IH]; intros piece; [by rewrite app_str_nil_l|]. cbn [plain]. intros [Hc Hw]%andb_true_iff.
  rewrite app_str_cons. cbn [String.length Nat.add fields_go]. rewrite not_space, IH by done. f_equal.
  change (String c w) with (String c "" +:+ w). rewrite rev_string_app, <- app_str_assoc. done.
Qed.

Lemma fields_go_space fuel piece s :
  fields_go (S fuel) piece (String " " s) = (match piece with "" => [] | _ => [rev_string piece] end) ++ fields_go fuel "" s.
Proof. destruct s; reflexivity. Qed.

Definition is_word (w : string) : Prop := plain w = true ∧ w ≠ "".

Lemma rev_nonempty w : w ≠ "" → rev_string w ≠ "".
Proof. intros Hw E. apply Hw. rewrite <- (rev_string_involutive w), E. done. Qed.

Lemma Fields_Join l : Forall is_word l → Fields (Join l " ") = l.
Proof.
  unfold Fields. induction 1 as [|w l [Hp Hw] Hl IH]; [done|].
  assert (∀ x : list string, match rev_string w with "" => [] | _ => [rev_string (rev_string w)] end ++ x = w :: x) as Hword.
  { intros x. pose proof (rev_nonempty w Hw). rewrite rev_string_involutive. by destruct (rev_string w). }
  destruct l as [|w' l].
  - cbn [Join]. rewrite <- (app_str_nil_r w) at 2. rewrite <- (Nat.add_0_r (String.length w)), fields_go_word by done.
    rewrite app_str_nil_r. specialize (Hword []). by rewrite app_nil_r in Hword.
  - change (Join (w :: w' :: l) " ") with (w +:+ String " " (Join (w' :: l) " ")). rewrite str_length_app. cbn [String.length].
    rewrite fields_go_word, fields_go_space, app_str_nil_r, IH by done. apply Hword.
Qed.

(** ** The domain *)

Lemma not_svc ns s : no_byte "."%char ns = true → ns ≠ "svc" → HasPrefix (ns +:+ String "." s) "svc." = false.
Proof.
  intros Hn Hs. apply not_true_is_false. intros Hp. destruct ns as [|a ns]; [done|]. rewrite !app_str_cons in Hp.
  cbn [HasPrefix] in Hp. apply andb_true_iff in Hp as [<-%Ascii.eqb_eq Hp]. destruct ns as [|b ns]; [done|].
  rewrite app_str_cons in Hp. cbn [HasPrefix] in Hp. apply andb_true_iff in Hp as [<-%Ascii.eqb_eq Hp]. destruct ns as [|c ns]; [done|].
  rewrite app_str_cons in Hp. cbn [HasPrefix] in Hp. apply andb_true_iff in Hp as [<-%Ascii.eqb_eq Hp]. destruct ns as [|d ns]; [done|].
  rewrite app_str_cons in Hp. cbn [HasPrefix] in Hp. apply andb_true_iff in Hp as [<-%Ascii.eqb_eq _]. done.
Qed.

(** A line the loop passes over. *)
Definition passed (line : string) : Prop := ∀ d entries, Fields line ≠ "search" :: d :: entries.

Lemma parseLines_passed before lines : Forall passed before → parseLines (before ++ lines) = parseLines lines.
Proof.
  induction 1 as [|line before Hp _ IH]; [done|]. cbn [app parseLines]. rewrite IH. unfold passed in Hp.
  destruct (Fields line) as [|f [|d entries]]; [done..|]. case_bool_decide as Hf; [done|]. destruct (Hp d entries). by rewrite Hf.
Qed.

(** Of a resolv.conf as the kubelet writes it for a pod of the namespace [ns] the domain of
    the cluster is read back, whatever stands before and after its search line, and
    whatever other domains follow in it: the pods and services are then reached under the
    names they have. *)
Theorem cluster_domain_roundtrip before ns domain more after :
  let search := "search" :: (ns +:+ ".svc." +:+ domain) :: ("svc." +:+ domain) :: more in
  Forall passed before → Forall is_line (before ++ Join search " " :: after) → Forall is_word search →
  no_byte "."%char ns = true → ns ≠ "svc" →
  parseClusterDomain (unlines (before ++ Join search " " :: after)) = domain.
Proof.
  intros search Hb Hl Hw Hd Hns. unfold parseClusterDomain. rewrite scanLines_unlines, parseLines_passed by done. cbn [parseLines].
  rewrite Fields_Join by done. unfold search. rewrite bool_decide_false by (intros H; by apply H). cbn [searchDomain].
  change (ns +:+ ".svc." +:+ domain) with (ns +:+ String "." ("svc." +:+ domain)). rewrite not_svc by done.
  assert (CutPrefix ("svc." +:+ domain) "svc." = (domain, true)) as E.
  { unfold CutPrefix. by rewrite HasPrefix_app, drop_bytes_app. }
  unfold TrimPrefix. rewrite E. unfold CutPrefix in E. by destruct (HasPrefix ("svc." +:+ domain) "svc.").
Qed.

Definition demo_resolv (ns : string) : list string :=
  ["# generated"; "nameserver 10.96.0.10"; "search " +:+ ns +:+ ".svc.k8s.example svc.k8s.example k8s.example corp.example"; "options ndots:5"].

Lemma cluster_domain_roundtrip_witness : parseClusterDomain (unlines (demo_resolv "gnmic-system")) = "k8s.example".
Proof.
  apply (cluster_domain_roundtrip ["# generated"; "nameserver 10.96.0.10"] "gnmic-system" "k8s.example" ["k8s.example"; "corp.example"] ["options ndots:5"]).
  - repeat constructor; intros d entries H; vm_compute in H; discriminate.
  - repeat constructor.
  - repeat constructor; discriminate.
  - reflexivity.
  - discriminate.
Defined.

(** In a namespace named [svc] the first entry already has the prefix, and the domain is
    taken to be [svc.k8s.example]. *)
Example namespace_svc_misread : parseClusterDomain (unlines (demo_resolv "svc")) = "svc.k8s.example".
Proof. vm_compute. reflexivity. Qed.

(** Without a search line, or without the file, it is the default. *)
Example default_domain : parseClusterDomain (unlines ["nameserver 8.8.8.8"; "search"]) = "cluster.local" ∧
  detectClusterDomain (Err ErrNotFound) = "cluster.local".
Proof. split; vm_compute; reflexivity. Qed.
