(* ===== verification/ApiServer.v ===== *)
(** The operator's own HTTP API ([internal/apiserver/apiserver.go]): the plan of a cluster,
    out of the cache the cluster controller keeps. *)

From S2P Require Import Prelude GoLib Api GnmicTypes Kube PodApi ClusterReconcile.
From Stdlib Require Import Ascii.
#[local] Open Scope Z_scope.

(** What is written to [http.ResponseWriter]. *)
Record HttpResponse := { Resp_Status : Z; Resp_ContentType : string; Resp_Body : string }.

(** [http.Error]. *)
Definition httpError (msg : string) (code : Z) : HttpResponse :=
  {| Resp_Status := code; Resp_ContentType := "text/plain; charset=utf-8"; Resp_Body := msg +:+ String "010" "" |}.

Definition StatusOK : Z := 200.
Definition StatusNotFound : Z := 404.
Definition StatusInternalServerError : Z := 500.

Section Server.
Context {W : Type} {J : PodJSON} `{E : ErrorText}.

(** [GET /clusters/{namespace}/{name}/plan]: [Encode] writes the text and a newline. *)
Definition getClusterPlan (namespace name : string) (s : Plans * W) : HttpResponse :=
  match (GetClusterPlan namespace name s).2 with
  | Err err => httpError (Error err) StatusNotFound
  | Ok plan =>
      match MarshalPlan plan with
      | Err err => httpError (Error err) StatusInternalServerError
      | Ok body => {| Resp_Status := StatusOK; Resp_ContentType := "application/json"; Resp_Body := body +:+ String "010" "" |}
      end
  end.

(** What the controller does to its cache. *)
Inductive CacheOp := Cached (namespace name : string) (plan : ApplyPlan) | Cleaned (namespace name : string).

Definition cache_op (s : Plans * W) (op : CacheOp) : Plans * W :=
  match op with Cached ns name plan => (CachePlan ns name plan s).1 | Cleaned ns name => (cleanupPlan ns name s).1 end.

Definition op_key (op : CacheOp) : string * string := match op with Cached ns name _ | Cleaned ns name => (ns, name) end.

(** The plan that was cached last and not dropped since; the latest operation comes first. *)
Fixpoint last_plan (k : string * string) (ops : list CacheOp) : option ApplyPlan :=
  match ops with
  | [] => None
  | op :: ops =>
      if decide (op_key op = k) then match op with Cached _ _ plan => Some plan | Cleaned _ _ => None end else last_plan k ops
  end.

(** What the answer for a plan, or none, is. *)
Definition answer (namespace name : string) (plan : option ApplyPlan) : HttpResponse :=
  match plan with
  | None => httpError (Error (ErrMsg ("plan not found for cluster " +:+ namespace +:+ "/" +:+ name))) StatusNotFound
  | Some plan =>
      match MarshalPlan plan with
      | Err err => httpError (Error err) StatusInternalServerError
      | Ok body => {| Resp_Status := StatusOK; Resp_ContentType := "application/json"; Resp_Body := body +:+ String "010" "" |}
      end
  end.

Lemma plan_key_inj ns name ns' name' : no_byte "/"%char ns = true → no_byte "/"%char ns' = true →
  plan_key ns name = plan_key ns' name' → (ns, name) = (ns', name').
Proof.
  intros H H' Heq. change (ns +:+ String "/" name = ns' +:+ String "/" name') in Heq.
  pose proof (cut_first_app "/"%char ns name H) as C1. rewrite Heq, cut_first_app in C1 by done. by injection C1 as -> ->.
Qed.

Lemma last_plan_exact ns name ops (s : Plans * W) : no_byte "/"%char ns = true →
  Forall (λ op, no_byte "/"%char (op_key op).1 = true) ops → s.1 = ∅ →
  (foldr (λ op s, cache_op s op) s ops).1 !! plan_key ns name = last_plan (ns, name) ops.
Proof.
  intros Hns Hops Hs. induction Hops as [|op ops Hop _ IH]; cbn [foldr last_plan]; [by rewrite Hs|].
  rewrite <- IH. destruct op as [ns' name' plan|ns' name']; cbn in *; case_decide as Hk.
  - injection Hk as -> ->. by rewrite lookup_insert_eq.
  - rewrite lookup_insert_ne; [done|]. intros H. apply plan_key_inj in H; congruence.
  - injection Hk as -> ->. by rewrite lookup_delete_eq.
  - rewrite lookup_delete_ne; [done|]. intros H. apply plan_key_inj in H; congruence.
Qed.

(** Whatever the controller did before, the API answers for a cluster with the plan that was
    cached for it last, unless it has been dropped since, in which case, as for a cluster
    that never had one, it answers 404; other clusters do not matter. *)
Theorem plan_served ns name ops (s : Plans * W) : no_byte "/"%char ns = true →
  Forall (λ op, no_byte "/"%char (op_key op).1 = true) ops → s.1 = ∅ →
  getClusterPlan ns name (foldr (λ op s, cache_op s op) s ops) = answer ns name (last_plan (ns, name) ops).
Proof.
  intros Hns Hops Hs. rewrite <- (last_plan_exact ns name ops s Hns Hops Hs). unfold getClusterPlan, GetClusterPlan, answer, mbind, io_bind, read_state.
  cbn. by destruct (_ !! plan_key ns name).
Qed.
End Server.

Section Demo.
#[local] Instance demo_json : PodJSON := {| MarshalPlan _ := Ok "{}"; MarshalMatch _ := Ok "{}"; DecodeIDs _ := Ok ∅ |}.
#[local] Instance demo_errors : ErrorText := {| Error e := match e with ErrMsg msg => msg | _ => "" end; Quote s := s |}.

Lemma plan_served_witness (plan : ApplyPlan) :
  Resp_Status (getClusterPlan "ns" "c1" (foldr (λ op s, cache_op s op) (∅, tt) [Cleaned "ns" "c2"; Cached "ns" "c1" plan])) = 200 ∧
  Resp_Status (getClusterPlan "ns" "c1" (foldr (λ op s, cache_op s op) (∅, tt) [Cleaned "ns" "c1"; Cached "ns" "c1" plan])) = 404.
Proof. split; rewrite plan_served by (repeat constructor); reflexivity. Qed.
End Demo.
