(* ===== verification/Progress.v ===== *)
(** A reconciliation of the cluster controller gets there: over an API server that takes
    what it is given and pods that answer, it returns, and with nothing left to do once
    the certificates are issued and the pods are up. *)

From S2P Require Import Prelude GoLib Api GnmicTypes Distribute TargetConfigs OutputConfigs PlanBuilder.
From S2P Require Import ClusterClient Resolve Watch ClusterPlan PipelineStatus Kube Names Services Certificates Workload PodApi ClusterReconcile.
From Stdlib Require Import Ascii.
#[local] Open Scope Z_scope.

(** ** Computations that return *)

(** From any world, without an error. *)
Definition returns {W B} (m : io W B) : Prop := ∀ w, is_ok (m w).2 = true.

(** Total correctness: from a world with [P] it returns, and what it returns and where
    it ends satisfy [Q]. *)
Definition total {W B} (P : W → Prop) (m : io W B) (Q : B → W → Prop) : Prop :=
  ∀ w, P w → ∃ b w', m w = (w', Ok b) ∧ Q b w'.

Section Returns.
Context {W : Type}.

Lemma returns_run {B} (m : io W B) w : returns m → ∃ b w', m w = (w', Ok b).
Proof. intros H. specialize (H w). destruct (m w) as [w' [b|e]]; [by exists b, w'|done]. Qed.

Lemma returns_ret {B} (b : B) : returns (mret b : io W B).
Proof. done. Qed.

Lemma returns_lift {B} (r : res B) : is_ok r = true → returns (io_lift r : io W B).
Proof. intros H w. exact H. Qed.

Lemma returns_try {B} (m : io W B) : returns (io_try m).
Proof. done. Qed.

Lemma returns_bind {B C} (m : io W B) (f : B → io W C) : returns m → (∀ b, returns (f b)) → returns (m ≫= f).
Proof.
  intros Hm Hf w. destruct (returns_run m w Hm) as (b & w' & E). unfold mbind, io_bind. rewrite E. apply Hf.
Qed.

Lemma returns_for_each {B} (f : B → io W unit) l : (∀ b, b ∈ l → returns (f b)) → returns (for_each f l).
Proof.
  induction l as [|b l IH]; intros H; [apply returns_ret|]. cbn [for_each]. apply returns_bind; [apply H; by left|].
  intros _. apply IH. intros b' Hb'. apply H. by right.
Qed.

Lemma returns_foldM {B C} (f : C → B → io W C) c l : (∀ c b, b ∈ l → returns (f c b)) → returns (foldM f c l).
Proof.
  revert c; induction l as [|b l IH]; intros c H; [apply returns_ret|]. cbn [foldM]. apply returns_bind; [apply H; by left|].
  intros c'. apply IH. intros c2 b' Hb'. apply H. by right.
Qed.

Lemma returns_wrap {B} `{ErrorText} msg (m : io W B) : returns m → returns (wrap msg m).
Proof. intros Hm w. destruct (returns_run m w Hm) as (b & w' & E). unfold wrap, mbind, io_bind, io_try. by rewrite E. Qed.

Lemma returns_beside {X B} (m : io W B) : returns m → returns (beside (X := X) m).
Proof. intros Hm [x w]. apply (Hm w). Qed.

Lemma total_ret {B} (P : W → Prop) (b : B) Q : (∀ w, P w → Q b w) → total P (mret b) Q.
Proof. intros H w Hw. exists b, w. split; [done|by apply H]. Qed.

Lemma total_bind {B C} (P : W → Prop) (m : io W B) (f : B → io W C) R Q :
  total P m R → (∀ b, total (R b) (f b) Q) → total P (m ≫= f) Q.
Proof.
  intros Hm Hf w Hw. destruct (Hm w Hw) as (b & w1 & E & Hb). destruct (Hf b w1 Hb) as (c & w2 & E2 & Hc).
  exists c, w2. split; [|done]. unfold mbind, io_bind. by rewrite E.
Qed.

Lemma total_conseq {B} (P P' : W → Prop) (m : io W B) (Q Q' : B → W → Prop) :
  (∀ w, P' w → P w) → (∀ b w, Q b w → Q' b w) → total P m Q → total P' m Q'.
Proof. intros HP HQ H w Hw. destruct (H w (HP w Hw)) as (b & w' & E & Hb). exists b, w'. split; [done|by apply HQ]. Qed.

(** A computation that returns and moves only where [P] is kept. *)
Lemma total_returns {B} (Rel : W → W → Prop) (P : W → Prop) (m : io W B) :
  returns m → preserves Rel m → (∀ w w', Rel w w' → P w → P w') → total P m (λ _, P).
Proof.
  intros Hm Hp HP w Hw. destruct (returns_run m w Hm) as (b & w' & E). exists b, w'. split; [done|].
  specialize (Hp w). rewrite E in Hp. by eapply HP.
Qed.

Lemma total_for_each {B} (P : W → Prop) (f : B → io W unit) l :
  (∀ b, b ∈ l → total P (f b) (λ _, P)) → total P (for_each f l) (λ _, P).
Proof.
  induction l as [|b l IH]; intros H; [by apply total_ret|]. cbn [for_each]. eapply total_bind; [apply H; by left|].
  intros []. apply IH. intros b' Hb'. apply H. by right.
Qed.

Lemma total_foldM {B C} (P : C → W → Prop) (f : C → B → io W C) c l :
  (∀ c b, b ∈ l → total (P c) (f c b) P) → total (P c) (foldM f c l) P.
Proof.
  revert c; induction l as [|b l IH]; intros c H; [by apply total_ret|]. cbn [foldM]. eapply total_bind; [apply H; by left|].
  intros c'. apply IH. intros c2 b' Hb'. apply H. by right.
Qed.
End Returns.

(** ** A server that takes what it is given *)

(** No call fails for a reason of its own: what is looked for is found or is not there,
    what is not there can be created, what is there updated, and no other controller owns
    an object of the cluster. *)
Class ApiServes (W : Type) `{A : KubeApi W} `{V : ApiStore W} : Prop := {
  as_get k nn w e : (api_get k nn w).2 = Err e → e = ErrNotFound;
  as_list k ns ls : returns (api_list k ns ls);
  as_create k o w : view w k !! key_of o = None → is_ok (api_create k o w).2 = true;
  as_update k o w : is_Some (view w k !! key_of o) → is_ok (api_update k o w).2 = true;
  as_delete k nn w e : (api_delete k nn w).2 = Err e → e = ErrNotFound;
  as_owner k c o : is_ok (api_setOwner k c o) = true
}.

Section Serves.
Context {W : Type} `{L : ApiLaws W} `{H : !ApiServes W}.

Lemma get_returns k nn w : (∃ w' o, api_get k nn w = (w', Ok o) ∧ agree_off nothing w w' ∧ view w k !! nn = Some o) ∨
  (∃ w', api_get k nn w = (w', Err ErrNotFound) ∧ agree_off nothing w w' ∧ view w k !! nn = None).
Proof.
  pose proof (al_get k nn w) as [Hag Hg]. pose proof (as_get k nn w) as He.
  destruct (api_get k nn w) as [w' [o|e]]; cbn [fst snd] in *; [left; by exists w', o|right].
  rewrite (He e eq_refl) in *. by exists w'.
Qed.

Lemma get_there k nn w o : view w k !! nn = Some o → ∃ w', api_get k nn w = (w', Ok o) ∧ agree_off nothing w w'.
Proof.
  intros Hv. destruct (get_returns k nn w) as [(w' & o' & E & Hag & Hv')|(w' & _ & _ & Hn)].
  - exists w'. split; [|done]. rewrite E. do 2 f_equal. apply (inj Some). exact (eq_trans (eq_sym Hv') Hv).
  - discriminate (eq_trans (eq_sym Hn) Hv).
Qed.

Lemma returns_delete_if_present k nn : returns (delete_if_present k nn).
Proof.
  intros w. unfold delete_if_present, mbind, io_bind, io_try, io_lift. cbn [fst snd].
  pose proof (as_delete k nn w) as He. destruct (api_delete k nn w) as [w' [[]|e]]; cbn [fst snd] in *; [done|].
  by rewrite (He e eq_refl).
Qed.

Lemma returns_create_or {B} k cluster (desired : obj k) (created : obj k → io W B) found :
  (∀ o, returns (created o)) →
  (∀ d cur w, key_of cur = key_of d → view w k !! key_of d = Some cur → is_ok (found d cur w).2 = true) →
  returns (create_or k cluster desired created found).
Proof.
  intros Hc Hf w. unfold create_or, mbind, io_bind, io_lift, io_try.
  pose proof (as_owner k cluster desired) as Ho. destruct (api_setOwner k cluster desired) as [d|e]; [|done].
  destruct (get_returns k (key_of d) w) as [(w1 & cur & -> & Hag & Hv)|(w1 & -> & Hag & Hv)]; cbn [fst snd].
  - apply Hf; [by eapply al_key|]. by eapply keep.
  - pose proof (as_create k d w1 (keep _ _ _ _ _ Hag Hv)) as Hok.
    destruct (api_create k d w1) as [w2 [o|e]]; [apply Hc|done].
Qed.

Lemma update_there k o nn cur w : key_of o = nn → view w k !! nn = Some cur → is_ok (api_update k o w).2 = true.
Proof. intros <- Hv. apply as_update. by exists cur. Qed.

(** An update whose result is dropped. *)
Lemma update_then_unit k o nn cur w : key_of o = nn → view w k !! nn = Some cur →
  is_ok ((_ ← api_update k o; mret tt : io W unit) w).2 = true.
Proof.
  intros Hk Hv. pose proof (update_there k o nn cur w Hk Hv) as Hok. unfold mbind, io_bind.
  by destruct (api_update k o w) as [w' [o'|e]].
Qed.
End Serves.

Create HintDb returns.
#[export] Hint Resolve returns_ret returns_lift returns_try as_list returns_delete_if_present returns_wrap returns_beside : returns.

(** Walks over a computation; [call] proves what is left of the calls. *)
Ltac settle call :=
  repeat first
    [ solve [call]
    | match goal with
      | |- returns (create_or _ _ _ _ _) => apply returns_create_or; [intros ?|intros ? ? ? ? ?]
      | |- returns (_ ≫= _) => apply returns_bind; [|intros ?]
      | |- returns (for_each _ _) => apply returns_for_each; intros ? ?
      | |- returns (foldM _ _ _) => apply returns_foldM; intros ? ? ?
      | |- returns (match ?x with _ => _ end) => destruct x eqn:?
      end ].

(** ** The owned objects *)

Section OwnedReturns.
Context {W : Type} `{L : ApiLaws W} `{H : !ApiServes W} (ClusterDomain : string).

Ltac found := repeat case_match; try done; by eapply update_then_unit.

Lemma headless_returns cluster : returns (reconcileHeadlessService cluster : io W _).
Proof. unfold reconcileHeadlessService. settle ltac:(eauto 3 with returns). found. Qed.

Lemma tunnelService_returns cluster : returns (reconcileTunnelService cluster : io W _).
Proof. unfold reconcileTunnelService. settle ltac:(eauto 3 with returns). found. Qed.

Lemma keepInStep_returns cluster desired : returns (keepInStep cluster desired : io W _).
Proof.
  unfold keepInStep. apply returns_create_or; [done|]. intros d cur w Hk Hv. cbn. case_match; [|done].
  refine (update_then_unit KService _ (key_of d) cur w _ _); [exact Hk|exact Hv].
Qed.

Lemma configMap_returns cluster desired : returns (reconcileConfigMap cluster desired : io W _).
Proof. unfold reconcileConfigMap. settle ltac:(eauto 3 with returns). found. Qed.

Lemma returns_apart {B} (m : io W B) (f : res B → io W unit) :
  (∀ w e, (m w).2 = Err e → e = ErrNotFound) → (∀ b, returns (f (Ok b))) → returns (f (Err ErrNotFound)) →
  returns (r ← io_try m; f r).
Proof.
  intros He Hok Hn w. unfold mbind, io_bind, io_try. pose proof (He w) as Hw.
  destruct (m w) as [w1 [b|e]]; cbn [fst snd] in *; [apply Hok|]. rewrite (Hw e eq_refl). apply Hn.
Qed.

Lemma controllerCA_returns (readCA : io W string) cluster :
  (∀ w e, (readCA w).2 = Err e → e = ErrNotFound) → returns (reconcileControllerCA readCA cluster).
Proof.
  intros Hr. unfold reconcileControllerCA. apply returns_apart; [done|intros ca|done].
  settle ltac:(eauto 3 with returns). found.
Qed.

Lemma scaledDown_returns cluster labels ordinal replicas : returns (deleteScaledDown cluster labels ordinal replicas : io W _).
Proof. unfold deleteScaledDown. settle ltac:(eauto 3 with returns). Qed.

Lemma prometheus_returns `{R : GoRuntime} `{YL : YAMLListen} cluster dataMap :
  returns (reconcilePrometheusServices (W := W) cluster dataMap).
Proof.
  unfold reconcilePrometheusServices, reconcilePrometheusOutputs, reconcilePrometheusOutput, deleteUnusedServices,
    reconcilePrometheusService, listPrometheusServicesForCluster.
  settle ltac:(first [done|apply returns_beside; eauto 3 using keepInStep_returns with returns]).
Qed.

Lemma certificate_returns cluster desired : returns (reconcileCertificate cluster desired : io W _).
Proof.
  unfold reconcileCertificate. apply returns_create_or; [done|]. intros d cur w Hk Hv. unfold mbind, io_bind.
  destruct (certificateNeedsUpdate cur d); [|done].
  pose proof (update_there KCertificate (MkResource (Meta cur) (Spec d) (Status cur)) (key_of d) cur w Hk Hv) as Hok.
  by destruct (api_update KCertificate _ w) as [w' [o|e]].
Qed.

Lemma podCertificates_returns cluster replicas desired : returns (reconcilePodCertificates cluster replicas desired : io W _).
Proof. unfold reconcilePodCertificates. settle ltac:(first [apply certificate_returns|done]). Qed.

Lemma certificates_returns cluster : is_Some (CS_Replicas (Spec cluster)) → returns (reconcileCertificates ClusterDomain cluster : io W _).
Proof.
  intros [n Hn]. unfold reconcileCertificates, replicasOf. rewrite Hn.
  settle ltac:(first [apply podCertificates_returns|apply scaledDown_returns|done]).
Qed.

Lemma tunnelCertificates_returns cluster :
  is_Some (CS_Replicas (Spec cluster)) → returns (reconcileTunnelCertificates ClusterDomain cluster : io W _).
Proof.
  intros [n Hn]. unfold reconcileTunnelCertificates, replicasOf. rewrite Hn.
  settle ltac:(first [apply podCertificates_returns|apply scaledDown_returns|done]).
Qed.

Lemma owned_returns (readCA : io W string) cluster : (∀ w e, (readCA w).2 = Err e → e = ErrNotFound) →
  is_Some (CS_Replicas (Spec cluster)) → returns (reconcileOwned readCA ClusterDomain cluster).
Proof.
  intros HCA Hr. unfold reconcileOwned, whenReady, when, reconcileClientTLSCertificates.
  settle ltac:(first [apply headless_returns|by apply certificates_returns|by apply controllerCA_returns
    |by apply tunnelCertificates_returns|apply certificate_returns|apply tunnelService_returns|done]).
Qed.
End OwnedReturns.

(** ** The certificates *)

(** A certificate that is there and issued. *)
Definition ready_at {W} `{ApiStore W} (w : W) (nn : NamespacedName) : Prop :=
  ∃ cert, view w KCertificate !! nn = Some cert ∧ isCertificateReady cert = true.

Definition pod_index (cluster : Cluster) (i : Z) : Prop := 0 ≤ i < default 0 (CS_Replicas (Spec cluster)).

(** The certificates the cluster waits for: those of the API, those of the tunnel, and the
    pods' client certificate, in this order. *)
Definition tier (cluster : Cluster) (t : nat) (nn : NamespacedName) : Prop :=
  let spec := Spec cluster in
  match t with
  | 0%nat => issued (apiTLS spec) = true ∧ ∃ i, pod_index cluster i ∧ nn = in_ns cluster (apiCertName cluster i)
  | 1%nat => issued (tunnelTLS spec) = true ∧ ∃ i, pod_index cluster i ∧ nn = in_ns cluster (tunnelCertName cluster i)
  | 2%nat => issued (clientTLS spec) = true ∧ nn = in_ns cluster (clientCertName cluster)
  | _ => False
  end.

Definition wanted_cert (cluster : Cluster) (nn : NamespacedName) : Prop :=
  tier cluster 0 nn ∨ tier cluster 1 nn ∨ tier cluster 2 nn.

Section Certs.
Context {W : Type} `{L : ApiLaws W} `{H : !ApiServes W} (ClusterDomain : string).

Lemma ready_at_keep S (w w' : W) nn : agree_off S w w' → ¬ S KCertificate nn → ready_at w nn → ready_at w' nn.
Proof. intros Hag Hn (cert & Hv & Hr). exists cert. split; [|done]. by eapply keep_off. Qed.

(** A certificate that was ready stays so while it is kept in step. *)
Lemma certificate_stays_ready cluster (desired : Certificate) (w : W) : ready_at w (key_of desired) →
  ∃ w', reconcileCertificate cluster desired w = (w', Ok true) ∧
    agree_off (only_at KCertificate (key_of desired)) w w' ∧ ready_at w' (key_of desired).
Proof.
  intros (cur & Hv & Hr). unfold reconcileCertificate, create_or, mbind, io_bind, io_lift, io_try.
  pose proof (as_owner KCertificate cluster desired) as Ho. destruct (api_setOwner KCertificate cluster desired) as [d|e] eqn:Ed; [|done].
  apply al_setOwner in Ed as (Hk & _). rewrite Hk.
  destruct (get_there KCertificate _ w cur Hv) as (w1 & -> & Hag). cbn [fst snd].
  destruct (certificateNeedsUpdate cur d) eqn:En.
  - pose proof (update_there KCertificate (MkResource (Meta cur) (Spec d) (Status cur)) (key_of desired) cur w1
      (al_key _ _ _ _ Hv) (keep _ _ _ _ _ Hag Hv)) as Hok.
    destruct (api_update KCertificate _ w1) as [w2 [o|e]] eqn:Eu; [|done].
    destruct (update_found KCertificate _ _ _ _ _ _ _ Hag Hv Eu eq_refl eq_refl) as (Hag2 & _ & Hv2 & Hs2).
    assert (isCertificateReady o = true) as Hro by (unfold isCertificateReady in *; kinds; by rewrite Hs2).
    exists w2. rewrite Hro. split; [done|]. split; [done|]. by exists o.
  - exists w1. cbn. rewrite Hr. split; [done|]. split; [by eapply agree_off_mono; [|exact Hag]|].
    exists cur. split; [exact (keep _ _ _ _ _ Hag Hv)|done].
Qed.

(** All certificates of a set are ready. *)
Definition all_ready (S : NamespacedName → Prop) (w : W) : Prop := ∀ nn, S nn → ready_at w nn.

Lemma certificate_total S cluster (desired : Certificate) : S (key_of desired) →
  total (all_ready S) (reconcileCertificate cluster desired) (λ b w, b = true ∧ all_ready S w).
Proof.
  intros HS w Hw. destruct (certificate_stays_ready cluster desired w (Hw _ HS)) as (w' & E & Hag & Hr).
  exists true, w'. split; [done|]. split; [done|]. intros nn Hn. destruct (decide (nn = key_of desired)) as [->|Hne]; [done|].
  eapply ready_at_keep; [exact Hag|by intros [_ ?]|by apply Hw].
Qed.

Lemma podCertificates_total S cluster replicas (desired : Z → Certificate) :
  (∀ i, 0 ≤ i < replicas → S (key_of (desired i))) →
  total (all_ready S) (reconcilePodCertificates cluster replicas desired) (λ b w, b = true ∧ all_ready S w).
Proof.
  intros HS. unfold reconcilePodCertificates.
  eapply (total_conseq (λ w, true = true ∧ all_ready S w)); [by intros w Hw|intros b w Hb; exact Hb|].
  apply (total_foldM (λ b w, b = true ∧ all_ready S w)). intros c i Hi%elem_of_seqZ.
  eapply (total_bind _ _ _ (λ b w, (c = true ∧ b = true) ∧ all_ready S w)).
  - intros w [-> Hw]. destruct (certificate_total S cluster (desired i) (HS i ltac:(lia)) w Hw) as (b & w' & E & -> & Hw').
    by exists true, w'.
  - intros b. apply total_ret. by intros w [[-> ->] Hw].
Qed.

Lemma sweep_total S cluster labels ordinal replicas :
  (∀ nn, S nn → ordinal (NN_Name nn) (stsName cluster) < replicas) →
  total (all_ready S) (deleteScaledDown cluster labels ordinal replicas) (λ _ w, all_ready S w).
Proof.
  intros HS w Hw. destruct (returns_run _ w (scaledDown_returns cluster labels ordinal replicas)) as ([] & w' & E).
  exists tt, w'. split; [done|]. apply deleteScaledDown_Ok in E as [Hag _]. intros nn Hn.
  eapply ready_at_keep; [exact Hag| |by apply Hw]. intros (_ & Ho & _). specialize (HS nn Hn). lia.
Qed.
End Certs.

(** ** Whose ordinal *)

Lemma HasPrefix_no_byte c s p : no_byte c s = true → HasPrefix s (String c p) = false.
Proof.
  destruct s as [|d s]; [done|]. cbn. intros [Hd _]%andb_true_iff. rewrite negb_true_iff in Hd.
  cbn. by rewrite Hd.
Qed.

(** A number is not cut at a letter: [-tunnel-tls] does not end [7-tls]. *)
Lemma TrimSuffix_ordinal i : TrimSuffix (Itoa i +:+ "-tls") "-tunnel-tls" = Itoa i +:+ "-tls".
Proof.
  unfold TrimSuffix, TrimPrefix, CutPrefix. rewrite rev_string_app.
  change (rev_string "-tls") with "slt-". change (rev_string "-tunnel-tls") with ("slt-" +:+ "lennut-").
  assert (HasPrefix ("slt-" +:+ rev_string (Itoa i)) ("slt-" +:+ "lennut-") = false) as ->.
  { change (HasPrefix (rev_string (Itoa i)) (String "l" "ennut-") = false). apply HasPrefix_no_byte.
    rewrite no_byte_rev. by apply Itoa_no_byte. }
  cbn [fst]. change "slt-" with (rev_string "-tls"). by rewrite <-rev_string_app, rev_string_involutive.
Qed.

Lemma apiCert_no_tunnel_ordinal cluster i : 0 ≤ i →
  extractOrdinalFromTunnelCertName (apiCertName cluster i) (stsName cluster) = -1.
Proof.
  intros Hi. unfold extractOrdinalFromTunnelCertName, extractOrdinal, apiCertName, podName.
  rewrite !app_str_assoc, <- (app_str_assoc (_ +:+ "-")), TrimPrefix_app, TrimSuffix_ordinal. by rewrite Atoi_Itoa_app.
Qed.

Lemma clientCert_no_tunnel_ordinal cluster : extractOrdinalFromTunnelCertName (clientCertName cluster) (stsName cluster) = -1.
Proof.
  unfold extractOrdinalFromTunnelCertName, extractOrdinal, clientCertName. change "-client-tls" with ("-" +:+ "client-tls").
  by rewrite !app_str_assoc, TrimPrefix_app.
Qed.

(** ** Where the cluster stands *)

(** The CA behind the issuer of the API, if it has one. *)
Definition issuer_there {W} `{ApiStore W} (cluster : Cluster) (w : W) : Prop :=
  ∀ tls, CS_API (Spec cluster) ≫= API_TLS = Some tls → CTLS_IssuerRef tls ≠ "" →
    ∃ (issuer : obj KIssuer) (secret : obj KSecret) name ca,
      view w KIssuer !! {| NN_Namespace := Namespace (Meta cluster); NN_Name := CTLS_IssuerRef tls |} = Some issuer ∧
      Spec issuer = Some name ∧ name ≠ "" ∧
      view w KSecret !! {| NN_Namespace := Namespace (Meta cluster); NN_Name := name |} = Some secret ∧
      (Spec secret : gmap string string) !! "tls.crt" = Some ca.

(** Issuers and secrets aside. *)
Definition not_issuer : objects := λ k _, k ≠ KIssuer ∧ k ≠ KSecret.

Lemma issuer_keep {W} `{ApiStore W} cluster (w w' : W) : agree_off not_issuer w w' → issuer_there cluster w → issuer_there cluster w'.
Proof.
  intros Hag H3 tls Ht Hr. destruct (H3 tls Ht Hr) as (issuer & secret & name & ca & G1 & G2 & G3 & G4 & G5).
  exists issuer, secret, name, ca. rewrite (Hag KIssuer), (Hag KSecret) by (unfold not_issuer; naive_solver). done.
Qed.

(** What has to come from outside: issued certificates, pods that are up, and the CA. *)
Record settled {W} `{ApiStore W} (cluster : Cluster) (w : W) : Prop := {
  st_certs : all_ready (wanted_cert cluster) w;
  st_pods : ∃ sts : StatefulSet, view w KStatefulSet !! in_ns cluster (stsName cluster) = Some sts ∧
    default 0 (CS_Replicas (Spec cluster)) ≤ podsReady sts;
  st_issuer : issuer_there cluster w
}.

(** The kinds of which it says something. *)
Definition decisive (k : Kind) : Prop := k = KCertificate ∨ k = KStatefulSet ∨ k = KIssuer ∨ k = KSecret.

Definition aside : objects := λ k _, ¬ decisive k.

Lemma agree_aside {W} `{ApiStore W} (w w' : W) : agree_off aside w w' → ∀ k, decisive k → ∀ nn, view w' k !! nn = view w k !! nn.
Proof. intros Hag k Hk nn. apply Hag. by intros Hn. Qed.

Lemma settled_aside {W} `{ApiStore W} cluster (w w' : W) : agree_off aside w w' → settled cluster w → settled cluster w'.
Proof.
  intros Hag [H1 (sts & H2 & H2') H3]. pose proof (agree_aside _ _ Hag) as Hd. clear Hag. unfold decisive in Hd. split.
  - intros nn Hn. destruct (H1 nn Hn) as (cert & Hv & Hr). exists cert. rewrite Hd by tauto. done.
  - exists sts. rewrite Hd by tauto. done.
  - eapply issuer_keep; [|exact H3]. intros k nn Hn. apply Hd. unfold not_issuer in Hn. destruct (decide (k = KIssuer)), (decide (k = KSecret)); tauto.
Qed.

(** Certificates may change as long as the wanted ones stay ready. *)
Lemma settled_certs {W} `{ApiStore W} cluster (w w' : W) :
  agree_off (λ k _, k = KCertificate) w w' → all_ready (wanted_cert cluster) w' → settled cluster w → settled cluster w'.
Proof.
  intros Hag Hc [_ (sts & H2 & H2') H3]. split; [done| |].
  - exists sts. by rewrite (Hag KStatefulSet).
  - eapply issuer_keep; [|exact H3]. eapply agree_off_mono; [|exact Hag]. by intros k nn ->.
Qed.

Section CertTouches.
Context {W : Type} `{L : ApiLaws W} (ClusterDomain : string) (cluster : Cluster).

Lemma certificates_touch : touches (λ k _, k = KCertificate) (reconcileCertificates ClusterDomain cluster : io W _).
Proof.
  unfold reconcileCertificates, replicasOf, deleteScaledDown, delete_if_present, reconcilePodCertificates, reconcileCertificate, create_or.
  walk ltac:(first [apply touches_create; done|apply touches_update; done|apply touches_delete; done|eauto 3 with touches]).
Qed.

Lemma tunnelCertificates_touch : touches (λ k _, k = KCertificate) (reconcileTunnelCertificates ClusterDomain cluster : io W _).
Proof.
  unfold reconcileTunnelCertificates, replicasOf, deleteScaledDown, delete_if_present, reconcilePodCertificates, reconcileCertificate, create_or.
  walk ltac:(first [apply touches_create; done|apply touches_update; done|apply touches_delete; done|eauto 3 with touches]).
Qed.

Lemma clientCertificate_touch : touches (λ k _, k = KCertificate) (reconcileClientTLSCertificates cluster : io W _).
Proof.
  unfold reconcileClientTLSCertificates, reconcileCertificate, create_or.
  walk ltac:(first [apply touches_create; done|apply touches_update; done|eauto 3 with touches]).
Qed.
End CertTouches.

Section Stages.
Context {W : Type} `{L : ApiLaws W} `{H : !ApiServes W} (ClusterDomain : string) (cluster : Cluster) (replicas : Z).
Context (Hrep : CS_Replicas (Spec cluster) = Some replicas) (Hmax : 0 ≤ replicas < 2 ^ 31).

Lemma steady_aside {B} (m : io W B) : returns m → touches aside m → total (settled cluster) m (λ _, settled cluster).
Proof. intros Hm Ht. eapply total_returns; [done|exact Ht|]. intros w w'. apply settled_aside. Qed.

Lemma wanted_api_ordinal nn : wanted_cert cluster nn → extractOrdinalFromCertName (NN_Name nn) (stsName cluster) < replicas.
Proof.
  unfold wanted_cert, tier, pod_index. rewrite Hrep. cbn [default from_option id].
  intros [(_ & i & Hi & ->)|[(_ & i & Hi & ->)|[_ ->]]]; cbn [NN_Name in_ns].
  - rewrite apiCert_ordinal; lia.
  - rewrite tunnelCert_no_api_ordinal; lia.
  - rewrite clientCert_no_api_ordinal; lia.
Qed.

Lemma wanted_tunnel_ordinal nn : wanted_cert cluster nn → extractOrdinalFromTunnelCertName (NN_Name nn) (stsName cluster) < replicas.
Proof.
  unfold wanted_cert, tier, pod_index. rewrite Hrep. cbn [default from_option id].
  intros [(_ & i & Hi & ->)|[(_ & i & Hi & ->)|[_ ->]]]; cbn [NN_Name in_ns].
  - rewrite apiCert_no_tunnel_ordinal; lia.
  - rewrite tunnelCert_ordinal; lia.
  - rewrite clientCert_no_tunnel_ordinal; lia.
Qed.

Lemma certs_stage (m : io W bool) : touches (λ k _, k = KCertificate) m →
  total (all_ready (wanted_cert cluster)) m (λ b w, b = true ∧ all_ready (wanted_cert cluster) w) →
  total (settled cluster) m (λ b w, b = true ∧ settled cluster w).
Proof.
  intros Ht Hm w Hw. destruct (Hm w (st_certs _ _ Hw)) as (b & w' & E & -> & Hc). exists true, w'.
  split; [done|]. split; [done|]. specialize (Ht w). rewrite E in Ht. by eapply settled_certs.
Qed.

Lemma swept_certs_total labels ordinal (desired : Z → Certificate) :
  (∀ i, 0 ≤ i < replicas → wanted_cert cluster (key_of (desired i))) →
  (∀ nn, wanted_cert cluster nn → ordinal (NN_Name nn) (stsName cluster) < replicas) →
  total (all_ready (wanted_cert cluster))
    (allReady ← reconcilePodCertificates cluster replicas desired;
     _ ← deleteScaledDown cluster labels ordinal replicas;
     mret allReady) (λ b w, b = true ∧ all_ready (wanted_cert cluster) w).
Proof.
  intros Hw Ho. eapply total_bind; [by apply podCertificates_total|]. intros b w [-> Hr].
  destruct (sweep_total (wanted_cert cluster) cluster labels ordinal replicas Ho w Hr) as ([] & w' & E & Hr').
  exists true, w'. split; [|done]. unfold mbind, io_bind. by rewrite E.
Qed.

Lemma certificates_total : issued (apiTLS (Spec cluster)) = true →
  total (settled cluster) (reconcileCertificates ClusterDomain cluster) (λ b w, b = true ∧ settled cluster w).
Proof.
  intros Hi. apply certs_stage; [apply certificates_touch|]. unfold reconcileCertificates, replicasOf.
  destruct (apiTLS (Spec cluster)) as [tls|] eqn:Et; [|done]. rewrite Hrep.
  apply swept_certs_total; [|apply wanted_api_ordinal].
  intros i Hr. left. unfold tier. rewrite Et. split; [done|]. exists i. split; [|done]. unfold pod_index. by rewrite Hrep.
Qed.

Lemma tunnelCertificates_total : issued (tunnelTLS (Spec cluster)) = true →
  total (settled cluster) (reconcileTunnelCertificates ClusterDomain cluster) (λ b w, b = true ∧ settled cluster w).
Proof.
  intros Hi. apply certs_stage; [apply tunnelCertificates_touch|]. unfold reconcileTunnelCertificates, replicasOf.
  destruct (tunnelTLS (Spec cluster)) as [tls|] eqn:Et; [|done].
  destruct (CS_GRPCTunnel (Spec cluster)) as [tunnel|] eqn:Eg.
  2: { apply total_ret. done. }
  rewrite Hrep. apply swept_certs_total; [|apply wanted_tunnel_ordinal].
  intros i Hr. right. left. unfold tier. rewrite Et. split; [done|]. exists i. split; [|done]. unfold pod_index. by rewrite Hrep.
Qed.

Lemma clientCertificate_total : issued (clientTLS (Spec cluster)) = true →
  total (settled cluster) (reconcileClientTLSCertificates cluster) (λ b w, b = true ∧ settled cluster w).
Proof.
  intros Hi. apply certs_stage; [apply clientCertificate_touch|]. unfold reconcileClientTLSCertificates.
  destruct (clientTLS (Spec cluster)) as [tls|] eqn:Et; [|done]. apply certificate_total.
  right. right. unfold tier. by rewrite Et.
Qed.
End Stages.

Section OwnedStage.
Context {W : Type} `{L : ApiLaws W} `{H : !ApiServes W} `{F : !Files W} `{P : !PodStore W} `{PF : !PodFrame W}.
Context (ClusterDomain : string) (cluster : Cluster) (replicas : Z).
Context (Hrep : CS_Replicas (Spec cluster) = Some replicas) (Hmax : 0 ≤ replicas < 2 ^ 31).
Context (HCA : ∀ (w : W) e, (ReadFile GetControllerCAPath w).2 = Err e → e = ErrNotFound).

Ltac aside_call := first
  [ apply touches_create; cbn; by intros [?|[?|[?|?]]]
  | apply touches_update; cbn; by intros [?|[?|[?|?]]]
  | eauto 3 with touches ].

Lemma headless_aside : touches aside (reconcileHeadlessService cluster : io W _).
Proof using L. unfold reconcileHeadlessService, create_or. walk ltac:(aside_call). Qed.

Lemma tunnelService_aside : touches aside (reconcileTunnelService cluster : io W _).
Proof using L. unfold reconcileTunnelService, create_or. walk ltac:(aside_call). Qed.

Lemma controllerCA_aside : touches aside (reconcileControllerCA (ReadFile GetControllerCAPath) cluster : io W _).
Proof using L PF.
  unfold reconcileControllerCA, create_or.
  walk ltac:(first [intros w; eapply agree_off_mono; [|apply pf_files]; by intros ? ? []|aside_call]).
Qed.

Lemma whenReady_total enabled (certs : io W bool) (rest : io W bool) :
  (enabled = true → total (settled cluster) certs (λ b w, b = true ∧ settled cluster w)) →
  total (settled cluster) rest (λ b w, b = true ∧ settled cluster w) →
  total (settled cluster) (whenReady enabled certs rest) (λ b w, b = true ∧ settled cluster w).
Proof.
  intros Hc Hr. unfold whenReady. destruct enabled; [|done]. eapply total_bind; [by apply Hc|].
  intros b w [-> Hw]. by apply Hr.
Qed.

Lemma when_steady b (m : io W unit) : returns m → touches aside m → total (settled cluster) (when b m) (λ _, settled cluster).
Proof. intros Hm Ht. unfold when. destruct b; [by apply steady_aside|by apply total_ret]. Qed.

Lemma owned_total :
  total (settled cluster) (reconcileOwned (ReadFile GetControllerCAPath) ClusterDomain cluster) (λ b w, b = true ∧ settled cluster w).
Proof.
  unfold reconcileOwned. eapply total_bind; [apply steady_aside; [apply headless_returns|apply headless_aside]|intros []].
  apply whenReady_total; [by eapply certificates_total|].
  eapply total_bind; [apply when_steady; [by apply controllerCA_returns|apply controllerCA_aside]|intros []].
  apply whenReady_total; [by eapply tunnelCertificates_total|].
  apply whenReady_total; [by apply clientCertificate_total|].
  eapply total_bind; [apply when_steady; [apply tunnelService_returns|apply tunnelService_aside]|intros []].
  by apply total_ret.
Qed.
End OwnedStage.

(** ** The pipelines *)

(** The pipelines' statuses are apart from the objects of the cluster. *)
Class PipelinesApart (W : Type) `{V : ApiStore W} `{PC : PipelineClient W} : Prop := {
  pla_now : ∀ w, agree_off nothing w (pc_now w).1;
  pla_get : ∀ nn, touches nothing (pc_get nn : io W _);
  pla_updateStatus : ∀ p, touches nothing (pc_updateStatus p : io W _)
}.

Section PlanStage.
Context {W : Type} `{L : ApiLaws W} `{H : !ApiServes W} `{PC : PipelineClient W} `{PA : !PipelinesApart W} `{E : ErrorText}.
Context `{Y : YAML} `{Sel : Selectors} (ClusterDomain : string) (cluster : Cluster) (R : GoRuntime).
Context `{Rpl : Reader PipelineSpec PipelineStatus} `{Rt : Reader TargetSpec TargetStatus}
  `{Rtp : Reader TargetProfileSpec unit} `{Rsub : Reader SubscriptionSpec unit}
  `{Ro : Reader OutputSpec unit} `{Ri : Reader InputSpec unit} `{Rpr : Reader ProcessorSpec unit}
  `{Rtt : Reader TunnelTargetPolicySpec unit} `{Rsvc : Reader CoreServiceSpec unit}
  `{Rsec : Reader SecretSpec unit}.
#[local] Existing Instance R.

Lemma runCall_returns c : returns (runCall (W := W) c).
Proof. unfold runCall. by apply returns_bind; [apply returns_try|]. Qed.

Lemma runCall_nothing c : touches nothing (runCall (W := W) c).
Proof. apply runCall_keeps; [exact _|apply pla_now|apply pla_get|apply pla_updateStatus]. Qed.

(** Whatever does not depend on the pipelines is kept. *)
Context (I : W → Prop) (HI : ∀ w w', agree_off nothing w w' → I w → I w').

Lemma calls_total (calls : list StatusCall) : total I (for_each (runCall (W := W)) calls) (λ _, I).
Proof.
  apply total_for_each. intros c _. eapply total_returns; [apply runCall_returns|apply runCall_nothing|exact HI].
Qed.

(** The loop over the pipelines returns what the resolution of them gives. *)
Lemma collect_total pipelines b dm calls b' dm' calls' :
  foldl_res (collectOne ClusterDomain cluster) (b, dm, calls) pipelines = Ok (b', dm', calls') →
  total I (foldM (collectPipeline (W := W) ClusterDomain R cluster) (b, dm) pipelines) (λ r w, r = (b', dm') ∧ I w).
Proof.
  revert b dm calls. induction pipelines as [|p pipelines IH]; intros b dm calls; cbn [foldM foldl_res].
  { intros [= <- <- _]. by apply total_ret. }
  intros (st & Hst & Hrest)%bind_Ok. destruct st as [[b1 dm1] calls1].
  rewrite collectOne_calls in Hst. apply bind_Ok in Hst as ([[b2 dm2] new] & Hone & [= <- <- <-]).
  eapply (total_bind _ _ _ (λ r w, r = (b2, dm2) ∧ I w)).
  - unfold collectPipeline. intros w Hw. destruct (calls_total new w Hw) as ([] & w' & Ec & Hw').
    exists (b2, dm2), w'. split; [|done]. rewrite Hone. unfold mbind, io_bind, io_lift. by rewrite Ec.
  - intros r w [-> Hw]. by eapply IH.
Qed.
End PlanStage.

(** ** The workload *)

Section WorkloadStage.
Context {W : Type} `{L : ApiLaws W} `{H : !ApiServes W} `{R : GoRuntime} {Y : YAMLMarshal}.
Context (ClusterDomain : string) (cluster : Cluster) (replicas : Z) (Hrep : CS_Replicas (Spec cluster) = Some replicas).

Lemma syncStatefulSet_returns desired current : ∃ s b, syncStatefulSet cluster desired current = Ok (s, b).
Proof.
  unfold syncStatefulSet. rewrite Hrep. destruct (Sts_Replicas current); cbn [mbind res_bind];
    destruct (syncContainers _ _ _); eauto.
Qed.

(** The StatefulSet that is there keeps its status. *)
Lemma applyStatefulSet_there (desired old : StatefulSet) (w : W) : view w KStatefulSet !! key_of desired = Some old →
  ∃ sts w', applyStatefulSet cluster desired w = (w', Ok sts) ∧ Status sts = Status old ∧
    agree_off (only_at KStatefulSet (key_of desired)) w w' ∧ view w' KStatefulSet !! key_of desired = Some sts.
Proof.
  intros Hv. unfold applyStatefulSet, mbind, io_bind, io_lift, io_try.
  destruct (get_there KStatefulSet _ w old Hv) as (w1 & -> & Hag). cbn [fst snd].
  destruct (syncStatefulSet_returns (Spec desired) (Spec old)) as (s & b & Hs). kinds. rewrite Hs. destruct b.
  - set (cur := MkResource (Meta old) s (Status old) : StatefulSet).
    pose proof (as_owner KStatefulSet cluster cur) as Ho. destruct (api_setOwner KStatefulSet cluster cur) as [d|e] eqn:Ed; [|done].
    apply al_setOwner in Ed as (Hk & _ & _ & Hf & _ & Hst).
    assert (key_of d = key_of desired) as Hkd by (rewrite Hk; exact (al_key w KStatefulSet _ _ Hv)).
    pose proof (update_there KStatefulSet d (key_of desired) old w1 Hkd (keep _ _ KStatefulSet _ _ Hag Hv)) as Hok.
    destruct (api_update KStatefulSet d w1) as [w2 [o|e]] eqn:Eu; [|done].
    destruct (update_found KStatefulSet _ _ _ _ _ _ _ Hag Hv Eu Hk Hf) as (Hag2 & _ & Hv2 & Hs2).
    exists o, w2. split; [done|]. split; [exact Hs2|]. by split.
  - pose proof (syncStatefulSet_same _ _ _ _ Hs) as ->. exists (MkResource (Meta old) (Spec old) (Status old)), w1.
    split; [done|]. split; [done|]. split; [by eapply agree_off_mono; [|exact Hag]|].
    pose proof (keep _ _ KStatefulSet _ _ Hag Hv) as K. clear -K. by destruct old.
Qed.

Lemma settled_pods (w w' : W) sts : agree_off (only_at KStatefulSet (in_ns cluster (stsName cluster))) w w' →
  view w' KStatefulSet !! in_ns cluster (stsName cluster) = Some sts → replicas ≤ podsReady sts →
  settled cluster w → settled cluster w'.
Proof.
  intros Hag Hv Hr [H1 _ H3]. split.
  - intros nn Hn. eapply ready_at_keep; [exact Hag|by intros [? _]|by apply H1].
  - exists sts. by rewrite Hrep.
  - eapply issuer_keep; [|exact H3]. eapply agree_off_mono; [|exact Hag]. by intros k nn [-> _].
Qed.

Lemma configMap_aside cm : touches aside (reconcileConfigMap cluster cm : io W _).
Proof.
  unfold reconcileConfigMap, create_or.
  walk ltac:(first [apply touches_create; cbn; unfold aside, decisive; naive_solver
                   |apply touches_update; cbn; unfold aside, decisive; naive_solver|eauto 3 with touches]).
Qed.

Lemma workload_total matches : is_ok (buildStatefulSet ClusterDomain cluster matches) = true →
  total (settled cluster) (reconcileStatefulSet ClusterDomain cluster matches)
    (λ sts w, waiting sts = false ∧ settled cluster w).
Proof.
  intros ([desired cm] & Hb)%is_ok_spec w Hw.
  pose proof (buildStatefulSet_Ok _ _ _ _ _ Hb) as (_ & _ & _ & Hk & _).
  destruct (steady_aside cluster (reconcileConfigMap cluster cm) (configMap_returns cluster cm) (configMap_aside cm) w Hw)
    as ([] & w1 & Ecm & Hw1).
  destruct (st_pods _ _ Hw1) as (old & Hv & Hr). rewrite Hrep in Hr. cbn in Hr. rewrite <-Hk in Hv.
  destruct (applyStatefulSet_there desired old w1 Hv) as (sts & w2 & Ea & Hst & Hag & Hv2). rewrite Hk in *.
  assert (podsReady sts = podsReady old) as Hp by (unfold podsReady; by rewrite Hst).
  assert (reconcileStatefulSet ClusterDomain cluster matches w = (w2, Ok sts)) as Er.
  { unfold reconcileStatefulSet, mbind, io_bind, io_lift. rewrite Hb. unfold io_bind in Ecm. by rewrite Ecm. }
  exists sts, w2. split; [exact Er|]. split; [|eapply settled_pods; [exact Hag|exact Hv2|lia|exact Hw1]].
  apply reconcileStatefulSet_Ok in Er as (desired' & cm' & Hb' & _ & _ & (Hreps & _) & _).
  unfold waiting, desiredReplicas. apply bool_decide_eq_false. rewrite Hreps, Hrep, Hp. cbn. lia.
Qed.

Lemma workload_returns matches : is_ok (buildStatefulSet ClusterDomain cluster matches) = true →
  returns (reconcileStatefulSet ClusterDomain cluster matches : io W _).
Proof.
  intros Hb. unfold reconcileStatefulSet. apply returns_bind; [by apply returns_lift|]. intros [desired cm].
  apply returns_bind; [apply configMap_returns|]. intros _ w.
  destruct (get_returns KStatefulSet (key_of desired) w) as [(w1 & old & _ & _ & Hv)|(w1 & Eg & Hag & Hv)].
  - by destruct (applyStatefulSet_there desired old w Hv) as (sts & w2 & -> & _).
  - unfold applyStatefulSet, mbind, io_bind, io_lift, io_try. rewrite Eg. cbn [fst snd].
    pose proof (as_owner KStatefulSet cluster desired) as Ho. destruct (api_setOwner KStatefulSet cluster desired) as [d|e] eqn:Ed; [|done].
    apply al_setOwner in Ed as (Hk & _). apply as_create. rewrite Hk. exact (keep _ _ KStatefulSet _ _ Hag Hv).
Qed.
End WorkloadStage.

(** ** The pods *)

(** The pods take what is sent to them, and the operator can read its own certificate. *)
Class PodsAnswer (W : Type) `{HT : PodHTTP W} {J : PodJSON} `{F : !Files W} : Prop := {
  pa_encode p : is_ok (MarshalPlan p) = true;
  pa_apply cl base p body w : MarshalPlan p = Ok body → ∃ w' resp,
    http_do cl {| PR_Method := "POST"; PR_Base := base; PR_Path := apply_path; PR_Body := body |} w = (w', Ok resp) ∧
    success resp = true;
  pa_list cl base w : ∃ w' resp,
    http_do cl {| PR_Method := "GET"; PR_Base := base; PR_Path := matches_path; PR_Body := "" |} w = (w', Ok resp) ∧
    success resp = true ∧ is_ok (DecodeIDs (PR_Content resp)) = true;
  pa_match cl base tm body w : MarshalMatch tm = Ok body → ∃ w' resp,
    http_do cl {| PR_Method := "POST"; PR_Base := base; PR_Path := matches_path; PR_Body := body |} w = (w', Ok resp) ∧
    success resp = true;
  pa_file path : path = GetControllerCertPath ∨ path = GetControllerKeyPath ∨ path = GetControllerCAPath → returns (ReadFile path);
  pa_pair (w w' : W) cert key : (ReadFile GetControllerCertPath w).2 = Ok cert → (ReadFile GetControllerKeyPath w').2 = Ok key →
    is_ok (X509KeyPair cert key) = true
}.

Section PodStage.
Context {W : Type} `{L : ApiLaws W} `{HS : !ApiServes W} `{F : !Files W} `{HT : !PodHTTP W} {J : PodJSON} `{E : ErrorText}
  `{P : !PodStore W} `{PF : !PodFrame W} `{HP : !PodsAnswer W} (R1 R2 : GoRuntime) (ClusterDomain : string) (cluster : Cluster).

Lemma total_wrap {B} msg (m : io W B) (I : W → Prop) Q : total I m Q → total I (wrap msg m) Q.
Proof.
  intros Hm w Hw. destruct (Hm w Hw) as (b & w' & Eb & HQ). exists b, w'. split; [|done].
  unfold wrap, mbind, io_bind, io_try. by rewrite Eb.
Qed.

Lemma file_total path : path = GetControllerCertPath ∨ path = GetControllerKeyPath ∨ path = GetControllerCAPath →
  total (issuer_there cluster) (ReadFile path) (λ s w, issuer_there cluster w ∧ ∃ w0, (ReadFile path w0).2 = Ok s).
Proof.
  intros Hp w Hw. destruct (returns_run _ w (pa_file path Hp)) as (s & w' & Es). exists s, w'. split; [done|]. split.
  - pose proof (pf_files path w) as Hag. rewrite Es in Hag. eapply issuer_keep; [|exact Hw].
    eapply agree_off_mono; [|exact Hag]. by intros ? ? [].
  - exists w. by rewrite Es.
Qed.

Lemma issuerCA_total tls : CS_API (Spec cluster) ≫= API_TLS = Some tls → CTLS_IssuerRef tls ≠ "" →
  total (issuer_there cluster) (getIssuerCA (Namespace (Meta cluster)) (CTLS_IssuerRef tls)) (λ _, issuer_there cluster).
Proof.
  intros Ht Hi w Hw. destruct (Hw tls Ht Hi) as (issuer & secret & name & ca & G1 & G2 & G3 & G4 & G5).
  destruct (get_there KIssuer _ w _ G1) as (w1 & E1 & Hag1).
  destruct (get_there KSecret _ w1 _ (keep _ _ KSecret _ _ Hag1 G4)) as (w2 & E2 & Hag2).
  exists ca, w2. split.
  - destruct issuer as [mi si ti], secret as [ms ss ts]. cbn in G2, G5. subst si. destruct name as [|c name]; [done|].
    unfold getIssuerCA, wrap, mbind, io_bind, io_try. rewrite E1. cbn. rewrite E2. cbn. by rewrite G5.
  - eapply issuer_keep; [|exact Hw]. intros k nn Hn. rewrite (Hag2 k nn), (Hag1 k nn); [done|by intros []..].
Qed.

Lemma client_total : total (issuer_there cluster) (createHTTPClientForCluster cluster) (λ _, issuer_there cluster).
Proof.
  unfold createHTTPClientForCluster. destruct (CS_API (Spec cluster) ≫= API_TLS) as [tls|] eqn:Ht; [|by apply total_ret].
  eapply (total_bind _ _ _ (λ _, issuer_there cluster)); [|intros c; eapply (total_bind _ _ _ (λ _, issuer_there cluster)); [|intros c'; by apply total_ret]].
  - unfold issuerClient. case_decide as Hi; [|by apply total_ret].
    eapply total_bind; [apply total_wrap, file_total; tauto|]. intros cert w [Hw [w0 Hc]]. revert w Hw.
    apply (total_bind _ _ _ _ _ (total_wrap _ _ _ _ (file_total GetControllerKeyPath ltac:(tauto)))). intros key w [Hw [w1 Hk]]. revert w Hw.
    destruct (is_ok_spec (X509KeyPair cert key)) as [Hp _]. destruct (Hp (pa_pair w0 w1 cert key Hc Hk)) as [pair Epair].
    rewrite Epair. eapply (total_bind _ _ _ (λ _, issuer_there cluster)); [intros w Hw; by exists pair, w|]. intros pair'.
    eapply total_bind; [by apply total_wrap, issuerCA_total|]. intros ca. by apply total_ret.
  - unfold bundleClient. case_decide; [|by apply total_ret].
    eapply total_bind; [apply total_wrap, file_total; tauto|]. intros ca. apply total_ret. by intros w [Hw _].
Qed.

Lemma post_returns base cl tm : is_ok (MarshalMatch tm) = true → returns (postTunnelTargetMatch (W := W) base cl tm).
Proof.
  intros [body Hb]%is_ok_spec w. unfold postTunnelTargetMatch, wrap, mbind, io_bind, io_try, io_lift, mret, io_ret. cbn [fst snd]. rewrite Hb.
  destruct (pa_match cl base tm body w Hb) as (w' & resp & -> & Hs). cbn [fst snd]. by rewrite Hs.
Qed.

Lemma send_returns base plan cl : returns (sendApplyRequest (W := W) base plan cl).
Proof.
  intros w. destruct (is_ok_spec (MarshalPlan plan)) as [Hp _]. destruct (Hp (pa_encode plan)) as [body Hb].
  unfold sendApplyRequest, wrap, mbind, io_bind, io_try, io_lift, mret, io_ret. cbn [fst snd]. rewrite Hb.
  destruct (pa_apply cl base plan body w Hb) as (w' & resp & -> & Hs). cbn [fst snd]. by rewrite Hs.
Qed.

Lemma list_returns `{R : GoRuntime} base cl : returns (getTunnelTargetMatchIDs (W := W) base cl).
Proof.
  intros w. unfold getTunnelTargetMatchIDs, wrap, mbind, io_bind, io_try, io_lift, mret, io_ret.
  destruct (pa_list cl base w) as (w' & resp & -> & Hs & [ids Hd]%is_ok_spec). rewrite Hs. cbn [fst snd]. by rewrite Hd.
Qed.

Lemma matches_returns `{R : GoRuntime} base matches cl : (∀ k tm, matches !! k = Some tm → is_ok (MarshalMatch tm) = true) →
  returns (applyTunnelTargetMatches (W := W) base matches cl).
Proof.
  intros Hm. unfold applyTunnelTargetMatches. apply returns_bind; [apply returns_wrap, list_returns|intros ids].
  apply returns_bind.
  - apply returns_for_each. intros id _. case_decide; [|done]. by apply returns_bind.
  - intros _. apply returns_for_each. intros tm ([k tm'] & -> & Hin%elem_of_go_range)%list_elem_of_fmap. apply post_returns. by eapply Hm.
Qed.

Lemma apply_total plan numPods : (∀ k tm, AP_TunnelTargetMatches plan !! k = Some tm → is_ok (MarshalMatch tm) = true) →
  total (issuer_there cluster) (applyConfigToPods R1 R2 ClusterDomain cluster plan numPods) (λ _ _, True).
Proof.
  intros Hm. unfold applyConfigToPods. eapply total_bind; [apply total_wrap, client_total|]. intros cl.
  eapply (total_bind _ _ _ (λ _ _, True)); [|intros _; by apply total_ret].
  intros w _. assert (returns (for_each (configurePod R2 ClusterDomain cluster plan
    (PerPodPlans (DistributeTargets (R := R1) plan numPods (CS_TargetDistribution (Spec cluster)))) cl) (seqZ 0 numPods))) as Hr.
  { apply returns_for_each. intros i _. unfold configurePod. case_match; [|done].
    apply returns_bind; [apply returns_wrap, send_returns|]. intros _. by apply returns_wrap, matches_returns. }
  destruct (returns_run _ w Hr) as (u & w' & Eu). by exists u, w'.
Qed.
End PodStage.

(** ** The reconciliation *)

Section Completes.
Context {W : Type} `{L : ApiLaws W} `{HS : !ApiServes W} `{PC : PipelineClient W} `{PA : !PipelinesApart W}
  `{F : !Files W} `{HT : !PodHTTP W} {J : PodJSON} `{E : ErrorText} `{P : !PodStore W} `{PF : !PodFrame W} `{PAn : !PodsAnswer W}.
Context `{Y : YAML} {YM : YAMLMarshal} `{YL : YAMLListen} `{Fmt : Format} `{Sel : Selectors} (ClusterDomain : string).
Context `{Rpl : Reader PipelineSpec PipelineStatus} `{Rt : Reader TargetSpec TargetStatus}
  `{Rtp : Reader TargetProfileSpec unit} `{Rsub : Reader SubscriptionSpec unit}
  `{Ro : Reader OutputSpec unit} `{Ri : Reader InputSpec unit} `{Rpr : Reader ProcessorSpec unit}
  `{Rtt : Reader TunnelTargetPolicySpec unit} `{Rsvc : Reader CoreServiceSpec unit}
  `{Rsec : Reader SecretSpec unit}.
Context (R R1 R2 : GoRuntime).
#[local] Existing Instance R.

(** What the specification of a cluster has to allow: a number of replicas, pipelines that
    resolve to a plan, and encoders that take the configuration of the pods. *)
Definition workable (cluster : Cluster) : Prop :=
  (∃ replicas, CS_Replicas (Spec cluster) = Some replicas ∧ 0 ≤ replicas < 2 ^ 31) ∧
  ∃ dataMap calls plan, buildClusterPlan ClusterDomain R1 R2 cluster = Ok (dataMap, calls, plan) ∧
    is_ok (buildStatefulSet ClusterDomain cluster (AP_TunnelTargetMatches plan)) = true ∧
    ∀ k tm, AP_TunnelTargetMatches plan !! k = Some tm → is_ok (MarshalMatch tm) = true.

(** Decided for a cluster without tunnel targets. *)
Definition plainly_workable (cluster : Cluster) : bool :=
  match CS_Replicas (Spec cluster), buildClusterPlan ClusterDomain R1 R2 cluster with
  | Some replicas, Ok (_, _, plan) => bool_decide (0 ≤ replicas < 2 ^ 31) && bool_decide (size (AP_TunnelTargetMatches plan) = 0%nat) &&
      is_ok (buildStatefulSet ClusterDomain cluster (AP_TunnelTargetMatches plan))
  | _, _ => false
  end.

Lemma plainly_workable_ok cluster : plainly_workable cluster = true → workable cluster.
Proof.
  unfold plainly_workable, workable. destruct (CS_Replicas (Spec cluster)) as [replicas|]; [|done].
  destruct (buildClusterPlan ClusterDomain R1 R2 cluster) as [[[dataMap calls] plan]|e]; [|done].
  intros [[Hr%bool_decide_eq_true Hs%bool_decide_eq_true]%andb_true_iff Hb]%andb_true_iff. split; [by exists replicas|].
  exists dataMap, calls, plan. split; [done|]. split; [done|]. intros k tm Hk. apply map_size_empty_inv in Hs. by rewrite Hs, lookup_empty in Hk.
Qed.

Lemma configure_total cluster plan sts pipelines dataMap :
  (∀ k tm, AP_TunnelTargetMatches plan !! k = Some tm → is_ok (MarshalMatch tm) = true) →
  total (issuer_there cluster) (configureAndReport ClusterDomain R R1 R2 cluster plan sts pipelines dataMap) (λ r _, r = done_result).
Proof.
  intros Hm w Hw. destruct (apply_total R1 R2 ClusterDomain cluster plan (desiredReplicas sts) Hm w Hw) as (n & w1 & Ea & _).
  unfold configureAndReport, mbind, io_bind, io_try. rewrite Ea. cbn [fst snd]. destruct (pc_now w1) as [w2 now].
  unfold updateClusterStatus. destruct (clusterStatusEqual _ _); (eexists done_result, _; split; [cbn; reflexivity|done]).
Qed.

Lemma prometheusServices_total cluster dataMap plan plans (w : W) : ∃ plan' plans' w',
  prometheusServices R cluster dataMap plan (plans, w) = ((plans', w'), Ok plan') ∧
  AP_TunnelTargetMatches plan' = AP_TunnelTargetMatches plan ∧ agree_off (λ k _, k = KService) w w'.
Proof.
  unfold prometheusServices. cbn [fst snd].
  set (s0 := {| Prom_Ports := AP_PrometheusPorts plan; Prom_Desired := ∅ |}).
  pose proof (reconcilePrometheusServices_touches cluster dataMap (s0, w)) as Ht.
  destruct (returns_run _ (s0, w) (prometheus_returns cluster dataMap)) as ([] & [s w'] & Er). rewrite Er in *.
  eexists _, _, w'. split; [reflexivity|]. split; [done|exact Ht].
Qed.

(** The stages one after the other: what holds before the owned objects are reconciled
    ([I0]), before the plan ([I]), and after the workload ([Up]), and what the result and
    the world it ends in satisfy ([Q]). *)
Section Stage.
Context (I0 I : W → Prop) (Up : StatefulSet → W → Prop) (Q : Result → W → Prop) (cluster : Cluster).
Context (HI0 : ∀ w w', agree_off nothing w w' → I0 w → I0 w') (HI : ∀ w w', agree_off nothing w w' → I w → I w')
  (HUp : ∀ sts w w', agree_off (λ k _, k = KService) w w' → Up sts w → Up sts w')
  (HQ : ∀ sts w, Up sts w → waiting sts = true → Q (after 1) w).

Lemma reconcileWorkload_total pipelines dataMap plan plans (w : W) :
  total I (reconcileStatefulSet ClusterDomain cluster (AP_TunnelTargetMatches plan)) Up →
  (∀ plan' sts, AP_TunnelTargetMatches plan' = AP_TunnelTargetMatches plan → waiting sts = false →
    total (Up sts) (configureAndReport ClusterDomain R R1 R2 cluster plan' sts pipelines dataMap) Q) → I w →
  ∃ plans' w' r, reconcileWorkload ClusterDomain R R1 R2 cluster pipelines dataMap plan (plans, w) = ((plans', w'), Ok r) ∧ Q r w'.
Proof.
  intros Hsts Hconf Hw. destruct (Hsts w Hw) as (sts & w1 & Es & Hw1).
  unfold reconcileWorkload. unfold mbind at 1, io_bind at 1. cbn [CachePlan modify_state fst snd].
  unfold mbind at 1, io_bind at 1, beside at 1. cbn [fst snd]. rewrite Es. cbn [fst snd].
  destruct (prometheusServices_total cluster dataMap plan (<[plan_key (Namespace (Meta cluster)) (Name (Meta cluster)) := plan]> plans) w1)
    as (plan' & plans2 & w2 & Ep & Hmatches & Hag). pose proof (HUp _ _ _ Hag Hw1) as Hw2.
  unfold mbind, io_bind. rewrite Ep. destruct (waiting sts) eqn:Ew; [exists plans2, w2, (after 1); split; [done|by eapply HQ]|].
  destruct (Hconf plan' sts Hmatches Ew w2 Hw2) as (r & w3 & Ec & Hr).
  exists plans2, w3, r. unfold beside. cbn [fst snd]. by rewrite Ec.
Qed.

Lemma reconcilePlan_total dataMap calls plan plans (w : W) :
  buildClusterPlan ClusterDomain R1 R2 cluster = Ok (dataMap, calls, plan) →
  total I (reconcileStatefulSet ClusterDomain cluster (AP_TunnelTargetMatches plan)) Up →
  (∀ plan' sts pipelines dataMap, AP_TunnelTargetMatches plan' = AP_TunnelTargetMatches plan → waiting sts = false →
    total (Up sts) (configureAndReport ClusterDomain R R1 R2 cluster plan' sts pipelines dataMap) Q) → I w →
  ∃ plans' w' r, reconcilePlan ClusterDomain R R1 R2 cluster (plans, w) = ((plans', w'), Ok r) ∧ Q r w'.
Proof.
  intros HB Hsts Hconf Hw.
  unfold buildClusterPlan, collectPipelines in HB. apply bind_Ok in HB as ([[b dm] calls0] & Hcol & HB).
  apply bind_Ok in Hcol as (pipelines & Hl & Hcol). destruct (Build R1 R2 b).2 as [plan'|e] eqn:Ebuild; [|done].
  injection HB as -> _ ->.
  unfold reconcilePlan. unfold mbind at 1, io_bind at 1, io_lift at 1. rewrite Hl.
  destruct (collect_total ClusterDomain cluster R I HI pipelines _ _ _ _ _ _ Hcol w Hw) as (r & w1 & Ec & -> & Hw1).
  unfold mbind at 1, io_bind at 1, beside at 1. cbn [fst snd]. rewrite Ec. cbn [fst snd].
  unfold mbind at 1, io_bind at 1, io_lift at 1. rewrite Ebuild. apply reconcileWorkload_total; auto.
Qed.

Lemma Reconcile_total req dataMap calls plan plans (w : W) : live w req cluster →
  buildClusterPlan ClusterDomain R1 R2 cluster = Ok (dataMap, calls, plan) →
  total I0 (reconcileOwned (ReadFile GetControllerCAPath) ClusterDomain cluster) (λ b w, if b : bool then I w else Q (after 2) w) →
  total I (reconcileStatefulSet ClusterDomain cluster (AP_TunnelTargetMatches plan)) Up →
  (∀ plan' sts pipelines dataMap, AP_TunnelTargetMatches plan' = AP_TunnelTargetMatches plan → waiting sts = false →
    total (Up sts) (configureAndReport ClusterDomain R R1 R2 cluster plan' sts pipelines dataMap) Q) → I0 w →
  ∃ plans' w' r, Reconcile ClusterDomain R R1 R2 req (plans, w) = ((plans', w'), Ok r) ∧ Q r w'.
Proof.
  intros (Hv & Hd & Hf) HB Howned Hsts Hconf Hw. destruct (get_there KCluster req w cluster Hv) as (w1 & Eg & Hag).
  destruct (Howned w1 (HI0 _ _ Hag Hw)) as (b & w2 & Eo & Hw2).
  unfold Reconcile, mbind, io_bind, io_try, beside. cbn [fst snd]. rewrite Eg. cbn [fst snd].
  rewrite decide_False by (by intros Hn). rewrite decide_True by done. cbn [fst snd]. rewrite Eo.
  destruct b; [by eapply reconcilePlan_total|]. by exists plans, w2, (after 2).
Qed.
End Stage.

Lemma reconcile_completes_Ok req cluster plans (w : W) :
  live w req cluster → workable cluster → settled cluster w →
  ∃ plans' w', Reconcile ClusterDomain R R1 R2 req (plans, w) = ((plans', w'), Ok done_result).
Proof.
  intros Hl [(replicas & Hrep & Hmax) (dataMap & calls & plan & HB & Hb & Hm)] Hw.
  destruct (Reconcile_total (settled cluster) (settled cluster) (λ sts w, waiting sts = false ∧ settled cluster w)
    (λ r _, r = done_result) cluster) with (req := req) (plans := plans) (w := w) (dataMap := dataMap) (calls := calls) (plan := plan)
    as (plans' & w' & r & Er & ->); [..|by exists plans', w']; try done.
  - intros w0 w1 Hag. apply settled_aside. eapply agree_off_mono; [|exact Hag]. by intros ? ? [].
  - intros w0 w1 Hag. apply settled_aside. eapply agree_off_mono; [|exact Hag]. by intros ? ? [].
  - intros sts w0 w1 Hag [Hn Hw0]. split; [done|]. eapply settled_aside; [|exact Hw0].
    eapply agree_off_mono; [|exact Hag]. intros k nn ->. unfold aside, decisive. naive_solver.
  - by intros sts w0 [-> _].
  - eapply total_conseq; [intros w0 Hw0; exact Hw0| |apply (owned_total ClusterDomain cluster replicas Hrep Hmax)].
    + cbn. by intros b w0 [-> Hw0].
    + intros w0 e He. pose proof (pa_file GetControllerCAPath ltac:(tauto) w0) as Hok. by rewrite He in Hok.
  - by eapply workload_total.
  - intros plan' sts pipelines dm Hmatches _. apply (total_conseq (issuer_there cluster) _ _ (λ r _, r = done_result)).
    + intros w0 [_ Hw0]. by apply st_issuer.
    + done.
    + apply configure_total. by rewrite Hmatches.
Qed.

Lemma configure_returns cluster plan sts pipelines dataMap :
  total (λ _, True) (configureAndReport ClusterDomain R R1 R2 cluster plan sts pipelines dataMap : io W _)
    (λ r _, r = done_result ∨ r = after 10).
Proof.
  intros w _. unfold configureAndReport, mbind, io_bind, io_try. cbn [fst snd].
  destruct (applyConfigToPods R1 R2 ClusterDomain cluster plan (desiredReplicas sts) w) as [w1 applied]. cbn [fst snd].
  destruct (pc_now w1) as [w2 now]. unfold updateClusterStatus.
  destruct (clusterStatusEqual _ _), applied as [n|e];
    (eexists _, _; split; [cbn; reflexivity|cbn; tauto]).
Qed.

Lemma total_True {B} (m : io W B) (Q : B → W → Prop) : returns m → (∀ b w, Q b w) → total (λ _, True) m Q.
Proof. intros Hm HQ w _. destruct (returns_run m w Hm) as (b & w' & Eb). exists b, w'. by split. Qed.
End Completes.

(** ** Theorems *)

Section ProgressTheorems.
Context {W : Type} `{L : ApiLaws W} `{HS : !ApiServes W} `{PC : PipelineClient W} `{PA : !PipelinesApart W}
  `{F : !Files W} `{HT : !PodHTTP W} {J : PodJSON} `{E : ErrorText} `{P : !PodStore W} `{PF : !PodFrame W}.
Context `{Y : YAML} {YM : YAMLMarshal} `{YL : YAMLListen} `{Fmt : Format} `{Sel : Selectors} (ClusterDomain : string).
Context `{Rpl : Reader PipelineSpec PipelineStatus} `{Rt : Reader TargetSpec TargetStatus}
  `{Rtp : Reader TargetProfileSpec unit} `{Rsub : Reader SubscriptionSpec unit}
  `{Ro : Reader OutputSpec unit} `{Ri : Reader InputSpec unit} `{Rpr : Reader ProcessorSpec unit}
  `{Rtt : Reader TunnelTargetPolicySpec unit} `{Rsvc : Reader CoreServiceSpec unit}
  `{Rsec : Reader SecretSpec unit}.
Context (R R1 R2 : GoRuntime).

(** C19: a reconciliation gets to its end.  Over an API server that takes what it is given,
    the reconciliation of a live cluster whose specification can be worked with returns
    without an error, whatever state its objects, its pods and its certificates are in,
    and says what it waits for: certificates, pods that are not up, pods that did not
    take their configuration, or nothing.  And it is nothing once the certificates are
    issued, the pods are up and they answer. *)
Theorem reconcile_completes req cluster plans (w : W) :
  live w req cluster → workable ClusterDomain R R1 R2 cluster →
  (∀ (w : W) e, (ReadFile GetControllerCAPath w).2 = Err e → e = ErrNotFound) →
  (∃ plans' w' r, Reconcile ClusterDomain R R1 R2 req (plans, w) = ((plans', w'), Ok r) ∧
     r ∈ [after 2; after 1; after 10; done_result]) ∧
  (settled cluster w → PodsAnswer W →
   ∃ plans' w', Reconcile ClusterDomain R R1 R2 req (plans, w) = ((plans', w'), Ok done_result)).
Proof.
  intros Hl Hwk HCA. split; [|intros Hs Ha; by eapply reconcile_completes_Ok].
  destruct Hwk as [(replicas & Hrep & _) (dataMap & calls & plan & HB & Hb & _)].
  destruct (Reconcile_total (E := E) ClusterDomain R R1 R2 (λ _, True) (λ _, True) (λ _ _, True)
    (λ r _, r ∈ [after 2; after 1; after 10; done_result]) cluster) with (req := req) (plans := plans) (w := w)
    (dataMap := dataMap) (calls := calls) (plan := plan) as (plans' & w' & r & Er & Hr); try done; [|..|by exists plans', w', r].
  - intros sts w0 _ _. right. by left.
  - apply total_True; [by apply owned_returns|]. intros [] w0; [done|by left].
  - apply total_True; [by eapply workload_returns|done].
  - intros plan' sts pipelines dm _ _. eapply total_conseq; [intros w0 Hw0; exact Hw0| |apply configure_returns].
    cbn. intros r _ [-> | ->]; repeat (first [left; reflexivity|right]).
Qed.
End ProgressTheorems.

(** ** Witnesses *)

Import PodDemo.

(** The concrete server takes everything, and its pods answer. *)
#[export] Instance srv_serves {X} : ApiServes (Server X).
Proof.
  split.
  - intros k nn w e. cbn. case_match; [done|]. by intros [= <-].
  - done.
  - intros k o w Hv. cbn in Hv |- *. rewrite decide_False; [done|]. by rewrite Hv; intros [? ?].
  - intros k o w [old Hv]. cbn in Hv |- *. by rewrite Hv.
  - intros k nn w e. cbn. case_match; [done|]. by intros [= <-].
  - done.
Qed.

Module ProgressDemo.
#[export] Instance apart : PipelinesApart (PC := LifeDemo.pipelines) World.
Proof. split; intros; done. Qed.

#[export] Instance answers : PodsAnswer World.
Proof.
  split; [done| | | |done|done].
  - intros cl base p body w _. do 2 eexists. split; [unfold http_do, http; by rewrite decide_True|]. reflexivity.
  - intros cl base w. do 2 eexists. split.
    { unfold http_do, http. rewrite decide_False by done. rewrite decide_True by done. rewrite decide_False by done. reflexivity. }
    split; reflexivity.
  - intros cl base tm body w. cbn [MarshalMatch json]. destruct (no_byte _ _) eqn:En; [|done]. intros [= <-].
    do 2 eexists. split; [|].
    { unfold http_do, http. rewrite decide_False by done. rewrite !decide_True by done.
      cbn [PR_Body]. rewrite cut_first_app by done. reflexivity. }
    reflexivity.
Qed.

(** The cluster of the demonstration with TLS on its API. *)
Definition spec : ClusterSpec := {|
  CS_Image := "gnmic"; CS_Replicas := Some 2;
  CS_API := Some {| API_RestPort := 0; API_GNMIPort := 0; API_TLS := Some CertDemo.tls |}; CS_ClientTLS := None;
  CS_GRPCTunnel := None; CS_Resources := {| Requests := ∅; Limits := ∅ |}; CS_Env := []; CS_TargetDistribution := None |}.
Definition cluster : Cluster := MkResource (Meta LifeDemo.cluster) spec (Status LifeDemo.cluster).

(** Its CA, and nothing else. *)
Definition issuer : obj KIssuer := MkResource (new_meta "ca" "ns" ∅ ∅) (Some "ca-secret") tt.
Definition secret : obj KSecret := MkResource (new_meta "ca-secret" "ns" ∅ ∅) ({[ "tls.crt" := "PEM" ]} : gmap string string) tt.
Definition start : World :=
  let w := LifeDemo.put_cluster cluster (empty_server ∅) in
  let w := srv_put w KIssuer {[ key_of issuer := issuer ]} (WCreate KIssuer (key_of issuer)) in
  srv_put w KSecret {[ key_of secret := secret ]} (WCreate KSecret (key_of secret)).

(** cert-manager issues what there is. *)
Definition issue (w : World) : World := srv_put w KCertificate (CertDemo.ready <$> srv_certificates w) (WUpdateStatus KCertificate LifeDemo.req).

Definition first := LifeDemo.reconcile LifeDemo.req (∅, start).
Definition second := LifeDemo.reconcile LifeDemo.req (first.1.1, issue first.1.2).
Definition up : World := LifeDemo.ready second.1.2.

(** The first run waits for the certificates, the second for the pods. *)
Example waits_then_waits : first.2 = Ok (after 2) ∧ second.2 = Ok (after 1) ∧
  (LifeDemo.reconcile LifeDemo.req (second.1.1, up)).2 = Ok done_result.
Proof. split_and!; vm_compute; reflexivity. Qed.

Lemma live_tls : live up LifeDemo.req cluster.
Proof. split; [vm_compute; reflexivity|]. split; [reflexivity|left]. Qed.

Definition is_ready (nn : NamespacedName) : bool :=
  match view up KCertificate !! nn with Some cert => isCertificateReady cert | None => false end.

Lemma ready_up nn : is_ready nn = true → ready_at up nn.
Proof. unfold is_ready, ready_at. destruct (view up KCertificate !! nn) as [cert|]; [by exists cert|done]. Qed.

Lemma settled_up : settled cluster up.
Proof.
  split.
  - intros nn [(_ & i & Hi & ->)|[[Hi _]|[Hi _]]]; [|discriminate..]. apply ready_up.
    assert (i = 0 ∨ i = 1) as [-> | ->] by (unfold pod_index in Hi; cbn in Hi; lia); vm_compute; reflexivity.
  - assert (podsReady <$> view up KStatefulSet !! in_ns cluster (stsName cluster) = Some 2) as Hn by (vm_compute; reflexivity).
    apply fmap_Some in Hn as (sts & E & Hn). exists sts. split; [exact E|]. rewrite <-Hn. vm_compute. discriminate.
  - intros tls [= <-] _. exists issuer, secret, "ca-secret", "PEM". split_and!; vm_compute; (reflexivity || discriminate).
Qed.
End ProgressDemo.

#[local] Existing Instances LifeDemo.profiles LifeDemo.subscriptions LifeDemo.outputs LifeDemo.inputs LifeDemo.policies
  LifeDemo.services LifeDemo.secrets demo_pipelines demo_target_cache demo_processor_cache demo_yaml WorkloadDemo.yaml
  LifeDemo.listen LifeDemo.format LifeDemo.pipelines LifeDemo.pipelines_frame.

Module WorkableDemo.
Lemma workable_up : workable (Y := demo_yaml) "cluster.local" go_reference go_reference go_reversed ProgressDemo.cluster.
Proof. apply plainly_workable_ok. vm_compute. reflexivity. Qed.
End WorkableDemo.

(** With the certificates issued and the pods up, the third run is the last. *)
Lemma reconcile_completes_witness :
  ∃ plans' w', Reconcile "cluster.local" go_reference go_reference go_reversed LifeDemo.req (ProgressDemo.second.1.1, ProgressDemo.up) =
    ((plans', w'), Ok done_result).
Proof.
  refine (proj2 (reconcile_completes (W := World) (PA := ProgressDemo.apart) (Y := demo_yaml) "cluster.local" go_reference go_reference go_reversed
    LifeDemo.req ProgressDemo.cluster ProgressDemo.second.1.1 ProgressDemo.up ProgressDemo.live_tls WorkableDemo.workable_up _)
    ProgressDemo.settled_up ProgressDemo.answers).
  intros w e He. discriminate He.
Defined.
