(* ===== verification/Convergence.v ===== *)
(** From one reconciliation to the next: cert-manager issues the certificates, Kubernetes
    starts the pods, and within five reconciliations there is nothing left to do. *)

From S2P Require Import Prelude GoLib Api GnmicTypes Distribute TargetConfigs OutputConfigs PlanBuilder.
From S2P Require Import ClusterClient Resolve Watch ClusterPlan PipelineStatus Kube Names Services Certificates Workload PodApi ClusterReconcile Progress.
From Stdlib Require Import Ascii.
#[local] Open Scope Z_scope.

(** ** One round of the certificates *)

Section CertRounds.
Context {W : Type} `{L : ApiLaws W} `{HS : !ApiServes W} (ClusterDomain : string) (U : NamespacedName → Prop).

Definition all_present (S : NamespacedName → Prop) (w : W) : Prop := ∀ nn, S nn → is_Some (view w KCertificate !! nn).

(** The certificates of [U] that were there are, and those that were ready are ready. *)
Definition kept (w w' : W) : Prop := ∀ nn, U nn →
  (is_Some (view w KCertificate !! nn) → is_Some (view w' KCertificate !! nn)) ∧ (ready_at w nn → ready_at w' nn).

#[export] Instance kept_po : PreOrder kept.
Proof. split; [by intros w nn|]. intros w1 w2 w3 H1 H2 nn Hn. specialize (H1 nn Hn). specialize (H2 nn Hn). tauto. Qed.

Lemma agree_kept S w w' : agree_off S w w' → (∀ nn, U nn → ¬ S KCertificate nn) → kept w w'.
Proof. intros Hag Hn nn HU. unfold ready_at. by rewrite (Hag KCertificate nn) by by apply Hn. Qed.

Lemma ready_present S w : all_ready S w → all_present S w.
Proof. intros H nn (cert & Hv & _)%H. by exists cert. Qed.

Lemma kept_ready (S : NamespacedName → Prop) w w' : (∀ nn, S nn → U nn) → kept w w' → all_ready S w → all_ready S w'.
Proof. intros HS' Hk Hr nn Hn. apply (Hk nn); auto. Qed.

Lemma kept_present (S : NamespacedName → Prop) w w' : (∀ nn, S nn → U nn) → kept w w' → all_present S w → all_present S w'.
Proof. intros HS' Hk Hr nn Hn. apply (Hk nn); auto. Qed.

(** The certificates of [S] are there, [b] is right about their being ready, and it is
    true when they were ready before. *)
Definition cert_post (S : NamespacedName → Prop) (w : W) (b : bool) (w' : W) : Prop :=
  kept w w' ∧ all_present S w' ∧ (b = true → all_ready S w') ∧ (all_ready S w → b = true).

Definition ensures (S : NamespacedName → Prop) (m : io W bool) : Prop := ∀ w, ∃ b w', m w = (w', Ok b) ∧ cert_post S w b w'.

(** One after the other. *)
Lemma cert_post_union (S1 S2 S : NamespacedName → Prop) w c w1 b w2 : (∀ nn, S1 nn → U nn) → (∀ nn, S2 nn → U nn) →
  (∀ nn, S nn ↔ S1 nn ∨ S2 nn) → cert_post S1 w c w1 → cert_post S2 w1 b w2 → cert_post S w (c && b) w2.
Proof.
  intros HU1 HU2 HS' (K1 & P1 & B1 & R1) (K2 & P2 & B2 & R2). split; [by etrans|]. split; [|split].
  - pose proof (kept_present S1 _ _ HU1 K2 P1) as P1'. intros nn [Hn|Hn]%HS'; auto.
  - intros [Hc Hb]%andb_true_iff nn [Hn|Hn]%HS'; [|by apply B2]. by apply (kept_ready S1 w1 w2), Hn; auto.
  - intros Ha. apply andb_true_iff. split; [apply R1; intros nn Hn; apply Ha, HS'; auto|].
    apply R2. apply (kept_ready S2 w w1 HU2 K1). intros nn Hn. apply Ha, HS'; auto.
Qed.

Lemma certificate_round cluster (desired : Certificate) (w : W) : ∃ b w', reconcileCertificate cluster desired w = (w', Ok b) ∧
  agree_off (only_at KCertificate (key_of desired)) w w' ∧ is_Some (view w' KCertificate !! key_of desired) ∧
  (b = true → ready_at w' (key_of desired)) ∧ (ready_at w (key_of desired) → b = true ∧ ready_at w' (key_of desired)).
Proof.
  destruct (returns_run _ w (certificate_returns cluster desired)) as (b & w' & Er). exists b, w'. split; [exact Er|].
  pose proof (reconcileCertificate_Ok _ _ _ _ _ Er) as (Hag & cert & Hv & _ & _ & Hb).
  split; [done|]. split; [by exists cert|]. split; [intros [_ Hr%isCertificateReady_spec]%Hb; by exists cert|].
  intros Hr. destruct (certificate_stays_ready cluster desired w Hr) as (w2 & E2 & _ & Hr2). rewrite Er in E2. by injection E2 as -> ->.
Qed.

Lemma certificate_ensures cluster (desired : Certificate) : ensures (λ nn, nn = key_of desired) (reconcileCertificate cluster desired).
Proof.
  intros w. destruct (certificate_round cluster desired w) as (b & w' & E & Hag & Hp & Hb & Hr). exists b, w'. split; [done|].
  split; [|split; [|split]].
  - intros nn _. destruct (decide (nn = key_of desired)) as [->|Hne]; [split; [done|apply Hr]|].
    unfold ready_at. by rewrite (Hag KCertificate nn) by (by intros [_ ?]).
  - by intros nn ->.
  - intros Ht nn ->. by apply Hb.
  - intros Ha. by apply Hr, Ha.
Qed.

Lemma foldM_done {B C} (P : list B → C → W → Prop) (f : C → B → io W C) l :
  (∀ visited c b w, b ∈ l → P visited c w → ∃ c' w', f c b w = (w', Ok c') ∧ P (visited ++ [b]) c' w') →
  ∀ visited c w, P visited c w → ∃ c' w', foldM f c l w = (w', Ok c') ∧ P (visited ++ l) c' w'.
Proof.
  induction l as [|b l IH]; intros Hf visited c w Hw; [exists c, w; by rewrite app_nil_r|].
  destruct (Hf visited c b w ltac:(by left) Hw) as (c1 & w1 & E1 & H1).
  destruct (IH ltac:(intros visited0 c0 b0 w0 Hin; apply Hf; by right) (visited ++ [b]) c1 w1 H1) as (c2 & w2 & E2 & H2).
  exists c2, w2. rewrite <-app_assoc in H2. split; [|done]. cbn [foldM]. unfold mbind, io_bind. by rewrite E1.
Qed.

(** The certificates of the pods [l]. *)
Definition keys_of (desired : Z → Certificate) (l : list Z) (nn : NamespacedName) : Prop := ∃ i, i ∈ l ∧ nn = key_of (desired i).

Lemma podCertificates_ensures cluster replicas (desired : Z → Certificate) :
  (∀ i, i ∈ seqZ 0 replicas → U (key_of (desired i))) →
  ensures (keys_of desired (seqZ 0 replicas)) (reconcilePodCertificates cluster replicas desired).
Proof.
  intros HU w. unfold reconcilePodCertificates.
  edestruct (foldM_done (λ visited b w', (∀ i, i ∈ visited → U (key_of (desired i))) ∧ cert_post (keys_of desired visited) w b w')
    (λ (allReady : bool) i, ready ← reconcileCertificate cluster (desired i); mret (allReady && ready)) (seqZ 0 replicas))
    with (visited := @nil Z) (c := true) (w := w) as (b & w' & E & [_ H]); [| |by exists b, w'].
  - intros visited c i w1 Hi [HUv Hc]. destruct (certificate_ensures cluster (desired i) w1) as (b & w2 & E & Hb).
    exists (c && b), w2. split; [unfold mbind, io_bind; by rewrite E|]. split; [set_solver|].
    eapply cert_post_union; [| | |exact Hc|exact Hb].
    + intros nn (j & Hj & ->). by apply HUv.
    + intros nn ->. by apply HU.
    + intros nn. unfold keys_of. set_solver.
  - split; [by intros i Hi%elem_of_nil|]. split; [done|]. split; [by intros nn (i & Hi%elem_of_nil & _)|].
    split; [|done]. by intros _ nn (i & Hi%elem_of_nil & _).
Qed.

Lemma swept_ensures cluster labels ordinal replicas (desired : Z → Certificate) :
  (∀ i, i ∈ seqZ 0 replicas → U (key_of (desired i))) →
  (∀ nn, U nn → ordinal (NN_Name nn) (stsName cluster) < replicas) →
  ensures (keys_of desired (seqZ 0 replicas))
    (allReady ← reconcilePodCertificates cluster replicas desired;
     _ ← deleteScaledDown cluster labels ordinal replicas;
     mret allReady).
Proof.
  intros HU Ho w. destruct (podCertificates_ensures cluster replicas desired HU w) as (b & w1 & E1 & Hk & Hp & Hb & Hr).
  destruct (returns_run _ w1 (scaledDown_returns cluster labels ordinal replicas)) as ([] & w2 & E2).
  exists b, w2. split; [unfold mbind, io_bind; by rewrite E1, E2|].
  apply deleteScaledDown_Ok in E2 as [Hag _].
  assert (kept w1 w2) as Hk2.
  { eapply agree_kept; [exact Hag|]. intros nn HUn (_ & Hle & _). specialize (Ho nn HUn). lia. }
  assert (∀ nn, keys_of desired (seqZ 0 replicas) nn → U nn) as Hsub by (intros nn (i & Hi & ->); by apply HU).
  split; [by etrans|]. split; [by eapply kept_present|]. split; [|done]. intros Hbt. eapply kept_ready; eauto.
Qed.

Lemma ensures_iff (S S' : NamespacedName → Prop) m : (∀ nn, S nn ↔ S' nn) → ensures S m → ensures S' m.
Proof.
  intros HS' H w. destruct (H w) as (b & w' & E & Hk & Hp & Hb & Hr). exists b, w'. split; [done|]. split; [done|].
  split; [intros nn Hn%HS'; auto|]. split; [intros Ht nn Hn%HS'; by apply Hb|].
  intros Ha. apply Hr. intros nn Hn. by apply Ha, HS'.
Qed.
End CertRounds.

(** ** One round of the owned objects *)

Section OwnedRounds.
Context {W : Type} `{L : ApiLaws W} `{HS : !ApiServes W} `{F : !Files W} `{P : !PodStore W} `{PF : !PodFrame W}.
Context (ClusterDomain : string) (cluster : Cluster) (replicas : Z).
Context (Hrep : CS_Replicas (Spec cluster) = Some replicas) (Hmax : 0 ≤ replicas < 2 ^ 31).

Abbreviation wanted := (wanted_cert cluster).

Lemma tier_wanted t nn : tier cluster t nn → wanted nn.
Proof. unfold wanted_cert. destruct t as [|[|[|t]]]; [tauto..|intros []]. Qed.

(** A tier of certificates is wanted exactly when it is issued. *)
Lemma tier_keys t issuing certName (desired : Z → Certificate) : issuing = true →
  (∀ nn, tier cluster t nn ↔ issuing = true ∧ ∃ i, pod_index cluster i ∧ nn = in_ns cluster (certName i)) →
  (∀ i, key_of (desired i) = in_ns cluster (certName i)) →
  ∀ nn, keys_of desired (seqZ 0 replicas) nn ↔ tier cluster t nn.
Proof.
  intros Hi Ht Hk nn. rewrite Ht. unfold keys_of, pod_index. rewrite Hrep. cbn [default from_option id].
  setoid_rewrite elem_of_seqZ. setoid_rewrite Hk. rewrite Z.add_0_l. naive_solver.
Qed.

Lemma apiCertificates_ensure : issued (apiTLS (Spec cluster)) = true →
  ensures wanted (tier cluster 0) (reconcileCertificates ClusterDomain cluster : io W bool).
Proof.
  intros Hi. unfold reconcileCertificates, replicasOf. destruct (apiTLS (Spec cluster)) as [tls|] eqn:Et; [|done]. rewrite Hrep.
  pose proof (tier_keys 0 (issued (apiTLS (Spec cluster))) (apiCertName cluster) (λ i, buildCertificate ClusterDomain cluster (CTLS_IssuerRef tls) (apiCertName cluster i) (podName cluster i))) as Hk.
  rewrite Et in Hk. specialize (Hk Hi ltac:(intros nn; unfold tier; by rewrite Et) ltac:(done)).
  eapply ensures_iff; [exact Hk|]. apply swept_ensures.
  - intros i Hin. apply (tier_wanted 0), Hk. by exists i.
  - by apply wanted_api_ordinal.
Qed.

Lemma tunnelCertificates_ensure : issued (tunnelTLS (Spec cluster)) = true →
  ensures wanted (tier cluster 1) (reconcileTunnelCertificates ClusterDomain cluster : io W bool).
Proof.
  intros Hi. unfold reconcileTunnelCertificates, replicasOf.
  destruct (CS_GRPCTunnel (Spec cluster)) as [tunnel|] eqn:Eg; [|exfalso; unfold tunnelTLS in Hi; by rewrite Eg in Hi].
  destruct (tunnelTLS (Spec cluster)) as [tls|] eqn:Et; [|done]. rewrite Hrep.
  pose proof (tier_keys 1 (issued (tunnelTLS (Spec cluster))) (tunnelCertName cluster)
    (λ i, buildTunnelCertificate ClusterDomain cluster tunnel (CTLS_IssuerRef tls) (tunnelCertName cluster i) (podName cluster i))) as Hk.
  rewrite Et in Hk. specialize (Hk Hi ltac:(intros nn; unfold tier; by rewrite Et) ltac:(done)).
  eapply ensures_iff; [exact Hk|]. apply swept_ensures.
  - intros i Hin. apply (tier_wanted 1), Hk. by exists i.
  - by apply wanted_tunnel_ordinal.
Qed.

Lemma clientCertificate_ensures : issued (clientTLS (Spec cluster)) = true →
  ensures wanted (tier cluster 2) (reconcileClientTLSCertificates cluster : io W bool).
Proof.
  intros Hi. unfold reconcileClientTLSCertificates. destruct (clientTLS (Spec cluster)) as [tls|] eqn:Et; [|done].
  eapply ensures_iff; [|apply certificate_ensures]. intros nn. unfold tier. rewrite Et, Hi. naive_solver.
Qed.

(** What is left of the owned objects from tier [t] on: all certificates are ready at the
    end, or those of one tier are there and were not all ready before. *)
Definition owned_post (t : nat) (w : W) (b : bool) (w' : W) : Prop :=
  kept wanted w w' ∧
  if b then ∀ s, (t ≤ s)%nat → all_ready (tier cluster s) w'
  else ∃ s, (t ≤ s < 3)%nat ∧ (∀ r, (t ≤ r < s)%nat → all_ready (tier cluster r) w') ∧
    all_present (tier cluster s) w' ∧ ¬ all_ready (tier cluster s) w.

Definition owns_from (t : nat) (m : io W bool) : Prop := ∀ w, ∃ b w', m w = (w', Ok b) ∧ owned_post t w b w'.

Lemma tier_kept t w w' : kept wanted w w' → all_ready (tier cluster t) w → all_ready (tier cluster t) w'.
Proof. apply kept_ready, tier_wanted. Qed.

Lemma owns_all : owns_from 3 (mret true).
Proof. intros w. exists true, w. split; [done|]. split; [done|]. intros s Hs nn. by destruct s as [|[|[|s]]]; [lia..|]. Qed.

Lemma owns_then t (m : io W unit) rest : returns m → touches (λ k _, k ≠ KCertificate) m → owns_from t rest →
  owns_from t (_ ← m; rest).
Proof.
  intros Hm Ht Hrest w. destruct (returns_run m w Hm) as ([] & w1 & E1). destruct (Hrest w1) as (b & w2 & E2 & Hk & Hb).
  specialize (Ht w). rewrite E1 in Ht. exists b, w2. split; [unfold mbind, io_bind; by rewrite E1|].
  assert (kept wanted w w1) as Hk1 by (eapply agree_kept; [exact Ht|by intros nn _ Hn]).
  split; [by etrans|]. destruct b; [done|]. destruct Hb as (s & Hs & Hlt & Hp & Hn). exists s. split_and!; [lia..|done|done|].
  intros Ha. apply Hn. by eapply tier_kept.
Qed.

Lemma owns_when t b (m : io W unit) rest : returns m → touches (λ k _, k ≠ KCertificate) m → owns_from t rest →
  owns_from t (_ ← when b m; rest).
Proof. intros Hm Ht. apply owns_then; unfold when; destruct b; try done. Qed.

Lemma owned_post_step t w w1 b w2 : kept wanted w w1 → all_ready (tier cluster t) w1 →
  owned_post (S t) w1 b w2 → owned_post t w b w2.
Proof.
  intros Hk Hr [Hk2 Hb]. split; [by etrans|]. pose proof (tier_kept t w1 w2 Hk2 Hr) as Htr.
  destruct b; [intros s Hs; destruct (decide (s = t)) as [->|]; [done|apply Hb; lia]|].
  destruct Hb as (s & Hs & Hlt & Hp & Hn). exists s. split_and!; [lia..| |done|intros Ha; apply Hn; by eapply tier_kept].
  intros r Hr2. destruct (decide (r = t)) as [->|]; [done|apply Hlt; lia].
Qed.

Lemma owns_whenReady t enabled (certs : io W bool) rest : (t < 3)%nat →
  (enabled = true → ensures wanted (tier cluster t) certs) → (enabled = false → ∀ nn, ¬ tier cluster t nn) →
  owns_from (S t) rest → owns_from t (whenReady enabled certs rest).
Proof.
  intros Ht Hc Hn Hrest w. unfold whenReady. destruct enabled.
  - destruct (Hc eq_refl w) as (b & w1 & E1 & Hk & Hp & Hb & Hr). unfold mbind, io_bind. rewrite E1. destruct b.
    + destruct (Hrest w1) as (b & w2 & E2 & H2). exists b, w2. split; [done|]. apply (owned_post_step t w w1); auto.
    + exists false, w1. split; [done|]. split; [done|]. exists t. split_and!; [lia..|intros; lia|done|by intros Ha%Hr].
  - destruct (Hrest w) as (b & w2 & E2 & H2). exists b, w2. split; [done|]. apply (owned_post_step t w w); [done| |done].
    intros nn Hx. by destruct (Hn eq_refl nn).
Qed.

Context (HCA : ∀ (w : W) e, (ReadFile GetControllerCAPath w).2 = Err e → e = ErrNotFound).

Lemma aside_no_certificate {B} (m : io W B) : touches aside m → touches (λ k _, k ≠ KCertificate) m.
Proof. intros Ht w. eapply agree_off_mono; [|apply Ht]. intros k nn Ha ->. apply Ha. by left. Qed.

Lemma owned_rounds : owns_from 0 (reconcileOwned (ReadFile GetControllerCAPath) ClusterDomain cluster : io W bool).
Proof.
  unfold reconcileOwned. apply owns_then; [apply headless_returns|apply aside_no_certificate, headless_aside|].
  apply owns_whenReady; [lia|by apply apiCertificates_ensure|intros Hf nn; unfold tier; rewrite Hf; by intros [? _]|].
  apply owns_when; [by apply controllerCA_returns|apply aside_no_certificate, controllerCA_aside|].
  apply owns_whenReady; [lia|by apply tunnelCertificates_ensure|intros Hf nn; unfold tier; rewrite Hf; by intros [? _]|].
  apply owns_whenReady; [lia|by apply clientCertificate_ensures|intros Hf nn; unfold tier; rewrite Hf; by intros [? _]|].
  apply owns_when; [apply tunnelService_returns|apply aside_no_certificate, tunnelService_aside|apply owns_all].
Qed.
End OwnedRounds.

(** ** One reconciliation *)

(** What a reconciliation changes before the pods are told: neither the cluster, nor
    issuers and secrets. *)
Definition own_kind : objects := λ k _, k ≠ KCluster ∧ k ≠ KIssuer ∧ k ≠ KSecret.

Section Frames.
Context {W : Type} `{L : ApiLaws W} `{F : !Files W} `{P : !PodStore W} `{PF : !PodFrame W} (ClusterDomain : string).

Lemma certs_own_kind {B} (m : io W B) : touches (λ k _, k = KCertificate) m → touches own_kind m.
Proof. intros Ht w. eapply agree_off_mono; [|apply Ht]. by intros k nn ->. Qed.

Lemma own_kind_create k o : k ≠ KCluster → k ≠ KIssuer → k ≠ KSecret → touches own_kind (api_create k o : io W _).
Proof. intros ? ? ?. by apply touches_create. Qed.

Lemma own_kind_update k o : k ≠ KCluster → k ≠ KIssuer → k ≠ KSecret → touches own_kind (api_update k o : io W _).
Proof. intros ? ? ?. by apply touches_update. Qed.

Lemma owned_own_kind cluster : touches own_kind (reconcileOwned (ReadFile GetControllerCAPath) ClusterDomain cluster : io W bool).
Proof.
  unfold reconcileOwned, whenReady, when, reconcileHeadlessService, reconcileControllerCA, reconcileTunnelService, create_or.
  walk ltac:(first
    [ apply certs_own_kind; first [apply certificates_touch|apply tunnelCertificates_touch|apply clientCertificate_touch]
    | apply own_kind_create; discriminate | apply own_kind_update; discriminate
    | intros w; eapply agree_off_mono; [|apply pf_files]; by intros ? ? []
    | eauto 3 with touches ]).
Qed.
End Frames.

Section Rounds.
Context {W : Type} `{L : ApiLaws W} `{HS : !ApiServes W} `{PC : PipelineClient W} `{PA : !PipelinesApart W}
  `{F : !Files W} `{HT : !PodHTTP W} {J : PodJSON} `{E : ErrorText} `{P : !PodStore W} `{PF : !PodFrame W} `{PAn : !PodsAnswer W}.
Context `{Y : YAML} {YM : YAMLMarshal} `{YL : YAMLListen} `{Fmt : Format} `{Sel : Selectors} (ClusterDomain : string).
Context `{Rpl : Reader PipelineSpec PipelineStatus} `{Rt : Reader TargetSpec TargetStatus}
  `{Rtp : Reader TargetProfileSpec unit} `{Rsub : Reader SubscriptionSpec unit}
  `{Ro : Reader OutputSpec unit} `{Ri : Reader InputSpec unit} `{Rpr : Reader ProcessorSpec unit}
  `{Rtt : Reader TunnelTargetPolicySpec unit} `{Rsvc : Reader CoreServiceSpec unit}
  `{Rsec : Reader SecretSpec unit}.
Context (R R1 R2 : GoRuntime).
#[local] Existing Instance R.
Context (req : NamespacedName) (cluster : Cluster).

(** A reconciliation that waits has left the cluster alone.  It waits for certificates it
    has asked for, or for the pods of a StatefulSet that is in place once they are all
    ready. *)
Definition waits_for (w : W) (r : Result) (w' : W) : Prop :=
  agree_off (λ k _, k ≠ KCluster) w w' ∧
  ((r = after 2 ∧ owned_post cluster 0 w false w') ∨
   (r = after 1 ∧ all_ready (wanted_cert cluster) w' ∧
    ∃ sts : StatefulSet, view w' KStatefulSet !! in_ns cluster (stsName cluster) = Some sts ∧
      desiredReplicas sts = default 0 (CS_Replicas (Spec cluster)))).

(** Before the plan, and with the workload in place; seen from the world [w]. *)
Definition before_plan (w w1 : W) : Prop :=
  agree_off (λ k _, k ≠ KCluster) w w1 ∧ issuer_there cluster w1 ∧ all_ready (wanted_cert cluster) w1.

Definition in_place (w : W) (sts : StatefulSet) (w1 : W) : Prop :=
  before_plan w w1 ∧ view w1 KStatefulSet !! in_ns cluster (stsName cluster) = Some sts ∧
  desiredReplicas sts = default 0 (CS_Replicas (Spec cluster)).

Lemma before_plan_keep S w w1 w2 : agree_off S w1 w2 → (∀ k nn, S k nn → own_kind k nn ∧ k ≠ KCertificate) →
  before_plan w w1 → before_plan w w2.
Proof.
  intros Hag HS' (Hc & Hi & Hr). split; [|split].
  - etrans; [exact Hc|]. eapply agree_off_mono; [|exact Hag]. by intros k nn [[? _] _]%HS'.
  - eapply issuer_keep; [|exact Hi]. eapply agree_off_mono; [|exact Hag]. by intros k nn [(_ & ? & ?) _]%HS'.
  - intros nn Hn. eapply ready_at_keep; [exact Hag| |by apply Hr]. by intros [_ ?]%HS'.
Qed.

Context (replicas : Z) (Hrep : CS_Replicas (Spec cluster) = Some replicas) (Hmax : 0 ≤ replicas < 2 ^ 31).

Lemma tiers_wanted (w : W) : (∀ t, all_ready (tier cluster t) w) → all_ready (wanted_cert cluster) w.
Proof. intros H nn [Hn|[Hn|Hn]]; [by apply (H 0%nat)|by apply (H 1%nat)|by apply (H 2%nat)]. Qed.

(** A world that is the same but for what reading may have changed. *)
Lemma owned_post_from (w w1 w2 : W) : agree_off nothing w w1 → owned_post cluster 0 w1 false w2 → owned_post cluster 0 w false w2.
Proof.
  intros Hag [Hk (t & Ht & Hlt & Hp & Hn)]. assert (kept (wanted_cert cluster) w w1) as Hk1 by (eapply agree_kept; [exact Hag|by intros nn _ []]).
  split; [by etrans|]. exists t. split_and!; [lia..|done|done|]. intros Ha. apply Hn. by eapply tier_kept.
Qed.

Lemma owned_stage (w : W) : issuer_there cluster w →
  total (agree_off nothing w) (reconcileOwned (ReadFile GetControllerCAPath) ClusterDomain cluster)
    (λ b w2, if b : bool then before_plan w w2 else waits_for w (after 2) w2).
Proof.
  intros Hi w1 Hag. destruct (owned_rounds ClusterDomain cluster replicas Hrep Hmax) with (w := w1) as (b & w2 & Er & Hb).
  { intros w0 e He. pose proof (pa_file GetControllerCAPath ltac:(tauto) w0) as Hok. by rewrite He in Hok. }
  pose proof (owned_own_kind ClusterDomain cluster w1) as Hown. rewrite Er in Hown. cbn in Hown.
  assert (agree_off own_kind w w2) as Hag2 by by eapply agree_nothing_off.
  assert (agree_off (λ k _, k ≠ KCluster) w w2) as Hc by (eapply agree_off_mono; [|exact Hag2]; by intros k nn [? _]).
  exists b, w2. split; [done|]. destruct b.
  - split; [done|]. split.
    + eapply issuer_keep; [|exact Hi]. eapply agree_off_mono; [|exact Hag2]. by intros k nn (_ & ? & ?).
    + apply tiers_wanted. intros t. apply Hb. lia.
  - split; [done|]. left. split; [done|]. by eapply owned_post_from.
Qed.

Lemma workload_stage (w : W) matches : is_ok (buildStatefulSet ClusterDomain cluster matches) = true →
  total (before_plan w) (reconcileStatefulSet ClusterDomain cluster matches) (in_place w).
Proof.
  intros Hb w1 Hw. destruct (returns_run _ w1 (workload_returns ClusterDomain cluster replicas Hrep matches Hb)) as (sts & w2 & Er).
  exists sts, w2. split; [done|]. apply reconcileStatefulSet_Ok in Er as (desired & cm & _ & _ & Hv & (Hr & _) & _ & Hag).
  split; [|split; [exact Hv|by unfold desiredReplicas; rewrite Hr]].
  refine (before_plan_keep (λ k nn, only_at KConfigMap (in_ns cluster (configMapName cluster)) k nn ∨
    only_at KStatefulSet (in_ns cluster (stsName cluster)) k nn) w w1 w2 _ _ Hw).
  - intros k nn Hn. apply Hag; tauto.
  - by intros k nn [[-> _]|[-> _]].
Qed.

Lemma in_place_waits (w : W) sts w1 : in_place w sts w1 → waits_for w (after 1) w1.
Proof. intros ((Hc & _ & Hr) & Hv & Hd). split; [done|]. right. split_and!; [done|done|by exists sts]. Qed.

(** Every reconciliation of a live, workable cluster with the CA of its issuer there ends
    with nothing left to do, or waits. *)
Lemma Reconcile_round plans (w : W) : live w req cluster → workable ClusterDomain R R1 R2 cluster → issuer_there cluster w →
  ∃ plans' w' r, Reconcile ClusterDomain R R1 R2 req (plans, w) = ((plans', w'), Ok r) ∧ (r = done_result ∨ waits_for w r w').
Proof.
  intros Hl [_ (dataMap & calls & plan & HB & Hb & Hm)] Hi.
  destruct (Reconcile_total (E := E) ClusterDomain R R1 R2 (agree_off nothing w) (before_plan w) (in_place w)
    (λ r w', r = done_result ∨ waits_for w r w') cluster) with (req := req) (plans := plans) (w := w) (dataMap := dataMap)
    (calls := calls) (plan := plan) as (plans' & w' & r & Er & Hr); try done; [..|by exists plans', w', r].
  - intros w1 w2 Hag Hw. by etrans.
  - intros w1 w2 Hag. eapply before_plan_keep; [exact Hag|by intros k nn []].
  - intros sts w1 w2 Hag (Hw & Hv & Hd). split; [|split; [|done]].
    + eapply before_plan_keep; [exact Hag| |exact Hw]. by intros k nn ->.
    + refine (keep_off _ _ _ KStatefulSet _ _ Hag _ Hv). done.
  - intros sts w1 Hw _. right. by eapply in_place_waits.
  - eapply total_conseq; [intros w1 Hw; exact Hw| |by apply owned_stage]. intros [] w1 Hw; [done|by right].
  - by apply workload_stage.
  - intros plan' sts pipelines dm Hmatches _. apply (total_conseq (issuer_there cluster) _ _ (λ r _, r = done_result)).
    + by intros w1 [(_ & Hw & _) _].
    + by left.
    + apply configure_total. by rewrite Hmatches.
Qed.

(** ** Between two reconciliations *)

(** What others do meanwhile: cert-manager issues the certificates that are there,
    Kubernetes brings up the pods its StatefulSets ask for, nobody edits the cluster, and
    the CA of its issuer is there.  They may change anything else in any way. *)
Record elsewhere (w w' : W) : Prop := {
  ew_cluster : ∀ nn, view w' KCluster !! nn = view w KCluster !! nn;
  ew_issued : ∀ nn, is_Some (view w KCertificate !! nn) → ready_at w' nn;
  ew_started : ∀ nn (sts : StatefulSet), view w KStatefulSet !! nn = Some sts →
    ∃ sts' : StatefulSet, view w' KStatefulSet !! nn = Some sts' ∧ desiredReplicas sts ≤ podsReady sts';
  ew_issuer : issuer_there cluster w'
}.

(** Within [n] reconciliations, whatever others do between them, one has nothing left to do
    and ends in [D]. *)
Fixpoint within (n : nat) (D : Plans → W → Prop) (plans : Plans) (w : W) : Prop :=
  match n with
  | O => False
  | S n => ∃ plans' w' r, Reconcile ClusterDomain R R1 R2 req (plans, w) = ((plans', w'), Ok r) ∧
      ((r = done_result ∧ D plans' w') ∨ (r ≠ done_result ∧ ∀ w'', elsewhere w' w'' → within n D plans' w''))
  end.

(** The certificates of the first [n] kinds are ready. *)
Definition reached (n : nat) (w : W) : Prop := ∀ t, (t < n)%nat → all_ready (tier cluster t) w.

Lemma elsewhere_live w w' w'' : live w req cluster → agree_off (λ k _, k ≠ KCluster) w w' → elsewhere w' w'' → live w'' req cluster.
Proof.
  intros (Hv & Hd & Hf) Hag He. split; [|done]. rewrite (ew_cluster _ _ He), (Hag KCluster); [done|]. by intros Hn.
Qed.

(** What was waited for has come. *)
Lemma elsewhere_settles w w' : all_ready (wanted_cert cluster) w →
  (∃ sts : StatefulSet, view w KStatefulSet !! in_ns cluster (stsName cluster) = Some sts ∧
    desiredReplicas sts = default 0 (CS_Replicas (Spec cluster))) → elsewhere w w' → settled cluster w'.
Proof.
  intros Hr (sts & Hv & Hd) He. split.
  - intros nn (cert & Hc & _)%Hr. apply (ew_issued _ _ He). by exists cert.
  - destruct (ew_started _ _ He _ _ Hv) as (sts' & Hv' & Hp). exists sts'. split; [done|]. by rewrite <-Hd.
  - apply He.
Qed.

Lemma elsewhere_reaches n w w' w'' : reached n w → owned_post cluster 0 w false w' → elsewhere w' w'' →
  (n < 3)%nat ∧ reached (S n) w''.
Proof.
  intros Hn [_ (t & Ht & Hlt & Hp & Hnot)] He.
  assert (n ≤ t)%nat as Hle by (destruct (decide (n ≤ t)%nat) as [|Hx]; [done|]; destruct Hnot; apply Hn; lia).
  split; [lia|]. intros s Hs nn Hnn. apply (ew_issued _ _ He). destruct (decide (s = t)) as [->|]; [by apply Hp|].
  destruct (Hlt s ltac:(lia) nn Hnn) as (cert & Hv & _). by exists cert.
Qed.

(** Where a reconciliation with nothing left to do ends. *)
Definition ended (plans' : Plans) (w' : W) : Prop :=
  ∃ plans w, live w req cluster ∧ Reconcile ClusterDomain R R1 R2 req (plans, w) = ((plans', w'), Ok done_result).

Lemma waits_not_done w r w' : waits_for w r w' → r ≠ done_result.
Proof. intros [_ [[-> _]|[-> _]]]; discriminate. Qed.

Lemma settled_within n plans (w : W) : live w req cluster → workable ClusterDomain R R1 R2 cluster → settled cluster w →
  within (S n) ended plans w.
Proof.
  intros Hl Hwk Hs. destruct (reconcile_completes_Ok ClusterDomain R R1 R2 req cluster plans w Hl Hwk Hs) as (plans' & w' & Er).
  exists plans', w', done_result. split; [exact Er|]. left. split; [done|]. by exists plans, w.
Qed.

Lemma reached_within k n plans (w : W) : (k + n = 3)%nat → live w req cluster → workable ClusterDomain R R1 R2 cluster →
  issuer_there cluster w → reached n w → within (S (S k)) ended plans w.
Proof.
  intros Hkn Hl Hwk. revert n plans w Hkn Hl. induction k as [|k IH]; intros n plans w Hkn Hl Hi Hn;
    destruct (Reconcile_round plans w Hl Hwk Hi) as (plans' & w' & r & Er & Hr); exists plans', w', r; (split; [exact Er|]);
    (destruct Hr as [->|Hr]; [left; split; [done|by exists plans, w]|]); right;
    (split; [by eapply waits_not_done|]); destruct Hr as [Hag Hr]; intros w'' He;
    pose proof (elsewhere_live _ _ _ Hl Hag He) as Hl2; (destruct Hr as [[_ Ho]|(_ & Hr & Hsts)];
      [destruct (elsewhere_reaches _ _ _ _ Hn Ho He) as [Hlt Hn2]|by eapply settled_within, elsewhere_settles]).
  - lia.
  - apply (IH (S n)); [lia|done|apply He|done].
Qed.

(** Five are enough: three kinds of certificates, the pods, and the last. *)
Lemma within_five plans (w : W) : live w req cluster → workable ClusterDomain R R1 R2 cluster → issuer_there cluster w →
  within 5 ended plans w.
Proof. intros Hl Hwk Hi. apply (reached_within 3 0); [done..|]. intros t Ht. lia. Qed.

Lemma within_mono n (D D' : Plans → W → Prop) plans (w : W) : (∀ plans w, D plans w → D' plans w) → within n D plans w → within n D' plans w.
Proof.
  intros HD. revert plans w. induction n as [|n IH]; intros plans w; [done|]. cbn.
  intros (plans' & w' & r & Er & [[-> H]|[Hr H]]); exists plans', w'; eexists; (split; [exact Er|]); [left; by auto|right].
  split; [done|]. intros w'' He. by apply IH, H.
Qed.
End Rounds.

(** ** Witness *)

Import PodDemo.

Module ConvergenceDemo.
#[local] Existing Instances LifeDemo.pipelines.

(** What others do on the server of the demonstration. *)
Definition others (w : World) : World :=
  let w := srv_put w KCertificate (CertDemo.ready <$> srv_certificates w) (WUpdateStatus KCertificate LifeDemo.req) in
  srv_put w KStatefulSet
    ((λ sts : StatefulSet, MkResource (Meta sts) (Spec sts) {| Sts_ReadyReplicas := desiredReplicas sts |}) <$> srv_statefulsets w)
    (WUpdateStatus KStatefulSet LifeDemo.req).

(** A change of objects that keeps their metadata is seen where they are. *)
Lemma filter_changed {S T} (f : Resource S T → Resource S T) (m : gmap NamespacedName (Resource S T)) nn o : (∀ o, Meta (f o) = Meta o) →
  filter (λ kv, key_of kv.2 = kv.1 ∧ alive (Meta kv.2)) m !! nn = Some o →
  filter (λ kv, key_of kv.2 = kv.1 ∧ alive (Meta kv.2)) (f <$> m) !! nn = Some (f o).
Proof.
  intros Hf [Hm [Hk Ha]]%map_lookup_filter_Some. apply map_lookup_filter_Some. rewrite lookup_fmap, Hm. split; [done|].
  cbn in *. unfold key_of in *. by rewrite Hf.
Qed.

Lemma others_elsewhere cluster (w : World) : issuer_there cluster w → elsewhere cluster w (others w).
Proof.
  intros Hi. split; [done| | |].
  - intros nn [cert Hv]. exists (CertDemo.ready cert). split; [|done]. by apply (filter_changed CertDemo.ready).
  - intros nn sts Hv. eexists. split; [by apply (filter_changed (λ sts : StatefulSet, MkResource (Meta sts) (Spec sts)
      {| Sts_ReadyReplicas := desiredReplicas sts |}))|reflexivity].
  - exact Hi.
Qed.

(** A cluster with TLS on its API, from nothing but its CA: certificates, pods, done. *)
Definition round (s : (Plans * World) * res Result) : (Plans * World) * res Result :=
  LifeDemo.reconcile LifeDemo.req (s.1.1, others s.1.2).

Example three_rounds : let r1 := ProgressDemo.first in let r2 := round r1 in
  (r1.2, r2.2, (round r2).2) = (Ok (after 2), Ok (after 1), Ok done_result).
Proof. vm_compute. reflexivity. Qed.

Lemma live_from_nothing : live ProgressDemo.start LifeDemo.req ProgressDemo.cluster.
Proof. split; [vm_compute; reflexivity|]. split; [reflexivity|left]. Qed.

Lemma issuer_start : issuer_there ProgressDemo.cluster ProgressDemo.start.
Proof.
  intros tls [= <-] _. exists ProgressDemo.issuer, ProgressDemo.secret, "ca-secret", "PEM".
  split_and!; vm_compute; (reflexivity || discriminate).
Qed.
End ConvergenceDemo.
