(* ===== verification/Manager.v ===== *)
(** The set-up of the operator: what each controller watches
    ([SetupWithManager] of [internal/controller/*_controller.go]), which objects a change
    therefore queues for it, and the start of the process ([cmd/main.go]). *)

From S2P Require Import Prelude GoLib Api ClusterClient Resolve Watch Kube Webhooks.
#[local] Open Scope Z_scope.

(** ** Events *)

(** What the controllers watch: the custom resources and what the operator owns. *)
Inductive Watched :=
| Custom (o : Object) | OwnedStatefulSet (o : StatefulSet) | OwnedService (o : Service) | OwnedCertificate (o : Certificate).

Definition meta_of (w : Watched) : ObjectMeta :=
  match w with
  | Custom (OCluster o) => Meta o | Custom (OPipeline o) => Meta o | Custom (OSubscription o) => Meta o
  | Custom (OTarget o) => Meta o | Custom (OTargetProfile o) => Meta o | Custom (OTunnelTargetPolicy o) => Meta o
  | Custom (OOutput o) => Meta o | Custom (OInput o) => Meta o | Custom (OProcessor o) => Meta o
  | Custom (OTargetSource o) => Meta o
  | OwnedStatefulSet o => Meta o | OwnedService o => Meta o | OwnedCertificate o => Meta o
  end.

Definition watched_kind (w : Watched) : string :=
  match w with
  | Custom o => kind_of o
  | OwnedStatefulSet _ => "StatefulSet" | OwnedService _ => "Service" | OwnedCertificate _ => "Certificate"
  end.

Definition watched_key (w : Watched) : NamespacedName :=
  {| NN_Namespace := Namespace (meta_of w); NN_Name := Name (meta_of w) |}.

(** [event.CreateEvent] and the others. *)
Inductive Event :=
| CreateEvent (obj : Watched) | UpdateEvent (objectOld objectNew : Watched)
| DeleteEvent (obj : Watched) | GenericEvent (obj : Watched).

Definition objects_of (ev : Event) : list Watched :=
  match ev with CreateEvent o | DeleteEvent o | GenericEvent o => [o] | UpdateEvent old new => [old; new] end.

Definition event_kind (ev : Event) : string :=
  match ev with CreateEvent o | DeleteEvent o | GenericEvent o | UpdateEvent _ o => watched_kind o end.

(** An update is one of a single object. *)
Definition one_kind (ev : Event) : Prop := ∀ o, o ∈ objects_of ev → watched_kind o = event_kind ev.

(** ** The library *)

(** [controller-runtime]: the predicates and the handlers the controllers are built with,
    and the Cluster an object has as its controller among its owner references. *)
Class ControllerRuntime := {
  GenerationChangedPredicate : Event → bool;
  Funcs : Event → bool;
  EnqueueRequestForObject : Event → list NamespacedName;
  EnqueueRequestForOwner : Event → list NamespacedName;
  EnqueueRequestsFromMapFunc : (Watched → list NamespacedName) → Event → list NamespacedName;
  controllerOwner : Watched → option NamespacedName
}.

Class RuntimeLaws `{C : ControllerRuntime} : Prop := {
  (** The predicate looks at updates only. *)
  rt_generation ev : GenerationChangedPredicate ev =
    match ev with UpdateEvent old new => bool_decide (Generation (meta_of old) ≠ Generation (meta_of new)) | _ => true end;
  (** A function that is not set lets everything pass. *)
  rt_funcs ev : Funcs ev = true;
  (** Both objects of an update are looked at. *)
  rt_object ev r : r ∈ EnqueueRequestForObject ev ↔ ∃ o, o ∈ objects_of ev ∧ r = watched_key o;
  rt_owner ev r : r ∈ EnqueueRequestForOwner ev ↔ ∃ o, o ∈ objects_of ev ∧ controllerOwner o = Some r;
  rt_map f ev r : r ∈ EnqueueRequestsFromMapFunc f ev ↔ ∃ o, o ∈ objects_of ev ∧ r ∈ f o
}.

(** ** Operations *)

(** One call of the builder: the kind, the handler and the predicates. *)
Record WatchSpec := {
  WS_Kind : string;
  WS_Handler : Event → list NamespacedName;
  WS_Predicates : list (Event → bool)
}.

Record Controller := { Ctl_Filter : list (Event → bool); Ctl_Watches : list WatchSpec }.

Section Controllers.
Context `{C : ControllerRuntime} `{R : GoRuntime} `{Sel : Selectors}
  `{Rp : Reader PipelineSpec PipelineStatus} `{Rt : Reader TargetSpec TargetStatus}.

Definition For (kind : string) (ps : list (Event → bool)) : WatchSpec :=
  {| WS_Kind := kind; WS_Handler := EnqueueRequestForObject; WS_Predicates := ps |}.
Definition Owns (kind : string) (ps : list (Event → bool)) : WatchSpec :=
  {| WS_Kind := kind; WS_Handler := EnqueueRequestForOwner; WS_Predicates := ps |}.
Definition Watches (kind : string) (f : Watched → list NamespacedName) (ps : list (Event → bool)) : WatchSpec :=
  {| WS_Kind := kind; WS_Handler := EnqueueRequestsFromMapFunc f; WS_Predicates := ps |}.

(** [generationOrLabelsChangedPredicate], which embeds [predicate.Funcs]. *)
Definition specOrLabelsPredicate (ev : Event) : bool :=
  match ev with
  | UpdateEvent old new => generationOrLabelsChanged (Some (meta_of old)) (Some (meta_of new))
  | _ => Funcs ev
  end.

(** The type assertion each mapping function starts with. *)
Definition typed {A} (select : Object → option A) (f : A → list NamespacedName) (w : Watched) : list NamespacedName :=
  match w with
  | Custom o => match select o with Some a => f a | None => [] end
  | _ => []
  end.

Definition ClusterController : Controller := {|
  Ctl_Filter := [];
  Ctl_Watches :=
    [For "Cluster" [GenerationChangedPredicate];
     Owns "StatefulSet" [];
     Owns "Service" [GenerationChangedPredicate];
     Owns "Certificate" [];
     Watches "Pipeline" (typed as_Pipeline findClusterForPipeline) [GenerationChangedPredicate];
     Watches "Target" (typed as_Target findClustersForTarget) [specOrLabelsPredicate];
     Watches "Subscription" (typed as_Subscription findClustersForSubscription) [specOrLabelsPredicate];
     Watches "Output" (typed as_Output findClustersForOutput) [specOrLabelsPredicate];
     Watches "Input" (typed as_Input findClustersForInput) [specOrLabelsPredicate];
     Watches "Processor" (typed as_Processor findClustersForProcessor) [specOrLabelsPredicate];
     Watches "TargetProfile" (typed as_TargetProfile findClustersForTargetProfile) [GenerationChangedPredicate];
     Watches "TunnelTargetPolicy" (typed as_TunnelTargetPolicy findClustersForTunnelTargetPolicy) [specOrLabelsPredicate]] |}.

Definition PipelineController : Controller := {| Ctl_Filter := []; Ctl_Watches := [For "Pipeline" []] |}.

Definition TargetSourceController : Controller :=
  {| Ctl_Filter := []; Ctl_Watches := [For "TargetSource" [GenerationChangedPredicate]] |}.

Definition TargetStateController : Controller :=
  {| Ctl_Filter := [GenerationChangedPredicate]; Ctl_Watches := [For "Cluster" []] |}.

Definition TunnelTargetPolicyController : Controller :=
  {| Ctl_Filter := []; Ctl_Watches := [For "TunnelTargetPolicy" []] |}.

(** The requests an event puts into the queue of a controller. *)
Definition requests (c : Controller) (ev : Event) : list NamespacedName :=
  Ctl_Watches c ≫= λ w,
    if (WS_Kind w =? event_kind ev)%string && forallb (λ p, p ev) (Ctl_Filter c ++ WS_Predicates w)
    then WS_Handler w ev else [].
End Controllers.

(** [Reconcile] of the tunnel target policy controller. *)
Definition TunnelTargetPolicyReconcile {W} (req : NamespacedName) (w : W) : W * res unit := (w, Ok tt).

(** ** Specification *)

(** The table "Watches and Triggers" of [docs/content/docs/concepts/architecture.md]. *)
Inductive Trigger := AnyChange | SpecChange | SpecOrLabelChange.

Definition documented (kind : string) : option Trigger :=
  if decide (kind ∈ ["StatefulSet"; "Certificate"]) then Some AnyChange
  else if decide (kind ∈ ["Cluster"; "Service"; "Pipeline"; "TargetProfile"]) then Some SpecChange
  else if decide (kind ∈ ["Target"; "TunnelTargetPolicy"; "Subscription"; "Output"; "Input"; "Processor"])
  then Some SpecOrLabelChange
  else None.

(** Creations and deletions count as changes of everything. *)
Definition triggered (t : Trigger) (ev : Event) : Prop :=
  match ev, t with
  | UpdateEvent old new, SpecChange => Generation (meta_of old) ≠ Generation (meta_of new)
  | UpdateEvent old new, SpecOrLabelChange =>
      Generation (meta_of old) ≠ Generation (meta_of new) ∨ Labels (meta_of old) ≠ Labels (meta_of new)
  | _, _ => True
  end.

Section Spec.
Context `{C : ControllerRuntime} `{Sel : Selectors} `{Dp : Stored PipelineSpec PipelineStatus}
  `{Dt : Stored TargetSpec TargetStatus} `{Dn : Stored TunnelTargetPolicySpec unit}.

(** An enabled pipeline of the cluster [r] references or selects an object with metadata [m]. *)
Definition asked (wants : Pipeline → list string * list LabelSelector) (m : ObjectMeta) (r : NamespacedName) : Prop :=
  ∃ p : Pipeline, object_of (Namespace m) p ∧ PL_Enabled (Spec p) = true ∧
    (Name m ∈ (wants p).1 ∨ selected (wants p).2 (Labels m)) ∧
    r = {| NN_Namespace := Namespace m; NN_Name := PL_ClusterRef (Spec p) |}.

Definition asks_target (p : Pipeline) := (PL_TargetRefs (Spec p), PL_TargetSelectors (Spec p)).
Definition asks_policy (p : Pipeline) := (PL_TunnelTargetPolicyRefs (Spec p), PL_TunnelTargetPolicySelectors (Spec p)).

(** The profile is that of a target, or of a tunnel target policy, which a pipeline of the
    cluster asks for. *)
Definition through_target (o : TargetProfile) (r : NamespacedName) : Prop :=
  ∃ t : Target, object_of (Namespace (Meta o)) t ∧ Target_Profile (Spec t) = Name (Meta o) ∧ asked asks_target (Meta t) r.
Definition through_policy (o : TargetProfile) (r : NamespacedName) : Prop :=
  ∃ t : TunnelTargetPolicy, object_of (Namespace (Meta o)) t ∧ TTP_Profile (Spec t) = Name (Meta o) ∧ asked asks_policy (Meta t) r.

(** The clusters whose plan or workload depends on an object. *)
Definition concerns (w : Watched) (r : NamespacedName) : Prop :=
  match w with
  | OwnedStatefulSet _ | OwnedService _ | OwnedCertificate _ => controllerOwner w = Some r
  | Custom (OCluster o) => r = key_of o
  | Custom (OPipeline o) => PL_ClusterRef (Spec o) ≠ "" ∧
      r = {| NN_Namespace := Namespace (Meta o); NN_Name := PL_ClusterRef (Spec o) |}
  | Custom (OTarget o) => asked asks_target (Meta o) r
  | Custom (OSubscription o) => asked (λ p, (PL_SubscriptionRefs (Spec p), PL_SubscriptionSelectors (Spec p))) (Meta o) r
  | Custom (OOutput o) =>
      asked (λ p, (OutSel_OutputRefs (PL_Outputs (Spec p)), OutSel_OutputSelectors (PL_Outputs (Spec p)))) (Meta o) r
  | Custom (OInput o) =>
      asked (λ p, (InSel_InputRefs (PL_Inputs (Spec p)), InSel_InputSelectors (PL_Inputs (Spec p)))) (Meta o) r
  | Custom (OProcessor o) =>
      asked (λ p, (OutSel_ProcessorRefs (PL_Outputs (Spec p)), OutSel_ProcessorSelectors (PL_Outputs (Spec p)))) (Meta o) r ∨
      asked (λ p, (InSel_ProcessorRefs (PL_Inputs (Spec p)), InSel_ProcessorSelectors (PL_Inputs (Spec p)))) (Meta o) r
  | Custom (OTunnelTargetPolicy o) =>
      asked asks_policy (Meta o) r
  | Custom (OTargetProfile o) => through_target o r ∨ through_policy o r
  | Custom (OTargetSource _) => False
  end.

(** What ties the object to the cluster is tunnel target policies alone. *)
Definition only_through_policies (w : Watched) (r : NamespacedName) : Prop :=
  ∃ o, w = Custom (OTargetProfile o) ∧ through_policy o r ∧ ¬ through_target o r.

(** What the controller looks for. *)
Definition traced (w : Watched) (r : NamespacedName) : Prop :=
  match w with Custom (OTargetProfile o) => through_target o r | _ => concerns w r end.
End Spec.

(** ** Lemmas *)

Section ManagerLemmas.
Context `{LC : RuntimeLaws} `{R : GoRuntime} `{Sel : Selectors}
  `{Lp : ReaderLaws PipelineSpec PipelineStatus} `{Lt : ReaderLaws TargetSpec TargetStatus}
  `{Dn : Stored TunnelTargetPolicySpec unit}.

Lemma generation_triggered ev : GenerationChangedPredicate ev = true ↔ triggered SpecChange ev.
Proof. rewrite rt_generation. destruct ev; cbn; [done|apply bool_decide_eq_true|done..]. Qed.

Lemma specOrLabels_triggered ev : specOrLabelsPredicate ev = true ↔ triggered SpecOrLabelChange ev.
Proof.
  destruct ev; cbn [specOrLabelsPredicate triggered]; rewrite ?rt_funcs; [done| |done..].
  cbn. by rewrite orb_true_iff, negb_true_iff, bool_decide_eq_true, bool_decide_eq_false.
Qed.

Lemma forallb_accepts {A} (ps : list (A → bool)) a : forallb (λ p, p a) ps = true ↔ Forall (λ p, p a = true) ps.
Proof. by rewrite forallb_forall, List.Forall_forall. Qed.

(** A controller with one watch for each kind looks at that watch only. *)
Lemma elem_of_requests c w ev r :
  NoDup (WS_Kind <$> Ctl_Watches c) → w ∈ Ctl_Watches c → WS_Kind w = event_kind ev →
  r ∈ requests c ev ↔ Forall (λ p, p ev = true) (Ctl_Filter c ++ WS_Predicates w) ∧ r ∈ WS_Handler w ev.
Proof.
  intros Hnd Hw Hk. unfold requests. rewrite list_elem_of_bind, <-forallb_accepts. split.
  - intros (w' & Hr & Hw'). destruct ((WS_Kind w' =? event_kind ev)%string && _) eqn:E; [|by apply elem_of_nil in Hr].
    apply andb_true_iff in E as [Hk'%String.eqb_eq Hp].
    assert (w' = w) as ->; [|done]. eapply (NoDup_fmap_key WS_Kind); [exact Hnd|done..|congruence].
  - intros [Hp Hr]. exists w. split; [|done]. by rewrite Hk, String.eqb_refl, Hp.
Qed.

Lemma no_requests c ev : event_kind ev ∉ (WS_Kind <$> Ctl_Watches c) → requests c ev = [].
Proof.
  intros Hk. apply elem_of_nil_inv. intros r (w & Hr & Hw)%list_elem_of_bind.
  destruct (WS_Kind w =? event_kind ev)%string eqn:E; [|by apply elem_of_nil in Hr].
  apply String.eqb_eq in E. apply Hk. rewrite <-E. by apply list_elem_of_fmap_2.
Qed.

(** What is found for a resource is what asks for it. *)
Lemma elem_of_find_asked {S T} ty wants (o : Resource S T) r :
  is_ok (rd_list (S:=PipelineSpec) (T:=PipelineStatus) (Namespace (Meta o)) everything) = true →
  (∀ p, referencesOf p ty = Some (wants p)) →
  r ∈ find ty o ↔ asked wants (Meta o) r.
Proof.
  intros Hok Hw. rewrite elem_of_find by done. unfold asked.
  split; intros (p & H1 & H2 & H3 & ->); exists p; (split_and!; [done|done| |done]);
    specialize (Hw p); destruct (wants p) as [refs sels]; by eapply references_spec.
Qed.

Definition readable (ev : Event) : Prop := ∀ o, o ∈ objects_of ev →
  is_ok (rd_list (S:=PipelineSpec) (T:=PipelineStatus) (Namespace (meta_of o)) everything) = true ∧
  is_ok (rd_list (S:=TargetSpec) (T:=TargetStatus) (Namespace (meta_of o)) everything) = true.

Lemma cluster_kinds : NoDup (WS_Kind <$> Ctl_Watches ClusterController).
Proof. cbn. apply (bool_decide_unpack _). vm_compute. exact I. Qed.

Definition requeued (ev : Event) (r : NamespacedName) : Prop :=
  ∃ t, documented (event_kind ev) = Some t ∧ triggered t ev ∧ ∃ o, o ∈ objects_of ev ∧ traced o r.

(** One watch at a time. *)
Lemma watch_requeues w t (P : Watched → NamespacedName → Prop) ev r :
  w ∈ Ctl_Watches ClusterController → WS_Kind w = event_kind ev → documented (event_kind ev) = Some t →
  (Forall (λ p, p ev = true) (WS_Predicates w) ↔ triggered t ev) →
  (r ∈ WS_Handler w ev ↔ ∃ o, o ∈ objects_of ev ∧ P o r) →
  (∀ o, o ∈ objects_of ev → P o r ↔ traced o r) →
  r ∈ requests ClusterController ev ↔ requeued ev r.
Proof.
  intros Hw Hk Ht Hp Hh HP. rewrite (elem_of_requests _ w) by (done || apply cluster_kinds).
  cbn [Ctl_Filter ClusterController app]. rewrite Hp, Hh. unfold requeued. rewrite Ht. split.
  - intros (H1 & o & Ho & H2). exists t. split_and!; [done..|]. exists o. split; [done|]. by apply HP.
  - intros (t' & [= <-] & H1 & o & Ho & H2). split; [done|]. exists o. split; [done|]. by apply HP.
Qed.

Lemma subject ev : ∃ o, o ∈ objects_of ev ∧ event_kind ev = watched_kind o.
Proof. destruct ev as [o|old o|o|o]; exists o; (split; [cbn; set_solver|done]). Qed.
End ManagerLemmas.

(** ** Theorems *)

Section Theorems.
Context `{LC : RuntimeLaws} `{R : GoRuntime} `{Sel : Selectors}
  `{Lp : ReaderLaws PipelineSpec PipelineStatus} `{Lt : ReaderLaws TargetSpec TargetStatus}
  `{Dn : Stored TunnelTargetPolicySpec unit}.

Lemma concerns_processor (o : Processor) r :
  is_ok (rd_list (S:=PipelineSpec) (T:=PipelineStatus) (Namespace (Meta o)) everything) = true →
  r ∈ findClustersForProcessor o ↔ concerns (Custom (OProcessor o)) r.
Proof.
  intros Hok. rewrite (proj2 (elem_of_findProcessor o r)). cbn [concerns].
  by rewrite (elem_of_find_asked "output-processor" _ o r Hok (λ _, eq_refl)),
    (elem_of_find_asked "input-processor" _ o r Hok (λ _, eq_refl)).
Qed.

Lemma concerns_profile (o : TargetProfile) r :
  is_ok (rd_list (S:=PipelineSpec) (T:=PipelineStatus) (Namespace (Meta o)) everything) = true →
  is_ok (rd_list (S:=TargetSpec) (T:=TargetStatus) (Namespace (Meta o)) everything) = true →
  r ∈ findClustersForTargetProfile o ↔ through_target o r.
Proof.
  intros Hok [l Hl]%is_ok_spec. rewrite (proj2 (elem_of_findProfile o r l Hl)). pose proof (rd_list_spec _ _ _ Hl) as G.
  split.
  - intros (t & Ht & Hp & Hr). apply G in Ht as (Ht & Hns & _). exists t. split_and!; [by split|done|].
    apply (elem_of_find_asked "target"); [by rewrite Hns|done|done].
  - intros (t & [Ht Hns] & Hp & Hr). exists t. split_and!; [by apply G|done|].
    apply (elem_of_find_asked "target") in Hr; [done|by rewrite Hns|done].
Qed.

Lemma all_triggered (p : Event → bool) t ev : (p ev = true ↔ triggered t ev) → Forall (λ q, q ev = true) [p] ↔ triggered t ev.
Proof. intros <-. rewrite Forall_singleton. done. Qed.

Lemma any_change ev : triggered AnyChange ev.
Proof. by destruct ev. Qed.

(** A watch with a mapping function of the resources of a kind. *)
Lemma mapped_requeues {A} kind (select : Object → option A) (inject : A → Object) f p t ev r :
  Watches kind (typed select f) [p] ∈ Ctl_Watches ClusterController → kind = event_kind ev →
  documented (event_kind ev) = Some t → (p ev = true ↔ triggered t ev) →
  (∀ o, o ∈ objects_of ev → ∃ a, o = Custom (inject a) ∧ select (inject a) = Some a ∧
    (r ∈ f a ↔ traced (Custom (inject a)) r)) →
  r ∈ requests ClusterController ev ↔ requeued ev r.
Proof.
  intros Hw Hk Ht Hp Ho.
  apply (watch_requeues (Watches kind (typed select f) [p]) t (λ o r, r ∈ typed select f o)); [done..| | |].
  - by apply all_triggered.
  - apply rt_map.
  - intros o (a & -> & Hs & Ha)%Ho. cbn [typed]. by rewrite Hs.
Qed.

(** The objects of an event on a kind, with the lists their namespaces give. *)
Ltac each_object H1 Hk Hr :=
  let o := fresh "o" in let Ho := fresh "Ho" in let K := fresh "K" in let Hlp := fresh "Hlp" in let Hlt := fresh "Hlt" in
  intros o Ho; pose proof (H1 o Ho) as K; rewrite Hk in K; destruct (Hr o Ho) as [Hlp Hlt];
  destruct o as [[]|?|?|?]; try discriminate K; clear K; cbn in Hlp, Hlt.

Ltac in_list := first [apply list_elem_of_here | apply list_elem_of_further; in_list].

Ltac mapped H1 Hk Hr select inject f p t :=
  eapply (mapped_requeues _ select inject f p t);
    [cbn [ClusterController Ctl_Watches]; in_list|by rewrite Hk|by rewrite Hk
    |apply generation_triggered || apply specOrLabels_triggered
    |each_object H1 Hk Hr; eexists; split; [reflexivity|]; split; [reflexivity|]; try by apply elem_of_find_asked].

Ltac owned H1 Hk Hr kind ps t :=
  eapply (watch_requeues (Owns kind ps) t (λ o r, controllerOwner o = Some r));
    [cbn [ClusterController Ctl_Watches]; in_list|by rewrite Hk|by rewrite Hk| |apply rt_owner|each_object H1 Hk Hr; done].

Lemma changes_requeue_Ok ev r : one_kind ev → readable ev → r ∈ requests ClusterController ev ↔ requeued ev r.
Proof.
  intros H1 Hr. destruct (subject ev) as (o & Ho & Hk).
  destruct o as [o|o|o|o]; [destruct o|..]; cbn in Hk.
  - eapply (watch_requeues (For "Cluster" [GenerationChangedPredicate]) SpecChange (λ o r, r = watched_key o));
      [cbn [ClusterController Ctl_Watches]; in_list|by rewrite Hk|by rewrite Hk|apply all_triggered, generation_triggered|apply rt_object|].
    each_object H1 Hk Hr. done.
  - mapped H1 Hk Hr as_Pipeline OPipeline findClusterForPipeline GenerationChangedPredicate SpecChange.
    cbn [traced concerns]. unfold findClusterForPipeline. case_bool_decide; [set_solver|]. by rewrite list_elem_of_singleton; naive_solver.
  - mapped H1 Hk Hr as_Subscription OSubscription findClustersForSubscription specOrLabelsPredicate SpecOrLabelChange.
  - mapped H1 Hk Hr as_Target OTarget findClustersForTarget specOrLabelsPredicate SpecOrLabelChange.
  - mapped H1 Hk Hr as_TargetProfile OTargetProfile findClustersForTargetProfile GenerationChangedPredicate SpecChange.
    by apply concerns_profile.
  - mapped H1 Hk Hr as_TunnelTargetPolicy OTunnelTargetPolicy findClustersForTunnelTargetPolicy specOrLabelsPredicate SpecOrLabelChange.
  - mapped H1 Hk Hr as_Output OOutput findClustersForOutput specOrLabelsPredicate SpecOrLabelChange.
  - mapped H1 Hk Hr as_Input OInput findClustersForInput specOrLabelsPredicate SpecOrLabelChange.
  - mapped H1 Hk Hr as_Processor OProcessor findClustersForProcessor specOrLabelsPredicate SpecOrLabelChange.
    by apply concerns_processor.
  - rewrite no_requests by (rewrite Hk; vm_compute; intros Hin; repeat (apply elem_of_cons in Hin as [?|Hin]; [done|]); by apply elem_of_nil in Hin).
    unfold requeued. rewrite Hk. split; [by intros ?%elem_of_nil|by intros (t & ? & _)].
  - owned H1 Hk Hr "StatefulSet" (@nil (Event → bool)) AnyChange. rewrite Forall_nil. pose proof (any_change ev). tauto.
  - owned H1 Hk Hr "Service" [GenerationChangedPredicate] SpecChange. apply all_triggered, generation_triggered.
  - owned H1 Hk Hr "Certificate" (@nil (Event → bool)) AnyChange. rewrite Forall_nil. pose proof (any_change ev). tauto.
Qed.

(** C16: the cluster controller looks again when it has to, but for one case.  When the
    lists of the pipelines and the targets of the namespace succeed (a list that fails
    loses the change): a change queues a cluster only if it is of the kind and of the sort
    the documentation's table of watches names (any change, a change of the specification,
    or one of it or of the labels) and the object, as it was or as it is now, is that
    cluster, is owned by it, or is asked for by one of its enabled pipelines: referenced by
    name, selected by its labels, or a profile of a target or a tunnel target policy so
    chosen.  And every such change queues the cluster, unless the object is a profile that
    is used through tunnel target policies only: that change the controller misses. *)
Theorem changes_requeue ev r :
  one_kind ev → readable ev →
  (r ∈ requests ClusterController ev →
     ∃ t, documented (event_kind ev) = Some t ∧ triggered t ev ∧ ∃ o, o ∈ objects_of ev ∧ concerns o r) ∧
  (∀ t o, documented (event_kind ev) = Some t → triggered t ev → o ∈ objects_of ev → concerns o r →
     r ∈ requests ClusterController ev ∨ only_through_policies o r) ∧
  ((∀ o, o ∈ objects_of ev → only_through_policies o r) → r ∉ requests ClusterController ev).
Proof.
  intros H1 Hr. pose proof (changes_requeue_Ok ev r H1 Hr) as H. split; [|split].
  - intros (t & Ht & Htr & o & Ho & Hc)%H. exists t. split; [done|]. split; [done|]. exists o. split; [done|].
    destruct o as [[]| | |]; try done. by left.
  - intros t o Ht Htr Ho Hc. destruct (decide (r ∈ requests ClusterController ev)) as [|Hn]; [by left|right].
    assert (¬ traced o r) as Htc by (intros Hx; apply Hn, H; exists t; split; [done|]; split; [done|]; by exists o).
    destruct o as [[o|o|o|o|o|o|o|o|o|o]| | |]; try (by destruct Htc). destruct Hc as [?|Hc]; [by destruct Htc|]. by exists o.
  - intros Ho (t & _ & _ & o & Hin & Hc)%H. destruct (Ho o Hin) as (p & -> & _ & Hn). by apply Hn.
Qed.

(** A target that gains or loses the labels a pipeline selects reconciles its cluster. *)
Theorem relabelled_target_requeues (old new : Target) p :
  Labels (Meta old) ≠ Labels (Meta new) →
  readable (UpdateEvent (Custom (OTarget old)) (Custom (OTarget new))) →
  PL_Enabled (Spec p) = true →
  (∃ t, (t = old ∨ t = new) ∧ object_of (Namespace (Meta t)) p ∧ selected (PL_TargetSelectors (Spec p)) (Labels (Meta t))) →
  {| NN_Namespace := Namespace (Meta p); NN_Name := PL_ClusterRef (Spec p) |} ∈
    requests ClusterController (UpdateEvent (Custom (OTarget old)) (Custom (OTarget new))).
Proof.
  intros Hl Hr He (t & Ht & Hp & Hs). apply changes_requeue_Ok; [|done|].
  { intros o Ho. cbn in Ho. rewrite !elem_of_cons in Ho. by destruct Ho as [->|[->|H%elem_of_nil]]. }
  exists SpecOrLabelChange. split; [done|]. split; [by right|]. exists (Custom (OTarget t)). split.
  - cbn. rewrite !elem_of_cons. destruct Ht as [-> | ->]; tauto.
  - exists p. split_and!; [done|done|by right|]. by destruct Hp as [_ ->].
Qed.

(** A write of the status: neither the specification, whose every change is a new
    generation, nor the labels. *)
Definition status_write (old new : Watched) : Prop :=
  watched_kind old = watched_kind new ∧ Generation (meta_of old) = Generation (meta_of new) ∧
  Labels (meta_of old) = Labels (meta_of new).

Lemma all_rejected c ev :
  Forall (λ w, WS_Kind w = event_kind ev → ¬ Forall (λ p, p ev = true) (Ctl_Filter c ++ WS_Predicates w)) (Ctl_Watches c) →
  requests c ev = [].
Proof.
  intros H. apply elem_of_nil_inv. intros r (w & Hr & Hw)%list_elem_of_bind. rewrite Forall_forall in H.
  destruct ((WS_Kind w =? event_kind ev)%string && _) eqn:E; [|by apply elem_of_nil in Hr].
  apply andb_true_iff in E as [Hk%String.eqb_eq Hp%forallb_accepts]. by eapply H.
Qed.

(** The one watch of a controller on its own kind, with no predicate. *)
Lemma unfiltered_watch c kind ev r :
  Ctl_Filter c = [] → Ctl_Watches c = [For kind []] →
  r ∈ requests c ev ↔ event_kind ev = kind ∧ ∃ o, o ∈ objects_of ev ∧ r = watched_key o.
Proof.
  intros Hf Hw. destruct (decide (event_kind ev = kind)) as [E|E].
  - rewrite (elem_of_requests c (For kind [])); rewrite ?Hw; [|apply NoDup_singleton|by left|done].
    rewrite Hf. cbn [app For WS_Predicates WS_Handler]. rewrite Forall_nil, rt_object. tauto.
  - rewrite no_requests by (rewrite Hw; by intros H%list_elem_of_singleton). split; [by intros ?%elem_of_nil|by intros [? _]].
Qed.

Lemma elem_of_update old new (P : Watched → Prop) :
  (∃ o, o ∈ objects_of (UpdateEvent old new) ∧ P o) ↔ P old ∨ P new.
Proof. cbn. setoid_rewrite elem_of_cons. setoid_rewrite list_elem_of_singleton. naive_solver. Qed.

(** C17: what an update sets off that writes a status alone, leaving the specification and
    the labels as they are.  One of a StatefulSet or a Certificate queues the cluster that
    owns it, and no other cluster is ever queued by one: in particular not by the
    statuses of clusters, pipelines and targets, which the operator writes itself.
    Nothing is queued for the target source and target state controllers.  The pipeline
    controller and the tunnel target policy controller, which are built without a
    predicate, are queued by every status of their own kind, that of a pipeline by the
    cluster controller and by the pipeline controller themselves included. *)
Theorem status_writes_requeue old new r :
  status_write old new →
  let ev := UpdateEvent old new in
  (r ∈ requests ClusterController ev ↔
     (watched_kind new = "StatefulSet" ∨ watched_kind new = "Certificate") ∧
     (controllerOwner old = Some r ∨ controllerOwner new = Some r)) ∧
  r ∉ requests TargetSourceController ev ∧ r ∉ requests TargetStateController ev ∧
  (r ∈ requests PipelineController ev ↔ watched_kind new = "Pipeline" ∧ (r = watched_key old ∨ r = watched_key new)) ∧
  (r ∈ requests TunnelTargetPolicyController ev ↔
     watched_kind new = "TunnelTargetPolicy" ∧ (r = watched_key old ∨ r = watched_key new)).
Proof.
  intros (Hk & Hg & Hl) ev.
  assert (GenerationChangedPredicate ev ≠ true) as Hp.
  { intros H%generation_triggered. by apply H. }
  assert (specOrLabelsPredicate ev ≠ true) as Hs.
  { by intros [H|H]%specOrLabels_triggered. }
  subst ev. split; [|split; [|split; [|split]]].
  - destruct (decide (watched_kind new = "StatefulSet" ∨ watched_kind new = "Certificate")) as [E|E].
    + rewrite (elem_of_requests ClusterController (Owns (watched_kind new) [])); [|apply cluster_kinds| |done].
      * cbn [ClusterController Ctl_Filter Owns WS_Predicates WS_Handler app]. rewrite Forall_nil, rt_owner, elem_of_update. tauto.
      * destruct E as [-> | ->]; cbn [ClusterController Ctl_Watches]; in_list.
    + rewrite all_rejected; [split; [by intros ?%elem_of_nil|tauto]|].
      repeat constructor; cbn [WS_Kind WS_Predicates Ctl_Filter app For Owns Watches ClusterController event_kind];
        intros Ek; try (exfalso; apply E; rewrite <- Ek; tauto); intros F; inversion F; by subst.
  - rewrite all_rejected; [by intros ?%elem_of_nil|]. repeat constructor. intros _ F. inversion F. by subst.
  - rewrite all_rejected; [by intros ?%elem_of_nil|]. repeat constructor. intros _ F. inversion F. by subst.
  - by rewrite (unfiltered_watch PipelineController "Pipeline"), elem_of_update.
  - by rewrite (unfiltered_watch TunnelTargetPolicyController "TunnelTargetPolicy"), elem_of_update.
Qed.
End Theorems.

(** ** The start of the process *)

(** The flags of [main]. *)
Record Flags := {
  apiAddr : string;
  devMode : bool;
  metricsAddr : string;
  probeAddr : string;
  enableLeaderElection : bool;
  discoveryChunkSize : Z;
  discoveryBufferSize : Z
}.

Definition default_flags : Flags := {|
  apiAddr := ""; devMode := false; metricsAddr := ":8080"; probeAddr := ":8081"; enableLeaderElection := false;
  discoveryChunkSize := 100; discoveryBufferSize := 10 |}.

(** [zap.Options] are built before [flag.Parse]. *)
Definition zapDevelopment (parsed : Flags) : bool := devMode default_flags.

Record ManagerOptions := { Mgr_Metrics : string; Mgr_Probe : string; Mgr_LeaderElection : bool; Mgr_LeaderElectionID : string }.

Definition managerOptions (f : Flags) : ManagerOptions := {|
  Mgr_Metrics := metricsAddr f; Mgr_Probe := probeAddr f; Mgr_LeaderElection := enableLeaderElection f;
  Mgr_LeaderElectionID := "47942d33.gnmic.dev" |}.

(** What [main] asks of the manager; each may fail. *)
Inductive SetupStep :=
| NewManager (opts : ManagerOptions)
| AddController (name : string)
| AddDiscoveryController (bufferSize chunkSize : Z)
| AddWebhook (kind : string)
| AddHealthzCheck | AddReadyzCheck
| AddAPIServer (addr : string)
| StartManager.

Definition setupWebhook (enable kind : string) : list SetupStep :=
  if bool_decide (enable ≠ "false") then [AddWebhook kind] else [].

Definition main_steps (f : Flags) (enable : string) : list SetupStep :=
  [NewManager (managerOptions f); AddController "Cluster"; AddController "Pipeline";
   AddDiscoveryController (discoveryBufferSize f) (discoveryChunkSize f)] ++
  mjoin (setupWebhook enable <$>
    ["TargetSource"; "Cluster"; "Pipeline"; "Subscription"; "Target"; "Output"; "Input"; "Processor"; "TargetProfile"]) ++
  [AddController "TargetState"; AddController "TunnelTargetPolicy"] ++
  setupWebhook enable "TunnelTargetPolicy" ++
  [AddHealthzCheck; AddReadyzCheck] ++
  (if bool_decide (apiAddr f ≠ "") then [AddAPIServer (apiAddr f)] else []) ++
  [StartManager].

(** The steps taken, and the exit code: [os.Exit(1)] at the first that fails. *)
Fixpoint execute (fails : SetupStep → bool) (steps : list SetupStep) : list SetupStep * Z :=
  match steps with
  | [] => ([], 0)
  | s :: steps =>
      if fails s then ([s], 1) else let '(taken, code) := execute fails steps in (s :: taken, code)
  end.

Definition main (fails : SetupStep → bool) (f : Flags) (enable : string) : list SetupStep * Z :=
  execute fails (main_steps f enable).

Lemma execute_prefix fails steps : ∃ rest, steps = (execute fails steps).1 ++ rest.
Proof.
  induction steps as [|s steps [rest IH]]; cbn; [by exists []|].
  destruct (fails s); [by exists steps|]. destruct (execute fails steps) as [taken code]. cbn in *.
  exists rest. by rewrite IH at 1.
Qed.

Lemma execute_exact fails steps :
  ((execute fails steps).2 = 0 ∧ (execute fails steps).1 = steps ∧ Forall (λ s, fails s = false) steps) ∨
  ∃ before s, execute fails steps = (before ++ [s], 1) ∧ fails s = true ∧ Forall (λ s, fails s = false) before.
Proof.
  induction steps as [|s steps IH]; cbn; [by left|]. destruct (fails s) eqn:E; [by right; exists [], s|].
  destruct (execute fails steps) as [taken code]. cbn in *. destruct IH as [(-> & -> & H)|(b & s' & [= -> ->] & Hs & Hb)].
  - left. split_and!; [done..|]. by constructor.
  - right. exists (s :: b), s'. split_and!; [done..|]. by constructor.
Qed.

Definition webhook_of (s : SetupStep) : option string := match s with AddWebhook k => Some k | _ => None end.

Lemma main_split {Re : Regexp} f enable : ∃ steps, main_steps f enable = steps ++ [StartManager] ∧
  (StartManager ∉ steps) ∧ omap webhook_of steps = WH_For <$> setupWebhooks enable.
Proof.
  unfold main_steps. rewrite !app_assoc. eexists. split; [reflexivity|].
  unfold setupWebhooks, setupWebhook. case_bool_decide; case_bool_decide; cbn; (split; [|reflexivity]);
    intros Hin; repeat (apply elem_of_cons in Hin as [?|Hin]; [done|]); by apply elem_of_nil in Hin.
Qed.

(** The manager runs only once everything is registered: if it is started at all then
    every other step was taken before and succeeded, the webhooks registered are those of
    the admission of requests, all or none by ENABLE_WEBHOOKS, and the process ends with 0
    only if no step failed. *)
Theorem main_registers_first {Re : Regexp} fails f enable :
  StartManager ∈ (main fails f enable).1 →
  ∃ steps, main_steps f enable = steps ++ [StartManager] ∧ Forall (λ s, fails s = false) steps ∧
    omap webhook_of steps = WH_For <$> setupWebhooks enable ∧
    (main fails f enable).1 = main_steps f enable ∧ ((main fails f enable).2 = 0 ↔ fails StartManager = false).
Proof.
  unfold main. destruct (main_split (Re := Re) f enable) as (steps & Es & Hn & Hw). rewrite Es. intros Hin. exists steps. split; [done|].
  destruct (execute_exact fails (steps ++ [StartManager])) as [(Hc & Ht & [H1 H2%Forall_inv]%Forall_app)|(b & s & He & Hs & Hb)].
  - split_and!; [done|done|done|]. by rewrite Hc.
  - destruct (execute_prefix fails (steps ++ [StartManager])) as [rest Hp]. rewrite He in *. cbn [fst snd] in *.
    destruct rest as [|x rest] using rev_ind.
    + rewrite app_nil_r in Hp. apply app_inj_tail in Hp as [-> <-]. split_and!; [done..|]. by rewrite Hs.
    + rewrite app_assoc in Hp. apply app_inj_tail in Hp as [-> _]. destruct Hn. by apply elem_of_app; left.
Qed.

Lemma main_fails fails f enable : Exists (λ s, fails s = true) (main_steps f enable) ↔ (main fails f enable).2 = 1.
Proof.
  unfold main. destruct (execute_exact fails (main_steps f enable)) as [(Hc & _ & H)|(b & s & He & Hs & Hb)].
  - rewrite Hc. split; [|done]. rewrite Exists_exists. intros (s & Hin & Hs). rewrite Forall_forall in H. apply H in Hin. congruence.
  - destruct (execute_prefix fails (main_steps f enable)) as [rest Hp]. rewrite He in *. cbn in *. split; [done|].
    intros _. rewrite Hp, !Exists_app, Exists_cons. tauto.
Qed.

(** ** Witnesses *)

Module ManagerDemo.

(** The library as it documents itself. *)
#[local] Instance reference_runtime : ControllerRuntime := {|
  GenerationChangedPredicate ev :=
    match ev with UpdateEvent old new => bool_decide (Generation (meta_of old) ≠ Generation (meta_of new)) | _ => true end;
  Funcs _ := true;
  EnqueueRequestForObject ev := watched_key <$> objects_of ev;
  EnqueueRequestForOwner _ := [];
  EnqueueRequestsFromMapFunc f ev := objects_of ev ≫= f;
  controllerOwner _ := None |}.

#[local] Instance reference_laws : RuntimeLaws.
Proof.
  split; [done|done| | |].
  - intros ev r. cbn. rewrite list_elem_of_fmap. naive_solver.
  - intros ev r. cbn. split; [by intros ?%elem_of_nil|by intros (o & _ & ?)].
  - intros f ev r. cbn. rewrite list_elem_of_bind. naive_solver.
Qed.

#[local] Instance pipelines : Reader PipelineSpec PipelineStatus := map_reader [demo_pipeline_cr].
#[local] Instance targets : Reader TargetSpec TargetStatus := map_reader demo_targets.
#[local] Instance pipelines_stored : Stored PipelineSpec PipelineStatus := map_stored [demo_pipeline_cr].
#[local] Instance targets_stored : Stored TargetSpec TargetStatus := map_stored demo_targets.

(** Pipeline [pl] selects site a: the target leaves it. *)
Definition moved : Event :=
  UpdateEvent (Custom (OTarget (demo_target "t9" {["site" := "a"]}))) (Custom (OTarget (demo_target "t9" {["site" := "b"]}))).

Example moved_requeues : requests ClusterController moved = [c1_request].
Proof. vm_compute. reflexivity. Qed.

Lemma moved_one_kind : one_kind moved.
Proof. intros o Ho. apply elem_of_cons in Ho as [->|Ho]; [done|]. apply elem_of_cons in Ho as [->|Ho]; [done|]. by apply elem_of_nil in Ho. Qed.

Lemma moved_readable : readable moved.
Proof.
  intros o Ho. apply elem_of_cons in Ho as [->|Ho]; [split; vm_compute; reflexivity|].
  apply elem_of_cons in Ho as [->|Ho]; [split; vm_compute; reflexivity|]. by apply elem_of_nil in Ho.
Qed.

(** The pipeline controller answers to a status the cluster controller wrote. *)
Definition active : Pipeline := MkResource (Meta demo_pipeline_cr) (Spec demo_pipeline_cr)
  {| PS_Status := "Active"; PS_TargetsCount := 1; PS_SubscriptionsCount := 0; PS_InputsCount := 0;
     PS_OutputsCount := 1; PS_TunnelTargetPoliciesCount := 0; PS_Conditions := [] |}.

End ManagerDemo.

(** The target that leaves site a queues the cluster. *)
Lemma changes_requeue_witness :
  ∃ t, documented (event_kind ManagerDemo.moved) = Some t ∧ triggered t ManagerDemo.moved ∧
    ∃ o, o ∈ objects_of ManagerDemo.moved ∧
      concerns (C := ManagerDemo.reference_runtime) (Dp := ManagerDemo.pipelines_stored) (Dt := ManagerDemo.targets_stored)
        (Dn := map_stored []) o c1_request.
Proof.
  apply (changes_requeue (LC := ManagerDemo.reference_laws) (Lp := map_reader_laws [demo_pipeline_cr]) (Lt := map_reader_laws demo_targets)
    (Dn := map_stored []) ManagerDemo.moved c1_request ManagerDemo.moved_one_kind ManagerDemo.moved_readable).
  vm_compute. left.
Defined.

(** The status of a pipeline queues the pipeline controller. *)
Lemma status_writes_requeue_witness :
  key_of demo_pipeline_cr ∈ requests (PipelineController (C := ManagerDemo.reference_runtime))
    (UpdateEvent (Custom (OPipeline demo_pipeline_cr)) (Custom (OPipeline ManagerDemo.active))).
Proof.
  destruct (status_writes_requeue (LC := ManagerDemo.reference_laws) (R0 := ManagerDemo.pipelines) (R1 := ManagerDemo.targets)
    (Custom (OPipeline demo_pipeline_cr)) (Custom (OPipeline ManagerDemo.active)) (key_of demo_pipeline_cr)) as (_ & _ & _ & H & _).
  - split; [|split]; reflexivity.
  - apply H. split; [reflexivity|left; reflexivity].
Defined.

(** Started with the defaults, nothing failing: ten webhooks, no API server. *)
Lemma main_registers_first_witness (Re := {| regexp_Compile := λ _, None |} : Regexp) :
  omap webhook_of (main_steps default_flags "") = WH_For <$> setupWebhooks "" ∧
  (main (λ _, false) default_flags "").2 = 0.
Proof.
  destruct (main_registers_first (λ _, false) default_flags "") as (steps & E & _ & Hw & _ & H).
  - vm_compute. repeat (first [apply list_elem_of_here | apply list_elem_of_further]).
  - split; [|by apply H]. rewrite E, <-Hw. rewrite omap_app. cbn. by rewrite app_nil_r.
Defined.
