(* ===== verification/GoHeap.v ===== *)
(** Go's memory, as far as copying structured values is concerned: pointers, slices and maps
    as references into a heap, and what a deep copy is. *)

From S2P Require Import Prelude.

(** ** Values and the heap *)

(** A location; what a pointer, a slice or a map refers to. *)
Abbreviation loc := positive.

(** Words and strings are immutable; a struct holds its fields; a pointer, a slice or a map is
    a reference, or [nil]. *)
Inductive gval : Type :=
| Word (n : Z)
| Text (s : string)
| Fields (l : list (string * gval))
| Ref (l : option loc).

(** What a pointer points to, the elements of a slice, the entries of a map. *)
Inductive cell : Type :=
| CVal (v : gval)
| CArr (vs : list gval)
| CMap (m : gmap string gval).

Abbreviation heap := (gmap loc cell).

(** Code that reads and writes the heap; a dereference of what is not there panics. *)
Definition mem (A : Type) : Type := heap → option (heap * A).

#[export] Instance mem_ret : MRet mem := λ A a h, Some (h, a).
#[export] Instance mem_bind : MBind mem := λ A B f m h,
  match m h with Some (h', a) => f a h' | None => None end.

Definition new_cell (c : cell) : mem loc := λ h, let l := fresh (dom h) in Some (<[l := c]> h, l).
Definition load (l : loc) : mem cell := λ h, c ← h !! l; Some (h, c).
Definition store (l : loc) (c : cell) : mem unit := λ h, Some (<[l := c]> h, tt).
Definition panic {A} : mem A := λ _, None.

(** ** Copying *)

(** From a value to its copy. *)
Abbreviation copier := (gval → mem gval).

(** [*out = *in]: an assignment copies words, strings and structs, and shares what they refer
    to. *)
Definition shallow : copier := mret.

(** The zero value a cell holds until it is filled. *)
Definition zero : gval := Fields [].

(** [if in.F != nil { *out = new(T); ( *in).DeepCopyInto( *out) }] *)
Definition ptr (c : copier) : copier := λ v,
  match v with
  | Ref None => mret (Ref None)
  | Ref (Some l) =>
      out ← new_cell (CVal zero);
      x ← load l;
      match x with
      | CVal w => w' ← c w; _ ← store out (CVal w'); mret (Ref (Some out))
      | _ => panic
      end
  | _ => panic
  end.

(** The elements one after the other into the cell [out]. *)
Fixpoint fill {K} (put : K → gval → cell → cell) (c : copier) (out : loc) (items : list (K * gval)) : mem unit :=
  match items with
  | [] => mret tt
  | (k, v) :: items =>
      v' ← c v;
      x ← load out;
      _ ← store out (put k v' x);
      fill put c out items
  end.

Definition put_at (i : nat) (v : gval) (x : cell) : cell := match x with CArr vs => CArr (<[i := v]> vs) | _ => x end.
Definition put_key (k : string) (v : gval) (x : cell) : cell := match x with CMap m => CMap (<[k := v]> m) | _ => x end.

(** [if in.F != nil { *out = make([]T, len( *in )); for i := range *in { ... } }], and [copy]
    where the elements are assigned. *)
Definition slice (c : copier) : copier := λ v,
  match v with
  | Ref None => mret (Ref None)
  | Ref (Some l) =>
      x ← load l;
      match x with
      | CArr vs =>
          out ← new_cell (CArr (replicate (length vs) zero));
          _ ← fill put_at c out (imap pair vs);
          mret (Ref (Some out))
      | _ => panic
      end
  | _ => panic
  end.

(** [if in.F != nil { *out = make(map[string]T, len( *in )); for key, val := range *in { ... } }] *)
Definition map_of `{R : GoRuntime} (c : copier) : copier := λ v,
  match v with
  | Ref None => mret (Ref None)
  | Ref (Some l) =>
      x ← load l;
      match x with
      | CMap m =>
          out ← new_cell (CMap ∅);
          _ ← fill put_key c out (go_range m);
          mret (Ref (Some out))
      | _ => panic
      end
  | _ => panic
  end.

(** [*val.DeepCopy()]: a copy made in a cell of its own, and read out of it. *)
Definition copied (c : copier) : copier := λ v,
  out ← new_cell (CVal zero);
  v' ← c v;
  _ ← store out (CVal v');
  x ← load out;
  match x with CVal w => mret w | _ => panic end.

Fixpoint field_copier (f : string) (l : list (string * copier)) : copier :=
  match l with
  | [] => shallow
  | (g, c) :: l => if String.eqb f g then c else field_copier f l
  end.

Fixpoint copy_fields (l : list (string * copier)) (fs : list (string * gval)) : mem (list (string * gval)) :=
  match fs with
  | [] => mret []
  | (f, v) :: fs => v' ← field_copier f l v; rest ← copy_fields l fs; mret ((f, v') :: rest)
  end.

(** [*out = *in], and the fields of [l] by their own copiers, in the order of the struct. *)
Definition struct (l : list (string * copier)) : copier := λ v,
  match v with Fields fs => fs' ← copy_fields l fs; mret (Fields fs') | _ => panic end.

(** A call through [runtime.Object]: the type and the pointer, or the nil interface. *)
Definition object (T : string) (c : copier) (v : gval) : mem (option (string * loc)) :=
  v' ← c v; mret (match v' with Ref (Some l) => Some (T, l) | _ => None end).

(** ** Shapes and copies *)

(** What of a Go type matters to copying: [Flat] is a type without pointers, slices and
    maps, whose values an assignment copies. *)
Inductive shape : Type :=
| Flat
| Struct (fs : list (string * shape))
| Ptr (T : shape)
| Slice (T : shape)
| Map (T : shape).

(** Without references. *)
Fixpoint plain (v : gval) : bool :=
  match v with Fields l => forallb (λ f, plain f.2) l | Ref _ => false | _ => true end.

Fixpoint flat (T : shape) : bool :=
  match T with Flat => true | Struct fs => forallb (λ f, flat f.2) fs | _ => false end.

(** [v'] in [h'] is, reference by reference, what [v] is in [h], a value of the shape, and
    every reference on the way leads outside of [D]. *)
Definition copy_ref (D : gset loc) (h h' : heap) (P : cell → cell → Prop) (v v' : gval) : Prop :=
  (v = Ref None ∧ v' = Ref None) ∨
  ∃ l l' x x', v = Ref (Some l) ∧ v' = Ref (Some l') ∧ (l' ∉ D) ∧ h !! l = Some x ∧ h' !! l' = Some x' ∧ P x x'.

(** Field by field, in the order of the struct. *)
Definition fields_rel (P : shape → gval → gval → Prop) : list (string * shape) → list (string * gval) → list (string * gval) → Prop :=
  fix go fs l l' := match fs, l, l' with
    | [], [], [] => True
    | (f, T) :: fs, (g, x) :: l, (g', x') :: l' => g = f ∧ g' = f ∧ P T x x' ∧ go fs l l'
    | _, _, _ => False
    end.

Fixpoint copy_of (D : gset loc) (h h' : heap) (T : shape) (v v' : gval) {struct T} : Prop :=
  match T with
  | Flat => v = v' ∧ plain v = true
  | Struct fs => ∃ l l', v = Fields l ∧ v' = Fields l' ∧
      fields_rel (copy_of D h h') fs l l'
  | Ptr T => copy_ref D h h' (λ x x', ∃ w w', x = CVal w ∧ x' = CVal w' ∧ copy_of D h h' T w w') v v'
  | Slice T => copy_ref D h h' (λ x x', ∃ ws ws', x = CArr ws ∧ x' = CArr ws' ∧ Forall2 (copy_of D h h' T) ws ws') v v'
  | Map T => copy_ref D h h' (λ x x', ∃ m m', x = CMap m ∧ x' = CMap m' ∧
      ∀ k, option_Forall2 (copy_of D h h' T) (m !! k) (m' !! k)) v v'
  end.

(** A value of the shape; equal values, shared or not. *)
Definition typed (T : shape) (h : heap) (v : gval) : Prop := copy_of ∅ h h T v v.
Definition equal_in (T : shape) (h h' : heap) (v v' : gval) : Prop := copy_of ∅ h h' T v v'.

(** The copier makes deep copies of the values of the shape: of a value that was there in
    [h0], whatever has been allocated since, with fresh references only, leaving all that
    is there as it is. *)
Class Copies (T : shape) (c : copier) : Prop := copies h0 h v :
  typed T h0 v → h0 ⊆ h → ∃ h' v', c v h = Some (h', v') ∧ h ⊆ h' ∧ copy_of (dom h) h0 h' T v v'.

(** Induction that reaches into the fields of a struct. *)
Lemma shape_nested_ind (P : shape → Prop) : P Flat → (∀ fs, Forall (λ f, P f.2) fs → P (Struct fs)) →
  (∀ T, P T → P (Ptr T)) → (∀ T, P T → P (Slice T)) → (∀ T, P T → P (Map T)) → ∀ T, P T.
Proof.
  intros HF HS HP HSl HM. fix IH 1. intros [|fs|T|T|T]; [done| |by apply HP|by apply HSl|by apply HM].
  apply HS. induction fs as [|[f T] fs IHfs]; constructor; [apply IH|exact IHfs].
Qed.

Lemma copy_of_struct D h h' fs v v' : copy_of D h h' (Struct fs) v v' ↔
  ∃ l l', v = Fields l ∧ v' = Fields l' ∧ fields_rel (copy_of D h h') fs l l'.
Proof. reflexivity. Qed.

Lemma copy_of_ptr D h h' T v v' : copy_of D h h' (Ptr T) v v' ↔
  copy_ref D h h' (λ x x', ∃ w w', x = CVal w ∧ x' = CVal w' ∧ copy_of D h h' T w w') v v'.
Proof. reflexivity. Qed.

Lemma copy_of_slice D h h' T v v' : copy_of D h h' (Slice T) v v' ↔
  copy_ref D h h' (λ x x', ∃ ws ws', x = CArr ws ∧ x' = CArr ws' ∧ Forall2 (copy_of D h h' T) ws ws') v v'.
Proof. reflexivity. Qed.

Lemma copy_of_map D h h' T v v' : copy_of D h h' (Map T) v v' ↔
  copy_ref D h h' (λ x x', ∃ m m', x = CMap m ∧ x' = CMap m' ∧ ∀ k, option_Forall2 (copy_of D h h' T) (m !! k) (m' !! k)) v v'.
Proof. reflexivity. Qed.

(** What is seen of a value does not change as long as what it refers to outside of [D] is
    there and the same. *)
Lemma copy_of_change (D D' : gset loc) (h h0 h' h'' : heap) T : (∀ l x, l ∉ D → h' !! l = Some x → h'' !! l = Some x) →
  h ⊆ h0 → D' ⊆ D → ∀ v v', copy_of D h h' T v v' → copy_of D' h0 h'' T v v'.
Proof.
  intros Hl Hh HD. assert (∀ (P P' : cell → cell → Prop) v v', (∀ x x', P x x' → P' x x') → copy_ref D h h' P v v' → copy_ref D' h0 h'' P' v v') as Href.
  { intros P P' v v' HP [H|(l & l' & x & x' & -> & -> & Hn & Hx & Hx' & Hp)]; [by left|]. right. exists l, l', x, x'.
    split_and!; [done|done|set_solver|by eapply lookup_weaken|by apply Hl|by apply HP]. }
  induction T as [|fs IH|T IH|T IH|T IH] using shape_nested_ind; intros v v'.
  - done.
  - rewrite !copy_of_struct. intros (l & l' & -> & -> & Hg). exists l, l'. split_and!; [done..|].
    revert l l' Hg. induction IH as [|[f T] fs HS _ IHfs]; intros [|[g x] l] [|[g' x'] l']; cbn; try done.
    intros (-> & -> & Hx & Hg). split_and!; [done..|by apply HS|by apply IHfs].
  - rewrite !copy_of_ptr. apply Href. intros x x' (w & w' & -> & -> & Hw). exists w, w'. auto.
  - rewrite !copy_of_slice. apply Href. intros x x' (ws & ws' & -> & -> & Hw). exists ws, ws'. split_and!; [done..|]. by eapply Forall2_impl.
  - rewrite !copy_of_map. apply Href. intros x x' (m & m' & -> & -> & Hw). exists m, m'. split_and!; [done..|]. intros k.
    destruct (Hw k); constructor; auto.
Qed.

Lemma copy_of_grow D h h' h'' T v v' : h' ⊆ h'' → copy_of D h h' T v v' → copy_of D h h'' T v v'.
Proof. intros Hs. apply copy_of_change; [|done|done]. intros l x _ Hx. by eapply lookup_weaken. Qed.

Lemma copy_of_typed D h h' T v v' : copy_of D h h' T v v' → typed T h v.
Proof.
  unfold typed. revert v v'. induction T as [|fs IH|T IH|T IH|T IH] using shape_nested_ind; intros v v'.
  - by intros [_ Hp].
  - rewrite !copy_of_struct. intros (l & l' & -> & -> & Hg). exists l, l. split_and!; [done..|].
    revert l l' Hg. induction IH as [|[f T] fs HS _ IHfs]; intros [|[g x] l] [|[g' x'] l']; cbn; try done.
    intros (-> & -> & Hx & Hg). split_and!; [done..|by eapply HS|by eapply IHfs].
  - rewrite !copy_of_ptr. intros [[-> _]|(l & l' & x & x' & -> & _ & _ & Hx & _ & w & w' & -> & _ & Hw)]; [by left|right].
    exists l, l, (CVal w), (CVal w). split_and!; [done..|]. exists w, w. eauto.
  - rewrite !copy_of_slice. intros [[-> _]|(l & l' & x & x' & -> & _ & _ & Hx & _ & w & w' & -> & _ & Hw)]; [by left|right].
    exists l, l, (CArr w), (CArr w). split_and!; [done..|]. exists w, w. split_and!; [done..|].
    clear -Hw IH. induction Hw; constructor; eauto.
  - rewrite !copy_of_map. intros [[-> _]|(l & l' & x & x' & -> & _ & _ & Hx & _ & w & w' & -> & _ & Hw)]; [by left|right].
    exists l, l, (CMap w), (CMap w). split_and!; [done..|]. exists w, w. split_and!; [done..|].
    intros k. destruct (Hw k); constructor; eauto.
Qed.

(** ** The copiers make deep copies *)

Lemma flat_plain T D h h' v v' : flat T = true → copy_of D h h' T v v' → v' = v ∧ plain v = true.
Proof.
  revert v v'. induction T as [|fs IH|T IH|T IH|T IH] using shape_nested_ind; intros v v'; try done.
  - by intros _ [-> Hp].
  - intros Hf. rewrite copy_of_struct. intros (l & l' & -> & -> & Hg). cbn in Hf.
    enough (l' = l ∧ forallb (λ f, plain f.2) l = true) as [-> ?] by done.
    revert l l' Hf Hg. induction IH as [|[f T] fs HT _ IHfs]; intros [|[g x] l] [|[g' x'] l']; cbn; try done.
    intros [Hf1 Hf2]%andb_true_iff (-> & -> & Hx & Hg). destruct (HT x x' Hf1 Hx) as [-> ->].
    by destruct (IHfs l l' Hf2 Hg) as [-> ->].
Qed.

Lemma flat_copy T D D' h h0 h' h'' v v' : flat T = true → copy_of D h h' T v v' → copy_of D' h0 h'' T v v.
Proof.
  revert v v'. induction T as [|fs IH|T IH|T IH|T IH] using shape_nested_ind; intros v v'; try done.
  - by intros _ [_ Hp].
  - intros Hf. rewrite !copy_of_struct. intros (l & l' & -> & -> & Hg). exists l, l. split_and!; [done..|]. cbn in Hf.
    revert l l' Hf Hg. induction IH as [|[f T] fs HT _ IHfs]; intros [|[g x] l] [|[g' x'] l']; cbn; try done.
    intros [Hf1 Hf2]%andb_true_iff (-> & -> & Hx & Hg). split_and!; [done..|by eapply HT|by eapply IHfs].
Qed.

(** A value without references is copied by an assignment. *)
Lemma copies_shallow T : flat T = true → Copies T shallow.
Proof. intros Hf h0 h v Hv _. exists h, v. split_and!; [done..|]. by eapply flat_copy. Qed.

#[export] Hint Extern 1 (Copies _ shallow) => apply copies_shallow; reflexivity : typeclass_instances.

Lemma new_fresh (h : heap) : fresh (dom h) ∉ dom h.
Proof. apply is_fresh. Qed.

(** Storing what was copied after its cell was made. *)
Lemma fill_cell (h h0 h1 : heap) l x x' T v v' : l ∉ dom h → <[l := x]> h ⊆ h1 → copy_of (dom (<[l := x]> h)) h0 h1 T v v' →
  h ⊆ <[l := x']> h1 ∧ copy_of (dom h) h0 (<[l := x']> h1) T v v'.
Proof.
  intros Hl Hs Hc. split.
  - apply map_subseteq_spec. intros k y Hk. assert (k ≠ l) as Hne by (intros ->; apply Hl, elem_of_dom; by exists y).
    rewrite lookup_insert_ne by done. eapply lookup_weaken; [|exact Hs]. by rewrite lookup_insert_ne.
  - eapply copy_of_change; [|done| |exact Hc]; [|set_solver]. intros k y Hk Hy.
    rewrite lookup_insert_ne; [done|]. intros ->. apply Hk. set_solver.
Qed.

#[export] Instance copies_ptr T c : Copies T c → Copies (Ptr T) (ptr c).
Proof.
  intros Hc h0 h v Hv Hs. unfold typed in Hv. rewrite copy_of_ptr in Hv.
  destruct Hv as [[-> _]|(l & l2 & x & x2 & -> & [= <-] & _ & Hx & _ & w & w2 & -> & _ & Hw)].
  { exists h, (Ref None). split_and!; [done..|]. by left. }
  pose proof (new_fresh h) as Hl. set (l' := fresh (dom h)) in *.
  assert (h ⊆ <[l' := CVal zero]> h) as Hs1 by (apply insert_subseteq, not_elem_of_dom; done).
  destruct (Hc h0 (<[l' := CVal zero]> h) w) as (h1 & w' & E & Hs2 & Hcp); [by eapply copy_of_typed|by etrans|].
  destruct (fill_cell h h0 h1 l' _ (CVal w') _ _ _ Hl Hs2 Hcp) as [Hsub Hcp'].
  exists (<[l' := CVal w']> h1), (Ref (Some l')). split; [|split; [done|]].
  - unfold ptr, mbind, mem_bind, new_cell, load, store, mret, mem_ret, mbind, option_bind. fold l'.
    assert (<[l' := CVal zero]> h !! l = Some (CVal w)) as -> by (eapply lookup_weaken; [exact Hx|by etrans]). by rewrite E.
  - rewrite copy_of_ptr. right. exists l, l', (CVal w), (CVal w'). split_and!; [done..|apply lookup_insert_eq|]. by exists w, w'.
Qed.

#[export] Instance copies_copied T c : Copies T c → Copies T (copied c).
Proof.
  intros Hc h0 h v Hv Hs. pose proof (new_fresh h) as Hl. set (l' := fresh (dom h)) in *.
  assert (h ⊆ <[l' := CVal zero]> h) as Hs1 by (apply insert_subseteq, not_elem_of_dom; done).
  destruct (Hc h0 (<[l' := CVal zero]> h) v) as (h1 & w' & E & Hs2 & Hcp); [done|by etrans|].
  destruct (fill_cell h h0 h1 l' _ (CVal w') _ _ _ Hl Hs2 Hcp) as [Hsub Hcp'].
  exists (<[l' := CVal w']> h1), w'. split; [|by split].
  unfold copied, mbind, mem_bind, new_cell, load, store, mret, mem_ret, mbind, option_bind. fold l'. rewrite E.
  by rewrite lookup_insert_eq.
Qed.

#[export] Instance copies_struct fs l : TCForall (λ f : string * shape, Copies f.2 (field_copier f.1 l)) fs → Copies (Struct fs) (struct l).
Proof.
  intros Hall h0 h v Hv. unfold typed in Hv. rewrite copy_of_struct in Hv. destruct Hv as (vs & vs2 & -> & [= <-] & Hg).
  enough (h0 ⊆ h → ∃ h' vs', copy_fields l vs h = Some (h', vs') ∧ h ⊆ h' ∧ fields_rel (copy_of (dom h) h0 h') fs vs vs') as G.
  { intros Hs. destruct (G Hs) as (h' & vs' & E & Hs' & Hr). exists h', (Fields vs'). split_and!; [|done|by exists vs, vs'].
    unfold struct, mbind, mem_bind. by rewrite E. }
  revert h vs Hg. induction Hall as [|[f T] fs Hc _ IH]; intros h [|[g x] vs] Hg Hs; cbn in Hg; try done.
  { by exists h, []. }
  destruct Hg as (-> & _ & Hx & Hg). destruct (Hc h0 h x Hx Hs) as (h1 & x' & E1 & Hs1 & Hc1).
  destruct (IH h1 vs Hg ltac:(by etrans)) as (h2 & vs' & E2 & Hs2 & Hr).
  exists h2, ((f, x') :: vs'). split_and!; [|by etrans|].
  - cbn [copy_fields]. unfold mbind, mem_bind in *. cbn in E1. rewrite E1, E2. done.
  - cbn. split_and!; [done..|by eapply copy_of_grow|]. clear -Hr Hs1. revert vs vs' Hr.
    induction fs as [|[f T] fs IH]; intros [|[g x] vs] [|[g' x'] vs']; cbn; try done.
    intros (-> & -> & Hx & Hr). split_and!; [done..| |by apply IH]. eapply copy_of_change; [|done| |exact Hx]; [done|].
    by apply subseteq_dom.
Qed.

Section Fill.
Context {K : Type} (put : K → gval → cell → cell) (T : shape) (c : copier) `{Hc : !Copies T c} (out : loc) (h0 : heap).

(** The cell after the items have been put into it. *)
Definition filled (items : list (K * gval)) (vs : list gval) (x : cell) : cell :=
  foldl (λ x kv, put kv.1.1 kv.2 x) x (zip items vs).

Lemma fill_Ok items h x : h0 ⊆ h → out ∉ dom h0 → h !! out = Some x → Forall (λ kv, typed T h0 kv.2) items →
  ∃ h' vs, fill put c out items h = Some (h', tt) ∧ h' !! out = Some (filled items vs x) ∧
    (∀ l y, l ≠ out → h !! l = Some y → h' !! l = Some y) ∧
    Forall2 (λ kv v', copy_of (dom h) h0 h' T kv.2 v') items vs.
Proof.
  intros Hs Ho Hx Hty. revert h x Hs Hx. induction Hty as [|[k v] items Hv _ IH]; intros h x Hs Hx.
  { exists h, []. by split_and!. }
  destruct (Hc h0 h v Hv Hs) as (h1 & v' & E1 & Hs1 & Hc1).
  assert (h1 !! out = Some x) as Hx1 by (by eapply lookup_weaken).
  assert (h0 ⊆ <[out := put k v' x]> h1) as Hs2.
  { apply insert_subseteq_r; [by apply not_elem_of_dom|by etrans]. }
  destruct (IH (<[out := put k v' x]> h1) (put k v' x) Hs2 ltac:(apply lookup_insert_eq)) as (h2 & vs & E2 & Hx2 & Hk & Hf).
  exists h2, (v' :: vs). split_and!.
  - cbn [fill]. unfold mbind, mem_bind, load, store, mbind, option_bind in *. by rewrite E1, Hx1.
  - done.
  - intros l y Hne Hy. apply Hk; [done|]. rewrite lookup_insert_ne by done. by eapply lookup_weaken.
  - assert (dom h ⊆ dom h1) as Hd by by apply subseteq_dom.
    assert (out ∈ dom h) as Hoin by by (apply elem_of_dom; exists x).
    constructor.
    + apply (copy_of_change (dom h) (dom h) h0 h0 h1 h2 T); [|done|done|exact Hc1]. intros l y Hn Hy.
      assert (l ≠ out) as Hne by by intros ->. apply Hk; [done|]. by rewrite lookup_insert_ne.
    + eapply Forall2_impl; [exact Hf|]. intros kv w Hw. eapply copy_of_change; [|done| |exact Hw]; [done|].
      rewrite dom_insert_L. set_solver.
Qed.
End Fill.

Lemma filled_array items vs ws : filled put_at items vs (CArr ws) = CArr (foldl (λ ws kv, <[kv.1.1 := kv.2]> ws) ws (zip items vs)).
Proof. unfold filled. revert ws. induction (zip items vs) as [|[[i v] v'] l IH]; intros ws; [done|apply IH]. Qed.

Lemma filled_map items vs m : filled put_key items vs (CMap m) = CMap (foldl (λ m kv, <[kv.1.1 := kv.2]> m) m (zip items vs)).
Proof. unfold filled. revert m. induction (zip items vs) as [|[[i v] v'] l IH]; intros m; [done|apply IH]. Qed.

(** Element by element, from the first to the last. *)
Lemma insert_all (done_ rest vs : list gval) zs : length rest = length vs → length zs = length vs →
  foldl (λ (ws : list gval) (kv : (nat * gval) * gval), <[kv.1.1 := kv.2]> ws) (done_ ++ zs)
    (zip (imap (λ j v, ((length done_ + j)%nat, v)) rest) vs) = done_ ++ vs.
Proof.
  revert done_ rest zs. induction vs as [|v vs IH]; intros done_ [|w rest] [|z zs] Hr Hz; try done. cbn.
  rewrite Nat.add_0_r, insert_app_r_alt, Nat.sub_diag by done. cbn.
  rewrite (cons_middle v done_ zs), (cons_middle v done_ vs), !(assoc_L (++)).
  injection Hr as Hr. injection Hz as Hz. rewrite <-(IH (done_ ++ [v]) rest zs Hr Hz). do 2 f_equal.
  apply imap_ext. intros j x _. cbn. rewrite length_app. cbn. f_equal. lia.
Qed.

Lemma snd_indexed (ws : list gval) : snd <$> imap pair ws = ws.
Proof. rewrite fmap_imap. apply list_eq. intros i. by rewrite list_lookup_imap; destruct (ws !! i). Qed.

(** Filling a cell just made. *)
Lemma fill_new {K} (put : K → gval → cell → cell) T c `{Hc : !Copies T c} x items (h0 h : heap) : h0 ⊆ h →
  Forall (λ kv : K * gval, typed T h0 kv.2) items →
  ∃ h1 vs, fill put c (fresh (dom h)) items (<[fresh (dom h) := x]> h) = Some (h1, tt) ∧
    h1 !! fresh (dom h) = Some (filled put items vs x) ∧ h ⊆ h1 ∧ Forall2 (copy_of (dom h) h0 h1 T) items.*2 vs.
Proof.
  intros Hs Hty. pose proof (new_fresh h) as Hl. set (l' := fresh (dom h)) in *.
  assert (h ⊆ <[l' := x]> h) as Hs1 by (apply insert_subseteq, not_elem_of_dom; done).
  destruct (fill_Ok put T c l' h0 items (<[l' := x]> h) x) as (h1 & vs & E & Hx1 & Hk & Hf); [by etrans| |apply lookup_insert_eq|done|].
  { intros Hin. apply Hl. by eapply subseteq_dom. }
  exists h1, vs. split_and!; [done..| |].
  - apply map_subseteq_spec. intros k y Hy. assert (k ≠ l') as Hne by (intros ->; apply Hl, elem_of_dom; by exists y).
    apply Hk; [done|]. by rewrite lookup_insert_ne.
  - apply Forall2_fmap_l. eapply Forall2_impl; [exact Hf|]. intros kv w Hcp. cbn.
    eapply copy_of_change; [|done| |exact Hcp]; [done|set_solver].
Qed.

#[export] Instance copies_slice T c : Copies T c → Copies (Slice T) (slice c).
Proof.
  intros Hc h0 h v Hv Hs. unfold typed in Hv. rewrite copy_of_slice in Hv.
  destruct Hv as [[-> _]|(l & l2 & x & x2 & -> & [= <-] & _ & Hx & _ & ws & ws2 & -> & _ & Hw)].
  { exists h, (Ref None). split_and!; [done..|]. by left. }
  set (zs := replicate (length ws) zero).
  destruct (fill_new put_at T c (CArr zs) (imap pair ws) h0 h Hs) as (h1 & vs & E & Hx1 & Hsub & Hf).
  { apply Forall_forall. intros [i w] Hin. apply elem_of_lookup_imap in Hin as (j & y & [= <- <-] & Hj).
    eapply Forall2_lookup_l in Hw as (y' & _ & Hy); [|exact Hj]. by eapply copy_of_typed. }
  rewrite snd_indexed in Hf. assert (length vs = length ws) as Hlen by (symmetry; by eapply Forall2_length).
  exists h1, (Ref (Some (fresh (dom h)))). split; [|split; [done|]].
  - unfold slice, mbind, mem_bind, new_cell, load, mret, mem_ret, mbind, option_bind.
    rewrite (lookup_weaken _ _ _ _ Hx Hs). fold zs. by rewrite E.
  - rewrite copy_of_slice. right. exists l, (fresh (dom h)), (CArr ws), (CArr vs). split_and!; [done|done|apply new_fresh|done| |by exists ws, vs].
    rewrite Hx1, filled_array. do 2 f_equal. refine (insert_all [] ws vs zs (eq_sym Hlen) _). unfold zs. by rewrite length_replicate.
Qed.

(** Key by key, in any order. *)
Lemma insert_keys (items : list (string * gval)) vs (m : gmap string gval) k : NoDup items.*1 → length items = length vs →
  foldl (λ (m : gmap string gval) (kv : (string * gval) * gval), <[kv.1.1 := kv.2]> m) m (zip items vs) !! k =
  match (list_to_map (zip items.*1 vs) : gmap string gval) !! k with Some v => Some v | None => m !! k end.
Proof.
  revert vs m. induction items as [|[j w] items IH]; intros [|v vs] m Hnd Hlen; try done. cbn in *.
  apply NoDup_cons in Hnd as [Hj Hnd]. rewrite IH by (done || lia).
  destruct (decide (j = k)) as [->|Hne].
  - rewrite !lookup_insert_eq. rewrite not_elem_of_list_to_map_1; [done|]. rewrite fst_zip by (rewrite length_fmap; lia). done.
  - by rewrite !lookup_insert_ne.
Qed.

Lemma keys_related (P : gval → gval → Prop) (items : list (string * gval)) vs k : Forall2 P items.*2 vs →
  option_Forall2 P ((list_to_map items : gmap string gval) !! k) ((list_to_map (zip items.*1 vs) : gmap string gval) !! k).
Proof.
  revert vs. induction items as [|[j w] items IH]; intros [|v vs]; cbn; [constructor|by inversion 1..|].
  inversion_clear 1 as [|? ? ? ? Hp Hf]. destruct (decide (j = k)) as [->|Hne]; [rewrite !lookup_insert_eq; by constructor|].
  rewrite !lookup_insert_ne by done. by apply IH.
Qed.

Lemma range_map `{R : GoRuntime} (m : gmap string gval) : list_to_map (go_range m) = m.
Proof.
  rewrite <-(list_to_map_to_list m) at 2. apply list_to_map_proper; [apply NoDup_fst_go_range|apply go_range_perm].
Qed.

#[export] Instance copies_map `{R : GoRuntime} T c : Copies T c → Copies (Map T) (map_of c).
Proof.
  intros Hc h0 h v Hv Hs. unfold typed in Hv. rewrite copy_of_map in Hv.
  destruct Hv as [[-> _]|(l & l2 & x & x2 & -> & [= <-] & _ & Hx & _ & m & m2 & -> & _ & Hw)].
  { exists h, (Ref None). split_and!; [done..|]. by left. }
  destruct (fill_new put_key T c (CMap ∅) (go_range m) h0 h Hs) as (h1 & vs & E & Hx1 & Hsub & Hf).
  { apply Forall_forall. intros [k w] Hin. apply elem_of_go_range in Hin. specialize (Hw k). rewrite Hin in Hw.
    inversion Hw; subst. by eapply copy_of_typed. }
  exists h1, (Ref (Some (fresh (dom h)))). split; [|split; [done|]].
  - unfold map_of, mbind, mem_bind, new_cell, load, mret, mem_ret, mbind, option_bind.
    rewrite (lookup_weaken _ _ _ _ Hx Hs). by rewrite E.
  - rewrite copy_of_map. right. rewrite filled_map in Hx1. eexists l, (fresh (dom h)), (CMap m), _.
    split_and!; [done|done|apply new_fresh|done|exact Hx1|]. eexists m, _. split_and!; [done..|]. intros k.
    pose proof (Forall2_length _ _ _ Hf) as Hlen. rewrite length_fmap in Hlen. rewrite insert_keys; [|apply NoDup_fst_go_range|done].
    pose proof (keys_related _ (go_range m) vs k Hf) as Hk. rewrite range_map in Hk.
    rewrite lookup_empty. by destruct (list_to_map _ !! k).
Qed.

(** ** What a deep copy is good for *)

(** The copy equals the original, and goes on to equal what the original was whatever is
    written to the memory there was before; and that memory is as it was, whatever is written
    through the copy. *)
Definition isolated (T : shape) (h : heap) (v : gval) (h' : heap) (v' : gval) : Prop :=
  (∀ h2 : heap, (∀ l, l ∉ dom h → h2 !! l = h' !! l) → equal_in T h h2 v v') ∧
  (∀ h2 : heap, (∀ l, l ∈ dom h → h2 !! l = h' !! l) → equal_in T h h2 v v).

Lemma copies_isolated T c h v : Copies T c → typed T h v → ∃ h' v', c v h = Some (h', v') ∧ isolated T h v h' v'.
Proof.
  intros Hc Hv. destruct (Hc h h v Hv (reflexivity _)) as (h' & v' & E & Hs & Hcp). exists h', v'. split; [done|]. split.
  - intros h2 Hl. eapply copy_of_change; [|done|apply empty_subseteq|exact Hcp]. intros l x Hn Hx. by rewrite Hl.
  - intros h2 Hl. eapply copy_of_change; [|done..|exact Hv]. intros l x _ Hx.
    rewrite Hl by (apply elem_of_dom; by exists x). by eapply lookup_weaken.
Qed.
