(* ===== verification/DeepCopy.v ===== *)
(** The deep copies of the custom resources ([zz_generated.deepcopy.go]) over the memory of
    [GoHeap]: the types as [*_types.go] declare them, the copiers as they were generated, and
    that each copies every reference its type has. *)

From S2P Require Import Prelude GoHeap.

(** ** Types of other packages *)

(** The types of Kubernetes the resources are made of that have a [DeepCopyInto] of their
    own. *)
Inductive Ext : Type :=
| ObjectMeta | ListMeta | LabelSelector | Condition | Time
| ResourceRequirements | EnvVar | SecretKeySelector | ConfigMapKeySelector | JSON.

(** Their shapes and copiers are theirs; what is documented is that they are deep. *)
Class External : Type := {
  ext_shape : Ext → shape;
  ext_DeepCopyInto : Ext → copier
}.

Class ExternalLaws `{External} : Prop := { ext_copies :: ∀ e, Copies (ext_shape e) (ext_DeepCopyInto e) }.

(** ** The types and their copiers *)

Section Generated.
Context `{R : GoRuntime} `{X : External}.

Definition ClusterTLSConfig_type : shape := Struct [
  ("IssuerRef", Flat); ("BundleRef", Flat); ("UseCSIDriver", Flat)].
Definition ClusterTLSConfig_DeepCopyInto : copier := struct [].
Definition ClusterTLSConfig_DeepCopy : copier := ptr ClusterTLSConfig_DeepCopyInto.

Definition APIConfig_type : shape := Struct [
  ("RestPort", Flat); ("GNMIPort", Flat); ("TLS", Ptr ClusterTLSConfig_type)].
Definition APIConfig_DeepCopyInto : copier := struct [
  ("TLS", ptr shallow)].
Definition APIConfig_DeepCopy : copier := ptr APIConfig_DeepCopyInto.

Definition BasicAuthSpec_type : shape := Struct [
  ("CredentialSecretRef", Ptr (ext_shape SecretKeySelector))].
Definition BasicAuthSpec_DeepCopyInto : copier := struct [
  ("CredentialSecretRef", ptr (ext_DeepCopyInto SecretKeySelector))].
Definition BasicAuthSpec_DeepCopy : copier := ptr BasicAuthSpec_DeepCopyInto.

Definition TokenAuthSpec_type : shape := Struct [
  ("Scheme", Flat); ("TokenSecretRef", Ptr (ext_shape SecretKeySelector))].
Definition TokenAuthSpec_DeepCopyInto : copier := struct [
  ("TokenSecretRef", ptr (ext_DeepCopyInto SecretKeySelector))].
Definition TokenAuthSpec_DeepCopy : copier := ptr TokenAuthSpec_DeepCopyInto.

Definition AuthenticationSpec_type : shape := Struct [
  ("Basic", Ptr BasicAuthSpec_type); ("Token", Ptr TokenAuthSpec_type)].
Definition AuthenticationSpec_DeepCopyInto : copier := struct [
  ("Basic", ptr BasicAuthSpec_DeepCopyInto); ("Token", ptr TokenAuthSpec_DeepCopyInto)].
Definition AuthenticationSpec_DeepCopy : copier := ptr AuthenticationSpec_DeepCopyInto.

Definition ClientTLSConfig_type : shape := Struct [
  ("InsecureSkipVerify", Flat); ("CABundleRef", Ptr (ext_shape ConfigMapKeySelector))].
Definition ClientTLSConfig_DeepCopyInto : copier := struct [
  ("CABundleRef", ptr (ext_DeepCopyInto ConfigMapKeySelector))].
Definition ClientTLSConfig_DeepCopy : copier := ptr ClientTLSConfig_DeepCopyInto.

Definition ServiceConfig_type : shape := Struct [
  ("Type", Flat); ("Annotations", Map Flat); ("Labels", Map Flat)].
Definition ServiceConfig_DeepCopyInto : copier := struct [
  ("Annotations", map_of shallow); ("Labels", map_of shallow)].
Definition ServiceConfig_DeepCopy : copier := ptr ServiceConfig_DeepCopyInto.

Definition GRPCTunnelConfig_type : shape := Struct [
  ("Port", Flat); ("TLS", Ptr ClusterTLSConfig_type); ("Service", Ptr ServiceConfig_type)].
Definition GRPCTunnelConfig_DeepCopyInto : copier := struct [
  ("TLS", ptr shallow); ("Service", ptr ServiceConfig_DeepCopyInto)].
Definition GRPCTunnelConfig_DeepCopy : copier := ptr GRPCTunnelConfig_DeepCopyInto.

Definition TargetDistributionConfig_type : shape := Struct [
  ("PodCapacity", Flat)].
Definition TargetDistributionConfig_DeepCopyInto : copier := struct [].
Definition TargetDistributionConfig_DeepCopy : copier := ptr TargetDistributionConfig_DeepCopyInto.

Definition ClusterSpec_type : shape := Struct [
  ("Image", Flat); ("Replicas", Ptr Flat); ("API", Ptr APIConfig_type);
  ("ClientTLS", Ptr ClusterTLSConfig_type); ("GRPCTunnel", Ptr GRPCTunnelConfig_type);
  ("Resources", ext_shape ResourceRequirements); ("Env", Slice (ext_shape EnvVar));
  ("TargetDistribution", Ptr TargetDistributionConfig_type)].
Definition ClusterSpec_DeepCopyInto : copier := struct [
  ("Replicas", ptr shallow); ("API", ptr APIConfig_DeepCopyInto); ("ClientTLS", ptr shallow);
  ("GRPCTunnel", ptr GRPCTunnelConfig_DeepCopyInto); ("Resources", ext_DeepCopyInto ResourceRequirements);
  ("Env", slice (ext_DeepCopyInto EnvVar)); ("TargetDistribution", ptr shallow)].
Definition ClusterSpec_DeepCopy : copier := ptr ClusterSpec_DeepCopyInto.

Definition ClusterStatus_type : shape := Struct [
  ("Conditions", Slice (ext_shape Condition)); ("ReadyReplicas", Flat); ("Selector", Flat);
  ("PipelinesCount", Flat); ("TargetsCount", Flat); ("UnassignedTargets", Flat);
  ("SubscriptionsCount", Flat); ("InputsCount", Flat); ("OutputsCount", Flat)].
Definition ClusterStatus_DeepCopyInto : copier := struct [
  ("Conditions", slice (ext_DeepCopyInto Condition))].
Definition ClusterStatus_DeepCopy : copier := ptr ClusterStatus_DeepCopyInto.

Definition Cluster_type : shape := Struct [
  ("TypeMeta", Flat); ("ObjectMeta", ext_shape ObjectMeta); ("Spec", ClusterSpec_type);
  ("Status", ClusterStatus_type)].
Definition Cluster_DeepCopyInto : copier := struct [
  ("TypeMeta", shallow); ("ObjectMeta", ext_DeepCopyInto ObjectMeta); ("Spec", ClusterSpec_DeepCopyInto);
  ("Status", ClusterStatus_DeepCopyInto)].
Definition Cluster_DeepCopy : copier := ptr Cluster_DeepCopyInto.
Definition Cluster_DeepCopyObject := object "Cluster" Cluster_DeepCopy.

Definition ClusterList_type : shape := Struct [
  ("TypeMeta", Flat); ("ListMeta", ext_shape ListMeta); ("Items", Slice Cluster_type)].
Definition ClusterList_DeepCopyInto : copier := struct [
  ("TypeMeta", shallow); ("ListMeta", ext_DeepCopyInto ListMeta); ("Items", slice Cluster_DeepCopyInto)].
Definition ClusterList_DeepCopy : copier := ptr ClusterList_DeepCopyInto.
Definition ClusterList_DeepCopyObject := object "ClusterList" ClusterList_DeepCopy.

Definition ClusterTargetState_type : shape := Struct [
  ("Pod", Flat); ("State", Flat); ("FailedReason", Flat); ("ConnectionState", Flat);
  ("Subscriptions", Map Flat); ("LastUpdated", ext_shape Time)].
Definition ClusterTargetState_DeepCopyInto : copier := struct [
  ("Subscriptions", map_of shallow); ("LastUpdated", ext_DeepCopyInto Time)].
Definition ClusterTargetState_DeepCopy : copier := ptr ClusterTargetState_DeepCopyInto.

Definition GRPCKeepAliveConfig_type : shape := Struct [
  ("Time", Flat); ("Timeout", Flat); ("PermitWithoutStream", Flat)].
Definition GRPCKeepAliveConfig_DeepCopyInto : copier := struct [
  ("Time", shallow); ("Timeout", shallow)].
Definition GRPCKeepAliveConfig_DeepCopy : copier := ptr GRPCKeepAliveConfig_DeepCopyInto.

Definition PaginationSpec_type : shape := Struct [
  ("NextField", Flat); ("RequestParam", Flat)].
Definition PaginationSpec_DeepCopyInto : copier := struct [].
Definition PaginationSpec_DeepCopy : copier := ptr PaginationSpec_DeepCopyInto.

Definition ResponseMappingSpec_type : shape := Struct [
  ("TargetsField", Flat); ("Name", Flat); ("Address", Flat); ("Port", Flat); ("Labels", Flat);
  ("TargetProfile", Flat)].
Definition ResponseMappingSpec_DeepCopyInto : copier := struct [].
Definition ResponseMappingSpec_DeepCopy : copier := ptr ResponseMappingSpec_DeepCopyInto.

Definition PushBearerAuthSpec_type : shape := Struct [
  ("TokenSecretRef", Ptr (ext_shape SecretKeySelector))].
Definition PushBearerAuthSpec_DeepCopyInto : copier := struct [
  ("TokenSecretRef", ptr (ext_DeepCopyInto SecretKeySelector))].
Definition PushBearerAuthSpec_DeepCopy : copier := ptr PushBearerAuthSpec_DeepCopyInto.

Definition PushSignatureAuthSpec_type : shape := Struct [
  ("SecretRef", Ptr (ext_shape SecretKeySelector)); ("Header", Flat); ("Algorithm", Flat)].
Definition PushSignatureAuthSpec_DeepCopyInto : copier := struct [
  ("SecretRef", ptr (ext_DeepCopyInto SecretKeySelector))].
Definition PushSignatureAuthSpec_DeepCopy : copier := ptr PushSignatureAuthSpec_DeepCopyInto.

Definition PushAuthSpec_type : shape := Struct [
  ("Bearer", Ptr PushBearerAuthSpec_type); ("Signature", Ptr PushSignatureAuthSpec_type)].
Definition PushAuthSpec_DeepCopyInto : copier := struct [
  ("Bearer", ptr PushBearerAuthSpec_DeepCopyInto); ("Signature", ptr PushSignatureAuthSpec_DeepCopyInto)].
Definition PushAuthSpec_DeepCopy : copier := ptr PushAuthSpec_DeepCopyInto.

Definition PushSpec_type : shape := Struct [
  ("Enabled", Flat); ("Auth", Ptr PushAuthSpec_type)].
Definition PushSpec_DeepCopyInto : copier := struct [
  ("Auth", ptr PushAuthSpec_DeepCopyInto)].
Definition PushSpec_DeepCopy : copier := ptr PushSpec_DeepCopyInto.

Definition HTTPConfig_type : shape := Struct [
  ("URL", Flat); ("Method", Flat); ("Headers", Map Flat); ("Body", Flat);
  ("Authentication", Ptr AuthenticationSpec_type); ("Interval", Ptr Flat); ("Timeout", Ptr Flat);
  ("TLS", Ptr ClientTLSConfig_type); ("Pagination", Ptr PaginationSpec_type);
  ("ResponseMapping", Ptr ResponseMappingSpec_type); ("Push", Ptr PushSpec_type)].
Definition HTTPConfig_DeepCopyInto : copier := struct [
  ("Headers", map_of shallow); ("Authentication", ptr AuthenticationSpec_DeepCopyInto);
  ("Interval", ptr shallow); ("Timeout", ptr shallow); ("TLS", ptr ClientTLSConfig_DeepCopyInto);
  ("Pagination", ptr shallow); ("ResponseMapping", ptr shallow); ("Push", ptr PushSpec_DeepCopyInto)].
Definition HTTPConfig_DeepCopy : copier := ptr HTTPConfig_DeepCopyInto.

Definition InputSpec_type : shape := Struct [
  ("Type", Flat); ("Config", ext_shape JSON)].
Definition InputSpec_DeepCopyInto : copier := struct [
  ("Config", ext_DeepCopyInto JSON)].
Definition InputSpec_DeepCopy : copier := ptr InputSpec_DeepCopyInto.

Definition InputStatus_type : shape := Struct [].
Definition InputStatus_DeepCopyInto : copier := struct [].
Definition InputStatus_DeepCopy : copier := ptr InputStatus_DeepCopyInto.

Definition Input_type : shape := Struct [
  ("TypeMeta", Flat); ("ObjectMeta", ext_shape ObjectMeta); ("Spec", InputSpec_type);
  ("Status", InputStatus_type)].
Definition Input_DeepCopyInto : copier := struct [
  ("TypeMeta", shallow); ("ObjectMeta", ext_DeepCopyInto ObjectMeta); ("Spec", InputSpec_DeepCopyInto);
  ("Status", shallow)].
Definition Input_DeepCopy : copier := ptr Input_DeepCopyInto.
Definition Input_DeepCopyObject := object "Input" Input_DeepCopy.

Definition InputList_type : shape := Struct [
  ("TypeMeta", Flat); ("ListMeta", ext_shape ListMeta); ("Items", Slice Input_type)].
Definition InputList_DeepCopyInto : copier := struct [
  ("TypeMeta", shallow); ("ListMeta", ext_DeepCopyInto ListMeta); ("Items", slice Input_DeepCopyInto)].
Definition InputList_DeepCopy : copier := ptr InputList_DeepCopyInto.
Definition InputList_DeepCopyObject := object "InputList" InputList_DeepCopy.

Definition InputSelector_type : shape := Struct [
  ("InputSelectors", Slice (ext_shape LabelSelector)); ("InputRefs", Slice Flat);
  ("ProcessorSelectors", Slice (ext_shape LabelSelector)); ("ProcessorRefs", Slice Flat)].
Definition InputSelector_DeepCopyInto : copier := struct [
  ("InputSelectors", slice (ext_DeepCopyInto LabelSelector)); ("InputRefs", slice shallow);
  ("ProcessorSelectors", slice (ext_DeepCopyInto LabelSelector)); ("ProcessorRefs", slice shallow)].
Definition InputSelector_DeepCopy : copier := ptr InputSelector_DeepCopyInto.

Definition OutputServiceSpec_type : shape := Struct [
  ("Type", Flat); ("Annotations", Map Flat); ("Labels", Map Flat)].
Definition OutputServiceSpec_DeepCopyInto : copier := struct [
  ("Annotations", map_of shallow); ("Labels", map_of shallow)].
Definition OutputServiceSpec_DeepCopy : copier := ptr OutputServiceSpec_DeepCopyInto.

Definition ServiceReference_type : shape := Struct [
  ("Name", Flat); ("Namespace", Flat); ("Port", Flat); ("URL", Flat)].
Definition ServiceReference_DeepCopyInto : copier := struct [].
Definition ServiceReference_DeepCopy : copier := ptr ServiceReference_DeepCopyInto.

Definition ServiceSelector_type : shape := Struct [
  ("MatchLabels", Map Flat); ("Namespace", Flat); ("Port", Flat); ("URL", Flat)].
Definition ServiceSelector_DeepCopyInto : copier := struct [
  ("MatchLabels", map_of shallow)].
Definition ServiceSelector_DeepCopy : copier := ptr ServiceSelector_DeepCopyInto.

Definition OutputSpec_type : shape := Struct [
  ("Type", Flat); ("Config", ext_shape JSON); ("Service", Ptr OutputServiceSpec_type);
  ("ServiceRef", Ptr ServiceReference_type); ("ServiceSelector", Ptr ServiceSelector_type)].
Definition OutputSpec_DeepCopyInto : copier := struct [
  ("Config", ext_DeepCopyInto JSON); ("Service", ptr OutputServiceSpec_DeepCopyInto);
  ("ServiceRef", ptr shallow); ("ServiceSelector", ptr ServiceSelector_DeepCopyInto)].
Definition OutputSpec_DeepCopy : copier := ptr OutputSpec_DeepCopyInto.

Definition OutputStatus_type : shape := Struct [].
Definition OutputStatus_DeepCopyInto : copier := struct [].
Definition OutputStatus_DeepCopy : copier := ptr OutputStatus_DeepCopyInto.

Definition Output_type : shape := Struct [
  ("TypeMeta", Flat); ("ObjectMeta", ext_shape ObjectMeta); ("Spec", OutputSpec_type);
  ("Status", OutputStatus_type)].
Definition Output_DeepCopyInto : copier := struct [
  ("TypeMeta", shallow); ("ObjectMeta", ext_DeepCopyInto ObjectMeta); ("Spec", OutputSpec_DeepCopyInto);
  ("Status", shallow)].
Definition Output_DeepCopy : copier := ptr Output_DeepCopyInto.
Definition Output_DeepCopyObject := object "Output" Output_DeepCopy.

Definition OutputList_type : shape := Struct [
  ("TypeMeta", Flat); ("ListMeta", ext_shape ListMeta); ("Items", Slice Output_type)].
Definition OutputList_DeepCopyInto : copier := struct [
  ("TypeMeta", shallow); ("ListMeta", ext_DeepCopyInto ListMeta); ("Items", slice Output_DeepCopyInto)].
Definition OutputList_DeepCopy : copier := ptr OutputList_DeepCopyInto.
Definition OutputList_DeepCopyObject := object "OutputList" OutputList_DeepCopy.

Definition OutputSelector_type : shape := Struct [
  ("OutputSelectors", Slice (ext_shape LabelSelector)); ("OutputRefs", Slice Flat);
  ("ProcessorSelectors", Slice (ext_shape LabelSelector)); ("ProcessorRefs", Slice Flat)].
Definition OutputSelector_DeepCopyInto : copier := struct [
  ("OutputSelectors", slice (ext_DeepCopyInto LabelSelector)); ("OutputRefs", slice shallow);
  ("ProcessorSelectors", slice (ext_DeepCopyInto LabelSelector)); ("ProcessorRefs", slice shallow)].
Definition OutputSelector_DeepCopy : copier := ptr OutputSelector_DeepCopyInto.

Definition PipelineSpec_type : shape := Struct [
  ("ClusterRef", Flat); ("Enabled", Flat); ("TargetSelectors", Slice (ext_shape LabelSelector));
  ("TargetRefs", Slice Flat); ("TunnelTargetPolicySelectors", Slice (ext_shape LabelSelector));
  ("TunnelTargetPolicyRefs", Slice Flat); ("SubscriptionSelectors", Slice (ext_shape LabelSelector));
  ("SubscriptionRefs", Slice Flat); ("Outputs", OutputSelector_type); ("Inputs", InputSelector_type);
  ("Labels", Map Flat)].
Definition PipelineSpec_DeepCopyInto : copier := struct [
  ("TargetSelectors", slice (ext_DeepCopyInto LabelSelector)); ("TargetRefs", slice shallow);
  ("TunnelTargetPolicySelectors", slice (ext_DeepCopyInto LabelSelector));
  ("TunnelTargetPolicyRefs", slice shallow);
  ("SubscriptionSelectors", slice (ext_DeepCopyInto LabelSelector)); ("SubscriptionRefs", slice shallow);
  ("Outputs", OutputSelector_DeepCopyInto); ("Inputs", InputSelector_DeepCopyInto);
  ("Labels", map_of shallow)].
Definition PipelineSpec_DeepCopy : copier := ptr PipelineSpec_DeepCopyInto.

Definition PipelineStatus_type : shape := Struct [
  ("Status", Flat); ("TargetsCount", Flat); ("SubscriptionsCount", Flat); ("InputsCount", Flat);
  ("OutputsCount", Flat); ("TunnelTargetPoliciesCount", Flat); ("Conditions", Slice (ext_shape Condition))].
Definition PipelineStatus_DeepCopyInto : copier := struct [
  ("Conditions", slice (ext_DeepCopyInto Condition))].
Definition PipelineStatus_DeepCopy : copier := ptr PipelineStatus_DeepCopyInto.

Definition Pipeline_type : shape := Struct [
  ("TypeMeta", Flat); ("ObjectMeta", ext_shape ObjectMeta); ("Spec", PipelineSpec_type);
  ("Status", PipelineStatus_type)].
Definition Pipeline_DeepCopyInto : copier := struct [
  ("TypeMeta", shallow); ("ObjectMeta", ext_DeepCopyInto ObjectMeta); ("Spec", PipelineSpec_DeepCopyInto);
  ("Status", PipelineStatus_DeepCopyInto)].
Definition Pipeline_DeepCopy : copier := ptr Pipeline_DeepCopyInto.
Definition Pipeline_DeepCopyObject := object "Pipeline" Pipeline_DeepCopy.

Definition PipelineList_type : shape := Struct [
  ("TypeMeta", Flat); ("ListMeta", ext_shape ListMeta); ("Items", Slice Pipeline_type)].
Definition PipelineList_DeepCopyInto : copier := struct [
  ("TypeMeta", shallow); ("ListMeta", ext_DeepCopyInto ListMeta); ("Items", slice Pipeline_DeepCopyInto)].
Definition PipelineList_DeepCopy : copier := ptr PipelineList_DeepCopyInto.
Definition PipelineList_DeepCopyObject := object "PipelineList" PipelineList_DeepCopy.

Definition ProcessorSpec_type : shape := Struct [
  ("Type", Flat); ("Config", ext_shape JSON)].
Definition ProcessorSpec_DeepCopyInto : copier := struct [
  ("Config", ext_DeepCopyInto JSON)].
Definition ProcessorSpec_DeepCopy : copier := ptr ProcessorSpec_DeepCopyInto.

Definition ProcessorStatus_type : shape := Struct [].
Definition ProcessorStatus_DeepCopyInto : copier := struct [].
Definition ProcessorStatus_DeepCopy : copier := ptr ProcessorStatus_DeepCopyInto.

Definition Processor_type : shape := Struct [
  ("TypeMeta", Flat); ("ObjectMeta", ext_shape ObjectMeta); ("Spec", ProcessorSpec_type);
  ("Status", ProcessorStatus_type)].
Definition Processor_DeepCopyInto : copier := struct [
  ("TypeMeta", shallow); ("ObjectMeta", ext_DeepCopyInto ObjectMeta); ("Spec", ProcessorSpec_DeepCopyInto);
  ("Status", shallow)].
Definition Processor_DeepCopy : copier := ptr Processor_DeepCopyInto.
Definition Processor_DeepCopyObject := object "Processor" Processor_DeepCopy.

Definition ProcessorList_type : shape := Struct [
  ("TypeMeta", Flat); ("ListMeta", ext_shape ListMeta); ("Items", Slice Processor_type)].
Definition ProcessorList_DeepCopyInto : copier := struct [
  ("TypeMeta", shallow); ("ListMeta", ext_DeepCopyInto ListMeta); ("Items", slice Processor_DeepCopyInto)].
Definition ProcessorList_DeepCopy : copier := ptr ProcessorList_DeepCopyInto.
Definition ProcessorList_DeepCopyObject := object "ProcessorList" ProcessorList_DeepCopy.

Definition ProviderSpec_type : shape := Struct [
  ("HTTP", Ptr HTTPConfig_type)].
Definition ProviderSpec_DeepCopyInto : copier := struct [
  ("HTTP", ptr HTTPConfig_DeepCopyInto)].
Definition ProviderSpec_DeepCopy : copier := ptr ProviderSpec_DeepCopyInto.

Definition SubscriptionHistoryConfig_type : shape := Struct [
  ("Snapshot", ext_shape Time); ("Start", ext_shape Time); ("End", ext_shape Time)].
Definition SubscriptionHistoryConfig_DeepCopyInto : copier := struct [
  ("Snapshot", ext_DeepCopyInto Time); ("Start", ext_DeepCopyInto Time); ("End", ext_DeepCopyInto Time)].
Definition SubscriptionHistoryConfig_DeepCopy : copier := ptr SubscriptionHistoryConfig_DeepCopyInto.

Definition SubscriptionSpec_type : shape := Struct [
  ("Prefix", Flat); ("Target", Flat); ("Paths", Slice Flat); ("Mode", Flat); ("SampleInterval", Flat);
  ("HeartbeatInterval", Flat); ("UpdatesOnly", Flat); ("StreamSubscriptions", Slice Flat); ("Depth", Flat);
  ("Encoding", Flat); ("Qos", Ptr Flat); ("SuppressRedundant", Flat);
  ("History", Ptr SubscriptionHistoryConfig_type)].
Definition SubscriptionSpec_DeepCopyInto : copier := struct [
  ("Paths", slice shallow); ("SampleInterval", shallow); ("HeartbeatInterval", shallow);
  ("StreamSubscriptions", slice shallow); ("Qos", ptr shallow);
  ("History", ptr SubscriptionHistoryConfig_DeepCopyInto)].
Definition SubscriptionSpec_DeepCopy : copier := ptr SubscriptionSpec_DeepCopyInto.

Definition SubscriptionStatus_type : shape := Struct [].
Definition SubscriptionStatus_DeepCopyInto : copier := struct [].
Definition SubscriptionStatus_DeepCopy : copier := ptr SubscriptionStatus_DeepCopyInto.

Definition Subscription_type : shape := Struct [
  ("TypeMeta", Flat); ("ObjectMeta", ext_shape ObjectMeta); ("Spec", SubscriptionSpec_type);
  ("Status", SubscriptionStatus_type)].
Definition Subscription_DeepCopyInto : copier := struct [
  ("TypeMeta", shallow); ("ObjectMeta", ext_DeepCopyInto ObjectMeta);
  ("Spec", SubscriptionSpec_DeepCopyInto); ("Status", shallow)].
Definition Subscription_DeepCopy : copier := ptr Subscription_DeepCopyInto.
Definition Subscription_DeepCopyObject := object "Subscription" Subscription_DeepCopy.

Definition SubscriptionList_type : shape := Struct [
  ("TypeMeta", Flat); ("ListMeta", ext_shape ListMeta); ("Items", Slice Subscription_type)].
Definition SubscriptionList_DeepCopyInto : copier := struct [
  ("TypeMeta", shallow); ("ListMeta", ext_DeepCopyInto ListMeta); ("Items", slice Subscription_DeepCopyInto)].
Definition SubscriptionList_DeepCopy : copier := ptr SubscriptionList_DeepCopyInto.
Definition SubscriptionList_DeepCopyObject := object "SubscriptionList" SubscriptionList_DeepCopy.

Definition TargetSpec_type : shape := Struct [
  ("Address", Flat); ("Profile", Flat)].
Definition TargetSpec_DeepCopyInto : copier := struct [].
Definition TargetSpec_DeepCopy : copier := ptr TargetSpec_DeepCopyInto.

Definition TargetStatus_type : shape := Struct [
  ("Clusters", Flat); ("State", Flat); ("ClusterStates", Map ClusterTargetState_type)].
Definition TargetStatus_DeepCopyInto : copier := struct [
  ("ClusterStates", map_of (copied ClusterTargetState_DeepCopyInto))].
Definition TargetStatus_DeepCopy : copier := ptr TargetStatus_DeepCopyInto.

Definition Target_type : shape := Struct [
  ("TypeMeta", Flat); ("ObjectMeta", ext_shape ObjectMeta); ("Spec", TargetSpec_type);
  ("Status", TargetStatus_type)].
Definition Target_DeepCopyInto : copier := struct [
  ("TypeMeta", shallow); ("ObjectMeta", ext_DeepCopyInto ObjectMeta); ("Spec", shallow);
  ("Status", TargetStatus_DeepCopyInto)].
Definition Target_DeepCopy : copier := ptr Target_DeepCopyInto.
Definition Target_DeepCopyObject := object "Target" Target_DeepCopy.

Definition TargetList_type : shape := Struct [
  ("TypeMeta", Flat); ("ListMeta", ext_shape ListMeta); ("Items", Slice Target_type)].
Definition TargetList_DeepCopyInto : copier := struct [
  ("TypeMeta", shallow); ("ListMeta", ext_DeepCopyInto ListMeta); ("Items", slice Target_DeepCopyInto)].
Definition TargetList_DeepCopy : copier := ptr TargetList_DeepCopyInto.
Definition TargetList_DeepCopyObject := object "TargetList" TargetList_DeepCopy.

Definition TargetTLSConfig_type : shape := Struct [
  ("ServerName", Flat); ("MaxVersion", Flat); ("MinVersion", Flat); ("CipherSuites", Slice Flat)].
Definition TargetTLSConfig_DeepCopyInto : copier := struct [
  ("CipherSuites", slice shallow)].
Definition TargetTLSConfig_DeepCopy : copier := ptr TargetTLSConfig_DeepCopyInto.

Definition TargetProfileSpec_type : shape := Struct [
  ("CredentialsRef", Flat); ("TLS", Ptr TargetTLSConfig_type); ("Timeout", Flat); ("RetryTimer", Flat);
  ("Encoding", Flat); ("Labels", Map Flat); ("Proxy", Flat); ("GzipCompression", Flat);
  ("TCPKeepAlive", Ptr Flat); ("GRCPKeepAlive", Ptr GRPCKeepAliveConfig_type)].
Definition TargetProfileSpec_DeepCopyInto : copier := struct [
  ("TLS", ptr TargetTLSConfig_DeepCopyInto); ("Timeout", shallow); ("RetryTimer", shallow);
  ("Labels", map_of shallow); ("TCPKeepAlive", ptr shallow); ("GRCPKeepAlive", ptr shallow)].
Definition TargetProfileSpec_DeepCopy : copier := ptr TargetProfileSpec_DeepCopyInto.

Definition TargetProfileStatus_type : shape := Struct [].
Definition TargetProfileStatus_DeepCopyInto : copier := struct [].
Definition TargetProfileStatus_DeepCopy : copier := ptr TargetProfileStatus_DeepCopyInto.

Definition TargetProfile_type : shape := Struct [
  ("TypeMeta", Flat); ("ObjectMeta", ext_shape ObjectMeta); ("Spec", TargetProfileSpec_type);
  ("Status", TargetProfileStatus_type)].
Definition TargetProfile_DeepCopyInto : copier := struct [
  ("TypeMeta", shallow); ("ObjectMeta", ext_DeepCopyInto ObjectMeta);
  ("Spec", TargetProfileSpec_DeepCopyInto); ("Status", shallow)].
Definition TargetProfile_DeepCopy : copier := ptr TargetProfile_DeepCopyInto.
Definition TargetProfile_DeepCopyObject := object "TargetProfile" TargetProfile_DeepCopy.

Definition TargetProfileList_type : shape := Struct [
  ("TypeMeta", Flat); ("ListMeta", ext_shape ListMeta); ("Items", Slice TargetProfile_type)].
Definition TargetProfileList_DeepCopyInto : copier := struct [
  ("TypeMeta", shallow); ("ListMeta", ext_DeepCopyInto ListMeta); ("Items", slice TargetProfile_DeepCopyInto)].
Definition TargetProfileList_DeepCopy : copier := ptr TargetProfileList_DeepCopyInto.
Definition TargetProfileList_DeepCopyObject := object "TargetProfileList" TargetProfileList_DeepCopy.

Definition TargetSourceSpec_type : shape := Struct [
  ("Provider", Ptr ProviderSpec_type); ("TargetPort", Flat); ("TargetLabels", Map Flat);
  ("TargetProfile", Flat)].
Definition TargetSourceSpec_DeepCopyInto : copier := struct [
  ("Provider", ptr ProviderSpec_DeepCopyInto); ("TargetLabels", map_of shallow)].
Definition TargetSourceSpec_DeepCopy : copier := ptr TargetSourceSpec_DeepCopyInto.

Definition TargetSourceStatus_type : shape := Struct [
  ("Status", Flat); ("ObservedGeneration", Flat); ("TargetsCount", Flat); ("LastSync", ext_shape Time)].
Definition TargetSourceStatus_DeepCopyInto : copier := struct [
  ("LastSync", ext_DeepCopyInto Time)].
Definition TargetSourceStatus_DeepCopy : copier := ptr TargetSourceStatus_DeepCopyInto.

Definition TargetSource_type : shape := Struct [
  ("TypeMeta", Flat); ("ObjectMeta", ext_shape ObjectMeta); ("Spec", TargetSourceSpec_type);
  ("Status", TargetSourceStatus_type)].
Definition TargetSource_DeepCopyInto : copier := struct [
  ("TypeMeta", shallow); ("ObjectMeta", ext_DeepCopyInto ObjectMeta);
  ("Spec", TargetSourceSpec_DeepCopyInto); ("Status", TargetSourceStatus_DeepCopyInto)].
Definition TargetSource_DeepCopy : copier := ptr TargetSource_DeepCopyInto.
Definition TargetSource_DeepCopyObject := object "TargetSource" TargetSource_DeepCopy.

Definition TargetSourceList_type : shape := Struct [
  ("TypeMeta", Flat); ("ListMeta", ext_shape ListMeta); ("Items", Slice TargetSource_type)].
Definition TargetSourceList_DeepCopyInto : copier := struct [
  ("TypeMeta", shallow); ("ListMeta", ext_DeepCopyInto ListMeta); ("Items", slice TargetSource_DeepCopyInto)].
Definition TargetSourceList_DeepCopy : copier := ptr TargetSourceList_DeepCopyInto.
Definition TargetSourceList_DeepCopyObject := object "TargetSourceList" TargetSourceList_DeepCopy.

Definition tunnelTargetMatch_type : shape := Struct [
  ("Type", Flat); ("ID", Flat)].

Definition TunnelTargetPolicySpec_type : shape := Struct [
  ("Match", Ptr tunnelTargetMatch_type); ("Profile", Flat)].
Definition TunnelTargetPolicySpec_DeepCopyInto : copier := struct [
  ("Match", ptr shallow)].
Definition TunnelTargetPolicySpec_DeepCopy : copier := ptr TunnelTargetPolicySpec_DeepCopyInto.

Definition TunnelTargetPolicyStatus_type : shape := Struct [].
Definition TunnelTargetPolicyStatus_DeepCopyInto : copier := struct [].
Definition TunnelTargetPolicyStatus_DeepCopy : copier := ptr TunnelTargetPolicyStatus_DeepCopyInto.

Definition TunnelTargetPolicy_type : shape := Struct [
  ("TypeMeta", Flat); ("ObjectMeta", ext_shape ObjectMeta); ("Spec", TunnelTargetPolicySpec_type);
  ("Status", TunnelTargetPolicyStatus_type)].
Definition TunnelTargetPolicy_DeepCopyInto : copier := struct [
  ("TypeMeta", shallow); ("ObjectMeta", ext_DeepCopyInto ObjectMeta);
  ("Spec", TunnelTargetPolicySpec_DeepCopyInto); ("Status", shallow)].
Definition TunnelTargetPolicy_DeepCopy : copier := ptr TunnelTargetPolicy_DeepCopyInto.
Definition TunnelTargetPolicy_DeepCopyObject := object "TunnelTargetPolicy" TunnelTargetPolicy_DeepCopy.

Definition TunnelTargetPolicyList_type : shape := Struct [
  ("TypeMeta", Flat); ("ListMeta", ext_shape ListMeta); ("Items", Slice TunnelTargetPolicy_type)].
Definition TunnelTargetPolicyList_DeepCopyInto : copier := struct [
  ("TypeMeta", shallow); ("ListMeta", ext_DeepCopyInto ListMeta);
  ("Items", slice TunnelTargetPolicy_DeepCopyInto)].
Definition TunnelTargetPolicyList_DeepCopy : copier := ptr TunnelTargetPolicyList_DeepCopyInto.
Definition TunnelTargetPolicyList_DeepCopyObject := object "TunnelTargetPolicyList" TunnelTargetPolicyList_DeepCopy.

(** All of them, each with the copy of a pointer to it. *)
Definition all_types : list (shape * copier) := [
  (ClusterTLSConfig_type, ClusterTLSConfig_DeepCopy); (APIConfig_type, APIConfig_DeepCopy);
  (BasicAuthSpec_type, BasicAuthSpec_DeepCopy); (TokenAuthSpec_type, TokenAuthSpec_DeepCopy);
  (AuthenticationSpec_type, AuthenticationSpec_DeepCopy); (ClientTLSConfig_type, ClientTLSConfig_DeepCopy);
  (ServiceConfig_type, ServiceConfig_DeepCopy); (GRPCTunnelConfig_type, GRPCTunnelConfig_DeepCopy);
  (TargetDistributionConfig_type, TargetDistributionConfig_DeepCopy);
  (ClusterSpec_type, ClusterSpec_DeepCopy); (ClusterStatus_type, ClusterStatus_DeepCopy);
  (Cluster_type, Cluster_DeepCopy); (ClusterList_type, ClusterList_DeepCopy);
  (ClusterTargetState_type, ClusterTargetState_DeepCopy);
  (GRPCKeepAliveConfig_type, GRPCKeepAliveConfig_DeepCopy); (PaginationSpec_type, PaginationSpec_DeepCopy);
  (ResponseMappingSpec_type, ResponseMappingSpec_DeepCopy);
  (PushBearerAuthSpec_type, PushBearerAuthSpec_DeepCopy);
  (PushSignatureAuthSpec_type, PushSignatureAuthSpec_DeepCopy); (PushAuthSpec_type, PushAuthSpec_DeepCopy);
  (PushSpec_type, PushSpec_DeepCopy); (HTTPConfig_type, HTTPConfig_DeepCopy);
  (InputSpec_type, InputSpec_DeepCopy); (InputStatus_type, InputStatus_DeepCopy);
  (Input_type, Input_DeepCopy); (InputList_type, InputList_DeepCopy);
  (InputSelector_type, InputSelector_DeepCopy); (OutputServiceSpec_type, OutputServiceSpec_DeepCopy);
  (ServiceReference_type, ServiceReference_DeepCopy); (ServiceSelector_type, ServiceSelector_DeepCopy);
  (OutputSpec_type, OutputSpec_DeepCopy); (OutputStatus_type, OutputStatus_DeepCopy);
  (Output_type, Output_DeepCopy); (OutputList_type, OutputList_DeepCopy);
  (OutputSelector_type, OutputSelector_DeepCopy); (PipelineSpec_type, PipelineSpec_DeepCopy);
  (PipelineStatus_type, PipelineStatus_DeepCopy); (Pipeline_type, Pipeline_DeepCopy);
  (PipelineList_type, PipelineList_DeepCopy); (ProcessorSpec_type, ProcessorSpec_DeepCopy);
  (ProcessorStatus_type, ProcessorStatus_DeepCopy); (Processor_type, Processor_DeepCopy);
  (ProcessorList_type, ProcessorList_DeepCopy); (ProviderSpec_type, ProviderSpec_DeepCopy);
  (SubscriptionHistoryConfig_type, SubscriptionHistoryConfig_DeepCopy);
  (SubscriptionSpec_type, SubscriptionSpec_DeepCopy); (SubscriptionStatus_type, SubscriptionStatus_DeepCopy);
  (Subscription_type, Subscription_DeepCopy); (SubscriptionList_type, SubscriptionList_DeepCopy);
  (TargetSpec_type, TargetSpec_DeepCopy); (TargetStatus_type, TargetStatus_DeepCopy);
  (Target_type, Target_DeepCopy); (TargetList_type, TargetList_DeepCopy);
  (TargetTLSConfig_type, TargetTLSConfig_DeepCopy); (TargetProfileSpec_type, TargetProfileSpec_DeepCopy);
  (TargetProfileStatus_type, TargetProfileStatus_DeepCopy); (TargetProfile_type, TargetProfile_DeepCopy);
  (TargetProfileList_type, TargetProfileList_DeepCopy); (TargetSourceSpec_type, TargetSourceSpec_DeepCopy);
  (TargetSourceStatus_type, TargetSourceStatus_DeepCopy); (TargetSource_type, TargetSource_DeepCopy);
  (TargetSourceList_type, TargetSourceList_DeepCopy);
  (TunnelTargetPolicySpec_type, TunnelTargetPolicySpec_DeepCopy);
  (TunnelTargetPolicyStatus_type, TunnelTargetPolicyStatus_DeepCopy);
  (TunnelTargetPolicy_type, TunnelTargetPolicy_DeepCopy);
  (TunnelTargetPolicyList_type, TunnelTargetPolicyList_DeepCopy)].

(** The ones that are objects of the API, with their name. *)
Definition all_objects : list (string * shape * (gval → mem (option (string * loc)))) := [
  ("Cluster", Cluster_type, Cluster_DeepCopyObject);
  ("ClusterList", ClusterList_type, ClusterList_DeepCopyObject); ("Input", Input_type, Input_DeepCopyObject);
  ("InputList", InputList_type, InputList_DeepCopyObject); ("Output", Output_type, Output_DeepCopyObject);
  ("OutputList", OutputList_type, OutputList_DeepCopyObject);
  ("Pipeline", Pipeline_type, Pipeline_DeepCopyObject);
  ("PipelineList", PipelineList_type, PipelineList_DeepCopyObject);
  ("Processor", Processor_type, Processor_DeepCopyObject);
  ("ProcessorList", ProcessorList_type, ProcessorList_DeepCopyObject);
  ("Subscription", Subscription_type, Subscription_DeepCopyObject);
  ("SubscriptionList", SubscriptionList_type, SubscriptionList_DeepCopyObject);
  ("Target", Target_type, Target_DeepCopyObject); ("TargetList", TargetList_type, TargetList_DeepCopyObject);
  ("TargetProfile", TargetProfile_type, TargetProfile_DeepCopyObject);
  ("TargetProfileList", TargetProfileList_type, TargetProfileList_DeepCopyObject);
  ("TargetSource", TargetSource_type, TargetSource_DeepCopyObject);
  ("TargetSourceList", TargetSourceList_type, TargetSourceList_DeepCopyObject);
  ("TunnelTargetPolicy", TunnelTargetPolicy_type, TunnelTargetPolicy_DeepCopyObject);
  ("TunnelTargetPolicyList", TunnelTargetPolicyList_type, TunnelTargetPolicyList_DeepCopyObject)].
End Generated.

(** ** Each copier covers its type *)

Section Deep.
Context `{R : GoRuntime} `{XL : ExternalLaws}.

(** Field by field: an assignment where there is no reference, the copier of the type
    otherwise. *)
Ltac deep := refine (copies_struct _ _ _);
  repeat (apply TCForall_cons; [cbn [fst snd field_copier String.eqb Ascii.eqb Bool.eqb andb]; typeclasses eauto|]); apply TCForall_nil.

#[export] Instance ClusterTLSConfig_copies : Copies ClusterTLSConfig_type ClusterTLSConfig_DeepCopyInto.
Proof. deep. Qed.
#[export] Instance APIConfig_copies : Copies APIConfig_type APIConfig_DeepCopyInto.
Proof. deep. Qed.
#[export] Instance BasicAuthSpec_copies : Copies BasicAuthSpec_type BasicAuthSpec_DeepCopyInto.
Proof. deep. Qed.
#[export] Instance TokenAuthSpec_copies : Copies TokenAuthSpec_type TokenAuthSpec_DeepCopyInto.
Proof. deep. Qed.
#[export] Instance AuthenticationSpec_copies : Copies AuthenticationSpec_type AuthenticationSpec_DeepCopyInto.
Proof. deep. Qed.
#[export] Instance ClientTLSConfig_copies : Copies ClientTLSConfig_type ClientTLSConfig_DeepCopyInto.
Proof. deep. Qed.
#[export] Instance ServiceConfig_copies : Copies ServiceConfig_type ServiceConfig_DeepCopyInto.
Proof. deep. Qed.
#[export] Instance GRPCTunnelConfig_copies : Copies GRPCTunnelConfig_type GRPCTunnelConfig_DeepCopyInto.
Proof. deep. Qed.
#[export] Instance TargetDistributionConfig_copies : Copies TargetDistributionConfig_type TargetDistributionConfig_DeepCopyInto.
Proof. deep. Qed.
#[export] Instance ClusterSpec_copies : Copies ClusterSpec_type ClusterSpec_DeepCopyInto.
Proof. deep. Qed.
#[export] Instance ClusterStatus_copies : Copies ClusterStatus_type ClusterStatus_DeepCopyInto.
Proof. deep. Qed.
#[export] Instance Cluster_copies : Copies Cluster_type Cluster_DeepCopyInto.
Proof. deep. Qed.
#[export] Instance ClusterList_copies : Copies ClusterList_type ClusterList_DeepCopyInto.
Proof. deep. Qed.
#[export] Instance ClusterTargetState_copies : Copies ClusterTargetState_type ClusterTargetState_DeepCopyInto.
Proof. deep. Qed.
#[export] Instance GRPCKeepAliveConfig_copies : Copies GRPCKeepAliveConfig_type GRPCKeepAliveConfig_DeepCopyInto.
Proof. deep. Qed.
#[export] Instance PaginationSpec_copies : Copies PaginationSpec_type PaginationSpec_DeepCopyInto.
Proof. deep. Qed.
#[export] Instance ResponseMappingSpec_copies : Copies ResponseMappingSpec_type ResponseMappingSpec_DeepCopyInto.
Proof. deep. Qed.
#[export] Instance PushBearerAuthSpec_copies : Copies PushBearerAuthSpec_type PushBearerAuthSpec_DeepCopyInto.
Proof. deep. Qed.
#[export] Instance PushSignatureAuthSpec_copies : Copies PushSignatureAuthSpec_type PushSignatureAuthSpec_DeepCopyInto.
Proof. deep. Qed.
#[export] Instance PushAuthSpec_copies : Copies PushAuthSpec_type PushAuthSpec_DeepCopyInto.
Proof. deep. Qed.
#[export] Instance PushSpec_copies : Copies PushSpec_type PushSpec_DeepCopyInto.
Proof. deep. Qed.
#[export] Instance HTTPConfig_copies : Copies HTTPConfig_type HTTPConfig_DeepCopyInto.
Proof. deep. Qed.
#[export] Instance InputSpec_copies : Copies InputSpec_type InputSpec_DeepCopyInto.
Proof. deep. Qed.
#[export] Instance InputStatus_copies : Copies InputStatus_type InputStatus_DeepCopyInto.
Proof. deep. Qed.
#[export] Instance Input_copies : Copies Input_type Input_DeepCopyInto.
Proof. deep. Qed.
#[export] Instance InputList_copies : Copies InputList_type InputList_DeepCopyInto.
Proof. deep. Qed.
#[export] Instance InputSelector_copies : Copies InputSelector_type InputSelector_DeepCopyInto.
Proof. deep. Qed.
#[export] Instance OutputServiceSpec_copies : Copies OutputServiceSpec_type OutputServiceSpec_DeepCopyInto.
Proof. deep. Qed.
#[export] Instance ServiceReference_copies : Copies ServiceReference_type ServiceReference_DeepCopyInto.
Proof. deep. Qed.
#[export] Instance ServiceSelector_copies : Copies ServiceSelector_type ServiceSelector_DeepCopyInto.
Proof. deep. Qed.
#[export] Instance OutputSpec_copies : Copies OutputSpec_type OutputSpec_DeepCopyInto.
Proof. deep. Qed.
#[export] Instance OutputStatus_copies : Copies OutputStatus_type OutputStatus_DeepCopyInto.
Proof. deep. Qed.
#[export] Instance Output_copies : Copies Output_type Output_DeepCopyInto.
Proof. deep. Qed.
#[export] Instance OutputList_copies : Copies OutputList_type OutputList_DeepCopyInto.
Proof. deep. Qed.
#[export] Instance OutputSelector_copies : Copies OutputSelector_type OutputSelector_DeepCopyInto.
Proof. deep. Qed.
#[export] Instance PipelineSpec_copies : Copies PipelineSpec_type PipelineSpec_DeepCopyInto.
Proof. deep. Qed.
#[export] Instance PipelineStatus_copies : Copies PipelineStatus_type PipelineStatus_DeepCopyInto.
Proof. deep. Qed.
#[export] Instance Pipeline_copies : Copies Pipeline_type Pipeline_DeepCopyInto.
Proof. deep. Qed.
#[export] Instance PipelineList_copies : Copies PipelineList_type PipelineList_DeepCopyInto.
Proof. deep. Qed.
#[export] Instance ProcessorSpec_copies : Copies ProcessorSpec_type ProcessorSpec_DeepCopyInto.
Proof. deep. Qed.
#[export] Instance ProcessorStatus_copies : Copies ProcessorStatus_type ProcessorStatus_DeepCopyInto.
Proof. deep. Qed.
#[export] Instance Processor_copies : Copies Processor_type Processor_DeepCopyInto.
Proof. deep. Qed.
#[export] Instance ProcessorList_copies : Copies ProcessorList_type ProcessorList_DeepCopyInto.
Proof. deep. Qed.
#[export] Instance ProviderSpec_copies : Copies ProviderSpec_type ProviderSpec_DeepCopyInto.
Proof. deep. Qed.
#[export] Instance SubscriptionHistoryConfig_copies : Copies SubscriptionHistoryConfig_type SubscriptionHistoryConfig_DeepCopyInto.
Proof. deep. Qed.
#[export] Instance SubscriptionSpec_copies : Copies SubscriptionSpec_type SubscriptionSpec_DeepCopyInto.
Proof. deep. Qed.
#[export] Instance SubscriptionStatus_copies : Copies SubscriptionStatus_type SubscriptionStatus_DeepCopyInto.
Proof. deep. Qed.
#[export] Instance Subscription_copies : Copies Subscription_type Subscription_DeepCopyInto.
Proof. deep. Qed.
#[export] Instance SubscriptionList_copies : Copies SubscriptionList_type SubscriptionList_DeepCopyInto.
Proof. deep. Qed.
#[export] Instance TargetSpec_copies : Copies TargetSpec_type TargetSpec_DeepCopyInto.
Proof. deep. Qed.
#[export] Instance TargetStatus_copies : Copies TargetStatus_type TargetStatus_DeepCopyInto.
Proof. deep. Qed.
#[export] Instance Target_copies : Copies Target_type Target_DeepCopyInto.
Proof. deep. Qed.
#[export] Instance TargetList_copies : Copies TargetList_type TargetList_DeepCopyInto.
Proof. deep. Qed.
#[export] Instance TargetTLSConfig_copies : Copies TargetTLSConfig_type TargetTLSConfig_DeepCopyInto.
Proof. deep. Qed.
#[export] Instance TargetProfileSpec_copies : Copies TargetProfileSpec_type TargetProfileSpec_DeepCopyInto.
Proof. deep. Qed.
#[export] Instance TargetProfileStatus_copies : Copies TargetProfileStatus_type TargetProfileStatus_DeepCopyInto.
Proof. deep. Qed.
#[export] Instance TargetProfile_copies : Copies TargetProfile_type TargetProfile_DeepCopyInto.
Proof. deep. Qed.
#[export] Instance TargetProfileList_copies : Copies TargetProfileList_type TargetProfileList_DeepCopyInto.
Proof. deep. Qed.
#[export] Instance TargetSourceSpec_copies : Copies TargetSourceSpec_type TargetSourceSpec_DeepCopyInto.
Proof. deep. Qed.
#[export] Instance TargetSourceStatus_copies : Copies TargetSourceStatus_type TargetSourceStatus_DeepCopyInto.
Proof. deep. Qed.
#[export] Instance TargetSource_copies : Copies TargetSource_type TargetSource_DeepCopyInto.
Proof. deep. Qed.
#[export] Instance TargetSourceList_copies : Copies TargetSourceList_type TargetSourceList_DeepCopyInto.
Proof. deep. Qed.
#[export] Instance TunnelTargetPolicySpec_copies : Copies TunnelTargetPolicySpec_type TunnelTargetPolicySpec_DeepCopyInto.
Proof. deep. Qed.
#[export] Instance TunnelTargetPolicyStatus_copies : Copies TunnelTargetPolicyStatus_type TunnelTargetPolicyStatus_DeepCopyInto.
Proof. deep. Qed.
#[export] Instance TunnelTargetPolicy_copies : Copies TunnelTargetPolicy_type TunnelTargetPolicy_DeepCopyInto.
Proof. deep. Qed.
#[export] Instance TunnelTargetPolicyList_copies : Copies TunnelTargetPolicyList_type TunnelTargetPolicyList_DeepCopyInto.
Proof. deep. Qed.

Lemma all_copies T c : (T, c) ∈ all_types → Copies (Ptr T) c.
Proof.
  intros Hin. repeat (apply elem_of_cons in Hin as [[= -> ->]|Hin]; [apply copies_ptr; typeclasses eauto|]).
  by apply elem_of_nil in Hin.
Qed.

(** A call through [runtime.Object] copies likewise, and gives the nil interface for nil. *)
Lemma object_copies N T c h r : Copies (Ptr T) c → typed (Ptr T) h r → ∃ h' o, object N c r h = Some (h', o) ∧
  match o with
  | None => r = Ref None
  | Some (N', l) => N' = N ∧ (l ∉ dom h) ∧ isolated (Ptr T) h r h' (Ref (Some l))
  end.
Proof.
  intros Hc Hr. destruct (copies_isolated _ _ h r Hc Hr) as (h' & r' & E & Hi).
  destruct (Hc h h r Hr (reflexivity _)) as (h2 & r2 & E2 & _ & Hcp). rewrite E in E2. injection E2 as <- <-.
  unfold object, mbind, mem_bind. rewrite E. rewrite copy_of_ptr in Hcp.
  destruct Hcp as [[-> ->]|(l & l' & x & x' & -> & -> & Hn & _)]; [by exists h', None|by exists h', (Some (N, l'))].
Qed.

(** C31: the generated deep copies are deep.  For each of the types of the API, [DeepCopy]
    of a pointer to a value of the type does not panic and gives a pointer to an equal value
    that shares nothing with it: whatever is then written to the memory there was, the copy
    stays what the original was, and whatever is written through the copy, the original
    stays as it is.  [DeepCopyObject] gives that copy as an object of its type, and the nil
    interface for nil. *)
Theorem deepcopies_isolated :
  (∀ T c h r, (T, c) ∈ all_types → typed (Ptr T) h r → ∃ h' r', c r h = Some (h', r') ∧ isolated (Ptr T) h r h' r') ∧
  (∀ N T f h r, (N, T, f) ∈ all_objects → typed (Ptr T) h r → ∃ h' o, f r h = Some (h', o) ∧
    match o with
    | None => r = Ref None
    | Some (N', l) => N' = N ∧ (l ∉ dom h) ∧ isolated (Ptr T) h r h' (Ref (Some l))
    end).
Proof.
  split; [intros T c h r Hin; by apply copies_isolated, all_copies|]. intros N T f h r Hin Hr.
  repeat (apply elem_of_cons in Hin as [[= -> -> ->]|Hin]; [apply object_copies; [apply copies_ptr; typeclasses eauto|exact Hr]|]).
  by apply elem_of_nil in Hin.
Qed.
End Deep.

(** ** Witness *)

Module DeepDemo.
(** Metadata and selectors with their labels; the rest without references. *)
#[export] Instance external : External := {|
  ext_shape := λ e, match e with
    | ObjectMeta => Struct [("Name", Flat); ("Labels", Map Flat)]
    | LabelSelector => Struct [("MatchLabels", Map Flat)]
    | _ => Flat end;
  ext_DeepCopyInto := λ e, match e with
    | ObjectMeta => struct [("Labels", map_of (R := go_reference) shallow)]
    | LabelSelector => struct [("MatchLabels", map_of (R := go_reference) shallow)]
    | _ => shallow end
|}.

#[export] Instance external_laws : ExternalLaws.
Proof.
  split. intros []; cbn [ext_shape ext_DeepCopyInto external]; try (apply copies_shallow; reflexivity);
    (apply copies_struct; repeat (apply TCForall_cons; [cbn [fst snd field_copier String.eqb Ascii.eqb Bool.eqb andb]; typeclasses eauto|]); apply TCForall_nil).
Qed.

(** A Target with a label and the state a cluster reported. *)
Definition state : gval := Fields [("Pod", Text "gnmic-c1-0"); ("State", Text "running"); ("FailedReason", Text "");
  ("ConnectionState", Text "READY"); ("Subscriptions", Ref (Some 4%positive)); ("LastUpdated", Word 7)].
Definition target : gval := Fields [("TypeMeta", Text "Target");
  ("ObjectMeta", Fields [("Name", Text "t1"); ("Labels", Ref (Some 2%positive))]);
  ("Spec", Fields [("Address", Text "10.0.0.1:57400"); ("Profile", Text "p")]);
  ("Status", Fields [("Clusters", Word 1); ("State", Text "READY"); ("ClusterStates", Ref (Some 3%positive))])].
Definition memory : heap := {[ 1%positive := CVal target; 2%positive := CMap {[ "site" := Text "a" ]};
  3%positive := CMap {[ "c1" := state ]}; 4%positive := CMap {[ "s1" := Text "running" ]} ]}.

Lemma memory_at : memory !! 1%positive = Some (CVal target) ∧ memory !! 2%positive = Some (CMap {[ "site" := Text "a" ]}) ∧
  memory !! 3%positive = Some (CMap {[ "c1" := state ]}) ∧ memory !! 4%positive = Some (CMap {[ "s1" := Text "running" ]}).
Proof. split_and!; reflexivity. Qed.

(** Goes down the shape of a value. *)
Ltac known := apply memory_at.
Ltac shaped := lazymatch goal with |- copy_of ?D ?h ?h' ?T ?v ?v' =>
  let T' := eval hnf in T in
  lazymatch T' with
  | Flat => split; reflexivity
  | Struct _ => apply copy_of_struct; do 2 eexists; split; [reflexivity|split; [reflexivity|]]; cbn [fields_rel];
      repeat (split; [reflexivity|split; [reflexivity|split; [shaped|]]]); exact I
  | Ptr ?S => apply (copy_of_ptr D h h' S); right; do 4 eexists; split_and!;
      [reflexivity|reflexivity|apply not_elem_of_empty|known|known|]; do 2 eexists; split; [reflexivity|split; [reflexivity|]]; shaped
  | Map ?S => apply (copy_of_map D h h' S); right; do 4 eexists; split_and!;
      [reflexivity|reflexivity|apply not_elem_of_empty|known|known|]; do 2 eexists; split; [reflexivity|split; [reflexivity|]];
      let k := fresh "k" in intros k;
      match goal with |- option_Forall2 _ ({[ ?k0 := _ ]} !! k) _ => destruct (decide (k = k0)) as [->|] end;
      [rewrite lookup_singleton_eq; constructor; shaped|rewrite lookup_singleton_ne by congruence; constructor]
  end end.

Lemma target_typed : typed (Ptr Target_type) memory (Ref (Some 1%positive)).
Proof. unfold typed. shaped. Qed.

(** Its copy, and a label of the original changed after that. *)
Definition copied_target := Target_DeepCopy (R := go_reversed) (Ref (Some 1%positive)) memory.

Example target_copied : snd <$> copied_target = Some (Ref (Some 5%positive)).
Proof. vm_compute. reflexivity. Qed.
End DeepDemo.

Import DeepDemo.

Lemma deepcopies_isolated_witness : ∃ h' r', DeepDemo.copied_target = Some (h', r') ∧
  equal_in (Ptr Target_type) DeepDemo.memory (<[2%positive := CMap {[ "site" := Text "b" ]}]> h') (Ref (Some 1%positive)) r'.
Proof.
  destruct (proj1 (deepcopies_isolated (R := go_reversed)) Target_type (Target_DeepCopy (R := go_reversed)) DeepDemo.memory (Ref (Some 1%positive)))
    as (h' & r' & E & H & _).
  - unfold all_types. repeat (first [left|right]).
  - exact DeepDemo.target_typed.
  - exists h', r'. split; [exact E|]. apply H. intros l Hl. apply lookup_insert_ne. intros <-. apply Hl. apply elem_of_dom.
    exists (CMap {[ "site" := Text "a" ]}). vm_compute. reflexivity.
Defined.
