(* ===== verification/EndToEnd.v ===== *)
(** From the Targets users select to the pods that collect from them: the resolution of the
    pipelines, the plan, its distribution and its delivery, in one statement. *)

From S2P Require Import Prelude GoLib Api GnmicTypes Distribute TargetConfigs OutputConfigs PlanBuilder.
From S2P Require Import ClusterClient Resolve Watch ClusterPlan PipelineStatus Kube Names Services Certificates Workload PodApi ClusterReconcile Progress Convergence.
From Stdlib Require Import Ascii.
#[local] Open Scope Z_scope.

Section EndToEnd.
Context {W : Type} `{L : ApiLaws W} `{PC : PipelineClient W} `{F : !Files W} `{H : !PodHTTP W} {J : PodJSON} `{E : ErrorText}.
Context `{P : !PodStore W} `{PL : !PodLaws W} `{PF : !PodFrame W} `{PP : !PipelineFrame W}.
Context `{Y : YAML} {YM : YAMLMarshal} `{YL : YAMLListen} `{Fmt : Format} `{Sel : Selectors} (ClusterDomain : string).
Context `{Lpl : ReaderLaws PipelineSpec PipelineStatus} `{Lt : ReaderLaws TargetSpec TargetStatus}
  `{Ltp : ReaderLaws TargetProfileSpec unit} `{Rsub : Reader SubscriptionSpec unit}
  `{Ro : Reader OutputSpec unit} `{Ri : Reader InputSpec unit} `{Rpr : Reader ProcessorSpec unit}
  `{Ltt : ReaderLaws TunnelTargetPolicySpec unit} `{Rsvc : Reader CoreServiceSpec unit}
  `{Rsec : Reader SecretSpec unit}.
Context (G G1 G2 : GoRuntime).

(** A target some pipeline of the cluster asks for. *)
Definition asked_for (cluster : Cluster) (k : string) : Prop :=
  ∃ p t, pipeline_of cluster p ∧ ¬ skipped cluster p ∧ chosen_target p t ∧ nn t = k.

(** Pod [i] runs a plan with exactly the targets [S], each configured as the cluster's plan
    has it, and with that plan's subscriptions and outputs. *)
Definition runs_part (w : W) (cluster : Cluster) (plan : ApplyPlan) (i : Z) (S : string → Prop) : Prop :=
  ∃ podPlan, runs_plan w (podBaseURL ClusterDomain cluster i) podPlan ∧
    (∀ k, is_Some (AP_Targets podPlan !! k) ↔ S k) ∧
    (∀ k, S k → AP_Targets podPlan !! k = AP_Targets plan !! k) ∧
    AP_Subscriptions podPlan = AP_Subscriptions plan ∧ AP_Outputs podPlan = AP_Outputs plan.

Definition division (cluster : Cluster) (plan : ApplyPlan) (sts : obj KStatefulSet) : DistributeResult :=
  DistributeTargets (R := G1) plan (desiredReplicas sts) (CS_TargetDistribution (Spec cluster)).

(** The targets the pipelines ask for are the ones the plan is divided into, each given to
    one pod or counted unassigned; and every pod with a part runs it, and no target
    besides.  With no replicas the division is that for one pod, which is told nothing. *)
Definition all_collected (w : W) (cluster : Cluster) (plan : ApplyPlan) (sts : obj KStatefulSet) : Prop :=
  let n := desiredReplicas sts in
  let r := division cluster plan sts in
  (∀ k, asked_for cluster k ↔ k ∈ UnassignedTargets r ∨ ∃ i, runs_on r i k) ∧
  (∀ k i, runs_on r i k → 0 ≤ i < 1 `max` n) ∧
  (∀ k i j, runs_on r i k → runs_on r j k → i = j) ∧ (∀ k i, runs_on r i k → k ∉ UnassignedTargets r) ∧
  ∀ i, 0 ≤ i < n → is_Some (PerPodPlans r !! i) → runs_part w cluster plan i (runs_on r i).

(** A reconciliation ended in [w'] with the plan cached, the pods up and their targets. *)
Definition ended_with (cluster : Cluster) (plans' : Plans) (w' : W) (plan : ApplyPlan) (sts : obj KStatefulSet) : Prop :=
  plans' !! cluster_key cluster = Some plan ∧
  view w' KStatefulSet !! in_ns cluster (stsName cluster) = Some sts ∧ desiredReplicas sts ≤ podsReady sts ∧
  all_collected w' cluster plan sts.

Definition delivered (cluster : Cluster) (plans' : Plans) (w' : W) : Prop := ∃ plan sts, ended_with cluster plans' w' plan sts.

(** The pods the division gives nothing are as they were. *)
Definition others_kept (cluster : Cluster) (plan : ApplyPlan) (sts : obj KStatefulSet) (w w' : W) : Prop :=
  ∀ base, (∀ i, 0 ≤ i < desiredReplicas sts → is_Some (PerPodPlans (division cluster plan sts) !! i) →
             base ≠ podBaseURL ClusterDomain cluster i) → pod w' base = pod w base.

Lemma parts_run req cluster (plans plans' : Plans) (w w' : W) :
  no_byte "/"%char (Namespace (Meta cluster)) = true → live w req cluster →
  Reconcile ClusterDomain G G1 G2 req (plans, w) = ((plans', w'), Ok done_result) →
  ∃ plan sts, ended_with cluster plans' w' plan sts ∧ others_kept cluster plan sts w w'.
Proof.
  intros Hns Hl Hr. destruct (reconcile_converges_Ok ClusterDomain G G1 G2 req cluster plans plans' w w' Hl Hr)
    as (dataMap & calls & plan & ports & sts & desired & cm & HB & Hplan & _ & Hv & _ & Hready & Hpods & Hoff).
  destruct (plan_covers_targets_Ok (R := G) ClusterDomain G1 G2 cluster dataMap calls plan Hns HB) as [Hcov _].
  assert (current_consistent (with_ports plan ports)) as Hc by exact (plan_current_consistent (R := G) ClusterDomain G1 G2 cluster dataMap calls plan Hns HB).
  destruct (distribute_partitions_Ok (R := G1) _ (desiredReplicas sts) (CS_TargetDistribution (Spec cluster)) Hc) as (Q1 & Q2 & Q3 & Q4).
  exists (with_ports plan ports), sts. split; [|exact Hoff]. split; [done|]. split; [done|]. split; [done|].
  split; [|split; [|split; [done|split; [done|]]]].
  - intros k. transitivity (is_Some (AP_Targets plan !! k)); [symmetry; apply Hcov|].
    exact (Q1 k).
  - intros k i (pp & Hpp & Hk). exact (proj1 (Q4 i pp Hpp)).
  - intros i Hi [pp Hpp]. destruct (Q4 i pp Hpp) as (_ & (S1 & S2 & _) & Hsame). exists pp.
    split; [exact (proj1 (Hpods i pp Hi Hpp))|]. split; [|split; [|by split]].
    + intros k. unfold runs_on. split; [by exists pp|]. intros (pp' & Hpp' & Hk).
      assert (pp' = pp) as -> by (apply (inj Some); exact (eq_trans (eq_sym Hpp') Hpp)). done.
    + intros k (pp' & Hpp' & Hk).
      assert (pp' = pp) as -> by (apply (inj Some); exact (eq_trans (eq_sym Hpp') Hpp)). by apply Hsame.
Qed.

Lemma done_delivers req cluster (plans plans' : Plans) (w w' : W) :
  no_byte "/"%char (Namespace (Meta cluster)) = true → live w req cluster →
  Reconcile ClusterDomain G G1 G2 req (plans, w) = ((plans', w'), Ok done_result) → delivered cluster plans' w'.
Proof. intros Hns Hl Hr. destruct (parts_run req cluster plans plans' w w' Hns Hl Hr) as (plan & sts & H1 & _). by exists plan, sts. Qed.


(** Over an API server that takes what it is given and pods that answer, one reconciliation
    of a cluster whose certificates are issued and whose pods are up, whatever else its
    objects are, returns with nothing left to do, and the pods then collect from the Targets
    the pipelines ask for. *)
Theorem settled_cluster_collects `{HS : !ApiServes W} `{PA : !PipelinesApart W} req cluster (plans : Plans) (w : W) :
  no_byte "/"%char (Namespace (Meta cluster)) = true → live w req cluster →
  workable ClusterDomain G G1 G2 cluster → settled cluster w → PodsAnswer W →
  ∃ plans' w', Reconcile ClusterDomain G G1 G2 req (plans, w) = ((plans', w'), Ok done_result) ∧
    delivered cluster plans' w'.
Proof.
  intros Hns Hl Hwk Hs Ha. destruct (reconcile_completes_Ok ClusterDomain G G1 G2 req cluster plans w Hl Hwk Hs) as (plans' & w' & Er).
  exists plans', w'. split; [exact Er|]. by eapply done_delivers.
Qed.

Lemma delivered_within_five `{HS : !ApiServes W} `{PA : !PipelinesApart W} req cluster (plans : Plans) (w : W) :
  no_byte "/"%char (Namespace (Meta cluster)) = true → live w req cluster →
  workable ClusterDomain G G1 G2 cluster → issuer_there cluster w → PodsAnswer W →
  within ClusterDomain G G1 G2 req cluster 5 (delivered cluster) plans w.
Proof.
  intros Hns Hl Hwk Hi Ha. pose proof Hwk as [(replicas & Hrep & Hmax) _].
  apply (within_mono _ _ _ _ _ _ _ (ended ClusterDomain G G1 G2 req cluster)).
  - intros plans' w' (plans0 & w0 & Hl0 & Er). by eapply done_delivers.
  - by apply (within_five _ _ _ _ _ _ replicas).
Qed.

(** C2: and it gets there.  Over an API server that takes what it is given and pods that
    answer, with the pipelines, targets, profiles and the other resources of the cache the
    same throughout, a live cluster that can be worked with is reconciled at most five
    times, whatever state its owned objects are in and whatever others do to objects
    and pods between two reconciliations, as long as the certificates asked for are
    issued, the pods asked for are started, the issuer's CA is there and nobody edits the
    cluster: one of the reconciliations returns with nothing left to do, the others return
    without an error, and every pod that the division of the plan then gives a part runs
    exactly that part of the Targets the pipelines ask for, those left out being counted
    unassigned.  (Pods with no part are told nothing, see [selected_targets_collected].) *)
Theorem collects_within_five `{HS : !ApiServes W} `{PA : !PipelinesApart W} req cluster (plans : Plans) (w : W) :
  no_byte "/"%char (Namespace (Meta cluster)) = true → live w req cluster →
  workable ClusterDomain G G1 G2 cluster → issuer_there cluster w → PodsAnswer W →
  within ClusterDomain G G1 G2 req cluster 5 (delivered cluster) plans w.
Proof. apply delivered_within_five. Qed.
End EndToEnd.

(** ** Witness *)

#[local] Existing Instances LifeDemo.profiles LifeDemo.subscriptions LifeDemo.outputs LifeDemo.inputs LifeDemo.policies
  LifeDemo.services LifeDemo.secrets demo_pipelines demo_target_cache demo_processor_cache demo_yaml WorkloadDemo.yaml
  LifeDemo.listen LifeDemo.format LifeDemo.pipelines LifeDemo.pipelines_frame.

Import PodDemo.

#[local] Existing Instances demo_pipelines_stored demo_targets_stored.
#[local] Instance demo_policies_stored : Stored TunnelTargetPolicySpec unit := map_stored [].


(** With TLS on the API, from a server that holds nothing but the cluster and its CA; and
    there are others who do what they should. *)
Lemma collects_within_five_witness :
  within "cluster.local" go_reference go_reference go_reversed LifeDemo.req ProgressDemo.cluster 5
    (delivered "cluster.local" go_reference ProgressDemo.cluster) ∅ ProgressDemo.start ∧
  elsewhere ProgressDemo.cluster ProgressDemo.start (ConvergenceDemo.others ProgressDemo.start).
Proof.
  refine (conj (collects_within_five (W := World) (PA := ProgressDemo.apart) (Y := demo_yaml) "cluster.local"
    (Lpl := map_reader_laws [demo_pipeline_cr]) (Lt := map_reader_laws demo_targets)
    (Ltp := map_reader_laws [demo_profile_cr]) (Ltt := map_reader_laws []) go_reference go_reference go_reversed
    LifeDemo.req ProgressDemo.cluster ∅ ProgressDemo.start eq_refl ConvergenceDemo.live_from_nothing
    WorkableDemo.workable_up ConvergenceDemo.issuer_start ProgressDemo.answers)
    (ConvergenceDemo.others_elsewhere ProgressDemo.cluster ProgressDemo.start ConvergenceDemo.issuer_start)).
Defined.

(** With the certificates issued and the pods up, one is enough. *)
Lemma settled_cluster_collects_witness :
  ∃ plans' w', Reconcile "cluster.local" go_reference go_reference go_reversed LifeDemo.req (ProgressDemo.second.1.1, ProgressDemo.up) =
      ((plans', w'), Ok done_result) ∧
    delivered "cluster.local" go_reference ProgressDemo.cluster plans' w'.
Proof.
  exact (settled_cluster_collects (W := World) (PA := ProgressDemo.apart) (Y := demo_yaml) "cluster.local"
    (Lpl := map_reader_laws [demo_pipeline_cr]) (Lt := map_reader_laws demo_targets)
    (Ltp := map_reader_laws [demo_profile_cr]) (Ltt := map_reader_laws []) go_reference go_reference go_reversed
    LifeDemo.req ProgressDemo.cluster ProgressDemo.second.1.1 ProgressDemo.up eq_refl ProgressDemo.live_tls
    WorkableDemo.workable_up ProgressDemo.settled_up ProgressDemo.answers).
Defined.
