(* ===== verification/SourceToPods.v ===== *)
(** From the targets a source discovers to the pods that collect from them: the chunks of a
    snapshot, the Targets made of it, the cache that holds them, and the reconciliations of a
    cluster whose pipelines select them. *)

From S2P Require Import Prelude GoLib Api KubeClient Discovery MessageProcessor.
From S2P Require Import GnmicTypes Distribute TargetConfigs OutputConfigs PlanBuilder.
From S2P Require Import ClusterClient Resolve Watch ClusterPlan PipelineStatus Kube Names Services Certificates Workload PodApi ClusterReconcile.
From S2P Require Import Progress Convergence EndToEnd.
From Stdlib Require Import Ascii.
#[local] Open Scope Z_scope.

Section SourceToPods.
Context {K : Type} `{KL : KubeLaws K} `{Rl : !Reliable K}.
Context {W : Type} `{L : ApiLaws W} `{PC : PipelineClient W} `{F : !Files W} `{H : !PodHTTP W} {J : PodJSON} `{E : ErrorText}.
Context `{P : !PodStore W} `{PL : !PodLaws W} `{PF : !PodFrame W} `{PP : !PipelineFrame W} `{HS : !ApiServes W} `{PA : !PipelinesApart W}.
Context `{Y : YAML} {YM : YAMLMarshal} `{YL : YAMLListen} `{Fmt : Format} `{Sel : Selectors} (ClusterDomain : string).
Context `{Lpl : ReaderLaws PipelineSpec PipelineStatus} `{Lt : ReaderLaws TargetSpec TargetStatus}
  `{Ltp : ReaderLaws TargetProfileSpec unit} `{Rsub : Reader SubscriptionSpec unit}
  `{Ro : Reader OutputSpec unit} `{Ri : Reader InputSpec unit} `{Rpr : Reader ProcessorSpec unit}
  `{Ltt : ReaderLaws TunnelTargetPolicySpec unit} `{Rsvc : Reader CoreServiceSpec unit}
  `{Rsec : Reader SecretSpec unit}.
Context (G G1 G2 : GoRuntime).

(** The informer cache holds the Targets the API server holds, whatever their status. *)
Definition caught_up (k : K) : Prop := ∀ nn, option_Forall2 same_object ((stored : gmap NamespacedName Target) !! nn) (targets_of k !! nn).

(** An enabled pipeline of the cluster selects all Targets that carry the label of the
    source. *)
Definition selects_source (cluster : Cluster) (ts : TargetSource) : Prop :=
  ∃ p, pipeline_of cluster p ∧ ¬ skipped cluster p ∧
    ∀ labels, labels !! source_label = Some (Name (Meta ts)) → selected (PL_TargetSelectors (Spec p)) labels.

(** The name of a Target of the namespace in the plan. *)
Definition in_plan (ns name : string) : string := ns +:+ Delimiter +:+ name.

Lemma asked_in_namespace cluster k : asked_for cluster k →
  ∃ t : Target, object_of (Namespace (Meta cluster)) t ∧ k = in_plan (Namespace (Meta cluster)) (Name (Meta t)).
Proof.
  intros (p & t & [[_ Hns] _] & _ & [Hobj _] & <-). rewrite Hns in Hobj. exists t. split; [done|].
  unfold nn, in_plan. by destruct Hobj as [_ ->].
Qed.

Lemma cached_target k nn t : caught_up k → targets_of k !! nn = Some t →
  ∃ c : Target, (stored : gmap NamespacedName Target) !! nn = Some c ∧ same_object c t.
Proof. intros Hc Ht. specialize (Hc nn). rewrite Ht in Hc. inversion Hc as [c t' Hs E1 E2|]. by exists c. Qed.

Lemma source_targets_asked cluster ts all k k' : Namespace (Meta ts) = Namespace (Meta cluster) → selects_source cluster ts →
  caught_up k' → reconciled ts all k k' →
  (∀ n, n ∈ DT_Name <$> all → asked_for cluster (in_plan (Namespace (Meta cluster)) n)) ∧
  (∀ n t, targets_of k !! key_in ts n = Some t → listed (Namespace (Meta ts)) (Name (Meta ts)) t → n ∉ DT_Name <$> all →
    ¬ asked_for cluster (in_plan (Namespace (Meta cluster)) n)).
Proof.
  intros Hns (p & Hp & Hsk & Hsel) Hc Hr. split.
  - intros n Hn. specialize (Hr (key_in ts n)). cbn [NN_Namespace NN_Name key_in] in Hr. rewrite decide_True in Hr by done.
    destruct (last_named n all) as [d|] eqn:Ed; [|by apply last_named_None in Ed].
    destruct Hr as (t & Ht & _ & Hl). pose proof (kl_key _ _ _ Ht) as Hk.
    destruct (cached_target _ _ _ Hc Ht) as (c & Hst & [Hm _]). rewrite <-Hm in Hl.
    assert (key_of c = key_in ts n) as Hkc by (rewrite <-Hk; unfold key_of; by rewrite Hm).
    assert (Namespace (Meta c) = Namespace (Meta cluster) ∧ Name (Meta c) = n) as [Htn Htm]
      by (unfold key_of, key_in in Hkc; injection Hkc as ? ?; by rewrite <-Hns).
    exists p, c. split_and!; [done|done| |unfold nn, in_plan; by rewrite Htn, Htm].
    destruct Hp as [[_ Hpns] _]. split; [split; [|by rewrite Hpns]|].
    + by rewrite Hkc.
    + right. apply Hsel. rewrite Hl. apply lookup_insert_eq.
  - intros n t Ht Hli Hn Ha. apply asked_in_namespace in Ha as (t' & [Hst Hns'] & Hk).
    apply app_str_inj_l, app_str_inj_l in Hk. specialize (Hr (key_in ts n)). cbn [NN_Namespace NN_Name key_in] in Hr.
    rewrite decide_True, Ht, decide_True in Hr by done. apply last_named_None in Hn. rewrite Hn in Hr.
    unfold key_of in Hst. rewrite Hns', <-Hns, <-Hk in Hst. fold (key_in ts n) in Hst.
    pose proof (Hc (key_in ts n)) as Hcn. rewrite Hst, Hr in Hcn. inversion Hcn.
Qed.

(** A target is counted unassigned, or it is in the part of one pod, which runs it. *)
Definition given_out (w' : W) (cluster : Cluster) (plan : ApplyPlan) (sts : StatefulSet) (k : string) : Prop :=
  let r := division G1 cluster plan sts in
  k ∈ UnassignedTargets r ∨
  ∃ i, 0 ≤ i < desiredReplicas sts ∧ runs_on r i k ∧ runs_part ClusterDomain w' cluster plan i (runs_on r i).

(** A target is in no part of the division, and a pod with a part does not run it. *)
Definition dropped (w' : W) (cluster : Cluster) (plan : ApplyPlan) (sts : StatefulSet) (k : string) : Prop :=
  let r := division G1 cluster plan sts in
  k ∉ UnassignedTargets r ∧ (∀ i, ¬ runs_on r i k) ∧
  ∀ i, 0 ≤ i < desiredReplicas sts → is_Some (PerPodPlans r !! i) → ∃ S : string → Prop, ¬ S k ∧ runs_part ClusterDomain w' cluster plan i S.

(** The cluster ends with the discovered targets given out, and without those the source
    no longer lists in any part. *)
Definition follows_source (cluster : Cluster) (ts : TargetSource) (all : list DiscoveredTarget) (k : K) (plans' : Plans) (w' : W) : Prop :=
  ∃ plan (sts : StatefulSet), plans' !! cluster_key cluster = Some plan ∧
    view w' KStatefulSet !! in_ns cluster (stsName cluster) = Some sts ∧ desiredReplicas sts ≤ podsReady sts ∧
    (1 ≤ desiredReplicas sts → ∀ n, n ∈ DT_Name <$> all → given_out w' cluster plan sts (in_plan (Namespace (Meta cluster)) n)) ∧
    ∀ n t, targets_of k !! key_in ts n = Some t → listed (Namespace (Meta ts)) (Name (Meta ts)) t → n ∉ DT_Name <$> all →
      dropped w' cluster plan sts (in_plan (Namespace (Meta cluster)) n).

End SourceToPods.

(** ** Witness *)

Import PodDemo.

Module SourceToPodsDemo.

(** Two targets, discovered where another was listed for the source. *)
Definition discovered (name address : string) : DiscoveredTarget :=
  {| DT_Name := name; DT_Address := address; DT_Port := 0; DT_Labels := ∅; DT_TargetProfile := "p" |}.
Definition found : list DiscoveredTarget := [discovered "sw1" "10.0.0.1"; discovered "sw2" "10.0.0.2"].
Definition source : TargetSource := mem_source {| NN_Namespace := "ns"; NN_Name := "netbox" |}.
Definition before : MemWorld := {| mem_targets := {[ key_in source "old" := generateTargetResource (discovered "old" "10.0.0.9") source ]}; mem_status := [] |}.
Definition chunks := match SendSnapshot 3 found "id" 1 with Some (Ok batches) => batches | _ => [] end.
Definition run := runLoop source NewMessageProcessor before (Some <$> reverse chunks).
Definition held : list Target := (map_to_list (targets_of run.1.2)).*2.

(** The pipeline that selects the Targets of the source. *)
Definition pipeline : Pipeline := MkResource (Meta demo_pipeline_cr)
  {| PL_ClusterRef := "c1"; PL_Enabled := true; PL_TargetSelectors := [by_label source_label "netbox"]; PL_TargetRefs := [];
     PL_TunnelTargetPolicySelectors := []; PL_TunnelTargetPolicyRefs := []; PL_SubscriptionSelectors := []; PL_SubscriptionRefs := [];
     PL_Outputs := PL_Outputs demo_pipeline_spec; PL_Inputs := PL_Inputs demo_pipeline_spec; PL_Labels := ∅ |} (Status demo_pipeline_cr).

Example names_held : Name ∘ Meta <$> held = ["netbox-sw1"; "netbox-sw2"].
Proof. vm_compute. reflexivity. Qed.

#[export] Instance pipelines_cache : Reader PipelineSpec PipelineStatus := map_reader [pipeline].
#[export] Instance targets_cache : Reader TargetSpec TargetStatus := map_reader held.
#[export] Instance pipelines_stored : Stored PipelineSpec PipelineStatus := map_stored [pipeline].
#[export] Instance targets_stored : Stored TargetSpec TargetStatus := map_stored held.
#[export] Instance policies_stored : Stored TunnelTargetPolicySpec unit := map_stored [].
End SourceToPodsDemo.

#[local] Existing Instances LifeDemo.profiles LifeDemo.subscriptions LifeDemo.outputs LifeDemo.inputs LifeDemo.policies
  LifeDemo.services LifeDemo.secrets demo_processor_cache demo_yaml WorkloadDemo.yaml
  LifeDemo.listen LifeDemo.format LifeDemo.pipelines LifeDemo.pipelines_frame.

Import SourceToPodsDemo.

(** A cache filled with what a store holds holds the same. *)
Lemma cache_of_store (m : gmap NamespacedName Target) : (∀ nn t, m !! nn = Some t → key_of t = nn) →
  @stored _ _ (map_stored (map_to_list m).*2) = m.
Proof.
  intros Hk. cbn. rewrite <-list_fmap_compose.
  assert (((λ o : Target, (key_of o, o)) ∘ snd) <$> map_to_list m = map_to_list m) as ->; [|apply list_to_map_to_list].
  rewrite <-(list_fmap_id (map_to_list m)) at 2. apply list_fmap_ext. intros i [nn t] Hi%list_elem_of_lookup_2%elem_of_map_to_list.
  cbn. by rewrite (Hk nn t).
Qed.

Lemma cache_caught_up k' : run.1.2 = k' → caught_up k'.
Proof.
  intros <- nn. change (stored : gmap NamespacedName Target) with (@stored _ _ (map_stored (map_to_list (targets_of run.1.2)).*2)).
  rewrite cache_of_store by apply kl_key. by destruct (targets_of _ !! nn); constructor.
Qed.

Lemma source_workable : workable (Y := demo_yaml) "cluster.local" go_reference go_reference go_reversed ProgressDemo.cluster.
Proof. apply plainly_workable_ok. vm_compute. reflexivity. Qed.

Lemma source_selected : selects_source ProgressDemo.cluster source.
Proof.
  exists pipeline. split; [split; [split; vm_compute; reflexivity|split; reflexivity]|]. split.
  { intros [_ (policy & [[Hp _] _])]. discriminate. }
  intros labels Hl. exists (by_label source_label "netbox"). eexists. split; [left|]. split; [reflexivity|]. split; [reflexivity|].
  apply bool_decide_eq_true. by apply map_singleton_subseteq_l.
Qed.

